(* ===== verification/_CoqProject ===== *)
-Q . S2P
Prelude.v
Num.v
Config.v
Body.v
Force.v
Collision.v
Random.v
World.v
Invariant.v
Cost.v
RealNum.v
RealPhysics.v
NetForce.v
Kinematics.v
Geometry.v
Balance.v
Render.v
Page.v
Script.v
Markup.v
Style.v
Layout.v
FloatNum.v
FloatRound.v
FloatFacts.v
FloatNaN.v
FloatEdge.v
Scenarios.v
