(* ===== verification/Prelude.v ===== *)
(** * 2D-Uni-Sim: a verification development for the gravity simulator

    The program ([src/scipt.js], one HTML page with one script) is a
    real-time 2D N-body simulator.  Per animation frame it optionally
    spawns a body, computes pairwise gravitational forces, integrates
    velocities and positions (semi-implicit Euler), merges overlapping
    bodies, removes the bodies that left the viewport, paints the rest
    on a canvas and writes the settings into an overlay.  Keyboard and
    mouse listeners change the settings and insert bodies; a resize
    listener follows the window.

    ** How the program is modelled

    JavaScript numbers are kept abstract: every definition that computes
    is written over a type [N] with the operations of the class
    [Num.NumOps] (the arithmetic operators, the comparisons and the
    [Math.*] functions the script calls).  The same definitions are then
    read at two instances:
    - [RealNum.R_num], the real numbers, where the physical laws are
      proved ([lra]/[nra]/[field]).  This is an abstraction: no
      rounding, no overflow, no [NaN]; a quotient by zero is a real
      number there, and [Math.pow] of a base that is not positive is
      [0] (the script raises masses only, and JavaScript gives [NaN]
      for a negative base);
    - [FloatNum.F_host], IEEE-754 binary64 ([PrimFloat]) in a host.
      The operators, the comparisons, [Math.sqrt], [Math.floor],
      [Math.max] and [Math.min] are fixed to the bit; [Math.pow],
      [Math.hypot], [Math.cos] and [Math.sin], which the language
      leaves to the host to approximate, are a parameter.  In the host
      [FloatNum.series] (the instance [FloatNum.F_num]) the definitions
      run by [vm_compute].
    Theorems that use no law of arithmetic are stated for every [N], and
    therefore hold of the script as it runs on doubles; what is proved
    of doubles alone is proved for every host.

    Mutable state is passed explicitly.  A [for (i = lo; i < hi; i++)]
    loop whose body neither breaks nor changes [i] is [for_range lo hi]
    below, a left fold over the index range; its invariant rule is
    [for_range_ind].  The one loop with a [break] (the partner search of
    [checkCollisions]) is a structural [Fixpoint] over the index range.
    [Math.random()] is an oracle [nat -> N] (the k-th value the host
    returns) read through a counter that the state-passing monad
    [Random.Rnd] advances.  [Number.prototype.toFixed] is a parameter
    [toFixed0 : N -> string] of the overlay, instantiated at binary64
    by [FloatNum.f_toFixed0].

    The host is modelled as far as the script talks to it.  The 2D
    context of the canvas is a state ([Render.Ctx]: four attributes,
    the current path, the paints made so far) that every canvas call
    of the script transforms.  The page ([Page.Page]) holds the world
    of the script, the canvas, the overlay, the listeners registered
    and the number of animation callbacks pending; an input of the host
    ([Page.deliver]) runs the callbacks registered or pending for it.
    Seen from outside, the page is an interaction tree
    ([Script.browse]) that awaits an input, handles it, shows the
    screen after a frame, and awaits again, without end.

    The markup around the script is data: its tags and texts in the
    order of the file ([Markup.markup]), the style sheet as its rules
    ([Markup.styleSheet]).  The host turns the markup into a tree
    ([Markup.build], [Markup.document]), gives every element the values
    of its properties ([Style.computed]), places the children of the
    body ([Layout.layout]) and finds the element under the pointer
    ([Layout.elementFromPoint]); a press of the mouse becomes the input
    of the page that the listener on the canvas gets ([Layout.click]).
    These are the host's algorithms for the constructs this page uses,
    for every document and every style sheet made of them; the size of
    a box is a parameter of the layout.

    ** Files (in dependency order)

    - [Prelude] (this file): loop combinator, generic list lemmas, the
      tactics and the hint databases [sim] and [simrw] of the
      development.
    - [Num]: the numeric interface [NumOps], its notation scope
      [num_scope], decimal literals, sums over lists.
    - [Config]: the constants and the default settings of the
      configuration block (lines 28-38).
    - [Body]: class [Body] of the script (constructor, [calcRadius],
      [updatePosition], [applyForce], [isOffScreen]) and the
      well-formedness invariant [body_wf] (the cached radius is the one
      derived from the mass).
    - [Force]: [gravForce] and the loops of the frame that use it:
      [pairForce] (body of the inner loop), [forceRow] (inner loop),
      [computeForces] (the zeroed array and the outer loop), [pairs]
      (the index pairs the loop headers enumerate), [applyForces],
      [updatePositions]; [netForce] is the reference definition of the
      force on one body.
    - [Collision]: [checkCollisions] as written ([outerStep],
      [innerLoop], the record [CollState] of [merged], [skip] and
      [newBodies]), the list-recursive specification [resolve] and the
      refinement between them.
    - [Random]: the [Rnd] monad, [randomRange], [randomVelocity],
      [spawnStar].
    - [World]: the variables of the script's closure as the record
      [World]; [reset], [keydown], [mousedown], [resize]; the frame
      [loop] up to the drawing as [frameDt], [spawnPhase],
      [motionPhase], the collision pass and [cull]; the events as a
      step relation ([Event], [handle], [step], [reachable]) and the
      invariant of reachable worlds.
    - [Invariant]: the class [Kept] of the properties of bodies that
      hold of a new body and that forces, motion and mergers keep, and
      the proof that such a property holds in every reachable world.
    - [Cost]: the loops of [checkCollisions] with a counter of the
      collision tests ([collisionTests]), the calls of [gravForce] of
      the force loops ([gravCalls]), their sum for a frame
      ([frameWork]).  The script holds no counters; the model adds
      them beside the loops.
    - [RealNum]: the instance at the real numbers and its lemma layer.
    - [RealPhysics]: the laws over the reals.
    - [NetForce]: the force array equals the reference net forces, and
      does not depend on the order of the collection.
    - [Kinematics]: angular momentum and centre of mass under the
      motion of a frame and under a merger.
    - [Geometry]: the overlap test and the off-screen test as
      statements about discs, squares and the viewport.
    - [Balance]: the step of the specification ([specStep]); runs of
      frames ([frames]); what they spawn, merge and drop; the balance
      of mass and momentum along a run; the clock.
    - [Render]: [Body.draw] (lines 75-86), the drawing block of [loop]
      (lines 297-300) as [drawFrame], the overlay template (lines
      303-319) as [overlayText]; [picture], the picture the renderer
      owes; [lastFrame], what a canvas shows.
    - [Page]: the top level of the script ([main]) and its four
      callbacks whole ([resizePage], [keydownPage], [mousedownPage],
      [loopPage]); the host's dispatch ([fire], [runAnimationFrame],
      [deliver]); the reachable pages and their invariant [page_ok].
    - [Script]: the event loop of the host as an interaction tree
      ([hostLoop]), the page in it ([browse]), the simulation it is
      meant to be ([simulate]), the predicate [serves] of trees that
      go on for ever, and the relation [feeds] between a tree, the
      inputs it is given and what it shows.
    - [Markup]: the markup of the page (lines 1-22 and 326-328) as
      tokens, the three rules of the style sheet (lines 6-16), the tree
      builder [build] with its inverse [tokens], the document, the
      handles of its elements and [getElementById].
    - [Style]: selectors, the cascade and inheritance ([cascade],
      [computed]).
    - [Layout]: boxes, the flow of the children of the body,
      [getBoundingClientRect], hit testing ([elementFromPoint]); the
      constants the script takes from the document ([bindings]); a
      press of the mouse as an input of the page ([click]), and where
      the new body is.
    - [FloatNum]: the instance at binary64 with the host's
      approximated functions as a parameter, the host of the scenarios,
      and [toFixed(0)] on doubles.
    - [FloatRound]: rounding on the specification of binary64 that
      comes with the primitive floats: the sign of a rounded result,
      and when a rounded result is above zero.
    - [FloatFacts]: what holds of every double (order, [Math.max],
      [Math.min], signs under rounding, [Math.floor]), and the
      invariant of the settings, the masses and the radii on doubles.
    - [FloatNaN]: [NaN] through the operations of the script; the class
      [Mandated] of what the language fixes of [Math.hypot]; bodies
      whose coordinates are [NaN], and frames whose time stamp is.
    - [FloatEdge]: [gravForce] for two bodies at the same place, and
      [G] after it has overflowed.
    - [Scenarios]: the examples of the specification and other concrete
      runs, executed at binary64, and the witnesses of the theorems that
      are generic in the number type.

    ** What the theorems show

    - Refinement of the collision pass ([Collision]):
      [checkCollisions_refines] proves the index loops equal to
      [resolved]; [checkCollisions_partition] that the output is the
      survivors in input order followed by one body per merged pair, the
      input being a permutation of survivors and pair members (so no
      body is merged twice); [checkCollisions_survivors_apart],
      [checkCollisions_no_overlap], [checkCollisions_length].
    - Type invariant ([Body], [World]): every operation keeps [body_wf];
      [reachable_wf] lifts it to every reachable world, for every number
      type, so also for doubles.
    - Frame ([World]): [loop_on_screen] (no body off screen after a
      frame), [loop_length] (at most one body more), the behaviour of
      each key ([keydown_other]: a key without a case changes
      nothing), [reset_seeds_before_restoring].
    - Gravity over the reals ([RealPhysics]): [gravForce_antisym],
      [gravForce_bounded], [gravForce_capped],
      [gravForce_near_below_cap], [gravForce_attracts],
      [gravForce_inverse_square].  The distance floor cannot be seen
      there for two bodies at the same place, a quotient by zero being
      a number; it is proved on doubles ([FloatEdge]).
    - Conservation over the reals ([RealPhysics], [Kinematics]): a
      collision pass conserves mass, momentum and centre of mass and
      does not create kinetic energy; a merger loses exactly the
      kinetic energy and the angular momentum of the relative motion
      of its pair ([mergeBodies_energy],
      [mergeBodies_angular_momentum]); forces and motion conserve
      momentum ([motionPhase_momentum]) and angular momentum
      ([motionPhase_angular_momentum]) and move the centre of mass
      uniformly; [reachable_ok]: in every reachable world [G] and all
      masses are positive, the velocity strength is not negative and
      the spawn timer is below the spawn interval.
    - The frame against the specification ([Balance]):
      [loop_refines_step] composes the refinements above: over the
      reals the frame of the script computes [specStep], the step of
      the specification written with [netForce] and [resolved].
    - Balance along runs ([Balance]): [frames_mass_balance] and
      [frames_momentum_balance] account for mass and momentum along
      every run of frames, whatever the time steps and the settings:
      what the world holds at the end and what was dropped off screen
      is what it held at the start and what was spawned;
      [frames_count] does the same for the number of bodies, mergers
      included, for every number type; [frames_mergers_bounded]: with
      spawning off the mergers of a run, however long, are fewer than
      the bodies it began with; [frames_elapsed]: the time steps of a
      run add up to the time between its first and last time stamp.
      The balance is proved once, against the class [Conserved], whose
      instances are mass and the two coordinates of the momentum.
    - Force loops, for every number type ([Force]):
      [computeForces_once_per_pair] (the loops are a fold over the
      index pairs [i < j < n], each visited once).
    - Work of a frame, for every number type ([Cost]):
      [collisionTests_bounded] (a pass makes at most [n (n - 1) / 2]
      collision tests, that many when nothing overlaps, and the counter
      leaves the result of the loops as it is), [innerTests_find]
      (the counter of the inner loop counts the bodies still there, up
      to and including the first that overlaps), [frameWork_bounded]
      (after any events a frame makes at most [(m + 1) m] calls of
      [gravForce] and collision tests together, [m] being the bodies at
      the start and the number of the events: the loops of a frame end,
      and the bodies are at most one more per event,
      [World.run_length]).
    - Equivalence with the reference ([NetForce]):
      [computeForces_netForce] (the half-matrix loops with action and
      reaction compute the full sum for each body),
      [motionPhase_imap] (every body moves by the net force of the
      positions at the start of the frame) and [computeForces_order]
      (permuting the collection permutes the forces).
    - Geometry ([Geometry]): [overlap_discs_meet] (two bodies overlap
      exactly when their open discs meet), [isOffScreen_square] and
      [isOffScreen_hidden] (a body is off screen exactly when the
      square around its disc misses the viewport, and then nothing of
      it is visible), [isOffScreen_corner] (the converse fails near a
      corner).
    - Rendering ([Render]): [drawFrame_picture] and [drawFrame_visible]
      (the drawing code paints the background, then a disc and a label
      per body, whatever state the context was left in, and nothing of
      an earlier frame stays visible); [draw] and [drawFrame] respect
      the equivalence [same_canvas] of contexts that show the same,
      which [fill] alone does not; [readCount_overlayText] and
      [readSettings_overlayText] (read back, the overlay gives the
      number of bodies and the three switches of the world), for every
      world at binary64 ([Scenarios.overlay_reads_back]).
    - The script in its host ([Page]): [page_reachable_invariant]
      (three listeners, each once; exactly one animation callback
      pending; the canvas of the size of the viewport),
      [page_refines_world] (the world of a reachable page is a
      reachable world and every input acts as its event),
      [animation_frame_runs_once].
    - The page as a program ([Script]): [browse_simulates] (the page is
      the same interaction tree as the event loop of the simulation
      that shows the picture and the overlay of the world after every
      frame), [browse_shows] (fed a finite sequence of inputs it shows
      the screens of the worlds after each frame, in order, and
      nothing else), [browse_serves] (it goes on for ever, is never
      silent for ever, and every screen it shows is that of a
      reachable world with all bodies on screen).  That one turn ends
      ([turn_finite]) holds of every loop of this shape.
    - The document ([Markup]), lemmas about the host's side:
      [build_tokens] and [tokens_build] (the tree builder and the
      writer of markup are inverse to each other on well-formed
      documents, and markup that is not well nested is refused);
      [markup_document] and [document_tokens] (the markup of the page
      is well nested, [document] is its tree and the markup is that of
      the tree); [treeOrder_NoDup] (every
      node has a place of its own); [getElementById_finds] (with
      unique ids the lookup returns the element that carries the id).
    - The pointer ([Layout]): [click_inside] and
      [click_spawns_on_canvas] (for every document, style sheet and
      size of boxes, a press that reaches the listener lies inside the
      rectangle of the canvas, and the body it adds lies on the canvas
      and is on screen); [click_document] and
      [press_spawns_at_pointer] (on this page every press inside the
      window reaches the listener, through the overlay, and the body
      is at the pointer); [bindings_fail] (the documents on which the
      script fails to start).
    - Invariants of the bodies ([Invariant]): [reachable_kept] lifts a
      property of bodies that is [Kept] to every reachable world, for
      every number type; its instances are the cached radius, masses
      of at least [MASS_MIN] over the reals
      ([RealPhysics.reachable_mass_at_least]) and, on doubles, masses
      above zero and radii not below five.
    - Every double, every host ([FloatRound], [FloatFacts]):
      [reachable_positive] (in every world reachable on doubles [G]
      and the masses are above zero, the strength of the random
      velocity is a number at or above zero and no radius is below
      five, overflow and underflow included: holding a key down makes
      [G] neither zero nor [NaN]; a radius is [NaN] where the
      [Math.pow] of the host is), on [f_max_lower], [f_min_upper],
      the sign lemmas [f_add_not_negative], [f_mul_not_negative],
      [f_div_not_negative] and the lemmas [f_add_positive],
      [f_mul_positive], [f_div_positive] (a sum does not underflow,
      nor does a product with or a quotient by a double from one up to
      two); [f_floor_Z_floor] ([Math.floor] computes the integer part
      towards minus infinity).
    - [NaN] ([FloatNaN]): every operation of the script hands a [NaN]
      on and every comparison with it is false; [lost_bodies_stay] (a
      body whose coordinates are [NaN] is never culled and never
      merged: along every run of events without a reset the bodies
      without a place do not get fewer), [frame_nan] (a frame with a
      time stamp that is [NaN] leaves every body so, spawns, merges
      and drops nothing, and stops the spawn timer for good).
    - The ends of the doubles ([FloatEdge]), for every host:
      [gravForce_coincident] (two bodies at the same finite place
      exert a force whose components are zero, not [NaN]: the
      distance floor keeps [gravForce] from dividing zero by zero, and
      the cap keeps the force finite where it is multiplied by zero);
      [G_overflow_sticks] (7400 presses of ArrowUp after the start
      make [G] infinite, and no event but a reset brings it back), on
      [f_sub_diag], [f_min_finite], [f_mul_zero] and [f_div_zero].
    - Executed examples ([Scenarios]): the numbers of the specification's
      examples; a session of the page with its overlay text; presses of
      the mouse under the style sheet of the page and under sheets that
      lack one of its declarations ([click_examples]); and runs
      that show where doubles or the order of the phases matter
      ([G_roundtrip_double], [G_overflow_reached], [force_order_double],
      [offscreen_body_returns]).

    The laws over the reals assume what they need as hypotheses
    (positive masses, non-negative random numbers); each has a witness at
    a concrete input.

    ** Bounds and fuel

    The loops of the script range over indices below [bodies.length],
    so they are folds over [seq]; the specification [resolve] recurses
    on a list that gets shorter and is defined by well-founded
    recursion on its length.  The page never ends: its tree is built by
    the library's [ITree.iter] and its properties are proved by
    parametrised coinduction, with no bound on the number of inputs.
    In the host of the scenarios the functions [Math.pow], [Math.cos]
    and [Math.sin] are computed by series with a fixed number of terms
    (see [FloatNum]); no theorem depends on their last bits, and the
    theorems on doubles are stated for every host.  [FloatNum.f_shortest] tries
    1 to 17 significant digits, which is enough for every double, and
    [f_strip_zeros] removes at most 400 trailing zeros, more than the
    309 digits of the largest double.

    ** Not modelled

    Of the host's style and layout only what decides the target of a
    press and the rectangle of the canvas is modelled.  The size of a
    box is not computed (it depends on fonts and on the window); the
    effect of [white-space], [font-size], [font-family], [color],
    [background] and [overflow] on what the screen shows is the
    host's, and those declarations are data that no definition reads.
    White space between tags is not tokenised, and the tree builder
    refuses markup that is not well nested, where the host would
    repair it; the markup of the page needs no repair.  The script
    assigns the width and the height of the canvas; in the model they
    are fields of the page and the size the layout is given, not
    attributes written back into the tree.  The label of a body is
    kept as the number [Math.floor] returns, not as the string the
    canvas draws.
    [String.prototype.trim] is modelled for ASCII white space, which is
    all the template of the overlay has at its ends.  Over an abstract
    number type [toFixed] is a parameter; at binary64 it is exact.
    Strings are sequences of bytes, in UTF-8 where the script has
    letters outside ASCII; no definition counts or splits characters.
    Objects are modelled by value: the script never holds two
    references to one body across a mutation, so aliasing is not
    observable.  [NaN] and infinities exist only at the binary64
    instance; the laws proved at the reals say nothing of overflow or
    rounding, and of doubles only what [FloatRound], [FloatFacts],
    [FloatNaN] and [FloatEdge] prove is proved: signs, what stays
    above zero, zeros and infinities, the order, [Math.floor],
    [Math.max], [Math.min] and the way of [NaN], not the size of a
    rounding error.  [WIDTH] and [HEIGHT] are declared without a
    value; until the first [resize()], two statements later, the
    model holds [0] for [undefined], and nothing reads them before.
    [document.getElementById], [getContext],
    [getBoundingClientRect], the dispatch of a press and
    [Math.random] are the host's: the model has them from their
    specifications, not from lines of the script, which only calls
    them.
    The values of [Math.pow], [Math.hypot], [Math.cos] and [Math.sin]
    are the host's: the model fixes them in one host only, for the
    scenarios.  Time is not modelled: [Cost] counts calls and tests,
    not seconds. *)

From stdpp Require Export prelude.
From stdpp Require Export gmap.

(** ** Hints and tactics *)

Create HintDb sim discriminated.
Create Rewrite HintDb simrw.

(** [case_if]: case analysis on the condition of the first [if] on a
    boolean in the goal, remembering its value. *)
Ltac case_if :=
  match goal with
  | |- context [if ?b then _ else _] =>
      let E := fresh "E" in destruct b eqn:E
  end.

(** ** The [for] loop *)

Section ForRange.
Context {St : Type}.

(** [for (let i = lo; i < hi; i++) s = body(s, i)]. *)
Definition for_range (lo hi : nat) (body : St → nat → St) (s : St) : St :=
  foldl body s (seq lo (hi - lo)).

Lemma for_range_empty lo hi body s : hi ≤ lo → for_range lo hi body s = s.
Proof. intros. unfold for_range. by replace (hi - lo) with 0 by lia. Qed.

Lemma for_range_first lo hi body s :
  lo < hi → for_range lo hi body s = for_range (S lo) hi body (body s lo).
Proof.
  intros. unfold for_range.
  by replace (hi - lo) with (S (hi - S lo)) by lia.
Qed.

Lemma for_range_last lo hi body s :
  lo ≤ hi → for_range lo (S hi) body s = body (for_range lo hi body s) hi.
Proof.
  intros. unfold for_range.
  replace (S hi - lo) with (S (hi - lo)) by lia.
  rewrite seq_S, foldl_snoc. do 2 f_equal. lia.
Qed.

(** Loop invariant rule: [P i s] holds of the state before iteration [i]. *)
Lemma for_range_ind (P : nat → St → Prop) lo hi body s :
  lo ≤ hi →
  P lo s →
  (∀ i t, lo ≤ i < hi → P i t → P (S i) (body t i)) →
  P hi (for_range lo hi body s).
Proof.
  intros Hle H0 Hstep. induction Hle as [|hi Hle IH].
  - by rewrite for_range_empty.
  - rewrite for_range_last by done. apply Hstep; [lia|].
    apply IH. intros i t ?. apply Hstep. lia.
Qed.

(** Two loops with bodies that agree on the range compute the same state. *)
Lemma for_range_ext lo hi body1 body2 s :
  (∀ i t, lo ≤ i < hi → body1 t i = body2 t i) →
  for_range lo hi body1 s = for_range lo hi body2 s.
Proof.
  intros Hext. destruct (decide (lo ≤ hi)) as [Hle|]; [|by rewrite !for_range_empty by lia].
  induction Hle as [|hi Hle IH]; [by rewrite !for_range_empty|].
  rewrite !for_range_last by done. rewrite IH by (intros; apply Hext; lia).
  apply Hext. lia.
Qed.

End ForRange.

(** ** Lists *)

Section Lists.
Context {A : Type}.
Implicit Types l k : list A.

Lemma lookup_seq_range (lo len i j : nat) :
  seq lo len !! i = Some j → lo ≤ j < lo + len.
Proof. intros [-> ?]%lookup_seq. lia. Qed.

(** An index range split at one of its indices. *)
Lemma seq_split_at (k m : nat) :
  k < m → seq 0 m = seq 0 k ++ k :: seq (S k) (m - S k).
Proof.
  intros Hk. replace m with (k + S (m - S k)) at 1 by lia.
  by rewrite seq_app, <- cons_seq.
Qed.

Lemma alter_length_preserved (f : A → A) i l n :
  length l = n → length (alter f i l) = n.
Proof. by rewrite length_alter. Qed.

(** Removing the element at an index, as [Array.prototype.splice(i, 1)]. *)
Definition remove_at (i : nat) l : list A := take i l ++ drop (S i) l.

Lemma remove_at_length i l x :
  l !! i = Some x → S (length (remove_at i l)) = length l.
Proof.
  intros Hi. apply lookup_lt_Some in Hi. unfold remove_at.
  rewrite length_app, length_take, length_drop. lia.
Qed.

Lemma remove_at_perm i l x : l !! i = Some x → l ≡ₚ x :: remove_at i l.
Proof.
  intros Hi. unfold remove_at.
  rewrite <- (take_drop_middle l i x Hi) at 1.
  by rewrite Permutation_middle.
Qed.

Lemma Forall_sublist (P : A → Prop) l k :
  l `sublist_of` k → Forall P k → Forall P l.
Proof.
  intros Hs. rewrite !Forall_forall. intros HP a Ha.
  by eapply HP, elem_of_sublist.
Qed.

(** Elements of a list with the same image are the same element, where
    the images of the list have no duplicates. *)
Lemma NoDup_fmap_eq {B} (f : A → B) l a b :
  NoDup (f <$> l) → a ∈ l → b ∈ l → f a = f b → a = b.
Proof.
  intros Hnd Ha Hb Hf. induction l as [|c l IH]; [by apply elem_of_nil in Ha|].
  rewrite fmap_cons in Hnd. apply NoDup_cons in Hnd as [Hc Hnd].
  apply elem_of_cons in Ha as [->|Ha], Hb as [->|Hb]; [done| | |by apply IH].
  - exfalso. apply Hc. rewrite Hf. by apply list_elem_of_fmap_2.
  - exfalso. apply Hc. rewrite <- Hf. by apply list_elem_of_fmap_2.
Qed.

(** A relation between two lists, position by position, that carries
    [P] to [Q]: at least as many elements of the second satisfy [Q] as
    of the first satisfy [P]. *)
Lemma Forall2_filter_length {B} (P : A → Prop) (Q : B → Prop)
    `{!∀ a, Decision (P a)} `{!∀ b, Decision (Q b)} (R : A → B → Prop)
    (l : list A) (k : list B) :
  (∀ a b, R a b → P a → Q b) → Forall2 R l k →
  length (filter P l) ≤ length (filter Q k).
Proof.
  intros HR. induction 1 as [|a b l' k' Hab _ IH]; [done|].
  rewrite !filter_cons. destruct (decide (P a)) as [Ha|].
  - rewrite decide_True by eauto. simpl. lia.
  - destruct (decide (Q b)); simpl; lia.
Qed.

End Lists.

#[export] Hint Rewrite @length_alter @length_app @length_fmap : simrw.
#[export] Hint Resolve alter_length_preserved : sim.
