(* ===== verification/Num.v ===== *)
(** * Num: the numbers of the script

    A JavaScript number is an IEEE-754 double; the specification of the
    simulator speaks of reals.  The model is written once, over a type
    [N] with the operations the script uses, and read at both.  The class
    holds operations only: no law is assumed here, so what is proved for
    every [N] holds of the script on doubles, [NaN] included. *)

From S2P Require Import Prelude.

(** The operators and [Math] functions that occur in [src/scipt.js].
    [a > b] is [nltb b a] and [a >= b] is [nleb b a], as ECMAScript
    defines them; [falsy a] is the test [!a]. *)
Class NumOps (N : Type) : Type := {
  of_Z : Z → N;
  nadd : N → N → N;
  nsub : N → N → N;
  nmul : N → N → N;
  ndiv : N → N → N;
  nltb : N → N → bool;
  nleb : N → N → bool;
  falsy : N → bool;
  Math_sqrt : N → N;
  Math_floor : N → N;
  Math_cos : N → N;
  Math_sin : N → N;
  Math_pow : N → N → N;
  Math_hypot : N → N → N;
  Math_max : N → N → N;
  Math_min : N → N → N;
  Math_PI : N;
}.

Declare Scope num_scope.
Delimit Scope num_scope with num.
Notation "a + b" := (nadd a b) : num_scope.
Notation "a - b" := (nsub a b) : num_scope.
Notation "a * b" := (nmul a b) : num_scope.
Notation "a / b" := (ndiv a b) : num_scope.
Notation "a <? b" := (nltb a b) : num_scope.
Notation "a >? b" := (nltb b a) : num_scope.
Notation "a <=? b" := (nleb a b) : num_scope.
Notation "a >=? b" := (nleb b a) : num_scope.

Section Literals.
Context {N : Type} `{!NumOps N}.
Local Open Scope num_scope.

(** An integer literal of the script. *)
Definition int (z : Z) : N := of_Z z.

(** A decimal literal [n/d] with [d] a power of ten ([0.5] is
    [decimal 5 10]).  On doubles the quotient of two exactly
    representable integers is correctly rounded, so it is the double the
    literal denotes. *)
Definition decimal (n d : Z) : N := of_Z n / of_Z d.

(** Sum of [f] over a list, added from the left starting at [0] (the
    order in which an accumulating loop adds). *)
Definition sum_with {A} (f : A → N) (l : list A) : N :=
  foldl (λ acc a, acc + f a) (int 0) l.

Lemma sum_with_nil {A} (f : A → N) : sum_with f [] = int 0.
Proof. done. Qed.

Lemma sum_with_snoc {A} (f : A → N) l a :
  sum_with f (l ++ [a]) = sum_with f l + f a.
Proof. unfold sum_with. by rewrite foldl_snoc. Qed.

End Literals.

#[export] Hint Rewrite @sum_with_nil @sum_with_snoc : simrw.
