(* ===== verification/Config.v ===== *)
(** * Config: the constants of the script's configuration block

    The [const] declarations and the initial values of the [let]
    settings ([src/scipt.js], "Konfiguration").  The settings themselves
    are fields of [World.World]; here are the values [reset] restores. *)

From S2P Require Import Prelude Num.

Section Config.
Context {N : Type} `{!NumOps N}.

Definition START_BODIES_COUNT : nat := 1.
Definition MASS_MIN : N := int 1.
Definition MASS_MAX : N := int 2.
Definition SPAWN_INTERVAL : N := decimal 2 1000.
Definition MAX_FORCE : N := int 10000.

(** Initial values of the mutable settings. *)
Definition G_default : N := int 2000.
Definition COLLISION_ENABLED_default : bool := true.
Definition SPAWN_ENABLED_default : bool := true.
Definition RANDOM_VELOCITY_ENABLED_default : bool := true.
Definition RANDOM_VELOCITY_STRENGTH_default : N := int 3000.

End Config.
