(* ===== verification/Body.v ===== *)
(** * Body: the class [Body] of the script

    A body is a point mass with a position, a velocity and a radius.  The
    radius is a field of its own, set once by the constructor from the
    mass; [body_wf] says that it is still the radius of the mass, and the
    lemmas below that every method keeps it so. *)

From S2P Require Import Prelude Num.

Section Body.
Context {N : Type} `{!NumOps N}.
Local Open Scope num_scope.

(** The fields the constructor sets, under the script's names. *)
Record Body : Type := mkBody {
  x : N;
  y : N;
  masse : N;
  vx : N;
  vy : N;
  radius : N;
}.

(** [calcRadius()]: [Math.max(5, Math.floor(Math.pow(this.masse, 0.8)))],
    as a function of the mass it reads. *)
Definition calcRadius (m : N) : N :=
  Math_max (int 5) (Math_floor (Math_pow m (decimal 8 10))).

(** [new Body(x, y, masse, vx, vy)]. *)
Definition newBody (x0 y0 m vx0 vy0 : N) : Body :=
  {| x := x0; y := y0; masse := m; vx := vx0; vy := vy0;
     radius := calcRadius m |}.

(** [updatePosition(dt)]. *)
Definition updatePosition (b : Body) (dt : N) : Body :=
  {| x := x b + vx b * dt;
     y := y b + vy b * dt;
     masse := masse b; vx := vx b; vy := vy b; radius := radius b |}.

(** [applyForce(fx, fy, dt)]. *)
Definition applyForce (b : Body) (fx fy dt : N) : Body :=
  let ax := fx / masse b in
  let ay := fy / masse b in
  {| x := x b; y := y b; masse := masse b;
     vx := vx b + ax * dt;
     vy := vy b + ay * dt;
     radius := radius b |}.

(** [isOffScreen(width, height)]. *)
Definition isOffScreen (b : Body) (width height : N) : bool :=
  (x b + radius b <? int 0) ||
  (x b - radius b >? width) ||
  (y b + radius b <? int 0) ||
  (y b - radius b >? height).

(** The cached radius is the radius of the mass. *)
Definition body_wf (b : Body) : Prop := radius b = calcRadius (masse b).

Lemma newBody_wf x0 y0 m vx0 vy0 : body_wf (newBody x0 y0 m vx0 vy0).
Proof. done. Qed.

Lemma updatePosition_wf b dt : body_wf b → body_wf (updatePosition b dt).
Proof. done. Qed.

Lemma applyForce_wf b fx fy dt : body_wf b → body_wf (applyForce b fx fy dt).
Proof. done. Qed.

(** A well-formed body is the one its constructor builds from its other
    fields. *)
Lemma body_wf_newBody b :
  body_wf b ↔ b = newBody (x b) (y b) (masse b) (vx b) (vy b).
Proof.
  unfold body_wf, newBody. destruct b as [? ? ? ? ? r]; simpl.
  split; [by intros ->|by intros [= ->]].
Qed.

(** What the two motion methods leave alone. *)
Lemma updatePosition_masse b dt : masse (updatePosition b dt) = masse b.
Proof. done. Qed.

Lemma updatePosition_velocity b dt :
  vx (updatePosition b dt) = vx b ∧ vy (updatePosition b dt) = vy b.
Proof. done. Qed.

Lemma applyForce_masse b fx fy dt : masse (applyForce b fx fy dt) = masse b.
Proof. done. Qed.

Lemma applyForce_position b fx fy dt :
  x (applyForce b fx fy dt) = x b ∧ y (applyForce b fx fy dt) = y b.
Proof. done. Qed.

(** [isOffScreen] is false exactly when none of the four tests fires. *)
Lemma isOffScreen_false b w h :
  isOffScreen b w h = false ↔
  (x b + radius b <? int 0) = false ∧ (x b - radius b >? w) = false ∧
  (y b + radius b <? int 0) = false ∧ (y b - radius b >? h) = false.
Proof. unfold isOffScreen. rewrite !orb_false_iff. tauto. Qed.

End Body.

Arguments Body N : clear implicits.
#[export] Hint Resolve newBody_wf updatePosition_wf applyForce_wf : sim.
