(* ===== verification/Force.v ===== *)
(** * Force: pairwise gravity and the motion passes of a frame

    [gravForce] is the script's function; [computeForces] is the block
    "Kraftberechnung" of [loop] (the array of force pairs and the two
    nested loops that fill it); [applyForces] and [updatePositions] are
    the two passes of the block "Bewegung". *)

From S2P Require Import Prelude Num Config Body.

Section Force.
Context {N : Type} `{!NumOps N}.
Local Open Scope num_scope.

(** [gravForce(b1, b2, G)]: the force on [b1] towards [b2]. *)
Definition gravForce (b1 b2 : Body N) (G : N) : N * N :=
  let dx := x b2 - x b1 in
  let dy := y b2 - y b1 in
  let distSq := dx * dx + dy * dy in
  let dist := Math_sqrt distSq in
  let '(dist, distSq) :=
    if dist <? decimal 5 10
    then (decimal 5 10, decimal 5 10 * decimal 5 10)
    else (dist, distSq) in
  let force := (G * masse b1 * masse b2) / distSq in
  let force := Math_min force MAX_FORCE in
  let fx := (force * dx) / dist in
  let fy := (force * dy) / dist in
  (fx, fy).

(** The body of the inner loop: [forces[i] += f; forces[j] -= f] for the
    force [f] of the pair.  Reading past the end of [bodies] does not
    occur (see [computeForces]); the model leaves the array alone there. *)
Definition pairForce (bodies : list (Body N)) (G : N)
    (forces : list (N * N)) (i j : nat) : list (N * N) :=
  match bodies !! i, bodies !! j with
  | Some bi, Some bj =>
      let '(fx, fy) := gravForce bi bj G in
      let forces := alter (λ f, (f.1 + fx, f.2 + fy)) i forces in
      alter (λ f, (f.1 - fx, f.2 - fy)) j forces
  | _, _ => forces
  end.

(** One iteration of the outer loop: the inner loop over [j > i]. *)
Definition forceRow (bodies : list (Body N)) (G : N)
    (forces : list (N * N)) (i : nat) : list (N * N) :=
  for_range (S i) (length bodies)
    (λ forces j, pairForce bodies G forces i j) forces.

(** [forces = bodies.map(() => [0, 0])] and the nested loops. *)
Definition computeForces (bodies : list (Body N)) (G : N) : list (N * N) :=
  for_range 0 (length bodies) (forceRow bodies G)
    ((λ _, (int 0, int 0)) <$> bodies).

(** The index pairs the two [for] headers of the force computation
    enumerate, in the order they are visited:
    [i = 0 .. n-1], [j = i+1 .. n-1]. *)
Definition pairs (n : nat) : list (nat * nat) :=
  i ← seq 0 n; (λ j, (i, j)) <$> seq (S i) (n - S i).

(** [for (i...) bodies[i].applyForce(forces[i][0], forces[i][1], dt)]. *)
Definition applyForces (bodies : list (Body N)) (forces : list (N * N))
    (dt : N) : list (Body N) :=
  for_range 0 (length bodies)
    (λ bodies i,
       match forces !! i with
       | Some f => alter (λ b, applyForce b f.1 f.2 dt) i bodies
       | None => bodies
       end) bodies.

(** [bodies.forEach(b => b.updatePosition(dt))]. *)
Definition updatePositions (bodies : list (Body N)) (dt : N) : list (Body N) :=
  (λ b, updatePosition b dt) <$> bodies.

(** The reference for [computeForces]: the force on body [k] is the
    sum, over the other bodies, of the force that pulls [k] towards each
    of them.  It calls [gravForce] for every ordered pair; the script's
    loops call it once per unordered pair and use the opposite force for
    the second body. *)
Definition netForce (bodies : list (Body N)) (G : N) (k : nat) : N * N :=
  match bodies !! k with
  | None => (int 0, int 0)
  | Some bk =>
      for_range 0 (length bodies)
        (λ acc j,
           if decide (j = k) then acc
           else match bodies !! j with
                | Some bj =>
                    let f := gravForce bk bj G in (acc.1 + f.1, acc.2 + f.2)
                | None => acc
                end)
        (int 0, int 0)
  end.

(** ** The two branches of [gravForce] *)

Lemma gravForce_far b1 b2 G :
  let dx := x b2 - x b1 in
  let dy := y b2 - y b1 in
  let distSq := dx * dx + dy * dy in
  (Math_sqrt distSq <? decimal 5 10) = false →
  gravForce b1 b2 G =
    let force := Math_min ((G * masse b1 * masse b2) / distSq) MAX_FORCE in
    ((force * dx) / Math_sqrt distSq, (force * dy) / Math_sqrt distSq).
Proof. intros dx dy distSq Hfar. unfold gravForce. fold dx dy distSq. by rewrite Hfar. Qed.

Lemma gravForce_near b1 b2 G :
  let dx := x b2 - x b1 in
  let dy := y b2 - y b1 in
  (Math_sqrt (dx * dx + dy * dy) <? decimal 5 10) = true →
  gravForce b1 b2 G =
    let force :=
      Math_min ((G * masse b1 * masse b2) / (decimal 5 10 * decimal 5 10))
               MAX_FORCE in
    ((force * dx) / decimal 5 10, (force * dy) / decimal 5 10).
Proof. intros dx dy Hnear. unfold gravForce. fold dx dy. by rewrite Hnear. Qed.

(** ** Shape of the force array *)

Lemma pairForce_length bodies G forces i j :
  length (pairForce bodies G forces i j) = length forces.
Proof.
  unfold pairForce. repeat case_match; by rewrite ?length_alter.
Qed.

Lemma forceRow_length bodies G forces i :
  length (forceRow bodies G forces i) = length forces.
Proof.
  unfold forceRow.
  destruct (decide (S i ≤ length bodies)); [|by rewrite for_range_empty by lia].
  apply (for_range_ind (λ _ fs, length fs = length forces)); [done..|].
  intros j fs _ <-. apply pairForce_length.
Qed.

Lemma computeForces_length bodies G :
  length (computeForces bodies G) = length bodies.
Proof.
  unfold computeForces.
  apply (for_range_ind (λ _ fs, length fs = length bodies)); [lia|by rewrite length_fmap|].
  intros i fs _ <-. apply forceRow_length.
Qed.

(** A pair leaves the entries of all other bodies alone. *)
Lemma pairForce_lookup_other bodies G forces i j k :
  k ≠ i → k ≠ j → pairForce bodies G forces i j !! k = forces !! k.
Proof.
  intros. unfold pairForce. repeat case_match; [|done..].
  by rewrite !list_lookup_alter_ne.
Qed.

(** ** The motion passes *)

(** The in-place loop of [applyForces] is the pointwise application of
    each body's force. *)
Lemma applyForces_lookup bodies forces dt i :
  length forces = length bodies →
  applyForces bodies forces dt !! i =
    b ← bodies !! i; f ← forces !! i; Some (applyForce b f.1 f.2 dt).
Proof.
  intros Hlen. unfold applyForces.
  set (body := λ (bs : list (Body N)) (k : nat), _).
  enough (∀ n, n ≤ length bodies →
            length (for_range 0 n body bodies) = length bodies ∧
            for_range 0 n body bodies !! i =
              if decide (i < n)
              then b ← bodies !! i; f ← forces !! i; Some (applyForce b f.1 f.2 dt)
              else bodies !! i) as Hinv.
  { destruct (Hinv (length bodies)) as [_ ->]; [done|].
    case_decide; [done|]. by rewrite lookup_ge_None_2 by lia. }
  intros n Hn. induction n as [|n IH]; [by rewrite for_range_empty|].
  rewrite for_range_last by lia. destruct IH as [IHlen IHi]; [lia|].
  destruct (lookup_lt_is_Some_2 forces n) as [f Hf]; [lia|].
  subst body; cbv beta. rewrite Hf. split; [by rewrite length_alter|].
  destruct (decide (i = n)) as [->|Hne].
  - rewrite list_lookup_alter_eq, IHi, decide_False, decide_True, Hf by lia.
    by destruct (bodies !! n).
  - rewrite list_lookup_alter_ne, IHi by done. by repeat case_decide; try lia.
Qed.

Lemma applyForces_zip bodies forces dt :
  length forces = length bodies →
  applyForces bodies forces dt =
    zip_with (λ b f, applyForce b f.1 f.2 dt) bodies forces.
Proof.
  intros Hlen. apply list_eq. intros i.
  rewrite applyForces_lookup, lookup_zip_with by done.
  by destruct (bodies !! i), (forces !! i).
Qed.

Lemma applyForces_length bodies forces dt :
  length forces = length bodies →
  length (applyForces bodies forces dt) = length bodies.
Proof. intros. rewrite applyForces_zip, length_zip_with by done. lia. Qed.

Lemma applyForces_wf bodies forces dt :
  length forces = length bodies →
  Forall body_wf bodies → Forall body_wf (applyForces bodies forces dt).
Proof.
  intros Hlen Hwf. rewrite applyForces_zip by done.
  revert forces Hlen. induction Hwf as [|b bs Hb _ IH]; intros [|f fs] ?; simplify_eq/=;
    constructor; auto with sim.
Qed.

Lemma updatePositions_wf bodies dt :
  Forall body_wf bodies → Forall body_wf (updatePositions bodies dt).
Proof.
  unfold updatePositions. rewrite Forall_fmap. intros Hwf.
  eapply Forall_impl; [done|]. intros b; simpl. auto with sim.
Qed.

Lemma updatePositions_length bodies dt :
  length (updatePositions bodies dt) = length bodies.
Proof. apply length_fmap. Qed.

(** With fewer than two bodies there is no pair: every force is zero. *)
Lemma computeForces_few bodies G :
  (length bodies ≤ 1)%nat →
  computeForces bodies G = (λ _, (int 0, int 0)) <$> bodies.
Proof. intros. destruct bodies as [|b [|??]]; simpl in *; [done..|lia]. Qed.

(** ** The pairs the force loops visit *)

Lemma pairs_elem_of n i j : (i, j) ∈ pairs n ↔ (i < j < n)%nat.
Proof.
  unfold pairs. rewrite list_elem_of_bind. split.
  - intros (i' & Hj & Hi). apply list_elem_of_fmap in Hj as (j' & [= -> ->] & Hj).
    apply elem_of_seq in Hj, Hi. lia.
  - intros Hij. exists i. rewrite list_elem_of_fmap, elem_of_seq.
    split; [|lia]. exists j. rewrite elem_of_seq. split; [done|lia].
Qed.

Lemma pairs_NoDup n : NoDup (pairs n).
Proof.
  apply NoDup_bind; [| |apply NoDup_seq].
  - intros i1 i2 [i j] _ _ (? & [= -> ->] & _)%list_elem_of_fmap
      (? & [= -> ->] & _)%list_elem_of_fmap. done.
  - intros i _. apply NoDup_fmap_2; [|apply NoDup_seq]. by intros ?? [= ->].
Qed.

(** The rows [n - k .. n - 1] hold [k (k - 1) / 2] pairs. *)
Lemma pairs_rows_length n k :
  (k ≤ n)%nat →
  (2 * length (seq (n - k) k ≫= λ i, (λ j, (i, j)) <$> seq (S i) (n - S i))
   = k * (k - 1))%nat.
Proof.
  induction k as [|k IH]; intros Hk; [done|].
  rewrite <- cons_seq. csimpl.
  rewrite length_app, length_fmap, length_seq.
  replace (S (n - S k)) with (n - k)%nat by lia.
  specialize (IH ltac:(lia)). nia.
Qed.

Lemma pairs_length n : (2 * length (pairs n) = n * (n - 1))%nat.
Proof.
  pose proof (pairs_rows_length n n) as H. rewrite Nat.sub_diag in H. by apply H.
Qed.

(** The nested loops as one fold over the pairs. *)
Lemma computeForces_fold bodies G :
  computeForces bodies G =
    foldl (λ fs p, pairForce bodies G fs p.1 p.2)
      ((λ _, (int 0, int 0)) <$> bodies) (pairs (length bodies)).
Proof.
  unfold computeForces, for_range, pairs. rewrite Nat.sub_0_r.
  generalize ((λ _ : Body N, (int 0, int 0)) <$> bodies).
  generalize (seq 0 (length bodies)).
  intros rows. induction rows as [|i rows IH]; intros fs; csimpl; [done|].
  rewrite foldl_app, IH. f_equal. unfold forceRow, for_range.
  generalize (seq (S i) (length bodies - S i)). clear.
  intros js. revert fs. induction js as [|j js IH]; intros fs; csimpl; [done|].
  apply IH.
Qed.

(** The force computation calls [gravForce] once for every unordered
    pair of bodies and for nothing else: the loops are a fold of the
    pair update over the list of the index pairs [(i, j)] with
    [i < j < n], which has no duplicates and [n (n - 1) / 2] elements. *)
Theorem computeForces_once_per_pair bodies G :
  let n := length bodies in
  computeForces bodies G =
    foldl (λ fs p, pairForce bodies G fs p.1 p.2)
      ((λ _, (int 0, int 0)) <$> bodies) (pairs n) ∧
  NoDup (pairs n) ∧
  (∀ i j, (i, j) ∈ pairs n ↔ (i < j < n)%nat) ∧
  (2 * length (pairs n) = n * (n - 1))%nat.
Proof.
  split_and!;
    [apply computeForces_fold|apply pairs_NoDup|apply pairs_elem_of|apply pairs_length].
Qed.

End Force.

#[export] Hint Rewrite @pairForce_length @forceRow_length @computeForces_length
  @updatePositions_length : simrw.
#[export] Hint Resolve applyForces_wf updatePositions_wf : sim.
