(* ===== verification/Collision.v ===== *)
(** * Collision: merging overlapping bodies

    [checkCollisions] is modelled as the script writes it: an outer loop
    over the indices, a set [skip] of consumed indices, an inner loop
    that looks for the first later partner and breaks, and two output
    arrays.  [resolve] is the specification: a recursion on the list of
    bodies that are still there, with no indices and no marker set.  The
    refinement lemma [checkCollisions_resolve] relates the two; the
    properties of a collision pass are then proved on [resolve]. *)

From Equations Require Import Equations.
From Equations.Prop Require Import Logic.
From S2P Require Import Prelude Num Config Body.

#[local] Set Warnings "-clear-no-such-hyp".

Section Collision.
Context {N : Type} `{!NumOps N}.
Local Open Scope num_scope.

(** ** The script's function *)

(** The collision test of the inner loop:
    [Math.hypot(dx, dy) < b1.radius + b2.radius]. *)
Definition overlap (b1 b2 : Body N) : bool :=
  let dx := x b2 - x b1 in
  let dy := y b2 - y b1 in
  let dist := Math_hypot dx dy in
  dist <? radius b1 + radius b2.

(** The body built when two bodies collide: total mass, and the
    mass-weighted mean of positions and velocities. *)
Definition mergeBodies (b1 b2 : Body N) : Body N :=
  let totalMass := masse b1 + masse b2 in
  let x' := (x b1 * masse b1 + x b2 * masse b2) / totalMass in
  let y' := (y b1 * masse b1 + y b2 * masse b2) / totalMass in
  let vx' := (vx b1 * masse b1 + vx b2 * masse b2) / totalMass in
  let vy' := (vy b1 * masse b1 + vy b2 * masse b2) / totalMass in
  newBody x' y' totalMass vx' vy'.

(** The three local variables of [checkCollisions]. *)
Record CollState : Type := mkCollState {
  merged : list (Body N);
  skip : gset nat;
  newBodies : list (Body N);
}.

(** [skip.has(i)]. *)
Definition has (s : gset nat) (i : nat) : bool := bool_decide (i ∈ s).

(** The inner loop, over the indices [js] still to visit; the boolean
    is [mergedThis].  On a collision the merged body is pushed, both
    indices are added to [skip], and the loop breaks. *)
Fixpoint innerLoop (bodies : list (Body N)) (i : nat) (b1 : Body N)
    (js : list nat) (st : CollState) : CollState * bool :=
  match js with
  | [] => (st, false)
  | j :: js =>
      if has (skip st) j then innerLoop bodies i b1 js st
      else
        match bodies !! j with
        | None => innerLoop bodies i b1 js st
        | Some b2 =>
            if overlap b1 b2
            then ({| merged := merged st;
                     skip := {[j]} ∪ ({[i]} ∪ skip st);
                     newBodies := newBodies st ++ [mergeBodies b1 b2] |},
                  true)
            else innerLoop bodies i b1 js st
        end
  end.

(** One iteration of the outer loop. *)
Definition outerStep (bodies : list (Body N)) (st : CollState) (i : nat)
    : CollState :=
  if has (skip st) i then st
  else
    match bodies !! i with
    | None => st
    | Some b1 =>
        let '(st, mergedThis) :=
          innerLoop bodies i b1 (seq (S i) (length bodies - S i)) st in
        if negb mergedThis && negb (has (skip st) i)
        then {| merged := merged st ++ [b1];
                skip := skip st;
                newBodies := newBodies st |}
        else st
    end.

(** [checkCollisions(bodies, collisionEnabled)]. *)
Definition checkCollisions (bodies : list (Body N)) (collisionEnabled : bool)
    : list (Body N) :=
  if negb collisionEnabled then bodies
  else
    let st := for_range 0 (length bodies) (outerStep bodies)
                {| merged := []; skip := ∅; newBodies := [] |} in
    merged st ++ newBodies st.

(** ** The specification *)

(** The first body of [rest] that overlaps [b1], and [rest] without it. *)
Fixpoint findFirst (b1 : Body N) (rest : list (Body N))
    : option (Body N * list (Body N)) :=
  match rest with
  | [] => None
  | b2 :: rest =>
      if overlap b1 b2 then Some (b2, rest)
      else (λ '(b, r), (b, b2 :: r)) <$> findFirst b1 rest
  end.

Lemma findFirst_length b1 rest b2 rest' :
  findFirst b1 rest = Some (b2, rest') → S (length rest') = length rest.
Proof.
  revert b2 rest'. induction rest as [|c rest IH]; intros b2 rest'; simpl; [done|].
  destruct (overlap b1 c); [by intros [= <- <-]|].
  destruct (findFirst b1 rest) as [[b r]|]; simpl; [|done].
  intros [= <- <-]. simpl. f_equal. by eapply IH.
Qed.

(** One pass over the bodies that are still there: the head merges with
    its first overlapping successor, or survives.  The result is the
    list of survivors and the list of merged pairs, both in the order
    they are found. *)
Equations? resolve (bodies : list (Body N))
    : list (Body N) * list (Body N * Body N) by wf (length bodies) lt :=
  resolve [] := ([], []);
  resolve (b1 :: rest) with inspect (findFirst b1 rest) => {
    | exist _ (Some (b2, rest')) E =>
        let '(s, p) := resolve rest' in (s, (b1, b2) :: p);
    | exist _ None E =>
        let '(s, p) := resolve rest in (b1 :: s, p) }.
Proof. all: try apply findFirst_length in E; simpl; lia. Qed.

(** The output the specification prescribes: the survivors, then the
    merged bodies. *)
Definition resolved (bodies : list (Body N)) : list (Body N) :=
  let '(s, p) := resolve bodies in s ++ (uncurry mergeBodies <$> p).

(** ** Unfolding the specification *)

Lemma resolve_nil : resolve [] = ([], []).
Proof. by simp resolve. Qed.

Lemma resolve_cons b1 rest :
  resolve (b1 :: rest) =
    match findFirst b1 rest with
    | Some (b2, rest') => let '(s, p) := resolve rest' in (s, (b1, b2) :: p)
    | None => let '(s, p) := resolve rest in (b1 :: s, p)
    end.
Proof.
  simp resolve.
  destruct (inspect (findFirst b1 rest)) as [[[b2 r]|] E]; simpl; by rewrite E.
Qed.

(** Induction on the recursion of [resolve]: a list, then the shorter
    list the recursive call is made on. *)
Lemma resolve_ind (P : list (Body N) → Prop) :
  P [] →
  (∀ b1 rest b2 rest',
     findFirst b1 rest = Some (b2, rest') → P rest' → P (b1 :: rest)) →
  (∀ b1 rest, findFirst b1 rest = None → P rest → P (b1 :: rest)) →
  ∀ bodies, P bodies.
Proof.
  intros Hnil Hmerge Hkeep bodies.
  remember (length bodies) as n eqn:Hn. revert bodies Hn.
  induction n as [n IH] using lt_wf_ind. intros [|b1 rest] Hn; [done|].
  destruct (findFirst b1 rest) as [[b2 rest']|] eqn:E.
  - eapply Hmerge; [done|]. eapply IH; [|done].
    apply findFirst_length in E. simpl in *. lia.
  - apply Hkeep; [done|]. eapply IH; [|done]. simpl in *. lia.
Qed.

(** ** Properties of [findFirst] *)

Lemma findFirst_perm b1 rest b2 rest' :
  findFirst b1 rest = Some (b2, rest') → rest ≡ₚ b2 :: rest'.
Proof.
  revert b2 rest'. induction rest as [|c rest IH]; intros b2 rest'; simpl; [done|].
  destruct (overlap b1 c); [by intros [= <- <-]|].
  destruct (findFirst b1 rest) as [[b r]|]; simpl; [|done].
  intros [= <- <-]. rewrite (IH b r) by done. apply Permutation_swap.
Qed.

Lemma findFirst_sublist b1 rest b2 rest' :
  findFirst b1 rest = Some (b2, rest') → rest' `sublist_of` rest.
Proof.
  revert b2 rest'. induction rest as [|c rest IH]; intros b2 rest'; simpl; [done|].
  destruct (overlap b1 c); [intros [= <- <-]; by apply sublist_cons|].
  destruct (findFirst b1 rest) as [[b r]|]; simpl; [|done].
  intros [= <- <-]. apply sublist_skip. by eapply IH.
Qed.

Lemma findFirst_overlap b1 rest b2 rest' :
  findFirst b1 rest = Some (b2, rest') → overlap b1 b2 = true.
Proof.
  revert b2 rest'. induction rest as [|c rest IH]; intros b2 rest'; simpl; [done|].
  destruct (overlap b1 c) eqn:Hc; [by intros [= <- <-]|].
  destruct (findFirst b1 rest) as [[b r]|]; simpl; [|done].
  intros [= <- <-]. by eapply IH.
Qed.

Lemma findFirst_None b1 rest :
  findFirst b1 rest = None ↔ Forall (λ b2, overlap b1 b2 = false) rest.
Proof.
  induction rest as [|c rest IH]; simpl; [by split; [constructor|]|].
  rewrite Forall_cons. destruct (overlap b1 c); [by split; [|intros [? _]]|].
  rewrite fmap_None, IH. naive_solver.
Qed.

(** ** Properties of a pass, on the specification *)

(** Every body of the input is a survivor or a member of exactly one
    merged pair: the input is a permutation of the survivors and the
    members of the pairs. *)
Lemma resolve_perm bodies :
  bodies ≡ₚ (resolve bodies).1 ++ ((resolve bodies).2 ≫= λ p, [p.1; p.2]).
Proof.
  induction bodies as [|b1 rest b2 rest' E IH|b1 rest E IH] using resolve_ind.
  - by rewrite resolve_nil.
  - rewrite resolve_cons, E. destruct (resolve rest') as [s p]; simpl in *.
    rewrite (findFirst_perm _ _ _ _ E), IH.
    by rewrite <- !Permutation_middle.
  - rewrite resolve_cons, E. destruct (resolve rest) as [s p]; simpl in *.
    by rewrite <- IH.
Qed.

(** The survivors are a subsequence of the input: they keep their order. *)
Lemma resolve_survivors_sublist bodies : (resolve bodies).1 `sublist_of` bodies.
Proof.
  induction bodies as [|b1 rest b2 rest' E IH|b1 rest E IH] using resolve_ind.
  - by rewrite resolve_nil.
  - rewrite resolve_cons, E. destruct (resolve rest') as [s p]; simpl in *.
    apply sublist_cons. etrans; [done|]. by eapply findFirst_sublist.
  - rewrite resolve_cons, E. destruct (resolve rest) as [s p]; simpl in *.
    by apply sublist_skip.
Qed.

(** Merged pairs did overlap. *)
Lemma resolve_pairs_overlap bodies :
  Forall (λ p, overlap p.1 p.2 = true) (resolve bodies).2.
Proof.
  induction bodies as [|b1 rest b2 rest' E IH|b1 rest E IH] using resolve_ind.
  - rewrite resolve_nil. constructor.
  - rewrite resolve_cons, E. destruct (resolve rest') as [s p]; simpl in *.
    constructor; [|done]. by eapply findFirst_overlap.
  - rewrite resolve_cons, E. by destruct (resolve rest) as [s p].
Qed.

(** Bodies that overlap nothing are never merged: a pass keeps each
    of them among the survivors. *)
Lemma resolve_keeps (P : Body N → Prop) `{!∀ b, Decision (P b)} bodies :
  (∀ b1 b2, P b1 ∨ P b2 → overlap b1 b2 = false) →
  filter P bodies ≡ₚ filter P (resolve bodies).1.
Proof.
  intros Hno. rewrite (resolve_perm bodies) at 1. rewrite filter_app.
  pose proof (resolve_pairs_overlap bodies) as Hov.
  induction Hov as [|q p Hq _ IH]; csimpl; [by rewrite app_nil_r|].
  rewrite !filter_cons_False; [done|intros HP..];
    by rewrite Hno in Hq by auto.
Qed.

(** No survivor overlaps a later survivor: the pass leaves no collision
    among the bodies it kept. *)
Lemma resolve_survivors_apart bodies :
  ∀ i j b1 b2, i < j →
    (resolve bodies).1 !! i = Some b1 → (resolve bodies).1 !! j = Some b2 →
    overlap b1 b2 = false.
Proof.
  induction bodies as [|b1 rest b2 rest' E IH|b1 rest E IH] using resolve_ind.
  - rewrite resolve_nil. by intros [].
  - rewrite resolve_cons, E. destruct (resolve rest') as [s p]; simpl in *.
    intros i j c1 c2 ???. by eapply IH.
  - rewrite resolve_cons, E.
    pose proof (resolve_survivors_sublist rest) as Hsub.
    destruct (resolve rest) as [s p]; simpl in *.
    intros [|i] [|j] c1 c2 Hij Hi Hj; simplify_eq/=; try lia.
    + apply findFirst_None in E. rewrite Forall_forall in E. apply E.
      eapply elem_of_sublist; [|done]. by eapply list_elem_of_lookup_2.
    + eapply IH; [|done..]. lia.
Qed.

(** When no body overlaps a later one, the pass changes nothing. *)
Lemma resolve_no_overlap bodies :
  (∀ i j b1 b2, i < j → bodies !! i = Some b1 → bodies !! j = Some b2 →
     overlap b1 b2 = false) →
  resolve bodies = (bodies, []).
Proof.
  induction bodies as [|b1 rest IH]; intros Hno; [apply resolve_nil|].
  rewrite resolve_cons.
  assert (findFirst b1 rest = None) as ->.
  { apply findFirst_None, Forall_lookup. intros j b2 Hj.
    by apply (Hno 0 (S j)); [lia|..]. }
  rewrite IH; [done|]. intros i j c1 c2 ? ? ?. apply (Hno (S i) (S j)); [lia|done..].
Qed.

(** Counting: every merge removes two bodies and adds one. *)
Lemma resolve_length bodies :
  (length (resolve bodies).1 + 2 * length (resolve bodies).2 = length bodies)%nat.
Proof.
  pose proof (Permutation_length (resolve_perm bodies)) as Hlen.
  rewrite length_app in Hlen. rewrite Hlen. f_equal. clear Hlen.
  generalize (resolve bodies).2. intros l. induction l as [|q l IH]; csimpl in *; lia.
Qed.

Lemma resolved_length bodies :
  (length (resolved bodies) + length (resolve bodies).2 = length bodies)%nat.
Proof.
  rewrite <- (resolve_length bodies). unfold resolved.
  destruct (resolve bodies) as [s p]; simpl. rewrite length_app, length_fmap. lia.
Qed.

Lemma mergeBodies_wf b1 b2 : body_wf (mergeBodies b1 b2).
Proof. apply newBody_wf. Qed.

(** A pass keeps the bodies well formed. *)
Lemma resolved_wf bodies : Forall body_wf bodies → Forall body_wf (resolved bodies).
Proof.
  intros Hwf. unfold resolved.
  pose proof (resolve_survivors_sublist bodies) as Hsub.
  destruct (resolve bodies) as [s p]; simpl in *.
  apply Forall_app; split; [by eapply Forall_sublist|].
  apply Forall_fmap, Forall_true. intros []. apply mergeBodies_wf.
Qed.

(** ** Refinement: the loops compute the specification *)

(** The bodies the loops still have to look at: those at the indices
    [js] that are not consumed. *)
Definition live (bodies : list (Body N)) (sk : gset nat) (js : list nat)
    : list (Body N) :=
  omap (λ j, if has sk j then None else bodies !! j) js.
#[local] Arguments live : simpl never.

(** What the inner loop finds: the first index of [js] that is not
    consumed and whose body overlaps [b1]. *)
Fixpoint findIdx (bodies : list (Body N)) (sk : gset nat) (b1 : Body N)
    (js : list nat) : option (nat * Body N) :=
  match js with
  | [] => None
  | j :: js =>
      if has sk j then findIdx bodies sk b1 js
      else
        match bodies !! j with
        | Some b2 => if overlap b1 b2 then Some (j, b2) else findIdx bodies sk b1 js
        | None => findIdx bodies sk b1 js
        end
  end.

Lemma has_union_singleton sk i j :
  has ({[i]} ∪ sk) j = bool_decide (j = i) || has sk j.
Proof.
  unfold has. rewrite <- bool_decide_or. apply bool_decide_ext. set_solver.
Qed.

Lemma findIdx_Some bodies sk b1 js j b2 :
  findIdx bodies sk b1 js = Some (j, b2) →
  j ∈ js ∧ has sk j = false ∧ bodies !! j = Some b2 ∧ overlap b1 b2 = true.
Proof.
  induction js as [|j' js IH]; simpl; [done|].
  destruct (has sk j') eqn:Hsk; [set_solver|].
  destruct (bodies !! j') as [b2'|] eqn:Hb; [|set_solver].
  destruct (overlap b1 b2') eqn:Hov; [|set_solver].
  intros [= -> ->]. set_solver.
Qed.

Lemma live_nil bodies sk : live bodies sk [] = [].
Proof. done. Qed.

Lemma live_cons bodies sk j js :
  live bodies sk (j :: js) =
    if has sk j then live bodies sk js
    else match bodies !! j with
         | Some b => b :: live bodies sk js
         | None => live bodies sk js
         end.
Proof. unfold live; simpl. by destruct (has sk j), (bodies !! j). Qed.

(** Consuming an index that is not among [js] does not change what is
    live there. *)
Lemma live_skip_notin bodies sk i js :
  i ∉ js → live bodies ({[i]} ∪ sk) js = live bodies sk js.
Proof.
  induction js as [|j js IH]; intros Hi; [done|].
  apply not_elem_of_cons in Hi as [Hne Hi].
  rewrite !live_cons, has_union_singleton, IH by done.
  by rewrite bool_decide_eq_false_2 by done.
Qed.

Lemma live_suffix pre l :
  live (pre ++ l) ∅ (seq (length pre) (length l)) = l.
Proof.
  revert pre. induction l as [|b l IH]; intros pre; [done|].
  simpl length. rewrite <- cons_seq, live_cons. unfold has at 1.
  rewrite bool_decide_eq_false_2, list_lookup_middle by set_solver.
  f_equal. specialize (IH (pre ++ [b])).
  by rewrite <- app_assoc, length_app, Nat.add_1_r in IH.
Qed.

Lemma live_all bodies : live bodies ∅ (seq 0 (length bodies)) = bodies.
Proof. apply (live_suffix []). Qed.

(** The inner loop is determined by what [findIdx] finds. *)
Lemma innerLoop_findIdx bodies i b1 js st :
  innerLoop bodies i b1 js st =
    match findIdx bodies (skip st) b1 js with
    | Some (j, b2) =>
        ({| merged := merged st;
            skip := {[j]} ∪ ({[i]} ∪ skip st);
            newBodies := newBodies st ++ [mergeBodies b1 b2] |}, true)
    | None => (st, false)
    end.
Proof.
  induction js as [|j js IH]; simpl; [done|].
  destruct (has (skip st) j); [done|].
  destruct (bodies !! j) as [b2|]; [|done]. by destruct (overlap b1 b2).
Qed.

(** [findIdx] on the indices is [findFirst] on the live bodies. *)
Lemma findFirst_live bodies sk b1 js :
  NoDup js →
  findFirst b1 (live bodies sk js) =
    (λ '(j, b2), (b2, live bodies ({[j]} ∪ sk) js)) <$> findIdx bodies sk b1 js.
Proof.
  induction 1 as [|j js Hj Hnd IH]; [done|].
  rewrite live_cons. simpl. destruct (has sk j) eqn:Hsk.
  - rewrite IH. destruct (findIdx bodies sk b1 js) as [[j' b2]|]; simpl; [|done].
    by rewrite live_cons, has_union_singleton, Hsk, orb_true_r.
  - destruct (bodies !! j) as [b2|] eqn:Hb2; simpl.
    + destruct (overlap b1 b2) eqn:Hov; simpl.
      * rewrite live_cons, has_union_singleton, bool_decide_eq_true_2 by done.
        simpl. by rewrite live_skip_notin.
      * rewrite IH.
        destruct (findIdx bodies sk b1 js) as [[j' b2']|] eqn:Hf; simpl; [|done].
        rewrite live_cons, has_union_singleton, Hsk, Hb2, orb_false_r.
        rewrite bool_decide_eq_false_2; [done|]. intros ->.
        by apply findIdx_Some in Hf as [? _].
    + rewrite IH.
      destruct (findIdx bodies sk b1 js) as [[j' b2']|] eqn:Hf; simpl; [|done].
      by rewrite live_cons, has_union_singleton, Hsk, Hb2, orb_false_r,
        bool_decide_eq_false_2 by (intros ->; by apply findIdx_Some in Hf as [? _]).
Qed.

(** Consuming [i] and [j] leaves, beyond [i], what consuming [j] leaves. *)
Lemma live_consumed bodies sk i j k :
  live bodies ({[j]} ∪ ({[i]} ∪ sk)) (seq (S i) k) =
  live bodies ({[j]} ∪ sk) (seq (S i) k).
Proof.
  replace ({[j]} ∪ ({[i]} ∪ sk)) with ({[i]} ∪ ({[j]} ∪ sk)) by set_solver.
  apply live_skip_notin. rewrite elem_of_seq. lia.
Qed.

(** One iteration of the outer loop, by cases.  The test
    [!skip.has(i)] of the script's last [if] never decides anything:
    when [mergedThis] is false the inner loop has not touched [skip]. *)
Lemma outerStep_cases bodies st i b1 :
  bodies !! i = Some b1 →
  outerStep bodies st i =
    if has (skip st) i then st
    else match findIdx bodies (skip st) b1 (seq (S i) (length bodies - S i)) with
         | Some (j, b2) =>
             {| merged := merged st;
                skip := {[j]} ∪ ({[i]} ∪ skip st);
                newBodies := newBodies st ++ [mergeBodies b1 b2] |}
         | None =>
             {| merged := merged st ++ [b1];
                skip := skip st;
                newBodies := newBodies st |}
         end.
Proof.
  intros Hb1. unfold outerStep. rewrite Hb1, innerLoop_findIdx.
  destruct (has (skip st) i) eqn:Hsk; [done|].
  destruct (findIdx _ _ _ _) as [[j b2]|]; [done|]. simpl. by rewrite Hsk.
Qed.

(** The outer loop from index [i] on appends to [merged] the survivors
    and to [newBodies] the merged bodies that [resolve] finds among the
    bodies still live. *)
Lemma outer_resolve bodies k i st :
  (i + k = length bodies)%nat →
  let st' := foldl (outerStep bodies) st (seq i k) in
  let r := resolve (live bodies (skip st) (seq i k)) in
  merged st' = merged st ++ r.1 ∧
  newBodies st' = newBodies st ++ (uncurry mergeBodies <$> r.2).
Proof.
  cbv zeta. revert i st. induction k as [|k IH]; intros i st Hik.
  { simpl seq. rewrite live_nil, resolve_nil. simpl. by rewrite !app_nil_r. }
  rewrite <- cons_seq, live_cons. cbn [foldl].
  destruct (lookup_lt_is_Some_2 bodies i) as [b1 Hb1]; [lia|].
  rewrite (outerStep_cases _ _ _ _ Hb1), Hb1.
  destruct (has (skip st) i) eqn:Hsk; [apply IH; lia|].
  replace (length bodies - S i)%nat with k by lia.
  rewrite resolve_cons, findFirst_live by apply NoDup_seq.
  destruct (findIdx bodies (skip st) b1 (seq (S i) k)) as [[j b2]|]; cbn -[resolve].
  - match goal with |- context [foldl _ ?st1 _] => specialize (IH (S i) st1) end.
    cbn -[resolve] in IH. rewrite live_consumed in IH.
    destruct IH as [-> ->]; [lia|].
    destruct (resolve (live bodies ({[j]} ∪ skip st) (seq (S i) k))) as [s p].
    by rewrite <- app_assoc.
  - match goal with |- context [foldl _ ?st1 _] => specialize (IH (S i) st1) end.
    cbn -[resolve] in IH. destruct IH as [-> ->]; [lia|].
    destruct (resolve (live bodies (skip st) (seq (S i) k))) as [s p].
    by rewrite <- app_assoc.
Qed.

(** With collisions enabled, [checkCollisions] returns what the
    specification prescribes. *)
Lemma checkCollisions_resolve bodies :
  checkCollisions bodies true = resolved bodies.
Proof.
  unfold checkCollisions, resolved, for_range. simpl negb. cbv iota.
  rewrite Nat.sub_0_r.
  destruct (outer_resolve bodies (length bodies) 0
              {| merged := []; skip := ∅; newBodies := [] |}) as [-> ->]; [done|].
  cbn [skip merged newBodies]. rewrite live_all.
  by destruct (resolve bodies).
Qed.

(** With collisions disabled, [checkCollisions] returns its argument. *)
Lemma checkCollisions_disabled bodies : checkCollisions bodies false = bodies.
Proof. done. Qed.

(** ** Properties of [checkCollisions] *)

(** C1. The index loops of [checkCollisions], with their marker set and
    their two output arrays, compute the list-recursive specification
    [resolved]; with collisions switched off the input is returned as it
    is. *)
Theorem checkCollisions_refines bodies enabled :
  checkCollisions bodies enabled = if enabled then resolved bodies else bodies.
Proof. destruct enabled; [apply checkCollisions_resolve|done]. Qed.

Lemma checkCollisions_wf bodies enabled :
  Forall body_wf bodies → Forall body_wf (checkCollisions bodies enabled).
Proof.
  destruct enabled; [|done]. rewrite checkCollisions_resolve. apply resolved_wf.
Qed.

(** C2. How the output is made: some bodies survive, in the order they had;
    the others form pairs of overlapping bodies, each body in exactly
    one pair; the output is the survivors followed by one merged body per
    pair.  In particular no body is consumed by two merges. *)
Theorem checkCollisions_partition bodies :
  ∃ survivors pairs,
    checkCollisions bodies true = survivors ++ (uncurry mergeBodies <$> pairs) ∧
    survivors `sublist_of` bodies ∧
    bodies ≡ₚ survivors ++ (pairs ≫= λ p, [p.1; p.2]) ∧
    Forall (λ p, overlap p.1 p.2 = true) pairs.
Proof.
  exists (resolve bodies).1, (resolve bodies).2. split_and!.
  - rewrite checkCollisions_resolve. unfold resolved. by destruct (resolve bodies).
  - apply resolve_survivors_sublist.
  - apply resolve_perm.
  - apply resolve_pairs_overlap.
Qed.

(** A pass never lengthens the collection, and shortens it by one body
    per merge. *)
Theorem checkCollisions_length bodies enabled :
  (length (checkCollisions bodies enabled) ≤ length bodies)%nat.
Proof.
  destruct enabled; [|done]. rewrite checkCollisions_resolve.
  pose proof (resolved_length bodies). lia.
Qed.

(** When no body overlaps a later one, a pass returns the collection
    unchanged. *)
Theorem checkCollisions_no_overlap bodies enabled :
  (∀ i j b1 b2, i < j → bodies !! i = Some b1 → bodies !! j = Some b2 →
     overlap b1 b2 = false) →
  checkCollisions bodies enabled = bodies.
Proof.
  intros Hno. destruct enabled; [|done]. rewrite checkCollisions_resolve.
  unfold resolved. rewrite resolve_no_overlap by done. apply app_nil_r.
Qed.

(** C5. The pass is complete on the bodies it keeps: among the survivors
    no body overlaps a later one. *)
Theorem checkCollisions_survivors_apart bodies i j b1 b2 :
  let out := checkCollisions bodies true in
  let kept := length (resolve bodies).1 in
  i < j → (j < kept)%nat → out !! i = Some b1 → out !! j = Some b2 →
  overlap b1 b2 = false.
Proof.
  cbv zeta. rewrite checkCollisions_resolve. unfold resolved.
  pose proof (resolve_survivors_apart bodies) as Hapart.
  destruct (resolve bodies) as [s p]; simpl in *.
  intros Hij Hj. rewrite !lookup_app_l by lia. by apply Hapart.
Qed.

End Collision.

#[export] Hint Resolve mergeBodies_wf resolved_wf checkCollisions_wf : sim.
