(* ===== verification/Random.v ===== *)
(** * Random: the functions that draw random numbers

    [Math.random()] is the one source of nondeterminism inside the
    script.  The model fixes the sequence of values it returns as an
    oracle [random : nat → N] and counts the calls: a computation that
    draws numbers is a function from the number of calls made so far to
    its result and the new number of calls ([Rnd]).  The order of the
    calls in the script is the order of the binds below. *)

From S2P Require Import Prelude Num Config Body.

(** Computations that call [Math.random()]. *)
Definition Rnd (A : Type) : Type := nat → A * nat.

#[export] Instance Rnd_ret : MRet Rnd := λ A a n, (a, n).
#[export] Instance Rnd_bind : MBind Rnd :=
  λ A B k c n, let '(a, n') := c n in k a n'.

Lemma Rnd_bind_run {A B} (c : Rnd A) (k : A → Rnd B) n :
  (c ≫= k) n = k (c n).1 (c n).2.
Proof. unfold mbind, Rnd_bind. by destruct (c n). Qed.

Lemma Rnd_ret_run {A} (a : A) n : (mret a : Rnd A) n = (a, n).
Proof. done. Qed.

Section Random.
Context {N : Type} `{!NumOps N}.
Variable random : nat → N.
Local Open Scope num_scope.

(** [Math.random()]: the next value of the oracle. *)
Definition Math_random : Rnd N := λ n, (random n, S n).

(** [randomRange(min, max)]. *)
Definition randomRange (min max : N) : Rnd N :=
  r ← Math_random; mret (r * (max - min) + min).

(** [randomVelocity(randomEnabled, strength)]. *)
Definition randomVelocity (randomEnabled : bool) (strength : N) : Rnd (N * N) :=
  if randomEnabled then
    a ← Math_random;
    let angle := a * int 2 * Math_PI in
    s ← Math_random;
    let speed := s * strength in
    mret (Math_cos angle * speed, Math_sin angle * speed)
  else mret (int 0, int 0).

(** [spawnStar(randomEnabled, strength)], with the viewport it reads. *)
Definition spawnStar (WIDTH HEIGHT : N) (randomEnabled : bool) (strength : N)
    : Rnd (Body N) :=
  x0 ← randomRange (int 0) WIDTH;
  y0 ← randomRange (int 0) HEIGHT;
  m ← randomRange MASS_MIN MASS_MAX;
  v ← randomVelocity randomEnabled strength;
  mret (newBody x0 y0 m v.1 v.2).

(** ** How many numbers each function draws, and what it returns *)

Lemma randomRange_run min max n :
  randomRange min max n = (random n * (max - min) + min, S n).
Proof. done. Qed.

Lemma randomVelocity_run randomEnabled strength n :
  randomVelocity randomEnabled strength n =
    if randomEnabled
    then ((Math_cos (random n * int 2 * Math_PI) * (random (S n) * strength),
           Math_sin (random n * int 2 * Math_PI) * (random (S n) * strength)),
          S (S n))
    else ((int 0, int 0), n).
Proof. by destruct randomEnabled. Qed.

Lemma spawnStar_run WIDTH HEIGHT randomEnabled strength n :
  spawnStar WIDTH HEIGHT randomEnabled strength n =
    let v := (randomVelocity randomEnabled strength (3 + n)%nat).1 in
    (newBody (random n * (WIDTH - int 0) + int 0)
             (random (S n) * (HEIGHT - int 0) + int 0)
             (random (S (S n)) * (MASS_MAX - MASS_MIN) + MASS_MIN)
             v.1 v.2,
     ((if randomEnabled then 5 else 3) + n)%nat).
Proof. by destruct randomEnabled. Qed.

Lemma spawnStar_wf WIDTH HEIGHT randomEnabled strength n :
  body_wf (spawnStar WIDTH HEIGHT randomEnabled strength n).1.
Proof. rewrite spawnStar_run. apply newBody_wf. Qed.

(** A spawned body without random velocity is at rest. *)
Lemma spawnStar_at_rest WIDTH HEIGHT strength n :
  let b := (spawnStar WIDTH HEIGHT false strength n).1 in
  vx b = int 0 ∧ vy b = int 0.
Proof. done. Qed.

End Random.
