(* ===== verification/World.v ===== *)
(** * World: the global state of the script and its event handlers

    The script keeps its state in the variables of one closure: the
    settings, the viewport, the array [bodies], [spawnTimer] and
    [lastTimestamp].  [World] is the record of these variables, with the
    number of calls made to [Math.random()].  Each handler the script
    registers is a function on worlds: [resize], [keydown], [mousedown]
    and [loop] (the animation frame, without the drawing).  [handle]
    dispatches an event to its handler and [reachable] is the set of
    worlds the browser can drive the script into. *)

From stdpp Require Import strings.
From S2P Require Import Prelude Num Config Body Force Collision Random.

Section World.
Context {N : Type} `{!NumOps N}.
Variable random : nat → N.
Local Open Scope num_scope.

(** The variables of the closure: the settings (lines 32-36), the
    viewport (line 44), the bodies and the spawn timer (lines
    186-187), the time stamp of the last frame (line 254).
    [randomCalls] is not a variable of the script: it is how many
    numbers the generator of the host has handed out. *)
Record World : Type := mkWorld {
  G : N;
  COLLISION_ENABLED : bool;
  SPAWN_ENABLED : bool;
  RANDOM_VELOCITY_ENABLED : bool;
  RANDOM_VELOCITY_STRENGTH : N;
  WIDTH : N;
  HEIGHT : N;
  bodies : list (Body N);
  spawnTimer : N;
  lastTimestamp : N;
  randomCalls : nat;
}.

(** Assignments to one variable or to a group that changes together. *)
Definition set_G (g : N) (w : World) : World :=
  mkWorld g (COLLISION_ENABLED w) (SPAWN_ENABLED w) (RANDOM_VELOCITY_ENABLED w)
    (RANDOM_VELOCITY_STRENGTH w) (WIDTH w) (HEIGHT w) (bodies w) (spawnTimer w)
    (lastTimestamp w) (randomCalls w).

Definition set_COLLISION_ENABLED (c : bool) (w : World) : World :=
  mkWorld (G w) c (SPAWN_ENABLED w) (RANDOM_VELOCITY_ENABLED w)
    (RANDOM_VELOCITY_STRENGTH w) (WIDTH w) (HEIGHT w) (bodies w) (spawnTimer w)
    (lastTimestamp w) (randomCalls w).

Definition set_SPAWN_ENABLED (s : bool) (w : World) : World :=
  mkWorld (G w) (COLLISION_ENABLED w) s (RANDOM_VELOCITY_ENABLED w)
    (RANDOM_VELOCITY_STRENGTH w) (WIDTH w) (HEIGHT w) (bodies w) (spawnTimer w)
    (lastTimestamp w) (randomCalls w).

Definition set_RANDOM_VELOCITY_ENABLED (v : bool) (w : World) : World :=
  mkWorld (G w) (COLLISION_ENABLED w) (SPAWN_ENABLED w) v
    (RANDOM_VELOCITY_STRENGTH w) (WIDTH w) (HEIGHT w) (bodies w) (spawnTimer w)
    (lastTimestamp w) (randomCalls w).

Definition set_RANDOM_VELOCITY_STRENGTH (s : N) (w : World) : World :=
  mkWorld (G w) (COLLISION_ENABLED w) (SPAWN_ENABLED w) (RANDOM_VELOCITY_ENABLED w)
    s (WIDTH w) (HEIGHT w) (bodies w) (spawnTimer w)
    (lastTimestamp w) (randomCalls w).

Definition set_bodies (bs : list (Body N)) (calls : nat) (w : World) : World :=
  mkWorld (G w) (COLLISION_ENABLED w) (SPAWN_ENABLED w) (RANDOM_VELOCITY_ENABLED w)
    (RANDOM_VELOCITY_STRENGTH w) (WIDTH w) (HEIGHT w) bs (spawnTimer w)
    (lastTimestamp w) calls.

(** [resize()], with the window size it reads. *)
Definition resize (innerWidth innerHeight : N) (w : World) : World :=
  mkWorld (G w) (COLLISION_ENABLED w) (SPAWN_ENABLED w) (RANDOM_VELOCITY_ENABLED w)
    (RANDOM_VELOCITY_STRENGTH w) innerWidth innerHeight (bodies w) (spawnTimer w)
    (lastTimestamp w) (randomCalls w).

(** The body [reset] seeds: near the centre of the viewport, with the
    velocity settings current before they are restored. *)
Definition seedBody (w : World) : Rnd (Body N) :=
  x0 ← randomRange random (WIDTH w / int 2 - int 150) (WIDTH w / int 2 + int 150);
  y0 ← randomRange random (HEIGHT w / int 2 - int 150) (HEIGHT w / int 2 + int 150);
  m ← randomRange random MASS_MIN MASS_MAX;
  v ← randomVelocity random (RANDOM_VELOCITY_ENABLED w) (RANDOM_VELOCITY_STRENGTH w);
  mret (newBody x0 y0 m v.1 v.2).

(** [reset()]: the seeding loop, then the settings and the timer. *)
Definition reset (w : World) : World :=
  let '(bs, calls) :=
    for_range 0 START_BODIES_COUNT
      (λ '(bs, calls) _, let '(b, calls) := seedBody w calls in (bs ++ [b], calls))
      ([], randomCalls w) in
  {| G := G_default;
     COLLISION_ENABLED := COLLISION_ENABLED_default;
     SPAWN_ENABLED := SPAWN_ENABLED_default;
     RANDOM_VELOCITY_ENABLED := RANDOM_VELOCITY_ENABLED_default;
     RANDOM_VELOCITY_STRENGTH := RANDOM_VELOCITY_STRENGTH_default;
     WIDTH := WIDTH w; HEIGHT := HEIGHT w;
     bodies := bs;
     spawnTimer := int 0;
     lastTimestamp := lastTimestamp w;
     randomCalls := calls |}.

(** The [keydown] listener: the [switch] on [e.key]. *)
Definition keydown (key : string) (w : World) : World :=
  if bool_decide (key = "Escape"%string) then w
  else if bool_decide (key = "r"%string) || bool_decide (key = "R"%string) then reset w
  else if bool_decide (key = "ArrowUp"%string) then set_G (G w * decimal 11 10) w
  else if bool_decide (key = "ArrowDown"%string) then set_G (G w / decimal 11 10) w
  else if bool_decide (key = "c"%string) || bool_decide (key = "C"%string)
       then set_COLLISION_ENABLED (negb (COLLISION_ENABLED w)) w
  else if bool_decide (key = "s"%string) || bool_decide (key = "S"%string)
       then set_SPAWN_ENABLED (negb (SPAWN_ENABLED w)) w
  else if bool_decide (key = "v"%string) || bool_decide (key = "V"%string)
       then set_RANDOM_VELOCITY_ENABLED (negb (RANDOM_VELOCITY_ENABLED w)) w
  else if bool_decide (key = "ArrowRight"%string)
       then set_RANDOM_VELOCITY_STRENGTH (RANDOM_VELOCITY_STRENGTH w + int 10) w
  else if bool_decide (key = "ArrowLeft"%string)
       then set_RANDOM_VELOCITY_STRENGTH
              (Math_max (int 0) (RANDOM_VELOCITY_STRENGTH w - int 10)) w
  else w.

(** The [mousedown] listener: a new body at the pointer. *)
Definition mousedown (clientX clientY rectLeft rectTop : N) (w : World) : World :=
  let mx := clientX - rectLeft in
  let my := clientY - rectTop in
  let '(b, calls) :=
    (m ← randomRange random MASS_MIN MASS_MAX;
     v ← randomVelocity random (RANDOM_VELOCITY_ENABLED w) (RANDOM_VELOCITY_STRENGTH w);
     mret (newBody mx my m v.1 v.2)) (randomCalls w) in
  set_bodies (bodies w ++ [b]) calls w.

(** ** The animation frame *)

(** The time step of a frame: zero on the first frame (and whenever
    [lastTimestamp] is falsy), else the elapsed seconds. *)
Definition frameDt (timestamp : N) (w : World) : N :=
  let last := if falsy (lastTimestamp w) then timestamp else lastTimestamp w in
  (timestamp - last) / int 1000.

(** The spawn block: the timer advances while spawning is enabled; when
    it has reached [SPAWN_INTERVAL] one body is appended and the timer
    restarts from zero. *)
Definition spawnPhase (dt : N) (w : World) : list (Body N) * N * nat :=
  let timer := if SPAWN_ENABLED w then spawnTimer w + dt else spawnTimer w in
  if SPAWN_ENABLED w && (timer >=? SPAWN_INTERVAL) then
    let '(b, calls) :=
      spawnStar random (WIDTH w) (HEIGHT w) (RANDOM_VELOCITY_ENABLED w)
        (RANDOM_VELOCITY_STRENGTH w) (randomCalls w) in
    (bodies w ++ [b], int 0, calls)
  else (bodies w, timer, randomCalls w).

(** Forces from the positions of all bodies, then the velocity pass,
    then the position pass. *)
Definition motionPhase (bs : list (Body N)) (g dt : N) : list (Body N) :=
  let forces := computeForces bs g in
  let bs := applyForces bs forces dt in
  updatePositions bs dt.

(** [bodies.filter(b => !b.isOffScreen(WIDTH, HEIGHT))]. *)
Definition cull (bs : list (Body N)) (width height : N) : list (Body N) :=
  filter (λ b, negb (isOffScreen b width height)) bs.

(** [loop(timestamp)] up to the drawing. *)
Definition loop (timestamp : N) (w : World) : World :=
  let dt := frameDt timestamp w in
  let '(bs, timer, calls) := spawnPhase dt w in
  let bs := motionPhase bs (G w) dt in
  let bs := checkCollisions bs (COLLISION_ENABLED w) in
  let bs := cull bs (WIDTH w) (HEIGHT w) in
  {| G := G w;
     COLLISION_ENABLED := COLLISION_ENABLED w;
     SPAWN_ENABLED := SPAWN_ENABLED w;
     RANDOM_VELOCITY_ENABLED := RANDOM_VELOCITY_ENABLED w;
     RANDOM_VELOCITY_STRENGTH := RANDOM_VELOCITY_STRENGTH w;
     WIDTH := WIDTH w; HEIGHT := HEIGHT w;
     bodies := bs;
     spawnTimer := timer;
     lastTimestamp := timestamp;
     randomCalls := calls |}.

(** ** Events *)

(** What the browser delivers to the script. *)
Inductive Event : Type :=
  | Resize (innerWidth innerHeight : N)
  | KeyDown (key : string)
  | MouseDown (clientX clientY rectLeft rectTop : N)
  | Frame (timestamp : N).

Definition handle (e : Event) (w : World) : World :=
  match e with
  | Resize iw ih => resize iw ih w
  | KeyDown key => keydown key w
  | MouseDown cx cy rl rt => mousedown cx cy rl rt w
  | Frame t => loop t w
  end.

(** The variables of the script as their declarations leave them: the
    settings at their initial values, no body, the timers at zero, in a
    viewport of the given size. *)
Definition declared (width height : N) : World :=
  {| G := G_default;
     COLLISION_ENABLED := COLLISION_ENABLED_default;
     SPAWN_ENABLED := SPAWN_ENABLED_default;
     RANDOM_VELOCITY_ENABLED := RANDOM_VELOCITY_ENABLED_default;
     RANDOM_VELOCITY_STRENGTH := RANDOM_VELOCITY_STRENGTH_default;
     WIDTH := width; HEIGHT := height;
     bodies := [];
     spawnTimer := int 0;
     lastTimestamp := int 0;
     randomCalls := 0 |}.

(** The world after the script's top level has run: the initial values
    of the variables, the first [resize()] and the first [reset()]. *)
Definition boot (innerWidth innerHeight : N) : World :=
  reset (declared innerWidth innerHeight).

(** One transition of the script, labelled by the event handled. *)
Inductive step : World → Event → World → Prop :=
  | step_handle w e : step w e (handle e w).

(** The worlds the script can be in. *)
Inductive reachable : World → Prop :=
  | reachable_boot iw ih : reachable (boot iw ih)
  | reachable_step w e w' : reachable w → step w e w' → reachable w'.

(** A run from a world: the events handled in order. *)
Definition run (events : list Event) (w : World) : World :=
  foldl (λ w e, handle e w) w events.

(** ** Well-formedness of the bodies of a world *)

Definition world_wf (w : World) : Prop := Forall body_wf (bodies w).

(** The draws of [seedBody], in order: x, y, mass, then the velocity. *)
Lemma seedBody_run w n :
  seedBody w n =
    let v := (randomVelocity random (RANDOM_VELOCITY_ENABLED w)
                (RANDOM_VELOCITY_STRENGTH w) (3 + n)%nat).1 in
    (newBody
       (random n * ((WIDTH w / int 2 + int 150) - (WIDTH w / int 2 - int 150))
        + (WIDTH w / int 2 - int 150))
       (random (S n) * ((HEIGHT w / int 2 + int 150) - (HEIGHT w / int 2 - int 150))
        + (HEIGHT w / int 2 - int 150))
       (random (S (S n)) * (MASS_MAX - MASS_MIN) + MASS_MIN)
       v.1 v.2,
     ((if RANDOM_VELOCITY_ENABLED w then 5 else 3) + n)%nat).
Proof. unfold seedBody. by destruct (RANDOM_VELOCITY_ENABLED w). Qed.

Lemma seedBody_wf w n : body_wf (seedBody w n).1.
Proof. rewrite seedBody_run. apply newBody_wf. Qed.

(** [reset] leaves exactly the seeded body, and the default settings. *)
Lemma reset_bodies w : bodies (reset w) = [(seedBody w (randomCalls w)).1].
Proof.
  unfold reset, for_range. simpl. by destruct (seedBody w (randomCalls w)).
Qed.

Lemma reset_settings w :
  let w' := reset w in
  G w' = G_default ∧ COLLISION_ENABLED w' = true ∧ SPAWN_ENABLED w' = true ∧
  RANDOM_VELOCITY_ENABLED w' = true ∧
  RANDOM_VELOCITY_STRENGTH w' = RANDOM_VELOCITY_STRENGTH_default ∧
  spawnTimer w' = int 0 ∧ WIDTH w' = WIDTH w ∧ HEIGHT w' = HEIGHT w.
Proof.
  unfold reset, for_range. simpl. by destruct (seedBody w (randomCalls w)).
Qed.

(** C36. [reset] seeds the body before it restores the settings: with random
    velocity switched off the seeded body is at rest, although the world
    [reset] returns has random velocity switched on. *)
Theorem reset_seeds_before_restoring w :
  RANDOM_VELOCITY_ENABLED w = false →
  RANDOM_VELOCITY_ENABLED (reset w) = true ∧
  Forall (λ b, vx b = int 0 ∧ vy b = int 0) (bodies (reset w)).
Proof.
  intros Hoff. split; [apply reset_settings|]. rewrite reset_bodies.
  repeat constructor; unfold seedBody; by rewrite !Rnd_bind_run, Hoff.
Qed.

Lemma reset_wf w : world_wf (reset w).
Proof.
  unfold world_wf. rewrite reset_bodies. repeat constructor. apply seedBody_wf.
Qed.

Lemma keydown_wf key w : world_wf w → world_wf (keydown key w).
Proof.
  intros Hwf. unfold keydown. repeat case_if; auto using reset_wf.
Qed.

Lemma mousedown_bodies cx cy rl rt w :
  ∃ b, body_wf b ∧ x b = cx - rl ∧ y b = cy - rt ∧
       bodies (mousedown cx cy rl rt w) = bodies w ++ [b].
Proof.
  unfold mousedown. rewrite !Rnd_bind_run. simpl.
  eexists (newBody _ _ _ _ _). split_and!; [apply newBody_wf|done..].
Qed.

(** A click changes no setting. *)
Lemma mousedown_settings cx cy rl rt w :
  let w' := mousedown cx cy rl rt w in
  G w' = G w ∧ COLLISION_ENABLED w' = COLLISION_ENABLED w ∧
  SPAWN_ENABLED w' = SPAWN_ENABLED w ∧
  RANDOM_VELOCITY_ENABLED w' = RANDOM_VELOCITY_ENABLED w ∧
  RANDOM_VELOCITY_STRENGTH w' = RANDOM_VELOCITY_STRENGTH w ∧
  WIDTH w' = WIDTH w ∧ HEIGHT w' = HEIGHT w ∧ spawnTimer w' = spawnTimer w.
Proof. unfold mousedown. by rewrite !Rnd_bind_run. Qed.

Lemma mousedown_wf cx cy rl rt w : world_wf w → world_wf (mousedown cx cy rl rt w).
Proof.
  intros Hwf. unfold world_wf.
  destruct (mousedown_bodies cx cy rl rt w) as (b & Hb & _ & _ & ->).
  apply Forall_app. by repeat constructor.
Qed.

(** The keys, one by one. *)
Lemma keydown_ArrowUp w : keydown "ArrowUp" w = set_G (G w * decimal 11 10) w.
Proof. done. Qed.

Lemma keydown_ArrowDown w : keydown "ArrowDown" w = set_G (G w / decimal 11 10) w.
Proof. done. Qed.

Lemma keydown_ArrowRight w :
  keydown "ArrowRight" w =
    set_RANDOM_VELOCITY_STRENGTH (RANDOM_VELOCITY_STRENGTH w + int 10) w.
Proof. done. Qed.

Lemma keydown_ArrowLeft w :
  keydown "ArrowLeft" w =
    set_RANDOM_VELOCITY_STRENGTH
      (Math_max (int 0) (RANDOM_VELOCITY_STRENGTH w - int 10)) w.
Proof. done. Qed.

Lemma keydown_reset w : keydown "r" w = reset w ∧ keydown "R" w = reset w.
Proof. done. Qed.

(** Toggling twice restores the flag: the three toggle keys are
    involutions. *)
Lemma keydown_toggle_twice key w :
  key ∈ ["c"; "C"; "s"; "S"; "v"; "V"]%string →
  keydown key (keydown key w) = w.
Proof.
  intros Hkey. destruct w. repeat (apply elem_of_cons in Hkey as [->|Hkey]);
    [..|by apply elem_of_nil in Hkey];
    by destruct COLLISION_ENABLED0, SPAWN_ENABLED0, RANDOM_VELOCITY_ENABLED0.
Qed.

(** The keys the [switch] has a case for; [Escape] has one that does
    nothing. *)
Definition bound_keys : list string :=
  ["r"; "R"; "ArrowUp"; "ArrowDown"; "c"; "C"; "s"; "S"; "v"; "V";
   "ArrowRight"; "ArrowLeft"]%string.

(** Every other key leaves the world as it is. *)
Lemma keydown_other key w : key ∉ bound_keys → keydown key w = w.
Proof.
  intros Hkey. unfold keydown, bound_keys in *.
  repeat (apply not_elem_of_cons in Hkey as [? Hkey]).
  by repeat (case_bool_decide; [by subst|]).
Qed.

(** A key other than [r] and [R] leaves the bodies alone. *)
Lemma keydown_bodies key w :
  key ≠ "r"%string → key ≠ "R"%string → bodies (keydown key w) = bodies w.
Proof.
  intros Hr HR. unfold keydown.
  rewrite (bool_decide_eq_false_2 (key = "r"%string)) by done.
  rewrite (bool_decide_eq_false_2 (key = "R"%string)) by done.
  simpl. by repeat case_if.
Qed.

(** ** The phases of a frame *)

Lemma spawnPhase_disabled dt w :
  SPAWN_ENABLED w = false →
  spawnPhase dt w = (bodies w, spawnTimer w, randomCalls w).
Proof. intros Hs. unfold spawnPhase. by rewrite Hs. Qed.

Lemma spawnPhase_not_due dt w :
  SPAWN_ENABLED w = true →
  (spawnTimer w + dt >=? SPAWN_INTERVAL) = false →
  spawnPhase dt w = (bodies w, spawnTimer w + dt, randomCalls w).
Proof. intros Hs Hdue. unfold spawnPhase. by rewrite Hs, Hdue. Qed.

Lemma spawnPhase_due dt w :
  SPAWN_ENABLED w = true →
  (spawnTimer w + dt >=? SPAWN_INTERVAL) = true →
  spawnPhase dt w =
    let spawned :=
      spawnStar random (WIDTH w) (HEIGHT w) (RANDOM_VELOCITY_ENABLED w)
        (RANDOM_VELOCITY_STRENGTH w) (randomCalls w) in
    (bodies w ++ [spawned.1], int 0, spawned.2).
Proof.
  intros Hs Hdue. unfold spawnPhase. rewrite Hs, Hdue. simpl.
  by destruct (spawnStar _ _ _ _ _ _).
Qed.

(** A frame spawns at most one body, whatever the time step. *)
Lemma spawnPhase_at_most_one dt w :
  ∃ new, (spawnPhase dt w).1.1 = bodies w ++ new ∧ length new ≤ 1 ∧
         Forall body_wf new.
Proof.
  unfold spawnPhase.
  destruct (SPAWN_ENABLED w && _) eqn:E.
  - pose proof (spawnStar_wf random (WIDTH w) (HEIGHT w) (RANDOM_VELOCITY_ENABLED w)
                  (RANDOM_VELOCITY_STRENGTH w) (randomCalls w)) as Hwf.
    destruct (spawnStar _ _ _ _ _ _) as [b calls]. exists [b]. by repeat constructor.
  - exists []. simpl. rewrite app_nil_r. split_and!; [done|lia|constructor].
Qed.

Lemma spawnPhase_wf dt w : world_wf w → Forall body_wf (spawnPhase dt w).1.1.
Proof.
  intros Hwf. destruct (spawnPhase_at_most_one dt w) as (new & -> & _ & Hnew).
  by apply Forall_app.
Qed.

Lemma motionPhase_length bs g dt : length (motionPhase bs g dt) = length bs.
Proof.
  unfold motionPhase.
  rewrite updatePositions_length. apply applyForces_length, computeForces_length.
Qed.

(** Forces and motion change the collection body by body: whatever
    relates a body to itself pushed and moved relates the collection
    before to the collection after, position by position. *)
Lemma motionPhase_Forall2 (R : Body N → Body N → Prop) bs g dt :
  (∀ b fx fy, R b (updatePosition (applyForce b fx fy dt) dt)) →
  Forall2 R bs (motionPhase bs g dt).
Proof.
  intros HR. unfold motionPhase, updatePositions.
  rewrite applyForces_zip by apply computeForces_length.
  pose proof (computeForces_length bs g) as Hlen. revert Hlen.
  generalize (computeForces bs g). induction bs as [|b bs IH]; intros [|f fs] Hlen;
    simplify_eq/=; constructor; auto.
Qed.

Lemma motionPhase_wf bs g dt :
  Forall body_wf bs → Forall body_wf (motionPhase bs g dt).
Proof.
  intros Hwf. unfold motionPhase.
  apply updatePositions_wf, applyForces_wf; [apply computeForces_length|done].
Qed.

(** What is left after culling is on screen, in the order it had. *)
Lemma cull_on_screen bs width height :
  Forall (λ b, isOffScreen b width height = false) (cull bs width height).
Proof.
  unfold cull. apply Forall_forall. intros b [Hb _]%list_elem_of_filter.
  by apply negb_true_iff, Is_true_true.
Qed.

Lemma cull_sublist bs width height : cull bs width height `sublist_of` bs.
Proof. apply sublist_filter. Qed.

Lemma cull_keeps bs width height :
  Forall (λ b, isOffScreen b width height = false) bs → cull bs width height = bs.
Proof.
  intros Hon. unfold cull. induction Hon as [|b bs Hb _ IH]; [done|].
  rewrite filter_cons_True by (by rewrite Hb). by rewrite IH.
Qed.

(** ** The frame *)

Lemma loop_bodies timestamp w :
  bodies (loop timestamp w) =
    let dt := frameDt timestamp w in
    cull (checkCollisions (motionPhase (spawnPhase dt w).1.1 (G w) dt)
            (COLLISION_ENABLED w)) (WIDTH w) (HEIGHT w).
Proof. unfold loop. by destruct (spawnPhase _ _) as [[? ?] ?]. Qed.

(** A frame changes no setting and records its time stamp. *)
Lemma loop_settings timestamp w :
  let w' := loop timestamp w in
  G w' = G w ∧ COLLISION_ENABLED w' = COLLISION_ENABLED w ∧
  SPAWN_ENABLED w' = SPAWN_ENABLED w ∧
  RANDOM_VELOCITY_ENABLED w' = RANDOM_VELOCITY_ENABLED w ∧
  RANDOM_VELOCITY_STRENGTH w' = RANDOM_VELOCITY_STRENGTH w ∧
  WIDTH w' = WIDTH w ∧ HEIGHT w' = HEIGHT w ∧ lastTimestamp w' = timestamp.
Proof. unfold loop. by destruct (spawnPhase _ _) as [[? ?] ?]. Qed.

Lemma loop_spawnTimer timestamp w :
  spawnTimer (loop timestamp w) = (spawnPhase (frameDt timestamp w) w).1.2.
Proof. unfold loop. by destruct (spawnPhase _ _) as [[? ?] ?]. Qed.

Lemma loop_wf timestamp w : world_wf w → world_wf (loop timestamp w).
Proof.
  intros Hwf. unfold world_wf. rewrite loop_bodies. cbv zeta.
  eapply Forall_sublist; [apply cull_sublist|].
  by apply checkCollisions_wf, motionPhase_wf, spawnPhase_wf.
Qed.

(** C4. After a frame no body of the world is off screen. *)
Lemma loop_on_screen timestamp w :
  let w' := loop timestamp w in
  Forall (λ b, isOffScreen b (WIDTH w') (HEIGHT w') = false) (bodies w').
Proof.
  cbv zeta. destruct (loop_settings timestamp w) as (_&_&_&_&_&->&->&_).
  rewrite loop_bodies. apply cull_on_screen.
Qed.

(** New viewport bounds take effect at the next frame, without a reset:
    [resize] leaves the bodies alone, and the frame that follows culls
    against the new width and height. *)
Lemma resize_takes_effect innerWidth innerHeight timestamp w :
  bodies (resize innerWidth innerHeight w) = bodies w ∧
  Forall (λ b, isOffScreen b innerWidth innerHeight = false)
    (bodies (loop timestamp (resize innerWidth innerHeight w))).
Proof. split; [done|]. rewrite loop_bodies. apply cull_on_screen. Qed.

(** A frame adds at most one body to the world. *)
Lemma loop_length timestamp w :
  length (bodies (loop timestamp w)) ≤ S (length (bodies w)).
Proof.
  rewrite loop_bodies. cbv zeta.
  etrans; [apply sublist_length, cull_sublist|].
  destruct (spawnPhase_at_most_one (frameDt timestamp w) w) as (new & Hnew & ? & _).
  assert (length (motionPhase (spawnPhase (frameDt timestamp w) w).1.1 (G w)
                    (frameDt timestamp w)) ≤ S (length (bodies w))) as Hm.
  { rewrite motionPhase_length, Hnew, length_app. lia. }
  destruct (COLLISION_ENABLED w); [|done].
  rewrite checkCollisions_resolve.
  pose proof (resolved_length (motionPhase (spawnPhase (frameDt timestamp w) w).1.1
                                 (G w) (frameDt timestamp w))). lia.
Qed.

(** ** Reachable worlds *)

Lemma handle_wf e w : world_wf w → world_wf (handle e w).
Proof.
  destruct e; simpl; auto using keydown_wf, mousedown_wf, loop_wf.
Qed.

(** C31. Every body of a reachable world has the radius of its mass. *)
Theorem reachable_wf w : reachable w → world_wf w.
Proof.
  induction 1 as [iw ih|w e w' _ IH Hstep]; [apply reset_wf|].
  destruct Hstep. by apply handle_wf.
Qed.

Lemma run_app events1 events2 w :
  run (events1 ++ events2) w = run events2 (run events1 w).
Proof. apply foldl_app. Qed.

(** Every event leaves at most one body more than it found, and a run
    at most one more per event. *)
Lemma handle_length e w : length (bodies (handle e w)) ≤ S (length (bodies w)).
Proof.
  destruct e as [iw ih|key|cx cy rl rt|t]; simpl.
  - lia.
  - unfold keydown. repeat case_if; rewrite ?reset_bodies; simpl; lia.
  - destruct (mousedown_bodies cx cy rl rt w) as (b & _ & _ & _ & ->).
    rewrite length_app. simpl. lia.
  - apply loop_length.
Qed.

Lemma run_length events w :
  length (bodies (run events w)) ≤ length (bodies w) + length events.
Proof.
  revert w. induction events as [|e events IH]; intros w; simpl; [lia|].
  etrans; [apply IH|]. pose proof (handle_length e w). lia.
Qed.

(** The reachable worlds are the runs from a booted world. *)
Lemma reachable_run w :
  reachable w ↔ ∃ iw ih events, w = run events (boot iw ih).
Proof.
  split.
  - induction 1 as [iw ih|w e w' _ (iw & ih & events & ->) Hstep].
    + by exists iw, ih, [].
    + inv Hstep. exists iw, ih, (events ++ [e]). by rewrite run_app.
  - intros (iw & ih & events & ->).
    induction events as [|e events IH] using rev_ind; [constructor|].
    rewrite run_app. eapply reachable_step; [exact IH|]. apply step_handle.
Qed.

End World.
