(* ===== verification/Invariant.v ===== *)
(** * Invariant: what is true of every body, always

    A body comes into the world in three places ([reset], the
    [mousedown] listener, [spawnStar]), always with a mass drawn from
    between [MASS_MIN] and [MASS_MAX]; afterwards it is pushed
    ([applyForce]), moved ([updatePosition]), merged with another
    ([mergeBodies]) or dropped.  A property of bodies that holds of the
    newborn and that these three operations keep is [Kept]; such a
    property holds of every body of every world the script can reach
    ([reachable_kept]).

    The class is the interface between the script and the number type:
    the proof that the events keep a property is done once, here, for
    every number type; what is proved at a number type is that the
    property is [Kept].  Instances: [body_wf], for every number type
    (below); masses of at least [MASS_MIN] over the reals
    ([RealPhysics]); masses that are not negative on doubles
    ([FloatFacts]). *)

From stdpp Require Import strings.
From S2P Require Import Prelude Num Config Body Force Collision Random World.

Section Invariant.
Context {N : Type} `{!NumOps N}.
Variable random : nat → N.
Local Open Scope num_scope.

(** The mass of a newborn: [randomRange(MASS_MIN, MASS_MAX)] at the
    [k]-th random number. *)
Definition bornMass (k : nat) : N := random k * (MASS_MAX - MASS_MIN) + MASS_MIN.

Class Kept (P : Body N → Prop) : Prop := {
  kept_born x0 y0 vx0 vy0 k : P (newBody x0 y0 (bornMass k) vx0 vy0);
  kept_force b fx fy dt : P b → P (applyForce b fx fy dt);
  kept_move b dt : P b → P (updatePosition b dt);
  kept_merge b1 b2 : P b1 → P b2 → P (mergeBodies b1 b2);
}.

Section Kept.
Context (P : Body N → Prop) `{!Kept P}.

(** ** The phases of a frame *)

Lemma spawnStar_kept width height enabled strength n :
  P (spawnStar random width height enabled strength n).1.
Proof. rewrite spawnStar_run. apply kept_born. Qed.

Lemma spawnPhase_kept dt w :
  Forall P (bodies w) → Forall P (spawnPhase random dt w).1.1.
Proof.
  intros Hw. unfold spawnPhase. case_if; [|done].
  pose proof (spawnStar_kept (WIDTH w) (HEIGHT w) (RANDOM_VELOCITY_ENABLED w)
                (RANDOM_VELOCITY_STRENGTH w) (randomCalls w)) as Hnew.
  destruct (spawnStar _ _ _ _ _ _) as [b calls]. apply Forall_app. by repeat constructor.
Qed.

Lemma motionPhase_kept bs g dt : Forall P bs → Forall P (motionPhase bs g dt).
Proof.
  intros Hbs. unfold motionPhase, updatePositions.
  rewrite applyForces_zip by apply computeForces_length.
  apply Forall_fmap. generalize (computeForces bs g).
  induction Hbs as [|b bs Hb _ IH]; intros [|f fs]; simpl; constructor;
    [by apply kept_move, kept_force|apply IH].
Qed.

(** The members of the merged pairs are bodies of the input. *)
Lemma resolve_pairs_in bodies p :
  p ∈ (resolve bodies).2 → p.1 ∈ bodies ∧ p.2 ∈ bodies.
Proof.
  intros Hp. rewrite (resolve_perm bodies), !elem_of_app, !list_elem_of_bind.
  split; right; exists p; set_solver.
Qed.

Lemma checkCollisions_kept bs enabled :
  Forall P bs → Forall P (checkCollisions bs enabled).
Proof.
  intros Hbs. destruct enabled; [|done]. rewrite checkCollisions_resolve.
  unfold resolved. pose proof (resolve_survivors_sublist bs) as Hsub.
  pose proof (resolve_pairs_in bs) as Hin.
  destruct (resolve bs) as [s p]; simpl in *. apply Forall_app. split.
  - by eapply Forall_sublist.
  - rewrite Forall_forall in Hbs. apply Forall_fmap, Forall_forall.
    intros [b1 b2] [H1 H2]%Hin. apply kept_merge; auto.
Qed.

Lemma loop_kept t w : Forall P (bodies w) → Forall P (bodies (loop random t w)).
Proof.
  intros Hw. rewrite loop_bodies. cbv zeta.
  eapply Forall_sublist; [apply cull_sublist|].
  by apply checkCollisions_kept, motionPhase_kept, spawnPhase_kept.
Qed.

(** ** The listeners *)

Lemma reset_kept w : Forall P (bodies (reset random w)).
Proof. rewrite reset_bodies, seedBody_run. repeat constructor. apply kept_born. Qed.

Lemma keydown_kept key w :
  Forall P (bodies w) → Forall P (bodies (keydown random key w)).
Proof. intros Hw. unfold keydown. repeat case_if; auto using reset_kept. Qed.

Lemma mousedown_kept cx cy rl rt w :
  Forall P (bodies w) → Forall P (bodies (mousedown random cx cy rl rt w)).
Proof.
  intros Hw. unfold mousedown. rewrite !Rnd_bind_run. simpl.
  apply Forall_app. split; [done|]. repeat constructor. apply kept_born.
Qed.

Lemma handle_kept e w :
  Forall P (bodies w) → Forall P (bodies (handle random e w)).
Proof.
  destruct e; simpl; auto using keydown_kept, mousedown_kept, loop_kept.
Qed.

(** A property that is [Kept] holds of every body of every reachable
    world. *)
Lemma reachable_kept w : reachable random w → Forall P (bodies w).
Proof.
  induction 1 as [iw ih|w e w' _ IH Hstep]; [apply reset_kept|].
  destruct Hstep. by apply handle_kept.
Qed.

End Kept.

(** ** Instances for every number type *)

#[export] Instance body_wf_kept : Kept body_wf.
Proof. by split. Qed.

(** Two properties that are kept are kept together. *)
#[export] Instance and_kept (P Q : Body N → Prop) `{!Kept P} `{!Kept Q} :
  Kept (λ b, P b ∧ Q b).
Proof.
  split.
  - split; apply kept_born.
  - intros b fx fy dt [? ?]. split; by apply kept_force.
  - intros b dt [? ?]. split; by apply kept_move.
  - intros b1 b2 [? ?] [? ?]. split; by apply kept_merge.
Qed.

End Invariant.
