(* ===== verification/Cost.v ===== *)
(** * Cost: the work of a frame

    A frame is two nested loops over the pairs of bodies, twice: the
    force computation, which calls [gravForce] for every pair, and the
    collision pass, whose inner loop evaluates the collision test until
    it finds a partner and breaks.  [collisionTests] runs the loops of
    [checkCollisions] with a counter of the collision tests beside
    their state; [gravCalls] is the number of pairs the force loops
    visit; [frameWork] adds the two for a frame.  With [n] bodies in
    the collection neither exceeds [n (n - 1) / 2], and the collision
    pass reaches that number when nothing merges.

    The script keeps no such counters: they are added here beside the
    loops.  [countedLoops_state] shows that the counted loops run the
    loops of [checkCollisions] unchanged, [innerTests_find] that the
    counter of the inner loop counts the bodies the loop tests; the
    force loops visit the pairs of [pairs], once each
    ([computeForces_fold]). *)

From S2P Require Import Prelude Num Config Body Force Collision Random World.

Section Cost.
Context {N : Type} `{!NumOps N}.

(** The collision tests of one run of the inner loop: an index that is
    consumed costs nothing, the index at which the loop breaks is the
    last it tests. *)
Fixpoint innerTests (bodies : list (Body N)) (b1 : Body N) (js : list nat)
    (sk : gset nat) : nat :=
  match js with
  | [] => 0
  | j :: js =>
      if has sk j then innerTests bodies b1 js sk
      else
        match bodies !! j with
        | None => innerTests bodies b1 js sk
        | Some b2 =>
            if overlap b1 b2 then 1 else S (innerTests bodies b1 js sk)
        end
  end.

(** One iteration of the outer loop, with the tests made so far. *)
Definition outerTests (bodies : list (Body N)) (stc : @CollState N * nat)
    (i : nat) : @CollState N * nat :=
  (outerStep bodies stc.1 i,
   if has (skip stc.1) i then stc.2
   else
     match bodies !! i with
     | None => stc.2
     | Some b1 =>
         stc.2 + innerTests bodies b1 (seq (S i) (length bodies - S i)) (skip stc.1)
     end).

(** The state [checkCollisions] ends its loops in, and the collision
    tests it has made. *)
Definition countedLoops (bodies : list (Body N)) : @CollState N * nat :=
  for_range 0 (length bodies) (outerTests bodies)
    ({| merged := []; skip := ∅; newBodies := [] |}, 0).

(** The collision tests of [checkCollisions(bodies, collisionEnabled)]. *)
Definition collisionTests (bodies : list (Body N)) (collisionEnabled : bool) : nat :=
  if negb collisionEnabled then 0 else (countedLoops bodies).2.

(** The calls of [gravForce] in the force computation of a frame: one
    per pair of indices the loop headers enumerate. *)
Definition gravCalls (bodies : list (Body N)) : nat :=
  length (pairs (length bodies)).

Section Frame.
Variable random : nat → N.

(** The calls of [gravForce] and the collision tests of the frame
    [loop(timestamp)]. *)
Definition frameWork (timestamp : N) (w : World) : nat :=
  let dt := frameDt timestamp w in
  let bs := (spawnPhase random dt w).1.1 in
  gravCalls bs + collisionTests (motionPhase bs (G w) dt) (COLLISION_ENABLED w).

End Frame.

(** ** The counter does not disturb the loops *)

Lemma outerTests_state bodies l stc :
  (foldl (outerTests bodies) stc l).1 = foldl (outerStep bodies) stc.1 l.
Proof. revert stc. induction l as [|i l IH]; intros stc; [done|]. simpl. by rewrite IH. Qed.

Lemma countedLoops_state bodies :
  merged (countedLoops bodies).1 ++ newBodies (countedLoops bodies).1 =
  checkCollisions bodies true.
Proof. unfold countedLoops, checkCollisions, for_range. by rewrite outerTests_state. Qed.

(** ** The counter counts the tests of the loop *)

(** A run of the inner loop tests the bodies that are still there, in
    their order, up to and including the first that overlaps [b1] (the
    partner [innerLoop] merges it with, by [innerLoop_findIdx] and
    [findFirst_live]), and all of them if none does. *)
Lemma innerTests_find bodies b1 js sk :
  innerTests bodies b1 js sk =
    match list_find (λ b2, overlap b1 b2 = true) (live bodies sk js) with
    | Some (k, _) => S k
    | None => length (live bodies sk js)
    end.
Proof.
  induction js as [|j js IH]; [done|]. rewrite live_cons. simpl.
  destruct (has sk j); [done|]. destruct (bodies !! j) as [b2|]; [|done]. simpl.
  destruct (overlap b1 b2); [by rewrite decide_True|rewrite decide_False by done].
  rewrite IH. by destruct (list_find _ _) as [[k c]|].
Qed.

(** ** Bounds *)

Lemma innerTests_le bodies b1 js sk : innerTests bodies b1 js sk ≤ length js.
Proof.
  induction js as [|j js IH]; simpl; [done|].
  destruct (has sk j); [lia|]. destruct (bodies !! j) as [b2|]; [|lia].
  destruct (overlap b1 b2); lia.
Qed.

(** Without a partner among the indices, every body there is tested. *)
Lemma innerTests_apart bodies b1 lo len :
  (lo + len ≤ length bodies)%nat →
  (∀ j b2, bodies !! j = Some b2 → lo ≤ j → overlap b1 b2 = false) →
  innerTests bodies b1 (seq lo len) ∅ = len.
Proof.
  revert lo. induction len as [|len IH]; intros lo Hlen Hno; [done|].
  simpl. destruct (lookup_lt_is_Some_2 bodies lo) as [b2 Hb2]; [lia|].
  rewrite Hb2, (Hno lo b2) by done. f_equal. apply IH; [lia|].
  intros j c ? ?. apply (Hno j c); [done|lia].
Qed.

(** What is left of the triangle of pairs below row [i]. *)
Lemma triangle_step (n i : nat) :
  i < n → ((n - i) * (n - i - 1) = 2 * (n - S i) + (n - S i) * (n - S i - 1))%nat.
Proof. intros Hi. replace (n - i)%nat with (S (n - S i)) by lia. simpl. nia. Qed.

Lemma countedLoops_bounded bodies :
  (2 * (countedLoops bodies).2 ≤ length bodies * (length bodies - 1))%nat.
Proof.
  unfold countedLoops. remember (length bodies) as n eqn:Hn.
  cut (2 * (for_range 0 n (outerTests bodies)
              ({| merged := []; skip := ∅; newBodies := [] |}, 0)).2
       + (n - n) * (n - n - 1) ≤ n * (n - 1))%nat; [lia|].
  apply (for_range_ind (λ i stc, (2 * stc.2 + (n - i) * (n - i - 1) ≤ n * (n - 1))%nat));
    [lia|simpl; rewrite Nat.sub_0_r; lia|].
  intros i [st c] Hi IH. simpl in *.
  pose proof (triangle_step n i ltac:(lia)) as Ht.
  destruct (has (skip st) i); [lia|]. destruct (bodies !! i) as [b1|]; [|lia].
  rewrite <- Hn. pose proof (innerTests_le bodies b1 (seq (S i) (n - S i)) (skip st)) as Hle.
  rewrite length_seq in Hle. lia.
Qed.

Lemma countedLoops_apart bodies :
  (∀ i j b1 b2, i < j → bodies !! i = Some b1 → bodies !! j = Some b2 →
     overlap b1 b2 = false) →
  (2 * (countedLoops bodies).2 = length bodies * (length bodies - 1))%nat.
Proof.
  intros Hno. unfold countedLoops. remember (length bodies) as n eqn:Hn.
  cut (let stc := for_range 0 n (outerTests bodies)
                    ({| merged := []; skip := ∅; newBodies := [] |}, 0) in
       skip stc.1 = ∅ ∧ (2 * stc.2 + (n - n) * (n - n - 1) = n * (n - 1))%nat);
    [cbv zeta; lia|].
  apply (for_range_ind (λ i stc,
           skip stc.1 = ∅ ∧ (2 * stc.2 + (n - i) * (n - i - 1) = n * (n - 1))%nat));
    [lia|simpl; rewrite Nat.sub_0_r; split; [done|lia]|].
  intros i [st c] Hi [Hsk IH]. simpl in *.
  pose proof (triangle_step n i ltac:(lia)) as Ht.
  destruct (lookup_lt_is_Some_2 bodies i) as [b1 Hb1]; [lia|].
  assert (∀ j b2, bodies !! j = Some b2 → S i ≤ j → overlap b1 b2 = false) as Hrow.
  { intros j b2 Hb2 Hj. apply (Hno i j); [lia|done..]. }
  rewrite (outerStep_cases _ _ _ _ Hb1), Hb1, Hsk, <- Hn.
  rewrite (innerTests_apart bodies b1 (S i) (n - S i)) by (done || lia).
  replace (has (∅ : gset nat) i) with false
    by (unfold has; by rewrite bool_decide_eq_false_2 by set_solver).
  destruct (findIdx bodies ∅ b1 (seq (S i) (n - S i))) as [[j b2]|] eqn:Hf; [|split; [done|lia]].
  apply findIdx_Some in Hf as (Hj%elem_of_seq & _ & Hb2 & Hov).
  rewrite (Hrow j b2) in Hov by (done || lia). done.
Qed.

(** ** The pass and the frame *)

(** The collision pass makes at most [n (n - 1) / 2] collision
    tests on [n] bodies, none when collisions are switched off, and
    exactly [n (n - 1) / 2] when no two bodies overlap; the counter
    runs beside the loops of [checkCollisions] and leaves their result
    as it is. *)
Theorem collisionTests_bounded bodies enabled :
  let n := length bodies in
  (2 * collisionTests bodies enabled ≤ n * (n - 1))%nat ∧
  collisionTests bodies false = 0 ∧
  merged (countedLoops bodies).1 ++ newBodies (countedLoops bodies).1 =
    checkCollisions bodies true ∧
  ((∀ i j b1 b2, i < j → bodies !! i = Some b1 → bodies !! j = Some b2 →
      overlap b1 b2 = false) →
   (2 * collisionTests bodies true = n * (n - 1))%nat).
Proof.
  split_and!; [|done|apply countedLoops_state|apply countedLoops_apart].
  destruct enabled; [apply countedLoops_bounded|simpl; lia].
Qed.

Section FrameWork.
Variable random : nat → N.

(** A frame that starts with [n] bodies calls [gravForce] and tests
    for a collision at most [(n + 1) n] times together. *)
Lemma frameWork_frame timestamp w :
  frameWork random timestamp w ≤ (length (bodies w) + 1) * length (bodies w).
Proof.
  unfold frameWork, gravCalls. cbv zeta.
  destruct (spawnPhase_at_most_one random (frameDt timestamp w) w) as (new & Hnew & Hlen & _).
  set (bs := (spawnPhase random (frameDt timestamp w) w).1.1) in *.
  pose proof (pairs_length (length bs)) as Hp.
  assert (2 * collisionTests (motionPhase bs (G w) (frameDt timestamp w))
                (COLLISION_ENABLED w) ≤ length bs * (length bs - 1))%nat as Hc.
  { destruct (COLLISION_ENABLED w); [|simpl; lia].
    pose proof (countedLoops_bounded (motionPhase bs (G w) (frameDt timestamp w))) as H.
    by rewrite motionPhase_length in H. }
  assert (length bs ≤ S (length (bodies w))) as Hbs.
  { subst bs. rewrite Hnew, length_app. lia. }
  nia.
Qed.

(** C29. The loops of a frame end after a number of steps that is
    quadratic in the number of bodies, and the bodies are at most one
    more per event: after any events, from a world of [n] bodies, a
    frame calls [gravForce] and tests for a collision at most
    [(m + 1) m] times together, [m] being [n] and the number of the
    events. *)
Theorem frameWork_bounded events timestamp w :
  let m := (length (bodies w) + length events)%nat in
  frameWork random timestamp (run random events w) ≤ (m + 1) * m.
Proof.
  cbv zeta. etrans; [apply frameWork_frame|].
  pose proof (run_length random events w). nia.
Qed.

End FrameWork.

End Cost.
