(* ===== verification/RealNum.v ===== *)
(** * RealNum: the numbers of the script read as real numbers

    The instance [R_num] interprets every operation of [Num.NumOps] by
    its mathematical meaning.  [Math.pow] is the real power on a
    positive base (the script raises masses, which are positive, to the
    power [0.8]); [Math.floor] is the integer part towards minus
    infinity; the comparisons decide the order of the reals.  The lemmas
    below are the facts about these operations that the proofs of
    [RealPhysics] share, and [rnum] is the tactic that turns a goal about
    the model's operations into one about [R] for [lra], [nra] and
    [field]. *)

From Stdlib Require Import Reals Lra Psatz Zfloor.
From S2P Require Import Prelude Num Config.

#[export] Instance Rlt_decision (a b : R) : Decision (a < b)%R := Rlt_dec a b.
#[export] Instance Rle_decision (a b : R) : Decision (a <= b)%R := Rle_dec a b.
#[export] Instance R_eq_decision : EqDecision R := Req_dec_T.

#[export] Instance R_num : NumOps R := {|
  of_Z := IZR;
  nadd := Rplus;
  nsub := Rminus;
  nmul := Rmult;
  ndiv := Rdiv;
  nltb a b := bool_decide (a < b)%R;
  nleb a b := bool_decide (a <= b)%R;
  falsy a := bool_decide (a = 0%R);
  Math_sqrt := sqrt;
  Math_floor a := IZR (Zfloor a);
  Math_cos := cos;
  Math_sin := sin;
  Math_pow a b := if decide (0 < a)%R then Rpower a b else 0%R;
  Math_hypot a b := sqrt (a * a + b * b);
  Math_max := Rmax;
  Math_min := Rmin;
  Math_PI := PI;
|}.

(** [rnum]: unfold the model's operations and constants to those of [R]. *)
Ltac rnum :=
  unfold MAX_FORCE, SPAWN_INTERVAL, MASS_MIN, MASS_MAX, G_default,
    RANDOM_VELOCITY_STRENGTH_default, decimal, int in *;
  cbn [of_Z nadd nsub nmul ndiv nltb nleb falsy Math_sqrt Math_floor Math_cos
       Math_sin Math_pow Math_hypot Math_max Math_min Math_PI R_num] in *.

(** [rbool]: turn the boolean comparisons of the context and the goal
    into the propositions they decide. *)
Ltac rbool :=
  repeat match goal with
  | H : bool_decide _ = true |- _ => apply bool_decide_eq_true in H
  | H : bool_decide _ = false |- _ => apply bool_decide_eq_false in H
  | |- bool_decide _ = true => apply bool_decide_eq_true
  | |- bool_decide _ = false => apply bool_decide_eq_false
  end.

Section RealLemmas.
Local Open Scope R_scope.
Implicit Types a b c d : R.

(** ** Comparisons *)

Lemma nltb_lt a b : nltb a b = true ↔ a < b.
Proof. rnum. apply bool_decide_eq_true. Qed.

Lemma nltb_ge a b : nltb a b = false ↔ b <= a.
Proof. rnum. rewrite bool_decide_eq_false. lra. Qed.

Lemma nleb_le a b : nleb a b = true ↔ a <= b.
Proof. rnum. apply bool_decide_eq_true. Qed.

Lemma nleb_gt a b : nleb a b = false ↔ b < a.
Proof. rnum. rewrite bool_decide_eq_false. lra. Qed.

(** ** Square roots *)

Lemma sqrt_sq_sum_nonneg a b : 0 <= a * a + b * b.
Proof. nra. Qed.

Lemma sqrt_sq_sum_sq a b : sqrt (a * a + b * b) * sqrt (a * a + b * b) = a * a + b * b.
Proof. apply sqrt_sqrt, sqrt_sq_sum_nonneg. Qed.

(** The distance of two points does not depend on their order. *)
Lemma sq_sum_sym a b c d :
  (a - b) * (a - b) + (c - d) * (c - d) = (b - a) * (b - a) + (d - c) * (d - c).
Proof. ring. Qed.

(** Comparing a distance with a positive bound is comparing the squares. *)
Lemma sqrt_lt_sq a r : 0 <= a → 0 < r → sqrt a < r ↔ a < r * r.
Proof.
  intros Ha Hr. rewrite <- (sqrt_square r) at 1 by lra. split.
  - apply sqrt_lt_0_alt.
  - intros. apply sqrt_lt_1_alt. lra.
Qed.

Lemma sqrt_ge_sq a c : 0 <= c → c * c <= a → c <= sqrt a.
Proof.
  intros Hc Ha. rewrite <- (sqrt_square c) at 1 by done. by apply sqrt_le_1_alt.
Qed.

Lemma sqrt_scale2 a : 0 <= a → sqrt (4 * a) = 2 * sqrt a.
Proof.
  intros Ha. rewrite sqrt_mult by lra.
  replace 4 with (2 * 2) by lra. by rewrite sqrt_square by lra.
Qed.

(** ** Minimum and maximum *)

Lemma Rmin_cap a c : 0 <= a → 0 <= c → 0 <= Rmin a c <= c.
Proof. intros. unfold Rmin. destruct (Rle_dec a c); lra. Qed.

Lemma Rmin_capped a c : c <= a → Rmin a c = c.
Proof. intros. unfold Rmin. destruct (Rle_dec a c); lra. Qed.

Lemma Rmin_uncapped a c : a <= c → Rmin a c = a.
Proof. intros. unfold Rmin. destruct (Rle_dec a c); lra. Qed.

(** ** Floor and power *)

Lemma floor_le a : IZR (Zfloor a) <= a.
Proof. apply Zfloor_bound. Qed.

Lemma Rpower_le_base a : 1 <= a → Rpower a (8 / 10) <= a.
Proof.
  intros Ha. rewrite <- (Rpower_1 a) at 2 by lra.
  apply Rle_Rpower; lra.
Qed.

Lemma Rpower_mono_base a b : 0 < a → a <= b → Rpower a (8 / 10) <= Rpower b (8 / 10).
Proof. intros Ha Hab. apply Rle_Rpower_l; lra. Qed.

End RealLemmas.
