(* ===== verification/RealPhysics.v ===== *)
(** * RealPhysics: the laws of the simulation over the real numbers

    Every statement here is about the definitions of [Body], [Force],
    [Collision] and [World] at the instance [RealNum.R_num].  The
    sections follow the components: the radius of a body, the impulse of
    a force, the pairwise force (symmetry, cap, floor, inverse square),
    the merge (mass, momentum, centre of mass, kinetic energy), the
    force array (action and reaction), and the frame. *)

From Stdlib Require Import Reals Lra Psatz Zfloor.
From stdpp Require Import strings.
From S2P Require Import Prelude Num Config Body Force Collision Random World Invariant.
From S2P Require Import RealNum.

Local Open Scope R_scope.
Implicit Types b : Body R.

(** ** Quantities of a collection of bodies *)

Definition momentumX b : R := masse b * vx b.
Definition momentumY b : R := masse b * vy b.
Definition kineticEnergy b : R := masse b * (vx b * vx b + vy b * vy b) / 2.

(** Sum of a quantity over a list. *)
Definition total {A} (q : A → R) (l : list A) : R :=
  foldr (λ a acc, q a + acc) 0 l.

Definition totalMass : list (Body R) → R := total masse.

(** All masses are positive. *)
Definition positive_masses (bs : list (Body R)) : Prop :=
  Forall (λ b, 0 < masse b) bs.

Section Totals.
Context {A : Type}.
Variable q : A → R.
Implicit Types l : list A.

Lemma total_app l1 l2 : total q (l1 ++ l2) = total q l1 + total q l2.
Proof. induction l1 as [|a l1 IH]; simpl; [lra|]. rewrite IH. lra. Qed.

#[export] Instance total_perm : Proper ((≡ₚ) ==> (=)) (total q).
Proof.
  intros l1 l2 Hperm. induction Hperm; simpl; [done|congruence|lra|congruence].
Qed.

Lemma total_ext (q' : A → R) l :
  Forall (λ a, q a = q' a) l → total q l = total q' l.
Proof. induction 1 as [|a l Ha _ IH]; simpl; [done|]. by rewrite Ha, IH. Qed.

Lemma total_fmap {B} (f : B → A) (k : list B) : total q (f <$> k) = total (q ∘ f) k.
Proof. induction k as [|b k IH]; csimpl; [done|]. by rewrite IH. Qed.

(** Updating one entry changes the sum by the change of that entry. *)
Lemma total_alter (f : A → A) i l a :
  l !! i = Some a → total q (alter f i l) = total q l + (q (f a) - q a).
Proof.
  revert i. induction l as [|c l IH]; intros [|i] Hi; simplify_eq/=; [lra|].
  rewrite (IH i) by done. lra.
Qed.

Lemma total_zero l : Forall (λ a, q a = 0) l → total q l = 0.
Proof. induction 1 as [|a l Ha _ IH]; simpl; [done|]. rewrite Ha, IH. lra. Qed.

Lemma total_nonneg l : Forall (λ a, 0 <= q a) l → 0 <= total q l.
Proof. induction 1; simpl; lra. Qed.

End Totals.

(** ** The radius *)

(** The radius is at least [5]. *)
Lemma calcRadius_ge_5 (m : R) : 5 <= calcRadius m.
Proof. unfold calcRadius. rnum. apply Rmax_l. Qed.

(** The radius is a whole number. *)
Lemma calcRadius_integer (m : R) : ∃ z : Z, calcRadius m = IZR z.
Proof.
  unfold calcRadius. rnum. unfold Rmax. destruct (Rle_dec _ _); eauto.
Qed.

(** A mass in the range the script draws from has radius [5]. *)
Lemma calcRadius_small (m : R) : 1 <= m <= 5 → calcRadius m = 5.
Proof.
  intros Hm. unfold calcRadius. rnum. rewrite decide_True by lra.
  apply Rmax_left. etrans; [apply floor_le|].
  etrans; [apply Rpower_le_base; lra|lra].
Qed.

(** A heavier body is not smaller. *)
Lemma calcRadius_mono (m1 m2 : R) :
  0 < m1 → m1 <= m2 → calcRadius m1 <= calcRadius m2.
Proof.
  intros H1 H12. unfold calcRadius. rnum. rewrite !decide_True by lra.
  apply Rle_max_compat_l, IZR_le, Zfloor_le, Rpower_mono_base; lra.
Qed.

(** ** Impulse *)

(** [applyForce] changes the momentum by force times time. *)
Lemma applyForce_impulse b fx fy dt :
  masse b ≠ 0 →
  momentumX (applyForce b fx fy dt) = momentumX b + fx * dt ∧
  momentumY (applyForce b fx fy dt) = momentumY b + fy * dt.
Proof. intros Hm. unfold momentumX, momentumY, applyForce. rnum. simpl. split; field; done. Qed.

(** With a zero time step nothing moves. *)
Lemma applyForce_dt0 b fx fy : applyForce b fx fy 0 = b.
Proof.
  unfold applyForce. rnum. destruct b; simpl. f_equal; lra.
Qed.

Lemma updatePosition_dt0 b : updatePosition b 0 = b.
Proof. unfold updatePosition. rnum. destruct b; simpl. f_equal; lra. Qed.

(** ** Merging *)

Section Merge.
Variables b1 b2 : Body R.
Hypothesis Hm1 : 0 < masse b1.
Hypothesis Hm2 : 0 < masse b2.

Lemma mergeBodies_masse : masse (mergeBodies b1 b2) = masse b1 + masse b2.
Proof. done. Qed.

Lemma mergeBodies_positive : 0 < masse (mergeBodies b1 b2).
Proof. rewrite mergeBodies_masse. lra. Qed.

(** The merged body has the momentum of the two. *)
Lemma mergeBodies_momentum :
  momentumX (mergeBodies b1 b2) = momentumX b1 + momentumX b2 ∧
  momentumY (mergeBodies b1 b2) = momentumY b1 + momentumY b2.
Proof.
  unfold momentumX, momentumY, mergeBodies. rnum. simpl. split; field; lra.
Qed.

(** The merged body lies at the centre of mass of the two. *)
Lemma mergeBodies_centre :
  masse (mergeBodies b1 b2) * x (mergeBodies b1 b2) =
    masse b1 * x b1 + masse b2 * x b2 ∧
  masse (mergeBodies b1 b2) * y (mergeBodies b1 b2) =
    masse b1 * y b1 + masse b2 * y b2.
Proof. unfold mergeBodies. rnum. simpl. split; field; lra. Qed.

(** The collision is inelastic: kinetic energy does not grow, and the
    loss is that of the relative motion. *)
Lemma mergeBodies_energy :
  kineticEnergy (mergeBodies b1 b2) =
    kineticEnergy b1 + kineticEnergy b2
    - masse b1 * masse b2 / (masse b1 + masse b2)
      * ((vx b1 - vx b2) * (vx b1 - vx b2) + (vy b1 - vy b2) * (vy b1 - vy b2)) / 2.
Proof. unfold kineticEnergy, mergeBodies. rnum. simpl. field. lra. Qed.

Lemma mergeBodies_energy_le :
  kineticEnergy (mergeBodies b1 b2) <= kineticEnergy b1 + kineticEnergy b2.
Proof.
  rewrite mergeBodies_energy.
  assert (0 <= masse b1 * masse b2 / (masse b1 + masse b2)) as Hmu.
  { apply Rmult_le_pos; [nra|]. left. apply Rinv_0_lt_compat. lra. }
  pose proof (Rmult_le_pos _ _ Hmu
                (sqrt_sq_sum_nonneg (vx b1 - vx b2) (vy b1 - vy b2))).
  lra.
Qed.

End Merge.

(** ** The pairwise force *)

Section Gravity.
Variables b1 b2 : Body R.
Variable g : R.

Local Abbreviation dx := (x b2 - x b1).
Local Abbreviation dy := (y b2 - y b1).
Local Abbreviation distSq := (dx * dx + dy * dy).
Local Abbreviation raw := (g * masse b1 * masse b2 / distSq).

(** [gravForce] over the reals, by cases on the distance. *)
Lemma gravForce_real :
  gravForce b1 b2 g =
    if decide (sqrt distSq < 1 / 2)
    then let f := Rmin (g * masse b1 * masse b2 / (1 / 2 * (1 / 2))) 10000 in
         (f * dx / (1 / 2), f * dy / (1 / 2))
    else let f := Rmin raw 10000 in
         (f * dx / sqrt distSq, f * dy / sqrt distSq).
Proof.
  unfold gravForce. rnum.
  replace (5 / 10) with (1 / 2) by lra.
  destruct (decide (sqrt distSq < 1 / 2)) as [Hnear|Hfar].
  - by rewrite bool_decide_eq_true_2.
  - by rewrite bool_decide_eq_false_2.
Qed.

(** The squared magnitude of the force outside the clamp. *)
Lemma gravForce_far_magnitude :
  1 / 2 <= sqrt distSq →
  let f := gravForce b1 b2 g in
  f.1 * f.1 + f.2 * f.2 = Rmin raw 10000 * Rmin raw 10000.
Proof.
  intros Hfar. cbv zeta. rewrite gravForce_real, decide_False by lra. simpl.
  pose proof (sqrt_sq_sum_sq dx dy) as Hd.
  set (d := sqrt distSq) in *. set (f := Rmin raw 10000).
  transitivity (f * f * distSq / (d * d)); [field; lra|].
  rewrite <- Hd. field. lra.
Qed.

(** The squared magnitude inside the clamp: the capped force scaled by
    the ratio of the true distance to the floor. *)
Lemma gravForce_near_magnitude :
  sqrt distSq < 1 / 2 →
  let f := gravForce b1 b2 g in
  let c := Rmin (g * masse b1 * masse b2 / (1 / 2 * (1 / 2))) 10000 in
  f.1 * f.1 + f.2 * f.2 = c * c * (distSq / (1 / 2 * (1 / 2))).
Proof.
  intros Hnear. cbv zeta. rewrite gravForce_real, decide_True by lra. simpl. field.
Qed.

End Gravity.

(** Swapping the bodies negates the force. *)
Lemma gravForce_swap b1 b2 g :
  gravForce b2 b1 g = (- (gravForce b1 b2 g).1, - (gravForce b1 b2 g).2)%R.
Proof.
  rewrite !gravForce_real.
  rewrite (sq_sum_sym (x b1) (x b2) (y b1) (y b2)).
  replace (g * masse b2 * masse b1) with (g * masse b1 * masse b2) by ring.
  case_decide; simpl; f_equal; unfold Rdiv; ring.
Qed.

(** C12. Action and reaction: the force on [b1] towards [b2] and the force
    on [b2] towards [b1] cancel, at every distance, inside the clamp and
    under the cap too. *)
Theorem gravForce_antisym b1 b2 g :
  (gravForce b1 b2 g).1 + (gravForce b2 b1 g).1 = 0 ∧
  (gravForce b1 b2 g).2 + (gravForce b2 b1 g).2 = 0.
Proof. rewrite (gravForce_swap b1 b2). simpl. split; lra. Qed.

(** C9. The magnitude of the force never exceeds [MAX_FORCE]. *)
Theorem gravForce_bounded b1 b2 g :
  0 <= g * masse b1 * masse b2 →
  let f := gravForce b1 b2 g in
  f.1 * f.1 + f.2 * f.2 <= MAX_FORCE * MAX_FORCE.
Proof.
  intros Hpos. cbv zeta. rnum.
  set (dSq := (x b2 - x b1) * (x b2 - x b1) + (y b2 - y b1) * (y b2 - y b1)).
  assert (0 <= dSq) as HdSq by apply sqrt_sq_sum_nonneg.
  destruct (Rlt_le_dec (sqrt dSq) (1 / 2)) as [Hnear|Hfar].
  - rewrite gravForce_near_magnitude by done. fold dSq.
    apply sqrt_lt_sq in Hnear; [|done|lra].
    assert (0 <= g * masse b1 * masse b2 / (1 / 2 * (1 / 2))) as Hraw.
    { apply Rmult_le_pos; [done|]. lra. }
    destruct (Rmin_cap _ 10000 Hraw) as [? ?]; [lra|].
    set (c := Rmin _ _) in *.
    assert (0 <= dSq / (1 / 2 * (1 / 2)) <= 1) as [? ?] by (split; lra).
    assert (c * c <= 10000 * 10000) by nra. nra.
  - rewrite gravForce_far_magnitude by done. fold dSq.
    assert (0 < dSq) as HdSq'.
    { destruct (Req_dec dSq 0) as [E|]; [|lra]. rewrite E, sqrt_0 in Hfar. lra. }
    assert (0 <= g * masse b1 * masse b2 / dSq) as Hraw.
    { apply Rmult_le_pos; [done|]. left. by apply Rinv_0_lt_compat. }
    destruct (Rmin_cap _ 10000 Hraw) as [? ?]; [lra|]. nra.
Qed.

(** C33. Outside the distance floor, a force [G * m1 * m2 / d^2] that
    reaches the cap is applied with magnitude exactly [MAX_FORCE]. *)
Theorem gravForce_capped b1 b2 g :
  let dSq := (x b2 - x b1) * (x b2 - x b1) + (y b2 - y b1) * (y b2 - y b1) in
  1 / 2 <= sqrt dSq →
  MAX_FORCE <= g * masse b1 * masse b2 / dSq →
  let f := gravForce b1 b2 g in
  f.1 * f.1 + f.2 * f.2 = MAX_FORCE * MAX_FORCE.
Proof.
  intros dSq Hfar Hraw. cbv zeta. rnum.
  rewrite gravForce_far_magnitude by done. fold dSq. by rewrite Rmin_capped.
Qed.

(** C32. Inside the clamp the applied force is weaker than the cap, however
    large the raw force: the direction vector is divided by the floor and
    not by the distance. *)
Theorem gravForce_near_below_cap b1 b2 g :
  let dSq := (x b2 - x b1) * (x b2 - x b1) + (y b2 - y b1) * (y b2 - y b1) in
  sqrt dSq < 1 / 2 →
  0 <= g * masse b1 * masse b2 →
  let f := gravForce b1 b2 g in
  f.1 * f.1 + f.2 * f.2 < MAX_FORCE * MAX_FORCE.
Proof.
  intros dSq Hnear Hpos. cbv zeta. rnum.
  rewrite gravForce_near_magnitude by done. fold dSq.
  assert (0 <= dSq) as HdSq by apply sqrt_sq_sum_nonneg.
  apply sqrt_lt_sq in Hnear; [|done|lra].
  assert (0 <= g * masse b1 * masse b2 / (1 / 2 * (1 / 2))) as Hraw.
  { apply Rmult_le_pos; [done|]. lra. }
  destruct (Rmin_cap _ 10000 Hraw) as [? ?]; [lra|].
  set (c := Rmin _ _) in *.
  assert (0 <= dSq / (1 / 2 * (1 / 2)) < 1) as [? ?] by (split; lra).
  assert (c * c <= 10000 * 10000) by nra. nra.
Qed.

(** C14. Gravity attracts: where [G * m1 * m2] is not negative, each
    component of the force on [b1] has the sign of the difference of
    the coordinates towards [b2], or is zero; inside the distance floor
    and under the cap too. *)
Theorem gravForce_attracts b1 b2 g :
  0 <= g * masse b1 * masse b2 →
  let f := gravForce b1 b2 g in
  0 <= f.1 * (x b2 - x b1) ∧ 0 <= f.2 * (y b2 - y b1).
Proof.
  intros Hpos. cbv zeta. rewrite gravForce_real.
  set (dSq := (x b2 - x b1) * (x b2 - x b1) + (y b2 - y b1) * (y b2 - y b1)).
  assert (0 <= dSq) as HdSq by apply sqrt_sq_sum_nonneg.
  assert (∀ f d a : R, 0 <= f → 0 < d → 0 <= f * a / d * a) as Hsign.
  { intros f d a Hf Hd. replace (f * a / d * a) with (f * / d * (a * a)) by (field; lra).
    apply Rmult_le_pos; [|nra]. apply Rmult_le_pos; [done|].
    left. by apply Rinv_0_lt_compat. }
  case_decide as Hd; simpl.
  - assert (0 <= g * masse b1 * masse b2 / (1 / 2 * (1 / 2))) as Hraw.
    { apply Rmult_le_pos; [done|]. lra. }
    destruct (Rmin_cap _ 10000 Hraw) as [? ?]; [lra|]. split; apply Hsign; lra.
  - assert (0 < dSq) as HdSq'.
    { destruct (Req_dec dSq 0) as [E|]; [|lra]. rewrite E, sqrt_0 in Hd. lra. }
    assert (0 <= g * masse b1 * masse b2 / dSq) as Hraw.
    { apply Rmult_le_pos; [done|]. left. by apply Rinv_0_lt_compat. }
    destruct (Rmin_cap _ 10000 Hraw) as [? ?]; [lra|]. split; apply Hsign; lra.
Qed.

(** C34. Inverse-square law: outside the clamp and below the cap, moving
    [b2] to twice its distance from [b1] divides the force by four. *)
Theorem gravForce_inverse_square b1 b2 b2' g :
  let dSq := (x b2 - x b1) * (x b2 - x b1) + (y b2 - y b1) * (y b2 - y b1) in
  x b2' - x b1 = 2 * (x b2 - x b1) →
  y b2' - y b1 = 2 * (y b2 - y b1) →
  masse b2' = masse b2 →
  1 / 2 <= sqrt dSq →
  g * masse b1 * masse b2 / dSq <= MAX_FORCE →
  gravForce b1 b2' g = ((gravForce b1 b2 g).1 / 4, (gravForce b1 b2 g).2 / 4).
Proof.
  intros dSq Hx Hy Hm Hfar Hraw. rnum. rewrite !gravForce_real, Hx, Hy, Hm.
  fold dSq.
  assert (0 <= dSq) as HdSq by apply sqrt_sq_sum_nonneg.
  assert (0 < dSq) as HdSq'.
  { destruct (Req_dec dSq 0) as [E|]; [|lra]. rewrite E, sqrt_0 in Hfar. lra. }
  replace (2 * (x b2 - x b1) * (2 * (x b2 - x b1)) +
           2 * (y b2 - y b1) * (2 * (y b2 - y b1))) with (4 * dSq)
    by (unfold dSq; ring).
  rewrite sqrt_scale2 by done.
  rewrite !decide_False by lra. simpl.
  replace (g * masse b1 * masse b2 / (4 * dSq))
    with (g * masse b1 * masse b2 / dSq / 4) by (field; lra).
  rewrite !Rmin_uncapped by lra.
  f_equal; field; lra.
Qed.

(** ** A collision pass conserves what each merge conserves *)

Section Conservation.
Variable q : Body R → R.
Hypothesis q_merge :
  ∀ b1 b2, 0 < masse b1 → 0 < masse b2 → q (mergeBodies b1 b2) = q b1 + q b2.

Lemma total_merged (pairs : list (Body R * Body R)) :
  Forall (λ p, 0 < masse p.1 ∧ 0 < masse p.2) pairs →
  total q (uncurry mergeBodies <$> pairs) = total q (pairs ≫= λ p, [p.1; p.2]).
Proof.
  induction 1 as [|[c1 c2] pairs [H1 H2] _ IH]; csimpl; [done|].
  rewrite IH, q_merge by done. simpl. lra.
Qed.

Lemma resolved_conserves bodies :
  positive_masses bodies → total q (resolved bodies) = total q bodies.
Proof.
  intros Hpos. pose proof (resolve_perm bodies) as Hperm.
  unfold resolved. destruct (resolve bodies) as [s pairs]; simpl in *.
  rewrite Hperm, !total_app. f_equal. apply total_merged.
  unfold positive_masses in Hpos. rewrite Hperm, Forall_app in Hpos.
  destruct Hpos as [_ Hpairs]. clear -Hpairs.
  induction pairs as [|[c1 c2] pairs IH]; csimpl in *; [constructor|].
  inv Hpairs. inv H2. constructor; auto.
Qed.

End Conservation.

(** A quantity that every merge conserves is conserved by a collision
    pass, enabled or not. *)
Lemma checkCollisions_conserves (q : Body R → R) bodies enabled :
  (∀ b1 b2, 0 < masse b1 → 0 < masse b2 → q (mergeBodies b1 b2) = q b1 + q b2) →
  positive_masses bodies →
  total q (checkCollisions bodies enabled) = total q bodies.
Proof.
  intros Hq Hpos. destruct enabled; [|done]. rewrite checkCollisions_resolve.
  by apply resolved_conserves.
Qed.

(** A collision pass conserves the total mass. *)
Theorem checkCollisions_mass bodies enabled :
  positive_masses bodies →
  totalMass (checkCollisions bodies enabled) = totalMass bodies.
Proof. intros Hpos. by apply checkCollisions_conserves. Qed.

(** C8. A collision pass conserves the total momentum. *)
Theorem checkCollisions_momentum bodies enabled :
  positive_masses bodies →
  total momentumX (checkCollisions bodies enabled) = total momentumX bodies ∧
  total momentumY (checkCollisions bodies enabled) = total momentumY bodies.
Proof.
  intros Hpos.
  split; (apply checkCollisions_conserves; [|done]); intros; by apply mergeBodies_momentum.
Qed.

(** A collision pass keeps the centre of mass where it is. *)
Theorem checkCollisions_centre bodies enabled :
  positive_masses bodies →
  total (λ b, masse b * x b) (checkCollisions bodies enabled) =
    total (λ b, masse b * x b) bodies ∧
  total (λ b, masse b * y b) (checkCollisions bodies enabled) =
    total (λ b, masse b * y b) bodies.
Proof.
  intros Hpos.
  split; (apply checkCollisions_conserves; [|done]); intros; by apply mergeBodies_centre.
Qed.

(** Masses stay positive through a collision pass. *)
Lemma checkCollisions_positive bodies enabled :
  positive_masses bodies → positive_masses (checkCollisions bodies enabled).
Proof.
  intros Hpos. destruct enabled; [|done]. rewrite checkCollisions_resolve.
  pose proof (resolve_perm bodies) as Hperm.
  pose proof (resolve_survivors_sublist bodies) as Hsub.
  unfold resolved, positive_masses in *.
  destruct (resolve bodies) as [s pairs]; simpl in *.
  rewrite Hperm, Forall_app in Hpos. destruct Hpos as [Hs Hpairs].
  apply Forall_app. split; [done|]. clear -Hpairs.
  induction pairs as [|[c1 c2] pairs IH]; csimpl in *; [constructor|].
  inv Hpairs. inv H2. constructor; [|auto]. by apply mergeBodies_positive.
Qed.

(** C35. With positive masses, a collision pass does not create kinetic
    energy. *)
Theorem checkCollisions_energy bodies enabled :
  positive_masses bodies →
  total kineticEnergy (checkCollisions bodies enabled) <= total kineticEnergy bodies.
Proof.
  intros Hpos. destruct enabled; [|apply Rle_refl]. rewrite checkCollisions_resolve.
  pose proof (resolve_perm bodies) as Hperm.
  unfold resolved, positive_masses in *.
  destruct (resolve bodies) as [s pairs]; simpl in *.
  rewrite Hperm. rewrite Hperm, Forall_app in Hpos. destruct Hpos as [_ Hpairs].
  rewrite !total_app. apply Rplus_le_compat_l. clear -Hpairs.
  induction pairs as [|[c1 c2] pairs IH]; csimpl in *; [lra|].
  inv Hpairs. inv H2. specialize (IH H4).
  pose proof (mergeBodies_energy_le c1 c2 H1 H3). simpl in *. lra.
Qed.

(** ** The force array: action and reaction *)

Lemma total_zero_forces (bodies : list (Body R)) :
  total fst ((λ _, (int 0, int 0)) <$> bodies) = 0 ∧
  total snd ((λ _, (int 0, int 0)) <$> bodies) = 0.
Proof. rnum. induction bodies as [|b bs [IH1 IH2]]; csimpl; [done|]. split; lra. Qed.

(** One pair adds a force to one entry and subtracts it from another:
    the sums of the array do not change. *)
Lemma pairForce_total bodies g forces i j :
  length forces = length bodies → i ≠ j →
  total fst (pairForce bodies g forces i j) = total fst forces ∧
  total snd (pairForce bodies g forces i j) = total snd forces.
Proof.
  intros Hlen Hij. unfold pairForce.
  destruct (bodies !! i) as [bi|] eqn:Hi; [|done].
  destruct (bodies !! j) as [bj|] eqn:Hj; [|done].
  destruct (gravForce bi bj g) as [fx fy].
  destruct (lookup_lt_is_Some_2 forces i) as [fi Hfi];
    [rewrite Hlen; by eapply lookup_lt_Some|].
  destruct (lookup_lt_is_Some_2 forces j) as [fj Hfj];
    [rewrite Hlen; by eapply lookup_lt_Some|].
  rewrite !(total_alter _ _ j _ fj) by (by rewrite list_lookup_alter_ne).
  rewrite !(total_alter _ _ i _ fi) by done. rnum. simpl. split; lra.
Qed.

Lemma forceRow_total bodies g forces i :
  length forces = length bodies →
  total fst (forceRow bodies g forces i) = total fst forces ∧
  total snd (forceRow bodies g forces i) = total snd forces.
Proof.
  intros Hlen. unfold forceRow.
  destruct (decide (S i ≤ length bodies)); [|by rewrite for_range_empty by lia].
  apply (for_range_ind (λ _ fs, length fs = length bodies ∧
                                total fst fs = total fst forces ∧
                                total snd fs = total snd forces)); [done..|].
  intros j fs Hj (Hfs & <- & <-). split; [by rewrite pairForce_length|].
  apply pairForce_total; [done|lia].
Qed.

(** Newton's third law for the whole array: the forces of a frame sum
    to zero. *)
Theorem computeForces_total bodies g :
  total fst (computeForces bodies g) = 0 ∧ total snd (computeForces bodies g) = 0.
Proof.
  unfold computeForces.
  apply (for_range_ind (λ _ fs, length fs = length bodies ∧
                                total fst fs = 0 ∧ total snd fs = 0));
    [lia|split; [by rewrite length_fmap|apply total_zero_forces]|].
  intros i fs _ (Hlen & H1 & H2). split; [by rewrite forceRow_length|].
  by destruct (forceRow_total bodies g fs i Hlen) as [-> ->].
Qed.

(** ** The motion passes *)

(** The velocity pass changes the total momentum by the time step
    times the sum of the forces. *)
Lemma applyForces_momentum bodies forces dt :
  length forces = length bodies → positive_masses bodies →
  total momentumX (applyForces bodies forces dt) =
    total momentumX bodies + dt * total fst forces ∧
  total momentumY (applyForces bodies forces dt) =
    total momentumY bodies + dt * total snd forces.
Proof.
  intros Hlen Hpos. rewrite applyForces_zip by done.
  revert forces Hlen. induction Hpos as [|b bs Hb _ IH]; intros [|f fs] ?;
    simplify_eq/=; [split; lra|].
  destruct (IH fs) as [-> ->]; [done|].
  destruct (applyForce_impulse b f.1 f.2 dt) as [-> ->]; [lra|]. split; lra.
Qed.

Lemma applyForces_masses bodies forces dt :
  length forces = length bodies →
  masse <$> applyForces bodies forces dt = masse <$> bodies.
Proof.
  intros Hlen. rewrite applyForces_zip by done.
  revert forces Hlen. induction bodies as [|b bs IH]; intros [|f fs] ?;
    simplify_eq/=; [done|]. f_equal. by apply IH.
Qed.

Lemma updatePositions_masses bodies dt :
  masse <$> updatePositions bodies dt = masse <$> bodies.
Proof. unfold updatePositions. rewrite <- list_fmap_compose. by apply list_fmap_ext. Qed.

Lemma updatePositions_momentum bodies dt :
  total momentumX (updatePositions bodies dt) = total momentumX bodies ∧
  total momentumY (updatePositions bodies dt) = total momentumY bodies.
Proof. unfold updatePositions. by rewrite !total_fmap. Qed.

(** A quantity that depends on the mass only is the same on two lists
    with the same masses. *)
Lemma positive_masses_fmap bs1 bs2 :
  masse <$> bs1 = masse <$> bs2 → positive_masses bs1 → positive_masses bs2.
Proof.
  unfold positive_masses. intros Heq.
  rewrite <- !(Forall_fmap masse (λ m, 0 < m)). by rewrite Heq.
Qed.

Lemma totalMass_fmap bs1 bs2 :
  masse <$> bs1 = masse <$> bs2 → totalMass bs1 = totalMass bs2.
Proof.
  intros Heq. unfold totalMass.
  change (total masse bs1) with (total (id ∘ masse) bs1).
  change (total masse bs2) with (total (id ∘ masse) bs2).
  by rewrite <- !total_fmap, Heq.
Qed.

Lemma motionPhase_masses bs g dt : masse <$> motionPhase bs g dt = masse <$> bs.
Proof.
  unfold motionPhase.
  by rewrite updatePositions_masses, applyForces_masses by apply computeForces_length.
Qed.

Lemma motionPhase_momenta bs g dt :
  positive_masses bs →
  total momentumX (motionPhase bs g dt) = total momentumX bs ∧
  total momentumY (motionPhase bs g dt) = total momentumY bs.
Proof.
  intros Hpos. unfold motionPhase.
  destruct (updatePositions_momentum (applyForces bs (computeForces bs g) dt) dt)
    as [-> ->].
  destruct (applyForces_momentum bs (computeForces bs g) dt) as [-> ->];
    [apply computeForces_length|done|].
  destruct (computeForces_total bs g) as [-> ->]. split; lra.
Qed.

(** Forces and motion conserve the total momentum, for every time
    step, gravitational constant and configuration: the impulses of a
    frame cancel.  The masses are not touched. *)
Theorem motionPhase_momentum bs g dt :
  positive_masses bs →
  total momentumX (motionPhase bs g dt) = total momentumX bs ∧
  total momentumY (motionPhase bs g dt) = total momentumY bs ∧
  masse <$> motionPhase bs g dt = masse <$> bs.
Proof.
  intros Hpos. destruct (motionPhase_momenta bs g dt Hpos) as [-> ->].
  split_and!; [done..|apply motionPhase_masses].
Qed.

(** The two-body frame, for all inputs: both bodies get the impulse of
    the one force between them, with opposite signs, and then move with
    their new velocities. *)
Theorem two_body_step b1 b2 g dt :
  let f := gravForce b1 b2 g in
  motionPhase [b1; b2] g dt =
    [updatePosition (applyForce b1 f.1 f.2 dt) dt;
     updatePosition (applyForce b2 (- f.1) (- f.2) dt) dt].
Proof.
  cbv zeta. unfold motionPhase, computeForces, forceRow, applyForces, updatePositions,
    for_range, pairForce. simpl. destruct (gravForce b1 b2 g) as [fx fy]. simpl.
  rnum. repeat f_equal; lra.
Qed.

(** With a zero time step (the first frame) the motion phase changes
    nothing. *)
Lemma motionPhase_dt0 bs g : motionPhase bs g 0 = bs.
Proof.
  unfold motionPhase, updatePositions.
  rewrite applyForces_zip by apply computeForces_length.
  generalize (computeForces_length bs g). generalize (computeForces bs g).
  induction bs as [|b bs IH]; intros [|f fs] ?; simplify_eq/=; [done|].
  rewrite applyForce_dt0, updatePosition_dt0. f_equal. by apply IH.
Qed.

(** ** The frame *)

Section Frame.
Variable random : nat → R.

(** On the first frame, and whenever [lastTimestamp] is zero, the time
    step is zero. *)
Lemma frameDt_first timestamp (w : World) :
  lastTimestamp w = 0 → frameDt timestamp w = 0.
Proof.
  intros Hlast. unfold frameDt. rnum. rewrite Hlast, bool_decide_eq_true_2 by done.
  lra.
Qed.

Lemma frameDt_later timestamp (w : World) :
  lastTimestamp w ≠ 0 → frameDt timestamp w = (timestamp - lastTimestamp w) / 1000.
Proof. intros Hlast. unfold frameDt. rnum. by rewrite bool_decide_eq_false_2. Qed.

(** C6. With positive masses, a frame that spawns nothing (spawning is
    off) and culls nothing conserves the total mass and the total
    momentum of the world. *)
Theorem loop_conserves timestamp (w : World) :
  SPAWN_ENABLED w = false →
  positive_masses (bodies w) →
  Forall (λ b, isOffScreen b (WIDTH w) (HEIGHT w) = false)
    (checkCollisions (motionPhase (bodies w) (G w) (frameDt timestamp w))
       (COLLISION_ENABLED w)) →
  let w' := loop random timestamp w in
  totalMass (bodies w') = totalMass (bodies w) ∧
  total momentumX (bodies w') = total momentumX (bodies w) ∧
  total momentumY (bodies w') = total momentumY (bodies w).
Proof.
  intros Hspawn Hpos Hon. cbv zeta.
  rewrite loop_bodies. cbv zeta. rewrite spawnPhase_disabled by done. cbn [fst snd].
  rewrite cull_keeps by done.
  set (dt := frameDt timestamp w) in *.
  assert (positive_masses (motionPhase (bodies w) (G w) dt)) as Hpos'.
  { eapply positive_masses_fmap; [|done]. symmetry. apply motionPhase_masses. }
  unfold totalMass.
  rewrite !checkCollisions_conserves
    by (done || intros; (apply mergeBodies_masse || by apply mergeBodies_momentum)).
  destruct (motionPhase_momenta (bodies w) (G w) dt Hpos) as [-> ->].
  split; [|done]. apply totalMass_fmap, motionPhase_masses.
Qed.

(** The first frame (and any frame that finds [lastTimestamp] zero) has
    a zero time step: with spawning off nothing moves, only the collision
    pass and the culling act. *)
Theorem loop_first_frame timestamp (w : World) :
  lastTimestamp w = 0 → SPAWN_ENABLED w = false →
  bodies (loop random timestamp w) =
    cull (checkCollisions (bodies w) (COLLISION_ENABLED w)) (WIDTH w) (HEIGHT w).
Proof.
  intros Hlast Hspawn. rewrite loop_bodies. cbv zeta.
  rewrite spawnPhase_disabled by done. cbn [fst snd].
  by rewrite frameDt_first, motionPhase_dt0.
Qed.

(** ** Settings *)

(** Over the reals, scaling [G] up and then down restores it. *)
Theorem keydown_G_roundtrip (w : World) :
  keydown random "ArrowDown"%string (keydown random "ArrowUp"%string w) = w ∧
  keydown random "ArrowUp"%string (keydown random "ArrowDown"%string w) = w.
Proof.
  rewrite !keydown_ArrowUp, !keydown_ArrowDown. destruct w; unfold set_G; simpl.
  rnum. split; f_equal; field.
Qed.

(** ** Invariants of reachable worlds *)

(** The gravitational constant is positive, the velocity strength is
    not negative, the spawn timer is below the spawn interval, every
    mass is positive, every radius is the radius of its mass. *)
Definition world_ok (w : World) : Prop :=
  0 < G w ∧ 0 <= RANDOM_VELOCITY_STRENGTH w ∧
  spawnTimer w < SPAWN_INTERVAL ∧
  positive_masses (bodies w) ∧ world_wf w.

(** The spawn block leaves the timer below the interval: it restarts
    the timer as soon as the interval is reached. *)
Lemma spawnPhase_timer dt w :
  spawnTimer w < SPAWN_INTERVAL → (spawnPhase random dt w).1.2 < SPAWN_INTERVAL.
Proof.
  intros Ht. unfold spawnPhase. destruct (SPAWN_ENABLED w); cbn [andb]; [|done].
  destruct (nleb _ _) eqn:E.
  - destruct (spawnStar _ _ _ _ _ _). cbn [fst snd]. rnum. lra.
  - cbn [fst snd]. apply nleb_gt in E. rnum. lra.
Qed.

Hypothesis random_nonneg : ∀ k, 0 <= random k.

Lemma randomRange_mass n : 1 <= (randomRange random MASS_MIN MASS_MAX n).1.
Proof. rewrite randomRange_run. rnum. simpl. specialize (random_nonneg n). lra. Qed.

Lemma seedBody_positive w n : 0 < masse (seedBody random w n).1.
Proof.
  unfold seedBody. rewrite !Rnd_bind_run. simpl.
  specialize (random_nonneg (S (S n))). lra.
Qed.

Lemma spawnStar_positive wd ht en st n :
  0 < masse (spawnStar random wd ht en st n).1.
Proof.
  rewrite spawnStar_run. simpl. rnum. specialize (random_nonneg (S (S n))). lra.
Qed.

(** A spawned body has a mass in [[MASS_MIN, MASS_MAX)] and therefore
    the minimum radius, when the host's random numbers are in [[0, 1)]. *)
Theorem spawnStar_radius wd ht en st n :
  (∀ k, random k < 1) →
  let b := (spawnStar random wd ht en st n).1 in
  1 <= masse b < 2 ∧ radius b = 5.
Proof.
  intros Hlt. cbv zeta. rewrite spawnStar_run. cbn [fst newBody masse radius].
  specialize (random_nonneg (S (S n))). specialize (Hlt (S (S n))).
  split; [|apply calcRadius_small]; rnum; simpl; lra.
Qed.

(** C37. A spawned body lies in the viewport and is not faster than the
    velocity strength, when the host's random numbers are in [[0, 1)]. *)
Theorem spawnStar_bounds wd ht en st n :
  (∀ k, random k < 1) → 0 <= wd → 0 <= ht → 0 <= st →
  let b := (spawnStar random wd ht en st n).1 in
  0 <= x b <= wd ∧ 0 <= y b <= ht ∧ vx b * vx b + vy b * vy b <= st * st.
Proof.
  intros Hlt Hwd Hht Hst. cbv zeta. rewrite spawnStar_run, randomVelocity_run.
  pose proof (random_nonneg n). pose proof (Hlt n).
  pose proof (random_nonneg (S n)). pose proof (Hlt (S n)).
  cbn [fst newBody x y vx vy]. rnum. split_and!; try nra.
  destruct en; cbn [fst snd]; [|nra].
  pose proof (random_nonneg (S (3 + n))). pose proof (Hlt (S (3 + n))).
  set (a := random (3 + n)%nat * 2 * PI). set (s := random (S (3 + n))) in *.
  pose proof (sin2_cos2 a) as Hsc. unfold Rsqr in Hsc.
  replace (cos a * (s * st) * (cos a * (s * st)) + sin a * (s * st) * (sin a * (s * st)))
    with ((sin a * sin a + cos a * cos a) * ((s * st) * (s * st))) by ring.
  rewrite Hsc. assert (0 <= s * st <= st) as [? ?] by nra. nra.
Qed.

(** The bodies [reset] seeds lie within 150 of the centre of the
    viewport in each coordinate, when the host's random numbers are in
    [[0, 1]]. *)
Theorem reset_near_centre w :
  (∀ k, random k <= 1) →
  Forall (λ b, Rabs (x b - WIDTH w / 2) <= 150 ∧ Rabs (y b - HEIGHT w / 2) <= 150)
    (bodies (reset random w)).
Proof.
  intros Hle. rewrite reset_bodies, seedBody_run. cbn [fst newBody x y].
  pose proof (random_nonneg (randomCalls w)). pose proof (Hle (randomCalls w)).
  pose proof (random_nonneg (S (randomCalls w))). pose proof (Hle (S (randomCalls w))).
  apply Forall_singleton. split; cbn [x y newBody]; rnum; apply Rabs_le; lra.
Qed.

Lemma reset_ok w : world_ok (reset random w).
Proof.
  destruct (reset_settings random w) as (HG & _ & _ & _ & Hs & Ht & _).
  split_and!;
    [rewrite HG; rnum; lra|rewrite Hs; rnum; lra|rewrite Ht; rnum; lra| |apply reset_wf].
  unfold positive_masses. rewrite reset_bodies. repeat constructor.
  apply seedBody_positive.
Qed.

Lemma keydown_ok key w : world_ok w → world_ok (keydown random key w).
Proof.
  intros (HG & Hs & Ht & Hpos & Hwf). unfold keydown.
  repeat case_if; try apply reset_ok; split_and!; simpl; try done; rnum.
  - nra.
  - apply Rdiv_lt_0_compat; lra.
  - lra.
  - apply Rmax_l.
Qed.

Lemma mousedown_ok cx cy rl rt w :
  world_ok w → world_ok (mousedown random cx cy rl rt w).
Proof.
  intros (HG & Hs & Ht & Hpos & Hwf).
  destruct (mousedown_settings random cx cy rl rt w)
    as (EG & _ & _ & _ & Es & _ & _ & Et).
  split_and!; [by rewrite EG|by rewrite Es|by rewrite Et| |by apply mousedown_wf].
  unfold mousedown, positive_masses. rewrite !Rnd_bind_run. simpl.
  apply Forall_app. split; [done|]. repeat constructor. simpl.
  specialize (random_nonneg (randomCalls w)). lra.
Qed.

Lemma spawnPhase_positive dt w :
  positive_masses (bodies w) → positive_masses (spawnPhase random dt w).1.1.
Proof.
  intros Hpos. unfold spawnPhase. case_if; [|done].
  pose proof (spawnStar_positive (WIDTH w) (HEIGHT w) (RANDOM_VELOCITY_ENABLED w)
                (RANDOM_VELOCITY_STRENGTH w) (randomCalls w)) as Hb.
  destruct (spawnStar _ _ _ _ _ _) as [b calls]. simpl in *.
  apply Forall_app. split; [done|]. by repeat constructor.
Qed.

Lemma loop_ok timestamp w : world_ok w → world_ok (loop random timestamp w).
Proof.
  intros (HG & Hs & Ht & Hpos & Hwf).
  destruct (loop_settings random timestamp w) as (EG & _ & _ & _ & Es & _).
  split_and!; [by rewrite EG|by rewrite Es| | |by apply loop_wf].
  { rewrite loop_spawnTimer. by apply spawnPhase_timer. }
  rewrite loop_bodies. cbv zeta.
  eapply Forall_sublist; [apply cull_sublist|].
  apply checkCollisions_positive.
  eapply positive_masses_fmap; [symmetry; apply motionPhase_masses|].
  by apply spawnPhase_positive.
Qed.

(** C10. Every reachable world is well formed: no event can make [G] or a
    mass non-positive, or the velocity strength negative, and between
    two events the spawn timer is below the spawn interval. *)
Theorem reachable_ok w : reachable random w → world_ok w.
Proof.
  induction 1 as [iw ih|w e w' _ IH Hstep]; [apply reset_ok|].
  destruct Hstep as [w e].
  destruct e; simpl; auto using keydown_ok, mousedown_ok, loop_ok.
Qed.

(** Masses of at least [MASS_MIN] are [Kept]: a newborn has a mass
    between [MASS_MIN] and [MASS_MAX], and a merger adds two masses. *)
#[export] Instance mass_at_least_kept : Kept random (λ b : Body R, MASS_MIN <= masse b).
Proof.
  split; try done.
  - intros x0 y0 vx0 vy0 k. cbn [masse newBody]. unfold bornMass. rnum.
    specialize (random_nonneg k). lra.
  - intros b1 b2. cbn [masse mergeBodies newBody]. rnum. lra.
Qed.

(** No body of a reachable world is lighter than [MASS_MIN]. *)
Lemma reachable_mass_at_least w :
  reachable random w → Forall (λ b, 1 <= masse b) (bodies w).
Proof. intros Hw. apply (reachable_kept random _ w Hw). Qed.

End Frame.

(** ** The theorems at concrete inputs *)

(** The two bodies of the specification's merge example, and a pair far
    apart. *)
Definition light : Body R := newBody 0 0 1 10 0.
Definition heavy : Body R := newBody 4 0 3 0 0.
Definition near_one : Body R := newBody 1 0 5 0 0.
Definition far_100 : Body R := newBody 100 0 2 0 0.
Definition far_200 : Body R := newBody 200 0 2 0 0.

Lemma light_heavy_positive : positive_masses [light; heavy].
Proof. repeat constructor; simpl; lra. Defined.

Lemma checkCollisions_momentum_witness :
  total momentumX (checkCollisions [light; heavy] true) = total momentumX [light; heavy] ∧
  total momentumY (checkCollisions [light; heavy] true) = total momentumY [light; heavy].
Proof. apply (checkCollisions_momentum [light; heavy] true), light_heavy_positive. Defined.

Lemma checkCollisions_mass_witness :
  totalMass (checkCollisions [light; heavy] true) = totalMass [light; heavy].
Proof. apply (checkCollisions_mass [light; heavy] true), light_heavy_positive. Defined.

Lemma checkCollisions_centre_witness :
  total (λ b, masse b * x b) (checkCollisions [light; heavy] true) =
    total (λ b, masse b * x b) [light; heavy] ∧
  total (λ b, masse b * y b) (checkCollisions [light; heavy] true) =
    total (λ b, masse b * y b) [light; heavy].
Proof. apply (checkCollisions_centre [light; heavy] true), light_heavy_positive. Defined.

Lemma checkCollisions_energy_witness :
  total kineticEnergy (checkCollisions [light; heavy] true)
  <= total kineticEnergy [light; heavy].
Proof. apply (checkCollisions_energy [light; heavy] true), light_heavy_positive. Defined.

Lemma mergeBodies_momentum_witness :
  momentumX (mergeBodies light heavy) = momentumX light + momentumX heavy ∧
  momentumY (mergeBodies light heavy) = momentumY light + momentumY heavy.
Proof. apply (mergeBodies_momentum light heavy); simpl; lra. Defined.

Lemma motionPhase_momentum_witness :
  total momentumX (motionPhase [light; heavy] 2000 (1 / 100)) =
    total momentumX [light; heavy] ∧
  total momentumY (motionPhase [light; heavy] 2000 (1 / 100)) =
    total momentumY [light; heavy] ∧
  masse <$> motionPhase [light; heavy] 2000 (1 / 100) = masse <$> [light; heavy].
Proof. apply (motionPhase_momentum [light; heavy]), light_heavy_positive. Defined.

Lemma gravForce_bounded_witness :
  (gravForce light heavy 2000).1 * (gravForce light heavy 2000).1 +
  (gravForce light heavy 2000).2 * (gravForce light heavy 2000).2
  <= MAX_FORCE * MAX_FORCE.
Proof. apply (gravForce_bounded light heavy 2000). simpl. lra. Defined.

Lemma gravForce_attracts_witness :
  0 <= (gravForce light heavy 2000).1 * (x heavy - x light) ∧
  0 <= (gravForce light heavy 2000).2 * (y heavy - y light).
Proof. apply (gravForce_attracts light heavy 2000). simpl. lra. Defined.

Lemma gravForce_capped_witness :
  (gravForce light near_one 2000).1 * (gravForce light near_one 2000).1 +
  (gravForce light near_one 2000).2 * (gravForce light near_one 2000).2
  = MAX_FORCE * MAX_FORCE.
Proof.
  apply (gravForce_capped light near_one 2000); simpl.
  - apply sqrt_ge_sq; lra.
  - rnum. lra.
Defined.

Lemma gravForce_inverse_square_witness :
  gravForce light far_200 2000 =
    ((gravForce light far_100 2000).1 / 4, (gravForce light far_100 2000).2 / 4).
Proof.
  apply (gravForce_inverse_square light far_100 far_200 2000); simpl; rnum; try lra.
  apply sqrt_ge_sq; lra.
Defined.

Lemma gravForce_near_below_cap_witness :
  (gravForce light light 2000).1 * (gravForce light light 2000).1 +
  (gravForce light light 2000).2 * (gravForce light light 2000).2
  < MAX_FORCE * MAX_FORCE.
Proof.
  apply (gravForce_near_below_cap light light 2000); simpl; [|lra].
  apply sqrt_lt_sq; lra.
Defined.

Lemma calcRadius_small_witness : calcRadius 2 = 5.
Proof. apply (calcRadius_small 2). lra. Defined.

Lemma calcRadius_mono_witness : calcRadius 1 <= calcRadius 3.
Proof. apply (calcRadius_mono 1 3); lra. Defined.

(** A world with one body at rest in the middle of the viewport, before
    its first frame. *)
Definition quiet : World :=
  {| G := 2000; COLLISION_ENABLED := true; SPAWN_ENABLED := false;
     RANDOM_VELOCITY_ENABLED := true; RANDOM_VELOCITY_STRENGTH := 3000;
     WIDTH := 800; HEIGHT := 600;
     bodies := [newBody 400 300 1 0 0];
     spawnTimer := 0; lastTimestamp := 0; randomCalls := 0 |}.

Lemma quiet_on_screen :
  Forall (λ b, isOffScreen b (WIDTH quiet) (HEIGHT quiet) = false)
    (checkCollisions (motionPhase (bodies quiet) (G quiet) (frameDt 16 quiet))
       (COLLISION_ENABLED quiet)).
Proof.
  rewrite frameDt_first, motionPhase_dt0 by done.
  rewrite checkCollisions_resolve. unfold resolved.
  rewrite resolve_no_overlap by (intros [|[|i]] [|[|j]]; naive_solver lia).
  repeat constructor. apply isOffScreen_false. cbn [x y radius newBody].
  rewrite calcRadius_small by lra. rewrite !nltb_ge. rnum. simpl. lra.
Defined.

Lemma loop_conserves_witness :
  totalMass (bodies (loop (λ _, 0) 16 quiet)) = totalMass (bodies quiet) ∧
  total momentumX (bodies (loop (λ _, 0) 16 quiet)) = total momentumX (bodies quiet) ∧
  total momentumY (bodies (loop (λ _, 0) 16 quiet)) = total momentumY (bodies quiet).
Proof.
  apply (loop_conserves (λ _, 0) 16 quiet); [done| |apply quiet_on_screen].
  repeat constructor. simpl. lra.
Defined.

Lemma loop_first_frame_witness :
  bodies (loop (λ _, 0) 16 quiet) =
    cull (checkCollisions (bodies quiet) (COLLISION_ENABLED quiet))
      (WIDTH quiet) (HEIGHT quiet).
Proof. by apply (loop_first_frame (λ _, 0) 16 quiet). Defined.

Lemma spawnStar_radius_witness :
  1 <= masse (spawnStar (λ _, 1 / 2) 800 600 true 3000 0%nat).1 < 2 ∧
  radius (spawnStar (λ _, 1 / 2) 800 600 true 3000 0%nat).1 = 5.
Proof.
  apply (spawnStar_radius (λ _, 1 / 2)); intros _; lra.
Defined.

Lemma spawnStar_bounds_witness :
  0 <= x (spawnStar (λ _, 1 / 2) 800 600 true 3000 0%nat).1 <= 800 ∧
  0 <= y (spawnStar (λ _, 1 / 2) 800 600 true 3000 0%nat).1 <= 600 ∧
  vx (spawnStar (λ _, 1 / 2) 800 600 true 3000 0%nat).1 *
    vx (spawnStar (λ _, 1 / 2) 800 600 true 3000 0%nat).1 +
  vy (spawnStar (λ _, 1 / 2) 800 600 true 3000 0%nat).1 *
    vy (spawnStar (λ _, 1 / 2) 800 600 true 3000 0%nat).1 <= 3000 * 3000.
Proof.
  apply (spawnStar_bounds (λ _, 1 / 2)); try (intros _); lra.
Defined.

Lemma reset_near_centre_witness :
  Forall (λ b, Rabs (x b - WIDTH quiet / 2) <= 150 ∧ Rabs (y b - HEIGHT quiet / 2) <= 150)
    (bodies (reset (λ _, 1 / 2) quiet)).
Proof.
  apply (reset_near_centre (λ _, 1 / 2)); intros _; lra.
Defined.

Lemma reachable_ok_witness : world_ok (boot (λ _, 0) 800 600).
Proof.
  apply (reachable_ok (λ _, 0)); [intros _; lra|apply reachable_boot].
Defined.
