(* ===== verification/NetForce.v ===== *)
(** * NetForce: the force array against its reference

    The script visits every unordered pair of bodies once and books the
    force of the pair on both bodies, with opposite signs.  Over the
    reals this is the same as summing, for each body, the forces that
    pull it towards every other body ([Force.netForce]).  The proof
    follows the two loops with their invariants, then rearranges the
    double sum by action and reaction. *)

From Stdlib Require Import Reals Lra.
From S2P Require Import Prelude Num Config Body Force Collision Random World RealNum RealPhysics.

Local Open Scope R_scope.

(** A sum over a list as a sum over its indices. *)
Lemma total_lookup {A} (q : A → R) (l : list A) :
  total q l = total (λ j, default 0 (q <$> l !! j)) (seq 0 (length l)).
Proof.
  induction l as [|a l IH] using rev_ind; [done|].
  rewrite length_app, Nat.add_1_r, seq_S, !total_app, IH. simpl.
  rewrite list_lookup_middle by done. simpl. f_equal.
  apply total_ext, Forall_forall. intros j Hj%elem_of_seq.
  by rewrite lookup_app_l by lia.
Qed.

(** A body exerts no force on itself. *)
Lemma gravForce_self (b : Body R) (g : R) : gravForce b b g = (0, 0).
Proof.
  pose proof (gravForce_swap b b g) as Hs.
  destruct (gravForce b b g) as [fx fy]. simplify_eq/=.
  f_equal; lra.
Qed.

Section NetForce.
Variable bodies : list (Body R).
Variable g : R.
(** The component of the force that is followed: [fst] or [snd]. *)
Variable π : R * R → R.
Hypothesis π_add : ∀ f1 f2 : R * R, π (f1.1 + f2.1, f1.2 + f2.2) = π f1 + π f2.
Hypothesis π_sub : ∀ f1 f2 : R * R, π (f1.1 - f2.1, f1.2 - f2.2) = π f1 - π f2.
Hypothesis π_opp : ∀ f : R * R, π (- f.1, - f.2) = - π f.
Hypothesis π_zero : π (0, 0) = 0.

Local Abbreviation n := (length bodies).

(** Entry [k] of a force array, [0] past its end. *)
Definition entry (fs : list (R * R)) (k : nat) : R :=
  default 0 (π <$> fs !! k).

(** What the pair [(a, b)] books on body [k]. *)
Definition booked (a b k : nat) : R :=
  match bodies !! a, bodies !! b with
  | Some ba, Some bb =>
      if decide (k = a) then π (gravForce ba bb g)
      else if decide (k = b) then - π (gravForce ba bb g)
      else 0
  | _, _ => 0
  end.

(** The pull on body [k] towards body [j]. *)
Definition pull (k j : nat) : R :=
  match bodies !! k, bodies !! j with
  | Some bk, Some bj => if decide (j = k) then 0 else π (gravForce bk bj g)
  | _, _ => 0
  end.

(** ** One pair *)

Lemma pairForce_entry fs i j k :
  length fs = n → i ≠ j →
  entry (pairForce bodies g fs i j) k = entry fs k + booked i j k.
Proof.
  intros Hlen Hij. unfold pairForce, booked, entry.
  destruct (bodies !! i) as [bi|] eqn:Hi; [|lra].
  destruct (bodies !! j) as [bj|] eqn:Hj; [|lra].
  destruct (gravForce bi bj g) as [fx fy] eqn:Hf.
  destruct (lookup_lt_is_Some_2 fs i) as [fi Hfi];
    [rewrite Hlen; by eapply lookup_lt_Some|].
  destruct (lookup_lt_is_Some_2 fs j) as [fj Hfj];
    [rewrite Hlen; by eapply lookup_lt_Some|].
  destruct (decide (k = i)) as [->|Hki]; [|destruct (decide (k = j)) as [->|Hkj]].
  - rewrite list_lookup_alter_ne, list_lookup_alter_eq, Hfi by done. simpl. rnum.
    apply (π_add fi (fx, fy)).
  - rewrite list_lookup_alter_eq, list_lookup_alter_ne, Hfj by done. simpl. rnum.
    pose proof (π_sub fj (fx, fy)) as Hsub. simpl in Hsub. rewrite Hsub. lra.
  - rewrite !list_lookup_alter_ne by done. lra.
Qed.

(** ** One row: the inner loop *)

Lemma forceRow_entry fs i k :
  length fs = n → (i < n)%nat →
  entry (forceRow bodies g fs i) k =
    entry fs k + total (λ b, booked i b k) (seq (S i) (n - S i)).
Proof.
  intros Hlen Hi. unfold forceRow.
  apply (for_range_ind
    (λ j fs', length fs' = n ∧
              entry fs' k = entry fs k + total (λ b, booked i b k) (seq (S i) (j - S i))));
    [lia|by rewrite Nat.sub_diag; simpl; split; [|lra]|].
  intros j fs' Hj [Hlen' IH]. split; [by rewrite pairForce_length|].
  rewrite pairForce_entry, IH by (done || lia).
  replace (S j - S i)%nat with (S (j - S i)) by lia.
  rewrite seq_S, total_app. simpl.
  replace (S (i + (j - S i)))%nat with j by lia. lra.
Qed.

(** ** All rows: the outer loop *)

Lemma computeForces_entry k :
  entry (computeForces bodies g) k =
    total (λ a, total (λ b, booked a b k) (seq (S a) (n - S a))) (seq 0 n).
Proof.
  unfold computeForces.
  apply (for_range_ind
    (λ i fs, length fs = n ∧
             entry fs k =
               total (λ a, total (λ b, booked a b k) (seq (S a) (n - S a))) (seq 0 i))).
  - lia.
  - split; [by rewrite length_fmap|]. unfold entry. rewrite list_lookup_fmap. rnum.
    destruct (bodies !! k); simpl; [apply π_zero|done].
  - intros i fs Hi [Hlen IH]. split; [by rewrite forceRow_length|].
    rewrite forceRow_entry, IH by (done || lia).
    by rewrite seq_S, total_app; simpl; lra.
Qed.

(** ** Rearranging the double sum *)

(** A sum over a range in which one term only is not zero. *)
Lemma total_single (f : nat → R) lo len k :
  (lo ≤ k < lo + len)%nat → (∀ b, b ≠ k → f b = 0) →
  total f (seq lo len) = f k.
Proof.
  intros Hk Hz.
  replace len with ((k - lo) + S (lo + len - S k))%nat by lia.
  rewrite seq_app, total_app. replace (lo + (k - lo))%nat with k by lia.
  rewrite <- cons_seq. simpl.
  rewrite !total_zero; [lra|..]; apply Forall_forall; intros b Hb%elem_of_seq;
    apply Hz; lia.
Qed.

Lemma booked_other a b k : k ≠ a → k ≠ b → booked a b k = 0.
Proof.
  intros Ha Hb. unfold booked.
  destruct (bodies !! a), (bodies !! b); rewrite ?decide_False by done; done.
Qed.

(** Action and reaction, on the component followed. *)
Lemma booked_second a k : a ≠ k → booked a k k = pull k a.
Proof.
  intros Hak. unfold booked, pull.
  destruct (bodies !! a) as [ba|], (bodies !! k) as [bk|]; try done.
  rewrite decide_False, decide_True, decide_False by done.
  rewrite (gravForce_swap ba bk g). by rewrite π_opp.
Qed.

Lemma booked_first k b : b ≠ k → booked k b k = pull k b.
Proof.
  intros Hbk. unfold booked, pull.
  destruct (bodies !! k) as [bk|], (bodies !! b) as [bb|]; try done.
  by rewrite decide_True, decide_False.
Qed.

Lemma pull_self k : pull k k = 0.
Proof. unfold pull. destruct (bodies !! k); [|done]. by rewrite decide_True. Qed.

(** What row [a] books on body [k]. *)
Lemma row_booked a k :
  (a < n)%nat → (k < n)%nat →
  total (λ b, booked a b k) (seq (S a) (n - S a)) =
    if decide (a < k)%nat then pull k a
    else if decide (a = k) then total (pull k) (seq (S k) (n - S k))
    else 0.
Proof.
  intros Ha Hk. destruct (decide (a < k)%nat) as [Hlt|Hge].
  - rewrite (total_single _ _ _ k) by (lia || (intros; apply booked_other; lia)).
    apply booked_second. lia.
  - destruct (decide (a = k)) as [->|Hne].
    + apply total_ext, Forall_forall. intros b Hb%elem_of_seq.
      apply booked_first. lia.
    + apply total_zero, Forall_forall. intros b Hb%elem_of_seq.
      apply booked_other; lia.
Qed.

Lemma double_sum_pull k :
  (k < n)%nat →
  total (λ a, total (λ b, booked a b k) (seq (S a) (n - S a))) (seq 0 n) =
    total (pull k) (seq 0 n).
Proof.
  intros Hk.
  rewrite (total_ext _ (λ a, if decide (a < k)%nat then pull k a
                             else if decide (a = k)
                                  then total (pull k) (seq (S k) (n - S k))
                                  else 0))
    by (apply Forall_forall; intros a Ha%elem_of_seq; apply row_booked; lia).
  rewrite (seq_split_at k n Hk), !total_app. simpl.
  rewrite decide_False, decide_True, pull_self by (done || lia).
  rewrite (total_ext _ (pull k) (seq 0 k))
    by (apply Forall_forall; intros a Ha%elem_of_seq; rewrite decide_True; [done|lia]).
  match goal with |- context [total ?f (seq (S k) (n - S k))] =>
    lazymatch f with
    | pull k => fail
    | _ => rewrite (total_zero f (seq (S k) (n - S k)))
    end
  end; [lra|].
  apply Forall_forall. intros a Ha%elem_of_seq. by rewrite !decide_False by lia.
Qed.

(** ** The reference *)

Lemma netForce_total k :
  (k < n)%nat → π (netForce bodies g k) = total (pull k) (seq 0 n).
Proof.
  intros Hk. unfold netForce.
  destruct (lookup_lt_is_Some_2 bodies k Hk) as [bk Hbk]. rewrite Hbk.
  apply (for_range_ind (λ j acc, π acc = total (pull k) (seq 0 j)));
    [lia|apply π_zero|].
  intros j acc Hj IH. rewrite seq_S, total_app. simpl. rewrite <- IH.
  unfold pull. rewrite Hbk.
  destruct (lookup_lt_is_Some_2 bodies j) as [bj ->]; [lia|].
  case_decide; [lra|]. rnum. rewrite (π_add acc). lra.
Qed.

(** Entry [k] of the force array is the net force on body [k], on the
    component followed. *)
Lemma computeForces_entry_netForce k :
  (k < n)%nat → entry (computeForces bodies g) k = π (netForce bodies g k).
Proof.
  intros Hk. by rewrite computeForces_entry, double_sum_pull, netForce_total.
Qed.

(** The pull on a body is the sum over the whole collection of the
    forces towards each body, the body itself included: it exerts no
    force on itself. *)
Lemma netForce_total_bodies k bk :
  bodies !! k = Some bk →
  π (netForce bodies g k) = total (λ c, π (gravForce bk c g)) bodies.
Proof.
  intros Hbk. rewrite netForce_total by (by eapply lookup_lt_Some).
  rewrite (total_lookup (λ c, π (gravForce bk c g)) bodies).
  apply total_ext, Forall_forall. intros j Hj%elem_of_seq.
  unfold pull. rewrite Hbk.
  destruct (lookup_lt_is_Some_2 bodies j) as [bj Hbj]; [lia|]. rewrite Hbj. simpl.
  case_decide; [|done]. simplify_eq. by rewrite gravForce_self.
Qed.

End NetForce.

(** ** The order of the collection

    The pull of a collection on a body, as a sum over the collection. *)
Definition attraction (g : R) (b : Body R) (bs : list (Body R)) : R * R :=
  (total (λ c, (gravForce b c g).1) bs, total (λ c, (gravForce b c g).2) bs).

#[export] Instance attraction_perm g b : Proper ((≡ₚ) ==> (=)) (attraction g b).
Proof. intros bs bs' Hperm. unfold attraction. by rewrite Hperm. Qed.

Lemma netForce_attraction (bodies : list (Body R)) (g : R) (k : nat) bk :
  bodies !! k = Some bk → netForce bodies g k = attraction g bk bodies.
Proof.
  intros Hbk. apply injective_projections; simpl.
  - by apply (netForce_total_bodies bodies g fst).
  - by apply (netForce_total_bodies bodies g snd).
Qed.

Lemma computeForces_lookup_netForce (bodies : list (Body R)) (g : R) (k : nat) :
  (k < length bodies)%nat →
  computeForces bodies g !! k = Some (netForce bodies g k).
Proof.
  intros Hk.
  destruct (lookup_lt_is_Some_2 (computeForces bodies g) k) as [f Hf];
    [by rewrite computeForces_length|].
  assert (entry fst (computeForces bodies g) k = (netForce bodies g k).1) as H1
    by by apply computeForces_entry_netForce.
  assert (entry snd (computeForces bodies g) k = (netForce bodies g k).2) as H2
    by by apply computeForces_entry_netForce.
  unfold entry in H1, H2. rewrite Hf in H1, H2. simpl in H1, H2.
  rewrite Hf. f_equal. by apply injective_projections.
Qed.

(** C7. The loops of the script compute, for every body, the sum of the
    forces that pull it towards the other bodies: visiting each pair once
    and booking opposite forces is the same as visiting every ordered
    pair. *)
Theorem computeForces_netForce (bodies : list (Body R)) (g : R) :
  computeForces bodies g = netForce bodies g <$> seq 0 (length bodies).
Proof.
  apply list_eq. intros k. rewrite list_lookup_fmap.
  destruct (decide (k < length bodies)%nat) as [Hk|Hk].
  - rewrite computeForces_lookup_netForce by done.
    by rewrite (lookup_seq_lt _ _ _ Hk).
  - rewrite !lookup_ge_None_2; [done|rewrite length_seq; lia|].
    rewrite computeForces_length. lia.
Qed.

(** The motion of a frame as one map over the bodies. *)
Lemma motionPhase_imap (bodies : list (Body R)) (g dt : R) :
  motionPhase bodies g dt =
    imap (λ k b,
            let f := netForce bodies g k in
            updatePosition (applyForce b f.1 f.2 dt) dt) bodies.
Proof.
  unfold motionPhase, updatePositions. apply list_eq. intros k.
  rewrite list_lookup_fmap, applyForces_lookup, list_lookup_imap
    by apply computeForces_length.
  destruct (bodies !! k) as [b|] eqn:Hb; [|done]. simpl.
  by rewrite computeForces_lookup_netForce by (by eapply lookup_lt_Some).
Qed.


(** C28. The force on a body does not depend on the order of the collection:
    the force array of a permuted collection holds, for every body, the
    force the array of the original holds for it. *)
Theorem computeForces_order (bodies bodies' : list (Body R)) (g : R) k k' b :
  bodies ≡ₚ bodies' → bodies !! k = Some b → bodies' !! k' = Some b →
  computeForces bodies g !! k = computeForces bodies' g !! k'.
Proof.
  intros Hperm Hk Hk'.
  rewrite !computeForces_lookup_netForce by (by eapply lookup_lt_Some).
  by rewrite (netForce_attraction _ _ _ b Hk), (netForce_attraction _ _ _ b Hk'), Hperm.
Qed.

Lemma computeForces_order_witness :
  computeForces [light; heavy; far_100] 2000 !! 0%nat =
  computeForces [far_100; light; heavy] 2000 !! 1%nat.
Proof.
  apply (computeForces_order [light; heavy; far_100] [far_100; light; heavy] 2000
           0 1 light); [|done..].
  by rewrite (Permutation_cons_append [light; heavy] far_100).
Defined.
