(* ===== verification/Kinematics.v ===== *)
(** * Kinematics: what the motion of a frame conserves besides momentum

    The frame applies the forces to the velocities first and moves the
    bodies with the new velocities afterwards (semi-implicit Euler).
    Over the reals this order has two consequences that the explicit
    order would not have: the angular momentum about the origin is
    conserved exactly, for every time step, because the forces between
    two bodies act along the line that joins them; and the centre of
    mass moves in a straight line with the velocity the total momentum
    gives it. *)

From Stdlib Require Import Reals Lra Psatz.
From S2P Require Import Prelude Num Config Body Force Collision Random World RealNum RealPhysics.

Local Open Scope R_scope.

(** Angular momentum of a body about the origin. *)
Definition angularMomentum (b : Body R) : R :=
  masse b * (x b * vy b - y b * vx b).

(** Moment of the mass about the axes: the numerators of the centre of
    mass. *)
Definition massMomentX (b : Body R) : R := masse b * x b.
Definition massMomentY (b : Body R) : R := masse b * y b.

(** Torque about the origin of the force [bf.2] acting on the body
    [bf.1], and of a force array acting on a collection. *)
Definition torque1 (bf : Body R * (R * R)) : R :=
  x bf.1 * bf.2.2 - y bf.1 * bf.2.1.

Definition torque (bodies : list (Body R)) (forces : list (R * R)) : R :=
  total torque1 (zip bodies forces).

(** ** Lists of pairs *)

Lemma zip_alter_r {A B} (h : B → B) i (l : list A) (k : list B) :
  zip l (alter h i k) = alter (λ ab, (ab.1, h ab.2)) i (zip l k).
Proof.
  revert i k. induction l as [|a l IH]; intros [|i] [|b k]; simpl; try done.
  f_equal. apply IH.
Qed.

Lemma lookup_zip_Some {A B} (l : list A) (k : list B) i a b :
  l !! i = Some a → k !! i = Some b → zip l k !! i = Some (a, b).
Proof. intros Ha Hb. by rewrite lookup_zip_with, Ha, Hb. Qed.

(** ** The force of a pair is central *)

(** The force between two bodies acts along the line that joins them,
    clamped and capped or not. *)
Lemma gravForce_central b1 b2 g :
  (x b2 - x b1) * (gravForce b1 b2 g).2 - (y b2 - y b1) * (gravForce b1 b2 g).1 = 0.
Proof. rewrite gravForce_real. case_decide; simpl; unfold Rdiv; ring. Qed.

(** ** The torque of the force array *)

Lemma torque_zero_forces (bodies : list (Body R)) :
  torque bodies ((λ _, (int 0, int 0)) <$> bodies) = 0.
Proof.
  unfold torque. rnum. induction bodies as [|b bs IH]; csimpl; [done|].
  unfold torque1 at 1. simpl. rewrite IH. lra.
Qed.

(** Booking the force of a pair on both bodies adds the torques of two
    opposite forces along the line between them: nothing. *)
Lemma pairForce_torque bodies g forces i j :
  length forces = length bodies → i ≠ j →
  torque bodies (pairForce bodies g forces i j) = torque bodies forces.
Proof.
  intros Hlen Hij. unfold pairForce, torque.
  destruct (bodies !! i) as [bi|] eqn:Hi; [|done].
  destruct (bodies !! j) as [bj|] eqn:Hj; [|done].
  pose proof (gravForce_central bi bj g) as Hc.
  destruct (gravForce bi bj g) as [fx fy]. simpl in Hc.
  destruct (lookup_lt_is_Some_2 forces i) as [fi Hfi];
    [rewrite Hlen; by eapply lookup_lt_Some|].
  destruct (lookup_lt_is_Some_2 forces j) as [fj Hfj];
    [rewrite Hlen; by eapply lookup_lt_Some|].
  rewrite !zip_alter_r.
  rewrite (total_alter _ _ j _ (bj, fj))
    by (rewrite list_lookup_alter_ne by done; by apply lookup_zip_Some).
  rewrite (total_alter _ _ i _ (bi, fi)) by (by apply lookup_zip_Some).
  unfold torque1. rnum. simpl. lra.
Qed.

Lemma forceRow_torque bodies g forces i :
  length forces = length bodies →
  torque bodies (forceRow bodies g forces i) = torque bodies forces.
Proof.
  intros Hlen. unfold forceRow.
  destruct (decide (S i ≤ length bodies)); [|by rewrite for_range_empty by lia].
  apply (for_range_ind (λ _ fs, length fs = length bodies ∧
                                torque bodies fs = torque bodies forces)); [done..|].
  intros j fs Hj [Hfs <-]. split; [by rewrite pairForce_length|].
  apply pairForce_torque; [done|lia].
Qed.

(** The forces of a frame exert no torque on the collection. *)
Lemma computeForces_torque bodies g : torque bodies (computeForces bodies g) = 0.
Proof.
  unfold computeForces.
  apply (for_range_ind (λ _ fs, length fs = length bodies ∧ torque bodies fs = 0));
    [lia|split; [by rewrite length_fmap|apply torque_zero_forces]|].
  intros i fs _ [Hlen Hz]. split; [by rewrite forceRow_length|].
  by rewrite forceRow_torque.
Qed.

(** ** One body *)

(** Velocity first, position second: the displacement is parallel to
    the new velocity, so it adds nothing to the angular momentum, which
    changes by the impulse of the torque only. *)
Lemma step_angularMomentum b fx fy dt :
  0 < masse b →
  angularMomentum (updatePosition (applyForce b fx fy dt) dt) =
    angularMomentum b + dt * torque1 (b, (fx, fy)).
Proof.
  intros Hm. unfold angularMomentum, torque1, updatePosition, applyForce. rnum.
  simpl. field. lra.
Qed.

(** ** The collection *)

(** The two passes of the motion as one map over bodies and forces. *)
Lemma motionPhase_zip bs g dt :
  motionPhase bs g dt =
    (λ bf, updatePosition (applyForce bf.1 bf.2.1 bf.2.2 dt) dt)
      <$> zip bs (computeForces bs g).
Proof.
  unfold motionPhase, updatePositions.
  rewrite applyForces_zip by apply computeForces_length.
  generalize (computeForces bs g). induction bs as [|b bs IH]; intros [|f fs];
    csimpl; [done..|]. by rewrite IH.
Qed.

Lemma total_step_angularMomentum bs (fs : list (R * R)) dt :
  positive_masses bs →
  total angularMomentum
    ((λ bf, updatePosition (applyForce bf.1 bf.2.1 bf.2.2 dt) dt) <$> zip bs fs) =
  total (angularMomentum ∘ fst) (zip bs fs) + dt * torque bs fs.
Proof.
  intros Hpos. unfold torque. revert fs.
  induction Hpos as [|b bs Hb _ IH]; intros [|[fx fy] fs]; csimpl; try lra.
  rewrite IH, step_angularMomentum by done. lra.
Qed.

(** C30. With positive masses, the motion of a frame conserves the total
    angular momentum about the origin, for every time step and
    gravitational constant, clamped and capped forces included. *)
Theorem motionPhase_angular_momentum bs g dt :
  positive_masses bs →
  total angularMomentum (motionPhase bs g dt) = total angularMomentum bs.
Proof.
  intros Hpos.
  rewrite motionPhase_zip, total_step_angularMomentum, computeForces_torque by done.
  rewrite <- total_fmap, fst_zip by (rewrite computeForces_length; lia). lra.
Qed.

(** The velocity pass moves nothing; the position pass advances the
    mass moments by the time step times the momentum. *)
Lemma applyForces_massMoment bodies forces dt :
  length forces = length bodies →
  total massMomentX (applyForces bodies forces dt) = total massMomentX bodies ∧
  total massMomentY (applyForces bodies forces dt) = total massMomentY bodies.
Proof.
  intros Hlen. rewrite applyForces_zip by done.
  revert forces Hlen. induction bodies as [|b bs IH]; intros [|f fs] ?;
    simplify_eq/=; [done|].
  by destruct (IH fs) as [-> ->].
Qed.

Lemma updatePositions_massMoment bodies dt :
  total massMomentX (updatePositions bodies dt) =
    total massMomentX bodies + dt * total momentumX bodies ∧
  total massMomentY (updatePositions bodies dt) =
    total massMomentY bodies + dt * total momentumY bodies.
Proof.
  unfold updatePositions. induction bodies as [|b bs [IH1 IH2]]; csimpl; [split; lra|].
  rewrite IH1, IH2.
  unfold massMomentX, massMomentY, momentumX, momentumY, updatePosition. rnum.
  simpl. split; lra.
Qed.

(** The centre of mass moves with the total momentum: after the motion
    of a frame the mass moments have advanced by the time step times the
    momentum, which the forces did not change. *)
Theorem motionPhase_centre bs g dt :
  positive_masses bs →
  total massMomentX (motionPhase bs g dt) =
    total massMomentX bs + dt * total momentumX bs ∧
  total massMomentY (motionPhase bs g dt) =
    total massMomentY bs + dt * total momentumY bs.
Proof.
  intros Hpos. unfold motionPhase.
  destruct (updatePositions_massMoment (applyForces bs (computeForces bs g) dt) dt)
    as [-> ->].
  destruct (applyForces_massMoment bs (computeForces bs g) dt) as [-> ->];
    [apply computeForces_length|].
  destruct (applyForces_momentum bs (computeForces bs g) dt) as [-> ->];
    [apply computeForces_length|done|].
  destruct (computeForces_total bs g) as [-> ->]. split; lra.
Qed.

(** ** Mergers *)

(** A merger keeps the angular momentum of the centre of mass of its
    pair and loses that of the motion of the two about each other: the
    merged body is a point and does not spin. *)
Theorem mergeBodies_angular_momentum b1 b2 :
  0 < masse b1 → 0 < masse b2 →
  angularMomentum (mergeBodies b1 b2) =
    angularMomentum b1 + angularMomentum b2
    - masse b1 * masse b2 / (masse b1 + masse b2)
      * ((x b1 - x b2) * (vy b1 - vy b2) - (y b1 - y b2) * (vx b1 - vx b2)).
Proof.
  intros Hm1 Hm2. unfold angularMomentum, mergeBodies. rnum. simpl. field. lra.
Qed.

(** ** Witnesses *)

Lemma motionPhase_angular_momentum_witness :
  total angularMomentum (motionPhase [light; heavy; far_100] 2000 (1 / 100)) =
    total angularMomentum [light; heavy; far_100].
Proof.
  apply (motionPhase_angular_momentum [light; heavy; far_100]).
  repeat constructor; simpl; lra.
Defined.

Lemma motionPhase_centre_witness :
  total massMomentX (motionPhase [light; heavy] 2000 (1 / 100)) =
    total massMomentX [light; heavy] + 1 / 100 * total momentumX [light; heavy] ∧
  total massMomentY (motionPhase [light; heavy] 2000 (1 / 100)) =
    total massMomentY [light; heavy] + 1 / 100 * total momentumY [light; heavy].
Proof. apply (motionPhase_centre [light; heavy]), light_heavy_positive. Defined.

Lemma mergeBodies_angular_momentum_witness :
  angularMomentum (mergeBodies light heavy) =
    angularMomentum light + angularMomentum heavy
    - masse light * masse heavy / (masse light + masse heavy)
      * ((x light - x heavy) * (vy light - vy heavy)
         - (y light - y heavy) * (vx light - vx heavy)).
Proof. apply (mergeBodies_angular_momentum light heavy); simpl; lra. Defined.
