(* ===== verification/Geometry.v ===== *)
(** * Geometry: what the two tests of the script mean in the plane

    [Body.isOffScreen] and the overlap test of [checkCollisions]
    compare coordinates and radii.  Over the reals they are statements
    about discs and the rectangle of the viewport:
    - two bodies overlap exactly when their open discs have a point in
      common;
    - a body is off screen exactly when the square around its disc
      misses the viewport; then no point of the disc is visible, but a
      disc can miss the viewport near a corner while its square does
      not. *)

From Stdlib Require Import Reals Lra Psatz.
From S2P Require Import Prelude Num Config Body Force Collision RealNum RealPhysics.

Local Open Scope R_scope.

Definition Point : Type := R * R.

(** The closed disc of a body, its open disc, and the closed square
    around it. *)
Definition inDisc (b : Body R) (p : Point) : Prop :=
  (p.1 - x b) * (p.1 - x b) + (p.2 - y b) * (p.2 - y b) <= radius b * radius b.

Definition inOpenDisc (b : Body R) (p : Point) : Prop :=
  (p.1 - x b) * (p.1 - x b) + (p.2 - y b) * (p.2 - y b) < radius b * radius b.

Definition inSquare (b : Body R) (p : Point) : Prop :=
  x b - radius b <= p.1 <= x b + radius b ∧ y b - radius b <= p.2 <= y b + radius b.

(** The viewport: the closed rectangle from the origin. *)
Definition inViewport (width height : R) (p : Point) : Prop :=
  0 <= p.1 <= width ∧ 0 <= p.2 <= height.

(** ** Discs and squares *)

Lemma inOpenDisc_inDisc b p : inOpenDisc b p → inDisc b p.
Proof. unfold inOpenDisc, inDisc. lra. Qed.

Lemma sq_le_interval (a r : R) : 0 <= r → a * a <= r * r → - r <= a <= r.
Proof. intros Hr Ha. split; apply Rnot_lt_le; intros Hlt; nra. Qed.

Lemma inDisc_inSquare b p : 0 <= radius b → inDisc b p → inSquare b p.
Proof.
  unfold inDisc, inSquare. intros Hr Hp.
  pose proof (Rle_0_sqr (p.1 - x b)) as H1. pose proof (Rle_0_sqr (p.2 - y b)) as H2.
  unfold Rsqr in H1, H2.
  destruct (sq_le_interval (p.1 - x b) (radius b)); [done|lra|].
  destruct (sq_le_interval (p.2 - y b) (radius b)); [done|lra|].
  lra.
Qed.

Lemma sq_lt_interval (a c : R) : 0 <= c → a * a < c * c → - c < a < c.
Proof. intros Hc Ha. split; apply Rnot_le_lt; intros Hle; nra. Qed.

Lemma cauchy_schwarz (u1 u2 v1 v2 : R) :
  (u1 * v1 + u2 * v2) * (u1 * v1 + u2 * v2)
  <= (u1 * u1 + u2 * u2) * (v1 * v1 + v2 * v2).
Proof.
  pose proof (Rle_0_sqr (u1 * v2 - u2 * v1)) as H. unfold Rsqr in H. lra.
Qed.

(** The triangle inequality, squared: two points within [r1] and [r2]
    of a third are less than [r1 + r2] apart. *)
Lemma triangle_sq (u1 u2 v1 v2 r1 r2 : R) :
  0 <= r1 → 0 <= r2 →
  u1 * u1 + u2 * u2 < r1 * r1 → v1 * v1 + v2 * v2 < r2 * r2 →
  (u1 - v1) * (u1 - v1) + (u2 - v2) * (u2 - v2) < (r1 + r2) * (r1 + r2).
Proof.
  intros Hr1 Hr2 Hu Hv.
  pose proof (cauchy_schwarz u1 u2 v1 v2) as Hcs.
  set (A := u1 * u1 + u2 * u2) in *. set (B := v1 * v1 + v2 * v2) in *.
  set (d := u1 * v1 + u2 * v2) in *.
  assert (0 <= A) by (unfold A; nra). assert (0 <= B) by (unfold B; nra).
  assert (A * B < (r1 * r2) * (r1 * r2)) as Hprod.
  { replace (r1 * r2 * (r1 * r2)) with ((r1 * r1) * (r2 * r2)) by ring.
    apply Rle_lt_trans with (A * (r2 * r2)).
    - apply Rmult_le_compat_l; lra.
    - apply Rmult_lt_compat_r; lra. }
  destruct (sq_lt_interval d (r1 * r2)) as [Hd _]; [nra|lra|].
  replace ((u1 - v1) * (u1 - v1) + (u2 - v2) * (u2 - v2)) with (A + B - 2 * d)
    by (unfold A, B, d; ring).
  lra.
Qed.

(** ** The overlap test *)

Lemma overlap_real b1 b2 :
  0 < radius b1 + radius b2 →
  overlap b1 b2 = true ↔
  (x b2 - x b1) * (x b2 - x b1) + (y b2 - y b1) * (y b2 - y b1)
  < (radius b1 + radius b2) * (radius b1 + radius b2).
Proof.
  intros Hr. unfold overlap. cbv zeta. rnum. rewrite bool_decide_eq_true.
  apply sqrt_lt_sq; [apply sqrt_sq_sum_nonneg|done].
Qed.

Lemma scale_sq_lt (c d2 s : R) :
  0 < c → d2 < s * s → c * c * d2 < c * s * (c * s).
Proof.
  intros Hc Hd. replace (c * s * (c * s)) with (c * c * (s * s)) by ring.
  apply Rmult_lt_compat_l; [nra|done].
Qed.

(** The point that divides the segment between two centres in the ratio
    of the radii lies in both open discs when the centres are less than
    the sum of the radii apart. *)
Lemma dividing_point b1 b2 :
  0 < radius b1 → 0 < radius b2 →
  (x b2 - x b1) * (x b2 - x b1) + (y b2 - y b1) * (y b2 - y b1)
  < (radius b1 + radius b2) * (radius b1 + radius b2) →
  let t := radius b1 / (radius b1 + radius b2) in
  let p := (x b1 + t * (x b2 - x b1), y b1 + t * (y b2 - y b1)) in
  inOpenDisc b1 p ∧ inOpenDisc b2 p.
Proof.
  intros Hr1 Hr2 Hd t. cbv zeta. unfold inOpenDisc. simpl.
  assert (t * (radius b1 + radius b2) = radius b1) as Et by (unfold t; field; lra).
  assert (0 < t) by (unfold t; apply Rdiv_lt_0_compat; lra).
  assert (t < 1) by (apply Rnot_le_lt; intros ?; nra).
  assert ((1 - t) * (radius b1 + radius b2) = radius b2) as Et' by lra.
  clearbody t.
  pose proof (scale_sq_lt t _ _ ltac:(lra) Hd) as H1.
  pose proof (scale_sq_lt (1 - t) _ _ ltac:(lra) Hd) as H2.
  rewrite Et in H1. rewrite Et' in H2.
  split; (eapply Rle_lt_trans; [|eassumption]); right; ring.
Qed.

(** C26. Two bodies of positive radius overlap exactly when their open
    discs meet. *)
Theorem overlap_discs_meet b1 b2 :
  0 < radius b1 → 0 < radius b2 →
  overlap b1 b2 = true ↔ ∃ p, inOpenDisc b1 p ∧ inOpenDisc b2 p.
Proof.
  intros Hr1 Hr2. rewrite overlap_real by lra. split.
  - intros Hd. eexists. by apply dividing_point.
  - intros ([px py] & H1 & H2). unfold inOpenDisc in *. simpl in *.
    replace (x b2 - x b1) with ((px - x b1) - (px - x b2)) by ring.
    replace (y b2 - y b1) with ((py - y b1) - (py - y b2)) by ring.
    apply triangle_sq; lra.
Qed.

(** ** The off-screen test *)

Lemma isOffScreen_real b width height :
  isOffScreen b width height = true ↔
  x b + radius b < 0 ∨ width < x b - radius b ∨
  y b + radius b < 0 ∨ height < y b - radius b.
Proof.
  unfold isOffScreen. rnum. rewrite !orb_true_iff, !bool_decide_eq_true. tauto.
Qed.

(** A body is off screen exactly when the square around its disc has no
    point in the viewport. *)
Theorem isOffScreen_square b width height :
  0 <= radius b → 0 <= width → 0 <= height →
  isOffScreen b width height = true ↔
  ¬ ∃ p, inViewport width height p ∧ inSquare b p.
Proof.
  intros Hr Hw Hh. rewrite isOffScreen_real. unfold inViewport, inSquare. split.
  - intros Hoff ([px py] & Hv & Hs). simpl in *. lra.
  - intros Hnone.
    destruct (Rlt_dec (x b + radius b) 0); [tauto|].
    destruct (Rlt_dec width (x b - radius b)); [tauto|].
    destruct (Rlt_dec (y b + radius b) 0); [tauto|].
    destruct (Rlt_dec height (y b - radius b)); [tauto|].
    destruct Hnone.
    exists (Rmax 0 (x b - radius b), Rmax 0 (y b - radius b)). simpl.
    pose proof (Rmax_l 0 (x b - radius b)). pose proof (Rmax_r 0 (x b - radius b)).
    pose proof (Rmax_l 0 (y b - radius b)). pose proof (Rmax_r 0 (y b - radius b)).
    split_and!; try lra; apply Rmax_lub; lra.
Qed.

(** C27. What the filter of a frame drops is not visible: no point of the
    disc of a body that is off screen lies in the viewport (the radius
    being not negative, as every radius the script computes is). *)
Theorem isOffScreen_hidden b width height p :
  0 <= radius b → isOffScreen b width height = true →
  inViewport width height p → ¬ inDisc b p.
Proof.
  intros Hr Hoff Hv Hd%inDisc_inSquare; [|done].
  apply isOffScreen_real in Hoff. unfold inViewport, inSquare in *. lra.
Qed.

(** C38. The converse fails at the corners: a disc of radius 5 around
    (-4, -4) has no point in the viewport, yet the body is not off
    screen. *)
Theorem isOffScreen_corner :
  let b := newBody (-4) (-4) 1 0 0 in
  radius b = 5 ∧ isOffScreen b 800 600 = false ∧
  ∀ p, inViewport 800 600 p → ¬ inDisc b p.
Proof.
  cbv zeta. assert (radius (newBody (-4) (-4) 1 0 0) = 5) as Hr.
  { cbn [radius newBody]. apply calcRadius_small. lra. }
  split_and!; [done| |].
  - apply not_true_iff_false. rewrite isOffScreen_real, Hr. cbn [x y newBody]. lra.
  - intros [px py] [Hx Hy]. unfold inDisc. rewrite Hr. cbn [x y newBody fst snd] in *.
    nra.
Qed.

(** ** Witnesses *)

Lemma overlap_discs_meet_witness :
  overlap (newBody 0 0 1 0 0) (newBody 4 0 1 0 0) = true ↔
  ∃ p, inOpenDisc (newBody 0 0 1 0 0) p ∧ inOpenDisc (newBody 4 0 1 0 0) p.
Proof.
  apply (overlap_discs_meet (newBody 0 0 1 0 0) (newBody 4 0 1 0 0));
    cbn [radius newBody]; rewrite calcRadius_small; lra.
Defined.

Lemma isOffScreen_square_witness :
  isOffScreen (newBody (-10) 300 1 0 0) 800 600 = true ↔
  ¬ ∃ p, inViewport 800 600 p ∧ inSquare (newBody (-10) 300 1 0 0) p.
Proof.
  apply (isOffScreen_square (newBody (-10) 300 1 0 0)); [|lra..].
  cbn [radius newBody]. rewrite calcRadius_small; lra.
Defined.

Lemma isOffScreen_hidden_witness :
  inViewport 800 600 (0, 300) ∧ ¬ inDisc (newBody (-10) 300 1 0 0) (0, 300).
Proof.
  assert (inViewport 800 600 (0, 300)) as Hv by (unfold inViewport; simpl; lra).
  split; [done|].
  apply (isOffScreen_hidden (newBody (-10) 300 1 0 0) 800 600 (0, 300)); [| |done].
  - cbn [radius newBody]. rewrite calcRadius_small; lra.
  - apply isOffScreen_real. cbn [x y radius newBody]. rewrite calcRadius_small; lra.
Defined.
