(* ===== verification/Balance.v ===== *)
(** * Balance: what the frames add and remove

    A frame changes the collection in three places: the spawn block may
    append a body, the collision pass replaces pairs by their merger,
    the filter at the end drops what is off screen.  [spawned],
    [mergers] and [culled] name what a frame adds, merges and drops;
    [frames] runs the frames of a list of time stamps, [spawnedAlong],
    [mergersAlong] and [culledAlong] collect along the run, and
    [stepsAlong] lists the time steps.

    For every number type the bodies of a frame and of a run are
    accounted for by number.  Over the reals every quantity of the
    class [Conserved] (one that mergers add up and that forces and
    motion leave alone in total: mass, momentum in both coordinates)
    obeys a balance along every run of frames, whatever the time steps
    and the settings: what the world holds at the end and what was
    dropped on the way is what it held at the start and what was
    spawned on the way.  The time steps of a run add up to the time
    between its first and its last time stamp. *)

From Stdlib Require Import Reals Lra.
From stdpp Require Import strings.
From S2P Require Import Prelude Num Config Body Force Collision Random World RealNum RealPhysics NetForce.

(** ** Frames, for every number type *)

Section Frames.
Context {N : Type} `{!NumOps N}.
Variable random : nat → N.
Implicit Types (w : @World N) (ts : list N).

(** The bodies a frame has before the filter at its end. *)
Definition beforeCull (timestamp : N) w : list (Body N) :=
  let dt := frameDt timestamp w in
  checkCollisions (motionPhase (spawnPhase random dt w).1.1 (G w) dt)
    (COLLISION_ENABLED w).

(** What the spawn block of a frame appends: nothing or one body. *)
Definition spawned (timestamp : N) w : list (Body N) :=
  drop (length (bodies w)) (spawnPhase random (frameDt timestamp w) w).1.1.

(** What the filter of a frame drops. *)
Definition culled (timestamp : N) w : list (Body N) :=
  filter (λ b, isOffScreen b (WIDTH w) (HEIGHT w)) (beforeCull timestamp w).

(** The step of the specification: the spawned body appended, every
    body moved by the net force of the collection as it stood, one
    collision pass, the bodies off screen removed. *)
Definition specStep (timestamp : N) w : list (Body N) :=
  let dt := frameDt timestamp w in
  let bs := bodies w ++ spawned timestamp w in
  let moved :=
    imap (λ k b, let f := netForce bs (G w) k in
                 updatePosition (applyForce b f.1 f.2 dt) dt) bs in
  let merged := if COLLISION_ENABLED w then resolved moved else moved in
  filter (λ b, isOffScreen b (WIDTH w) (HEIGHT w) = false) merged.

(** The number of mergers of the collision pass of a frame. *)
Definition mergers (timestamp : N) w : nat :=
  let dt := frameDt timestamp w in
  if COLLISION_ENABLED w
  then length (resolve (motionPhase (spawnPhase random dt w).1.1 (G w) dt)).2
  else 0.

(** The frames of a list of time stamps, in order. *)
Definition frames ts w : World := foldl (λ w t, loop random t w) w ts.

Fixpoint spawnedAlong ts w : list (Body N) :=
  match ts with
  | [] => []
  | t :: ts => spawned t w ++ spawnedAlong ts (loop random t w)
  end.

Fixpoint culledAlong ts w : list (Body N) :=
  match ts with
  | [] => []
  | t :: ts => culled t w ++ culledAlong ts (loop random t w)
  end.

Fixpoint mergersAlong ts w : nat :=
  match ts with
  | [] => 0
  | t :: ts => mergers t w + mergersAlong ts (loop random t w)
  end.

(** The time steps of the frames of a run. *)
Fixpoint stepsAlong ts w : list N :=
  match ts with
  | [] => []
  | t :: ts => frameDt t w :: stepsAlong ts (loop random t w)
  end.

Lemma frames_cons t ts w : frames (t :: ts) w = frames ts (loop random t w).
Proof. done. Qed.

(** A run of frames is a run of events. *)
Lemma frames_run ts w : frames ts w = run random (Frame <$> ts) w.
Proof. revert w. induction ts as [|t ts IH]; intros w; [done|]. apply IH. Qed.

Lemma spawnPhase_spawned t w :
  (spawnPhase random (frameDt t w) w).1.1 = bodies w ++ spawned t w.
Proof.
  unfold spawned.
  destruct (spawnPhase_at_most_one random (frameDt t w) w) as (new & -> & _).
  by rewrite drop_app_length.
Qed.

Lemma spawned_length t w : length (spawned t w) ≤ 1.
Proof.
  unfold spawned.
  destruct (spawnPhase_at_most_one random (frameDt t w) w) as (new & -> & ? & _).
  by rewrite drop_app_length.
Qed.

Lemma spawned_disabled t w : SPAWN_ENABLED w = false → spawned t w = [].
Proof.
  intros Hs. unfold spawned. rewrite spawnPhase_disabled by done. apply drop_all.
Qed.

(** The filter splits what the frame has computed into what it keeps
    and what it drops. *)
Lemma loop_culled t w : bodies (loop random t w) ++ culled t w ≡ₚ beforeCull t w.
Proof.
  rewrite loop_bodies. unfold culled, cull, beforeCull. cbv zeta.
  induction (checkCollisions _ _) as [|b bs IH]; [done|].
  rewrite !filter_cons. destruct (isOffScreen b _ _); simpl.
  - by rewrite <- Permutation_middle, IH.
  - by rewrite IH.
Qed.

Lemma beforeCull_length t w :
  length (beforeCull t w) + mergers t w = length (bodies w) + length (spawned t w).
Proof.
  unfold beforeCull, mergers. cbv zeta. set (bs := motionPhase _ _ _).
  assert (length bs = length (bodies w) + length (spawned t w)) as <-.
  { unfold bs. by rewrite motionPhase_length, spawnPhase_spawned, length_app. }
  destruct (COLLISION_ENABLED w); [|rewrite checkCollisions_disabled; lia].
  rewrite checkCollisions_resolve. apply resolved_length.
Qed.

(** The bodies of a frame by number: what is kept, what is dropped and
    one for every merger is what there was and what was spawned. *)
Lemma loop_count t w :
  length (bodies (loop random t w)) + length (culled t w) + mergers t w
  = length (bodies w) + length (spawned t w).
Proof.
  rewrite <- length_app, (loop_culled t w). apply beforeCull_length.
Qed.

Lemma spawnedAlong_length ts w : length (spawnedAlong ts w) ≤ length ts.
Proof.
  revert w. induction ts as [|t ts IH]; intros w; simpl; [done|].
  rewrite length_app. pose proof (spawned_length t w). specialize (IH (loop random t w)).
  lia.
Qed.

Lemma frames_count ts w :
  length (bodies (frames ts w)) + length (culledAlong ts w) + mergersAlong ts w
  = length (bodies w) + length (spawnedAlong ts w).
Proof.
  revert w. induction ts as [|t ts IH]; intros w; [simpl; lia|].
  rewrite frames_cons. cbn [spawnedAlong culledAlong mergersAlong]. rewrite !length_app.
  specialize (IH (loop random t w)). pose proof (loop_count t w). lia.
Qed.

(** Spawning stays off along a run of frames. *)
Lemma frames_spawn_disabled ts w :
  SPAWN_ENABLED w = false →
  SPAWN_ENABLED (frames ts w) = false ∧ spawnedAlong ts w = [].
Proof.
  revert w. induction ts as [|t ts IH]; intros w Hs; [done|].
  rewrite frames_cons. cbn [spawnedAlong]. rewrite spawned_disabled by done.
  apply IH. by destruct (loop_settings random t w) as (_ & _ & -> & _).
Qed.

(** The frames of a run add at most one body each, however long they
    take: after [n] frames the world holds at most [n] bodies more. *)
Theorem frames_length ts w :
  length (bodies (frames ts w)) ≤ length (bodies w) + length ts.
Proof.
  pose proof (frames_count ts w). pose proof (spawnedAlong_length ts w). lia.
Qed.

(** A collection that is not empty is not emptied by mergers: a frame
    keeps or drops at least one body of it. *)
Lemma beforeCull_nonempty t w : bodies w ≠ [] → beforeCull t w ≠ [].
Proof.
  intros Hne Hnil. apply (f_equal length) in Hnil.
  unfold beforeCull in Hnil. cbv zeta in Hnil.
  set (bs := motionPhase _ _ _) in Hnil.
  assert (0 < length bs).
  { unfold bs. rewrite motionPhase_length, spawnPhase_spawned, length_app.
    destruct (bodies w); [done|simpl; lia]. }
  destruct (COLLISION_ENABLED w); [|rewrite checkCollisions_disabled in Hnil; simpl in *; lia].
  rewrite checkCollisions_resolve in Hnil.
  pose proof (resolved_length bs). pose proof (resolve_length bs). simpl in *. lia.
Qed.

Lemma frames_nonempty ts w :
  bodies w ≠ [] → 0 < length (bodies (frames ts w)) + length (culledAlong ts w).
Proof.
  revert w. induction ts as [|t ts IH]; intros w Hne.
  { destruct (bodies w) eqn:E; [done|]. simpl. rewrite E. simpl. lia. }
  rewrite frames_cons. cbn [culledAlong]. rewrite length_app.
  destruct (decide (bodies (loop random t w) = [])) as [Hnil|Hsome].
  - pose proof (beforeCull_nonempty t w Hne) as Hb.
    pose proof (Permutation_length (loop_culled t w)) as Hl.
    rewrite Hnil in Hl. destruct (beforeCull t w); [done|]. simpl in Hl. lia.
  - specialize (IH _ Hsome). lia.
Qed.

(** Mergers come to an end: with spawning off, a run of frames, however
    long, merges fewer pairs than the world has bodies. *)
Theorem frames_mergers_bounded ts w :
  SPAWN_ENABLED w = false → bodies w ≠ [] →
  mergersAlong ts w < length (bodies w).
Proof.
  intros Hs Hne. pose proof (frames_count ts w) as Hc.
  destruct (frames_spawn_disabled ts w Hs) as [_ Hnone]. rewrite Hnone in Hc.
  pose proof (frames_nonempty ts w Hne). simpl in Hc. lia.
Qed.

End Frames.

(** ** The balance over the reals *)

Local Open Scope R_scope.

(** A quantity of a body is conserved when a merger has the sum of the
    quantities of its pair and the forces and the motion of a frame
    leave the total of a collection as it is.  The balance below is
    proved of every conserved quantity; mass and the two coordinates of
    the momentum are the instances. *)
Class Conserved (q : Body R → R) : Prop := {
  conserved_merge b1 b2 :
    0 < masse b1 → 0 < masse b2 → q (mergeBodies b1 b2) = q b1 + q b2;
  conserved_motion bs g dt :
    positive_masses bs → total q (motionPhase bs g dt) = total q bs;
}.

#[export] Instance masse_conserved : Conserved masse.
Proof.
  split; [done|]. intros bs g dt _. apply totalMass_fmap, motionPhase_masses.
Qed.

#[export] Instance momentumX_conserved : Conserved momentumX.
Proof.
  split; intros; [by apply mergeBodies_momentum|by apply motionPhase_momenta].
Qed.

#[export] Instance momentumY_conserved : Conserved momentumY.
Proof.
  split; intros; [by apply mergeBodies_momentum|by apply motionPhase_momenta].
Qed.

Section Balance.
Variable random : nat → R.
Hypothesis random_nonneg : ∀ k, 0 <= random k.
Implicit Types (w : @World R) (ts : list R).

Lemma beforeCull_positive t w :
  positive_masses (bodies w) → positive_masses (beforeCull random t w).
Proof.
  intros Hpos. apply checkCollisions_positive.
  eapply positive_masses_fmap; [symmetry; apply motionPhase_masses|].
  by apply spawnPhase_positive.
Qed.

Lemma culled_positive t w :
  positive_masses (bodies w) → positive_masses (culled random t w).
Proof.
  intros Hpos. eapply Forall_sublist; [apply sublist_filter|].
  by apply beforeCull_positive.
Qed.

Lemma culledAlong_positive ts w :
  world_ok w → positive_masses (culledAlong random ts w).
Proof.
  revert w. induction ts as [|t ts IH]; intros w Hok; [constructor|].
  cbn [culledAlong]. apply Forall_app. split; [apply culled_positive, Hok|].
  by apply IH, loop_ok.
Qed.

Section Quantity.
Context (q : Body R → R) `{!Conserved q}.

Lemma beforeCull_total t w :
  positive_masses (bodies w) →
  total q (beforeCull random t w) = total q (bodies w) + total q (spawned random t w).
Proof.
  intros Hpos. unfold beforeCull. cbv zeta.
  pose proof (spawnPhase_positive random random_nonneg (frameDt t w) w Hpos) as Hpos'.
  rewrite checkCollisions_conserves, conserved_motion by
    (done || apply conserved_merge ||
     (eapply positive_masses_fmap; [symmetry; apply motionPhase_masses|done])).
  by rewrite spawnPhase_spawned, total_app.
Qed.

(** The balance of a frame. *)
Lemma loop_balance t w :
  positive_masses (bodies w) →
  total q (bodies (loop random t w)) + total q (culled random t w) =
    total q (bodies w) + total q (spawned random t w).
Proof.
  intros Hpos. rewrite <- total_app, (loop_culled random t w).
  by apply beforeCull_total.
Qed.

(** The balance of a run of frames. *)
Lemma frames_balance ts w :
  world_ok w →
  total q (bodies (frames random ts w)) + total q (culledAlong random ts w) =
    total q (bodies w) + total q (spawnedAlong random ts w).
Proof.
  revert w. induction ts as [|t ts IH]; intros w Hok; [simpl; lra|].
  rewrite frames_cons. cbn [spawnedAlong culledAlong]. rewrite !total_app.
  specialize (IH (loop random t w) (loop_ok random random_nonneg t w Hok)).
  pose proof (loop_balance t w) as Hb. destruct Hok as (_ & _ & _ & Hpos & _).
  specialize (Hb Hpos). lra.
Qed.

End Quantity.

(** C24. From a world that satisfies [world_ok], as every reachable world
    does, and with random numbers that are not negative, mass is
    accounted for along every run of frames: the mass the world
    holds at the end and the mass dropped off screen on the way are the
    mass it held at the start and the mass spawned on the way.  No
    frame creates or destroys mass in its forces, its motion or its
    mergers, whatever the time steps and the settings. *)
Theorem frames_mass_balance ts w :
  world_ok w →
  totalMass (bodies (frames random ts w)) + totalMass (culledAlong random ts w) =
    totalMass (bodies w) + totalMass (spawnedAlong random ts w).
Proof. apply (frames_balance masse). Qed.

(** C25. Under the same conditions momentum is accounted for along every
    run of frames, in both coordinates: the forces of a frame cancel and a merger keeps the
    momentum of its pair, so the momentum of the world changes only by
    what is spawned and what is dropped off screen. *)
Theorem frames_momentum_balance ts w :
  world_ok w →
  total momentumX (bodies (frames random ts w)) + total momentumX (culledAlong random ts w) =
    total momentumX (bodies w) + total momentumX (spawnedAlong random ts w) ∧
  total momentumY (bodies (frames random ts w)) + total momentumY (culledAlong random ts w) =
    total momentumY (bodies w) + total momentumY (spawnedAlong random ts w).
Proof.
  intros Hok. split; [by apply (frames_balance momentumX)|by apply (frames_balance momentumY)].
Qed.

(** With spawning off the mass of the world never grows along a run of
    frames, and it is conserved exactly as long as nothing is dropped
    off screen. *)
Theorem frames_mass_le ts w :
  world_ok w → SPAWN_ENABLED w = false →
  totalMass (bodies (frames random ts w)) <= totalMass (bodies w) ∧
  (culledAlong random ts w = [] →
   totalMass (bodies (frames random ts w)) = totalMass (bodies w)).
Proof.
  intros Hok Hs.
  pose proof (frames_balance masse ts w Hok) as Hb.
  destruct (frames_spawn_disabled random ts w Hs) as [_ Hnone].
  rewrite Hnone in Hb. simpl in Hb. unfold totalMass. split.
  - assert (0 <= total masse (culledAlong random ts w)); [|lra].
    apply total_nonneg. eapply Forall_impl; [by apply culledAlong_positive|].
    simpl. intros. lra.
  - intros Hnil. rewrite Hnil in Hb. simpl in Hb. lra.
Qed.

(** ** The frame against the specification *)

(** C3. Over the reals the frame of the script is the step of the
    specification: its index loops over a force array, with action and
    reaction booked pair by pair, its two passes of motion, its
    collision pass with marker set and output arrays, and its filter
    compute what the reference definitions [netForce] and [resolve]
    say. *)
Theorem loop_refines_step t w :
  bodies (loop random t w) = specStep random t w.
Proof.
  rewrite loop_bodies. unfold specStep, cull. cbv zeta.
  rewrite <- spawnPhase_spawned, motionPhase_imap.
  destruct (COLLISION_ENABLED w);
    [rewrite checkCollisions_resolve|rewrite checkCollisions_disabled];
    apply list_filter_iff; intros b; by destruct (isOffScreen b _ _).
Qed.

(** ** The clock *)

Lemma stepsAlong_later ts w :
  lastTimestamp w ≠ 0 → Forall (λ t, t ≠ 0) ts →
  total id (stepsAlong random ts w) =
    (default (lastTimestamp w) (last ts) - lastTimestamp w) / 1000.
Proof.
  revert w. induction ts as [|t ts IH]; intros w Hw Hts; [simpl; lra|].
  inv Hts. cbn [stepsAlong total foldr]. fold (total id (stepsAlong random ts (loop random t w))).
  destruct (loop_settings random t w) as (_ & _ & _ & _ & _ & _ & _ & Hlast).
  rewrite IH, Hlast, frameDt_later by (done || by rewrite Hlast).
  rewrite last_cons. unfold id. destruct (last ts); simpl; lra.
Qed.

(** The simulation keeps time: over a run of frames the time steps add
    up to the time between the first time stamp the script has seen
    and the last one, in seconds.  Nothing is lost between frames,
    however irregular they are; the first frame serves to start the
    clock and advances nothing. *)
Theorem frames_elapsed t ts w :
  Forall (λ t, t ≠ 0) (t :: ts) →
  total id (stepsAlong random (t :: ts) w) =
    (default t (last ts)
     - (if decide (lastTimestamp w = 0) then t else lastTimestamp w)) / 1000.
Proof.
  intros Hts. case_decide as Hw.
  - inv Hts. cbn [stepsAlong total foldr].
    fold (total id (stepsAlong random ts (loop random t w))).
    destruct (loop_settings random t w) as (_ & _ & _ & _ & _ & _ & _ & Hlast).
    rewrite stepsAlong_later, Hlast, frameDt_first by (done || by rewrite Hlast).
    unfold id. lra.
  - rewrite stepsAlong_later, last_cons by done. by destruct (last ts).
Qed.

End Balance.

(** ** Witnesses *)

Lemma frames_mass_balance_witness :
  totalMass (bodies (frames (λ _, 0) [16; 32] (boot (λ _, 0) 800 600))) +
    totalMass (culledAlong (λ _, 0) [16; 32] (boot (λ _, 0) 800 600)) =
  totalMass (bodies (boot (λ _, 0) 800 600)) +
    totalMass (spawnedAlong (λ _, 0) [16; 32] (boot (λ _, 0) 800 600)).
Proof.
  apply (frames_mass_balance (λ _, 0)); [intros; lra|].
  apply reset_ok. intros. lra.
Defined.

Lemma frames_momentum_balance_witness :
  total momentumX (bodies (frames (λ _, 0) [16; 32] (boot (λ _, 0) 800 600))) +
    total momentumX (culledAlong (λ _, 0) [16; 32] (boot (λ _, 0) 800 600)) =
  total momentumX (bodies (boot (λ _, 0) 800 600)) +
    total momentumX (spawnedAlong (λ _, 0) [16; 32] (boot (λ _, 0) 800 600)) ∧
  total momentumY (bodies (frames (λ _, 0) [16; 32] (boot (λ _, 0) 800 600))) +
    total momentumY (culledAlong (λ _, 0) [16; 32] (boot (λ _, 0) 800 600)) =
  total momentumY (bodies (boot (λ _, 0) 800 600)) +
    total momentumY (spawnedAlong (λ _, 0) [16; 32] (boot (λ _, 0) 800 600)).
Proof.
  apply (frames_momentum_balance (λ _, 0)); [intros; lra|].
  apply reset_ok. intros. lra.
Defined.

Lemma frames_mass_le_witness :
  totalMass (bodies (frames (λ _, 0) [16; 32]
                       (keydown (λ _, 0) "s"%string (boot (λ _, 0) 800 600)))) <=
    totalMass (bodies (keydown (λ _, 0) "s"%string (boot (λ _, 0) 800 600))) ∧
  (culledAlong (λ _, 0) [16; 32] (keydown (λ _, 0) "s"%string (boot (λ _, 0) 800 600)) = [] →
   totalMass (bodies (frames (λ _, 0) [16; 32]
                        (keydown (λ _, 0) "s"%string (boot (λ _, 0) 800 600)))) =
     totalMass (bodies (keydown (λ _, 0) "s"%string (boot (λ _, 0) 800 600)))).
Proof.
  apply (frames_mass_le (λ _, 0)); [intros; lra| |reflexivity].
  apply keydown_ok, reset_ok; intros; lra.
Defined.

Lemma frames_mergers_bounded_witness :
  (mergersAlong (λ _, 0%R) [16%R; 32%R]
     (keydown (λ _, 0%R) "s"%string (boot (λ _, 0%R) 800%R 600%R))
   < length (bodies (keydown (λ _, 0%R) "s"%string (boot (λ _, 0%R) 800%R 600%R))))%nat.
Proof.
  apply (frames_mergers_bounded (λ _, 0%R)); [reflexivity|discriminate].
Defined.

Lemma frames_elapsed_witness :
  total id (stepsAlong (λ _, 0) [16; 33; 50] (boot (λ _, 0) 800 600)) =
    (default 16 (last [33; 50])
     - (if decide (lastTimestamp (boot (λ _, 0) 800 600) = 0) then 16
        else lastTimestamp (boot (λ _, 0) 800 600))) / 1000.
Proof.
  apply (frames_elapsed (λ _, 0) 16 [33; 50]). repeat constructor; lra.
Defined.
