(* ===== verification/Render.v ===== *)
(** * Render: what a frame paints and what the overlay says

    The drawing part of the script: [Body.draw], the block "Zeichnen" of
    [loop] and the template of the overlay text.  The canvas is the
    part of a 2D rendering context the script touches: four drawing
    attributes, the current path and the list of what has been painted
    so far.  Each method the script calls is a function on contexts, so
    that the order of the calls, the attributes in force at a paint and
    the path a [fill] paints are those of the code.

    [picture] is what the specification asks of the renderer (a filled
    circle and a label per body, over a cleared background); the
    theorems below show that [drawFrame] paints it, whatever state the
    context was left in. *)

From Stdlib Require Import Ascii.
From stdpp Require Import strings pretty.
From S2P Require Import Prelude Num Config Body Force Collision Random World.

(** ** Strings *)

(** [String.prototype.trim] on strings whose ends hold no white space
    other than the ASCII one. *)
Fixpoint trimStart (s : string) : string :=
  match s with
  | String c s' => if Ascii.is_space c then trimStart s' else s
  | EmptyString => EmptyString
  end.

Fixpoint trimEnd (s : string) : string :=
  match s with
  | String c s' =>
      match trimEnd s' with
      | EmptyString => if Ascii.is_space c then EmptyString else String c EmptyString
      | r => String c r
      end
  | EmptyString => EmptyString
  end.

Definition trim (s : string) : string := trimEnd (trimStart s).

(** Reading back a decimal number: the digits at the start of a string. *)
Fixpoint readN (s : string) (acc : N) : N :=
  match s with
  | String c s' =>
      match Ascii.is_nat c with
      | Some d => readN s' (acc * 10 + N.of_nat d)
      | None => acc
      end
  | EmptyString => acc
  end.

(** [stripPrefix p s]: [s] without its prefix [p], if it has it. *)
Fixpoint stripPrefix (p s : string) : option string :=
  match p, s with
  | EmptyString, _ => Some s
  | String a p', String b s' => if decide (a = b) then stripPrefix p' s' else None
  | String _ _, EmptyString => None
  end.

(** The lines of a text: the pieces between its line feeds. *)
Definition newline : ascii := "010"%char.

Fixpoint lines (s : string) : list string :=
  match s with
  | EmptyString => [EmptyString]
  | String c s' =>
      if decide (c = newline) then EmptyString :: lines s'
      else match lines s' with
           | l :: ls => String c l :: ls
           | [] => [String c EmptyString]
           end
  end.

(** A string without a line feed. *)
Fixpoint oneLine (s : string) : bool :=
  match s with
  | EmptyString => true
  | String c s' => if decide (c = newline) then false else oneLine s'
  end.

Lemma app_cons c (s t : string) : String c s +:+ t = String c (s +:+ t).
Proof. done. Qed.

Lemma app_empty_l (t : string) : "" +:+ t = t.
Proof. done. Qed.

Lemma app_assoc_string (s t u : string) : (s +:+ t) +:+ u = s +:+ (t +:+ u).
Proof. induction s as [|c s IH]; [done|]. by rewrite !app_cons, IH. Qed.

Lemma trimEnd_app (s t : string) :
  trimEnd t ≠ "" → trimEnd (s +:+ t) = s +:+ trimEnd t.
Proof.
  intros Ht. induction s as [|c s IH]; [done|].
  rewrite !app_cons. simpl. rewrite IH.
  destruct (s +:+ trimEnd t) eqn:E; [|done].
  destruct s; [|done]. by rewrite app_empty_l in E.
Qed.

Lemma trimEnd_app_ne (s t : string) : trimEnd t ≠ "" → trimEnd (s +:+ t) ≠ "".
Proof.
  intros Ht. rewrite trimEnd_app by done. destruct s; [done|]. by rewrite app_cons.
Qed.

Lemma stripPrefix_app (p s : string) : stripPrefix p (p +:+ s) = Some s.
Proof.
  induction p as [|c p IH]; [done|]. rewrite app_cons. simpl.
  by rewrite decide_True.
Qed.

(** Printing and reading a number: [readN] inverts stdpp's [pretty]. *)
Lemma pretty_N_char_is_nat (d : N) :
  (d < 10)%N → Ascii.is_nat (pretty_N_char d) = Some (N.to_nat d).
Proof.
  intros Hd.
  assert (d = 0 ∨ d = 1 ∨ d = 2 ∨ d = 3 ∨ d = 4 ∨ d = 5 ∨ d = 6 ∨ d = 7 ∨
          d = 8 ∨ d = 9)%N as Hc by lia.
  by repeat (destruct Hc as [->|Hc]; [done|]); subst.
Qed.

Lemma readN_pretty_N_go (n : N) (s : string) :
  readN (pretty_N_go n s) 0 = readN s n.
Proof.
  revert s. induction (N.lt_wf_0 n) as [n _ IH]; intros s.
  destruct (decide (n = 0)%N) as [->|Hn]; [by rewrite pretty_N_go_0|].
  rewrite pretty_N_go_step by lia.
  rewrite IH by (apply N.div_lt; lia). simpl.
  rewrite pretty_N_char_is_nat by (apply N.mod_lt; lia).
  rewrite N2Nat.id. f_equal. pose proof (N.div_mod n 10). lia.
Qed.

Lemma pretty_N_go_app (n : N) (s t : string) :
  pretty_N_go n s +:+ t = pretty_N_go n (s +:+ t).
Proof.
  revert s. induction (N.lt_wf_0 n) as [n _ IH]; intros s.
  destruct (decide (n = 0)%N) as [->|Hn]; [by rewrite !pretty_N_go_0|].
  rewrite (pretty_N_go_step n s), (pretty_N_go_step n (s +:+ t)) by lia.
  by rewrite IH by (apply N.div_lt; lia).
Qed.

(** A printed number followed by something that does not start with a
    digit reads back as the number. *)
Lemma readN_pretty (n : nat) (t : string) :
  (∀ acc, readN t acc = acc) → readN (pretty n +:+ t) 0 = N.of_nat n.
Proof.
  intros Ht. unfold pretty, pretty_nat, pretty, pretty_N.
  case_decide as Hn; [rewrite Hn; simpl; apply Ht|].
  by rewrite pretty_N_go_app, readN_pretty_N_go, app_empty_l.
Qed.

Lemma app_empty_r (s : string) : s +:+ "" = s.
Proof. induction s as [|c s IH]; [done|]. by rewrite app_cons, IH. Qed.

Lemma readN_pretty_end (n : nat) : readN (pretty n) 0 = N.of_nat n.
Proof. rewrite <- (app_empty_r (pretty n)). by apply readN_pretty. Qed.

(** Lines. *)
Lemma oneLine_app (s t : string) : oneLine (s +:+ t) = oneLine s && oneLine t.
Proof.
  induction s as [|c s IH]; [done|]. rewrite app_cons. simpl. by case_decide.
Qed.

Lemma lines_app (s t : string) :
  oneLine s = true → lines (s +:+ String newline t) = s :: lines t.
Proof.
  induction s as [|c s IH]; intros Hs; [done|].
  rewrite app_cons. simpl in *. case_decide; [done|]. by rewrite IH.
Qed.

Lemma lines_line (s label rest : string) :
  oneLine s = true →
  lines (s +:+ (String newline label +:+ rest)) = s :: lines (label +:+ rest).
Proof. intros Hs. rewrite app_cons. by apply lines_app. Qed.

Lemma pretty_N_char_oneLine (d : N) : (d < 10)%N → pretty_N_char d ≠ newline.
Proof.
  intros Hd.
  assert (d = 0 ∨ d = 1 ∨ d = 2 ∨ d = 3 ∨ d = 4 ∨ d = 5 ∨ d = 6 ∨ d = 7 ∨
          d = 8 ∨ d = 9)%N as Hc by lia.
  by repeat (destruct Hc as [->|Hc]; [done|]); subst.
Qed.

Lemma pretty_N_go_oneLine (n : N) (s : string) :
  oneLine s = true → oneLine (pretty_N_go n s) = true.
Proof.
  revert s. induction (N.lt_wf_0 n) as [n _ IH]; intros s Hs.
  destruct (decide (n = 0)%N) as [->|Hn]; [by rewrite pretty_N_go_0|].
  rewrite pretty_N_go_step by lia. apply IH; [apply N.div_lt; lia|].
  simpl. by rewrite decide_False by (apply pretty_N_char_oneLine, N.mod_lt; lia).
Qed.

(** A printed number has no line feed. *)
Lemma pretty_nat_oneLine (n : nat) : oneLine (pretty n) = true.
Proof.
  unfold pretty, pretty_nat, pretty, pretty_N.
  case_decide; [done|]. by apply pretty_N_go_oneLine.
Qed.

Lemma pretty_N_oneLine (n : N) : oneLine (pretty n) = true.
Proof.
  unfold pretty, pretty_N. case_decide; [done|]. by apply pretty_N_go_oneLine.
Qed.

Lemma pretty_Z_oneLine (z : Z) : oneLine (pretty z) = true.
Proof. destruct z; [done|apply pretty_N_oneLine..]. Qed.

(** ** The canvas *)

Section Render.
Context {N : Type} `{!NumOps N}.
Local Open Scope num_scope.

Definition BG_COLOR : string := "rgb(10, 10, 30)".
Definition TEXT_COLOR : string := "white".

(** One [arc] of the current path. *)
Record Arc : Type := mkArc {
  arcX : N; arcY : N; arcRadius : N; startAngle : N; endAngle : N;
}.

(** What a painting call leaves on the canvas, with the attributes that
    were in force when it was made. *)
Inductive Paint : Type :=
  | PaintRect (style : string) (left top width height : N)
  | PaintPath (style : string) (subpaths : list Arc)
  | PaintText (style fnt align baseline : string) (text : N) (left top : N).

(** The rendering context: the attributes the script sets, the current
    path, and the paints made so far, oldest first. *)
Record Ctx : Type := mkCtx {
  fillStyle : string;
  font : string;
  textAlign : string;
  textBaseline : string;
  path : list Arc;
  painted : list Paint;
}.

(** A context in its default state with an empty bitmap: what
    [getContext] returns and what assigning [canvas.width] leaves. *)
Definition newCtx : Ctx :=
  mkCtx "#000000" "10px sans-serif" "start" "alphabetic" [] [].

Definition set_fillStyle (s : string) (c : Ctx) : Ctx :=
  mkCtx s (font c) (textAlign c) (textBaseline c) (path c) (painted c).

Definition set_font (s : string) (c : Ctx) : Ctx :=
  mkCtx (fillStyle c) s (textAlign c) (textBaseline c) (path c) (painted c).

Definition set_textAlign (s : string) (c : Ctx) : Ctx :=
  mkCtx (fillStyle c) (font c) s (textBaseline c) (path c) (painted c).

Definition set_textBaseline (s : string) (c : Ctx) : Ctx :=
  mkCtx (fillStyle c) (font c) (textAlign c) s (path c) (painted c).

(** [beginPath()] empties the current path. *)
Definition beginPath (c : Ctx) : Ctx :=
  mkCtx (fillStyle c) (font c) (textAlign c) (textBaseline c) [] (painted c).

(** [arc(x, y, r, a0, a1)] adds a subpath to the current path. *)
Definition arc (x0 y0 r a0 a1 : N) (c : Ctx) : Ctx :=
  mkCtx (fillStyle c) (font c) (textAlign c) (textBaseline c)
    (path c ++ [mkArc x0 y0 r a0 a1]) (painted c).

(** [fill()] paints every subpath of the current path and keeps the
    path. *)
Definition fill (c : Ctx) : Ctx :=
  mkCtx (fillStyle c) (font c) (textAlign c) (textBaseline c) (path c)
    (painted c ++ [PaintPath (fillStyle c) (path c)]).

(** [fillRect(x, y, w, h)] paints a rectangle and leaves the path alone. *)
Definition fillRect (x0 y0 w h : N) (c : Ctx) : Ctx :=
  mkCtx (fillStyle c) (font c) (textAlign c) (textBaseline c) (path c)
    (painted c ++ [PaintRect (fillStyle c) x0 y0 w h]).

(** [fillText(text, x, y)], the text being a number here. *)
Definition fillText (text x0 y0 : N) (c : Ctx) : Ctx :=
  mkCtx (fillStyle c) (font c) (textAlign c) (textBaseline c) (path c)
    (painted c ++
     [PaintText (fillStyle c) (font c) (textAlign c) (textBaseline c) text x0 y0]).

(** ** The script's drawing code *)

(** [Body.draw(ctx)]. *)
Definition draw (b : Body N) (c : Ctx) : Ctx :=
  let c := set_fillStyle "rgb(150, 180, 255)" c in
  let c := beginPath c in
  let c := arc (x b) (y b) (radius b) (int 0) (Math_PI * int 2) c in
  let c := fill c in
  let c := set_fillStyle TEXT_COLOR c in
  let c := set_font "16px Arial" c in
  let c := set_textAlign "center" c in
  let c := set_textBaseline "middle" c in
  fillText (Math_floor (masse b)) (x b) (y b) c.

(** The block "Zeichnen" of [loop]: the background, then every body in
    the order of the collection. *)
Definition drawFrame (w : World) (c : Ctx) : Ctx :=
  let c := set_fillStyle BG_COLOR c in
  let c := fillRect (int 0) (int 0) (WIDTH w) (HEIGHT w) c in
  foldl (λ c b, draw b c) c (bodies w).

(** ** The overlay *)

Section Overlay.
(** [Number.prototype.toFixed(0)] of the host. *)
Variable toFixed0 : N → string.

Definition onOff (b : bool) : string := if b then "AN" else "AUS".

(** The keys' legend: the constant tail of the template, with the line
    break and the indentation before the closing backquote. *)
Definition legend : string := "

Tasten:
- Pfeil Hoch/Runter: G erhöhen/verringern
- C: Kollision ein/aus
- S: Spawn ein/aus
- V: Random Velocity ein/aus
- Pfeil Rechts/Links: Random Velocity Stärke ändern
- R: Reset
- Klick: Neuer Körper an Mausposition
    ".

(** The six lines of the template that show values, followed by
    [rest]. *)
Definition overlayLines (w : World) (rest : string) : string :=
  "Anzahl Körper: " +:+ pretty (length (bodies w)) +:+ "
Gravitationskonstante (G): " +:+ toFixed0 (G w) +:+ "
Kollisionen: " +:+ onOff (COLLISION_ENABLED w) +:+ "
Spawn: " +:+ onOff (SPAWN_ENABLED w) +:+ "
Random Velocity: " +:+ onOff (RANDOM_VELOCITY_ENABLED w) +:+ "
Random Velocity Stärke: " +:+ toFixed0 (RANDOM_VELOCITY_STRENGTH w) +:+ rest.

(** The template literal, before [trim]: it opens with the line break
    that follows the backquote. *)
Definition overlayTemplate (w : World) : string :=
  "
" +:+ overlayLines w legend.

(** The value assigned to [overlay.textContent]. *)
Definition overlayText (w : World) : string := trim (overlayTemplate w).

(** Reading the number of bodies back from the overlay. *)
Definition readCount (s : string) : option nat :=
  (λ rest, N.to_nat (readN rest 0)) <$> stripPrefix "Anzahl Körper: " s.

(** Reading a switch back from its line. *)
Definition readSwitch (label line : string) : option bool :=
  rest ← stripPrefix label line;
  if decide (rest = "AN") then Some true
  else if decide (rest = "AUS") then Some false
  else None.

(** Reading the overlay back: the number of bodies from the first line
    and the three switches from the third, fourth and fifth. *)
Definition readSettings (s : string) : option (nat * bool * bool * bool) :=
  match lines s with
  | l0 :: _ :: l2 :: l3 :: l4 :: _ =>
      n ← readCount l0;
      c ← readSwitch "Kollisionen: " l2;
      sp ← readSwitch "Spawn: " l3;
      v ← readSwitch "Random Velocity: " l4;
      Some (n, c, sp, v)
  | _ => None
  end.

End Overlay.

(** ** The picture the specification asks for *)

(** A filled circle of the body's radius at its position, and its mass,
    rounded down, centred on it. *)
Definition bodyPaints (b : Body N) : list Paint :=
  [PaintPath "rgb(150, 180, 255)"
     [mkArc (x b) (y b) (radius b) (int 0) (Math_PI * int 2)];
   PaintText TEXT_COLOR "16px Arial" "center" "middle"
     (Math_floor (masse b)) (x b) (y b)].

Definition picture (w : World) : list Paint :=
  PaintRect BG_COLOR (int 0) (int 0) (WIDTH w) (HEIGHT w)
  :: (bodies w ≫= bodyPaints).

(** ** What the canvas shows *)

Definition isRect (p : Paint) : bool :=
  match p with PaintRect _ _ _ _ _ => true | _ => false end.

(** The paints from the last rectangle on.  The only rectangle the
    script paints is the background, opaque and of the size of the
    canvas, so this is what is visible of the paints made so far. *)
Fixpoint lastFrame (ps : list Paint) : list Paint :=
  match ps with
  | [] => []
  | p :: ps' =>
      match lastFrame ps' with
      | [] => if isRect p then p :: ps' else []
      | frame => frame
      end
  end.

(** ** What the drawing code paints *)

(** [draw] paints the disc and the label of its body, with the
    attributes it sets itself, and nothing of the path it found. *)
Lemma draw_painted b c : painted (draw b c) = painted c ++ bodyPaints b.
Proof. unfold draw, bodyPaints. simpl. by rewrite <- app_assoc. Qed.

Lemma foldl_draw_painted bs c :
  painted (foldl (λ c b, draw b c) c bs) = painted c ++ (bs ≫= bodyPaints).
Proof.
  revert c. induction bs as [|b bs IH]; intros c; csimpl; [by rewrite app_nil_r|].
  by rewrite IH, draw_painted, <- app_assoc.
Qed.

Lemma drawFrame_painted w c :
  painted (drawFrame w c) = painted c ++ picture w.
Proof.
  unfold drawFrame, picture. rewrite foldl_draw_painted. simpl.
  by rewrite <- app_assoc.
Qed.

(** ** Contexts that show the same

    Two contexts show the same when the same paints have been made on
    them, whatever attributes and current path they hold.  A canvas
    call is in general not compatible with this equivalence ([fill]
    paints the path it finds, in the style it finds); the drawing code
    of the script is, because it sets every attribute before it uses it
    and begins the path anew for every body. *)
Definition same_canvas (c c' : Ctx) : Prop := painted c = painted c'.

#[global] Instance same_canvas_equivalence : Equivalence same_canvas.
Proof.
  split; unfold same_canvas; [by intros ?|by intros ?? ->|by intros ??? -> ->].
Qed.

#[global] Instance draw_proper b : Proper (same_canvas ==> same_canvas) (draw b).
Proof. intros c c' Hc. unfold same_canvas. by rewrite !draw_painted, Hc. Qed.

#[global] Instance drawFrame_proper w :
  Proper (same_canvas ==> same_canvas) (drawFrame w).
Proof.
  intros c c' Hc. unfold same_canvas, drawFrame in *. cbv zeta.
  rewrite !foldl_draw_painted. simpl. by rewrite Hc.
Qed.

(** [fill] alone depends on what the context was left with. *)
Lemma fill_not_proper : ¬ Proper (same_canvas ==> same_canvas) fill.
Proof.
  intros Hfill.
  by specialize (Hfill newCtx (set_fillStyle "white" newCtx) eq_refl).
Qed.

(** The drawing code paints the picture of the specification on top of
    what the canvas showed, whatever attributes and current path the
    context was left with: every attribute is set before it is used and
    the path is begun anew for every body. *)
Theorem drawFrame_picture w c :
  painted (drawFrame w c) = painted c ++ picture w ∧
  ∀ c', same_canvas c' c → same_canvas (drawFrame w c') (drawFrame w c).
Proof. split; [apply drawFrame_painted|]. intros c' Hc. by rewrite Hc. Qed.

(** ** What is visible after a frame *)

Lemma lastFrame_no_rect ps :
  Forall (λ p, isRect p = false) ps → lastFrame ps = [].
Proof. induction 1 as [|p ps Hp _ IH]; simpl; [done|]. by rewrite IH, Hp. Qed.

Lemma lastFrame_app ps p rest :
  isRect p = true → Forall (λ p, isRect p = false) rest →
  lastFrame (ps ++ p :: rest) = p :: rest.
Proof.
  intros Hp Hrest. induction ps as [|q ps IH]; simpl.
  - by rewrite lastFrame_no_rect, Hp.
  - by rewrite IH.
Qed.

Lemma bodyPaints_no_rect bs :
  Forall (λ p, isRect p = false) (bs ≫= bodyPaints).
Proof. induction bs as [|b bs IH]; csimpl; [done|]. by repeat constructor. Qed.

(** A frame hides the frames before it. *)
Lemma lastFrame_picture ps w : lastFrame (ps ++ picture w) = picture w.
Proof. apply lastFrame_app; [done|apply bodyPaints_no_rect]. Qed.

(** C17. After the drawing code of a frame the canvas shows the picture of
    the world and nothing of what it showed before: no trail of an
    earlier frame, no body that has been merged or culled since. *)
Theorem drawFrame_visible w c : lastFrame (painted (drawFrame w c)) = picture w.
Proof. rewrite drawFrame_painted. apply lastFrame_picture. Qed.

(** A frame paints one disc and one label per body, after the
    background. *)
Lemma picture_length w : length (picture w) = S (2 * length (bodies w)).
Proof.
  unfold picture. cbn [length]. f_equal.
  induction (bodies w) as [|b bs IH]; csimpl; [done|]. rewrite IH. lia.
Qed.

(** In the picture of a world with well-formed bodies every disc has
    the radius of the mass its label shows the integer part of. *)
Lemma picture_radius w b :
  world_wf w → b ∈ bodies w →
  PaintPath "rgb(150, 180, 255)"
    [mkArc (x b) (y b) (calcRadius (masse b)) (int 0) (Math_PI * int 2)]
  ∈ picture w.
Proof.
  intros Hwf Hb. unfold picture. right. apply list_elem_of_bind. exists b.
  split; [|done]. unfold world_wf in Hwf. rewrite Forall_forall in Hwf.
  rewrite <- (Hwf b Hb). by left.
Qed.

(** ** What the overlay says *)

Section OverlayFacts.
Variable toFixed0 : N → string.

(** The overlay text is the template without its first line break and
    without the line break and the indentation at its end. *)
Lemma overlayText_eq w :
  overlayText toFixed0 w = overlayLines toFixed0 w (trimEnd legend).
Proof.
  unfold overlayText, trim, overlayTemplate.
  change (trimStart _) with (overlayLines toFixed0 w legend). unfold overlayLines.
  assert (trimEnd legend ≠ "") by (by vm_compute).
  by repeat (rewrite trimEnd_app by (by repeat apply trimEnd_app_ne); f_equal).
Qed.

(** The number the overlay shows is the number of bodies of the world
    it is made from: reading the first line of the text back gives the
    length of the collection, whatever the host prints for the other
    numbers. *)
Theorem readCount_overlayText w :
  readCount (overlayText toFixed0 w) = Some (length (bodies w)).
Proof.
  rewrite overlayText_eq. unfold readCount, overlayLines.
  rewrite stripPrefix_app. simpl.
  f_equal. rewrite readN_pretty by done. apply Nat2N.id.
Qed.

Lemma readSwitch_onOff (label : string) (b : bool) :
  readSwitch label (label +:+ onOff b) = Some b.
Proof. unfold readSwitch. rewrite stripPrefix_app. by destruct b. Qed.

Lemma onOff_oneLine (label : string) (b : bool) :
  oneLine label = true → oneLine (label +:+ onOff b) = true.
Proof. intros Hl. rewrite oneLine_app, Hl. by destruct b. Qed.

(** The first five lines of the overlay. *)
Lemma overlayText_lines w :
  oneLine (toFixed0 (G w)) = true →
  ∃ rest,
    lines (overlayText toFixed0 w) =
      ("Anzahl Körper: " +:+ pretty (length (bodies w))) ::
      ("Gravitationskonstante (G): " +:+ toFixed0 (G w)) ::
      ("Kollisionen: " +:+ onOff (COLLISION_ENABLED w)) ::
      ("Spawn: " +:+ onOff (SPAWN_ENABLED w)) ::
      ("Random Velocity: " +:+ onOff (RANDOM_VELOCITY_ENABLED w)) :: rest.
Proof.
  intros HG. rewrite overlayText_eq. unfold overlayLines. eexists.
  rewrite <- (app_assoc_string "Anzahl Körper: " (pretty _)), lines_line
    by (by rewrite oneLine_app, pretty_nat_oneLine).
  rewrite <- (app_assoc_string "Gravitationskonstante (G): " (toFixed0 _)), lines_line
    by (by rewrite oneLine_app, HG).
  rewrite <- (app_assoc_string "Kollisionen: " (onOff _)), lines_line
    by (by apply onOff_oneLine).
  rewrite <- (app_assoc_string "Spawn: " (onOff _)), lines_line
    by (by apply onOff_oneLine).
  rewrite <- (app_assoc_string "Random Velocity: " (onOff _)), lines_line
    by (by apply onOff_oneLine).
  reflexivity.
Qed.

(** The overlay tells the truth: read back, the text of the overlay
    gives the number of bodies and the three switches of the world it
    was made from, provided the host prints [G] on one line. *)
Lemma readSettings_overlayText w :
  oneLine (toFixed0 (G w)) = true →
  readSettings (overlayText toFixed0 w) =
    Some (length (bodies w), COLLISION_ENABLED w, SPAWN_ENABLED w,
          RANDOM_VELOCITY_ENABLED w).
Proof.
  intros HG. unfold readSettings.
  destruct (overlayText_lines w HG) as [rest ->].
  unfold readCount. rewrite stripPrefix_app, !readSwitch_onOff. simpl.
  by rewrite readN_pretty_end, Nat2N.id.
Qed.

End OverlayFacts.

End Render.
