(* ===== verification/Page.v ===== *)
(** * Page: the script inside its host

    What the script does besides computing: it registers three listeners
    ([addEventListener]), asks for animation frames
    ([requestAnimationFrame]), sizes the canvas, paints and writes the
    overlay.  [Page] is the state of the host that these calls change,
    together with the world of the script.  [main] is the top level of
    the script in the order of its statements; [resizePage], [keydownPage],
    [mousedownPage] and [loopPage] are the four callbacks as they act on
    the page.

    [deliver] is the host's side: an input runs the callbacks that are
    registered for it, an animation frame runs the callbacks that were
    requested since the last one.  The theorems show that the script
    keeps exactly one animation callback pending and its three
    listeners registered, that the pages the host can reach show the
    worlds of [World.reachable], and that every animation frame runs
    [loop] once and paints its world. *)

From stdpp Require Import strings.
From S2P Require Import Prelude Num Config Body Force Collision Random World Render.

(** The events the script listens to. *)
Inductive Listener : Type := OnResize | OnKeydown | OnMousedown.

#[export] Instance Listener_eq_dec : EqDecision Listener.
Proof. solve_decision. Defined.

Section Page.
Context {N : Type} `{!NumOps N}.
Variable random : nat → N.
Variable toFixed0 : N → string.
Local Open Scope num_scope.

(** The world of the script and the state of the host it acts on: the
    canvas and its context, the text of the overlay, the listeners in
    the order of their registration, and the number of animation
    callbacks requested and not yet run. *)
Record Page : Type := mkPage {
  world : @World N;
  canvasWidth : N;
  canvasHeight : N;
  ctx : @Ctx N;
  overlay : string;
  listeners : list Listener;
  rafQueue : nat;
}.

Definition set_world (w : @World N) (p : Page) : Page :=
  mkPage w (canvasWidth p) (canvasHeight p) (ctx p) (overlay p) (listeners p)
    (rafQueue p).

(** ** Calls into the host *)

(** [target.addEventListener(type, listener)]. *)
Definition addEventListener (l : Listener) (p : Page) : Page :=
  mkPage (world p) (canvasWidth p) (canvasHeight p) (ctx p) (overlay p)
    (listeners p ++ [l]) (rafQueue p).

(** [requestAnimationFrame(loop)]. *)
Definition requestAnimationFrame (p : Page) : Page :=
  mkPage (world p) (canvasWidth p) (canvasHeight p) (ctx p) (overlay p)
    (listeners p) (S (rafQueue p)).

(** ** The callbacks *)

(** [resize()]: the viewport variables, then the canvas.  Assigning the
    width or the height of a canvas clears it and resets its context. *)
Definition resizePage (innerWidth innerHeight : N) (p : Page) : Page :=
  let w := resize innerWidth innerHeight (world p) in
  mkPage w (WIDTH w) (HEIGHT w) newCtx (overlay p) (listeners p) (rafQueue p).

(** The [keydown] and [mousedown] listeners touch the world only. *)
Definition keydownPage (key : string) (p : Page) : Page :=
  set_world (keydown random key (world p)) p.

Definition mousedownPage (clientX clientY rectLeft rectTop : N) (p : Page) : Page :=
  set_world (mousedown random clientX clientY rectLeft rectTop (world p)) p.

(** [loop(timestamp)], whole: the physics, the drawing, the overlay and
    the request for the next frame. *)
Definition loopPage (timestamp : N) (p : Page) : Page :=
  let w := loop random timestamp (world p) in
  requestAnimationFrame
    (mkPage w (canvasWidth p) (canvasHeight p) (drawFrame w (ctx p))
       (overlayText toFixed0 w) (listeners p) (rafQueue p)).

(** ** The top level of the script *)

(** The page when the declarations have run: the settings at their
    initial values, no body, a canvas of the default size with a fresh
    context, an empty overlay, nothing registered.  [WIDTH] and [HEIGHT]
    are declared without a value ([0] stands for it here); the first
    [resize()] assigns them before anything reads them. *)
Definition start : Page :=
  {| world := declared (int 0) (int 0);
     canvasWidth := int 300; canvasHeight := int 150;
     ctx := newCtx; overlay := ""; listeners := []; rafQueue := 0 |}.

(** The [resize] listener and the first [resize()] (lines 52-53). *)
Definition setupViewport (innerWidth innerHeight : N) (p : Page) : Page :=
  let p := addEventListener OnResize p in
  resizePage innerWidth innerHeight p.

(** The statements of the top level that act, in their order: the
    [resize] listener, the first [resize()], the first [reset()], the
    [keydown] and [mousedown] listeners, the first animation request. *)
Definition main (innerWidth innerHeight : N) : Page :=
  let p := setupViewport innerWidth innerHeight start in
  let p := set_world (reset random (world p)) p in
  let p := addEventListener OnKeydown p in
  let p := addEventListener OnMousedown p in
  requestAnimationFrame p.

(** ** The host *)

(** What the host delivers. *)
Inductive Input : Type :=
  | WindowResize (innerWidth innerHeight : N)
  | KeyPress (key : string)
  | MousePress (clientX clientY rectLeft rectTop : N)
  | AnimationFrame (timestamp : N).

(** An event runs every listener registered for it, once per
    registration. *)
Definition fire (l : Listener) (callback : Page → Page) (p : Page) : Page :=
  Nat.iter (length (filter (λ l', l' = l) (listeners p))) callback p.

(** An animation frame takes the pending callbacks and runs them with
    the time stamp of the frame; what they request is for the next
    frame. *)
Definition runAnimationFrame (timestamp : N) (p : Page) : Page :=
  Nat.iter (rafQueue p) (loopPage timestamp)
    (mkPage (world p) (canvasWidth p) (canvasHeight p) (ctx p) (overlay p)
       (listeners p) 0).

Definition deliver (i : Input) (p : Page) : Page :=
  match i with
  | WindowResize iw ih => fire OnResize (resizePage iw ih) p
  | KeyPress key => fire OnKeydown (keydownPage key) p
  | MousePress cx cy rl rt => fire OnMousedown (mousedownPage cx cy rl rt) p
  | AnimationFrame t => runAnimationFrame t p
  end.

(** The pages the host can bring the script to. *)
Inductive page_reachable : Page → Prop :=
  | page_main iw ih : page_reachable (main iw ih)
  | page_deliver p i : page_reachable p → page_reachable (deliver i p).

(** The inputs of a session, delivered in order. *)
Definition session (inputs : list Input) (p : Page) : Page :=
  foldl (λ p i, deliver i p) p inputs.

(** The event of [World] an input is. *)
Definition event_of (i : Input) : Event :=
  match i with
  | WindowResize iw ih => Resize iw ih
  | KeyPress key => KeyDown key
  | MousePress cx cy rl rt => MouseDown cx cy rl rt
  | AnimationFrame t => Frame t
  end.

(** ** The invariant of the page *)

(** Each listener is registered once, one animation callback is
    pending, and the canvas has the size of the viewport variables. *)
Definition page_ok (p : Page) : Prop :=
  listeners p = [OnResize; OnKeydown; OnMousedown] ∧
  rafQueue p = 1 ∧
  canvasWidth p = WIDTH (world p) ∧ canvasHeight p = HEIGHT (world p).

Lemma main_world iw ih : world (main iw ih) = boot random iw ih.
Proof. done. Qed.

Lemma main_ok iw ih : page_ok (main iw ih).
Proof.
  destruct (reset_settings random (resize iw ih (world start)))
    as (_ & _ & _ & _ & _ & _ & HW & HH).
  split_and!; [done..|symmetry; exact HW|symmetry; exact HH].
Qed.

(** On a page that satisfies the invariant an event runs its callback
    once, and an animation frame runs [loop] once. *)
Lemma fire_ok l callback p :
  listeners p = [OnResize; OnKeydown; OnMousedown] → fire l callback p = callback p.
Proof. intros Hl. unfold fire. rewrite Hl. by destruct l. Qed.

Lemma runAnimationFrame_ok t p :
  page_ok p →
  runAnimationFrame t p =
    let w := loop random t (world p) in
    mkPage w (canvasWidth p) (canvasHeight p) (drawFrame w (ctx p))
      (overlayText toFixed0 w) (listeners p) 1.
Proof. intros (_ & Hq & _). unfold runAnimationFrame. by rewrite Hq. Qed.

(** What an input does to a page that satisfies the invariant. *)
Lemma deliver_ok_eq i p :
  page_ok p →
  deliver i p =
    match i with
    | WindowResize iw ih => resizePage iw ih p
    | KeyPress key => keydownPage key p
    | MousePress cx cy rl rt => mousedownPage cx cy rl rt p
    | AnimationFrame t =>
        let w := loop random t (world p) in
        mkPage w (canvasWidth p) (canvasHeight p) (drawFrame w (ctx p))
          (overlayText toFixed0 w) (listeners p) 1
    end.
Proof.
  intros Hok. destruct i; simpl;
    [by rewrite fire_ok by apply Hok..|by apply runAnimationFrame_ok].
Qed.

(** The world of the page follows the events of [World]. *)
Lemma deliver_world i p :
  page_ok p → world (deliver i p) = handle random (event_of i) (world p).
Proof. intros Hok. rewrite deliver_ok_eq by done. by destruct i. Qed.

Lemma keydown_viewport key w :
  WIDTH (keydown random key w) = WIDTH w ∧ HEIGHT (keydown random key w) = HEIGHT w.
Proof.
  unfold keydown. repeat case_if; try done.
  by destruct (reset_settings random w) as (_ & _ & _ & _ & _ & _ & -> & ->).
Qed.

Lemma deliver_ok i p : page_ok p → page_ok (deliver i p).
Proof.
  intros Hok. rewrite deliver_ok_eq by done.
  destruct Hok as (Hl & Hq & Hw & Hh). unfold page_ok.
  destruct i as [iw ih|key|cx cy rl rt|t]; cbn [listeners rafQueue canvasWidth
    canvasHeight world resizePage keydownPage mousedownPage set_world].
  - done.
  - by destruct (keydown_viewport key (world p)) as [-> ->].
  - by destruct (mousedown_settings random cx cy rl rt (world p))
      as (_ & _ & _ & _ & _ & -> & -> & _).
  - by destruct (loop_settings random t (world p)) as (_ & _ & _ & _ & _ & -> & -> & _).
Qed.

Lemma page_reachable_ok p : page_reachable p → page_ok p.
Proof. induction 1; [apply main_ok|by apply deliver_ok]. Qed.

(** C16. The script keeps its place in the host: in every page the host can
    reach, each of the three listeners is registered exactly once,
    exactly one animation callback is pending, and the canvas has the
    size of [WIDTH] and [HEIGHT]. *)
Theorem page_reachable_invariant p :
  page_reachable p →
  listeners p = [OnResize; OnKeydown; OnMousedown] ∧ rafQueue p = 1 ∧
  canvasWidth p = WIDTH (world p) ∧ canvasHeight p = HEIGHT (world p).
Proof. apply page_reachable_ok. Qed.

(** The world of a reachable page is a reachable world. *)
Lemma page_reachable_world p : page_reachable p → reachable random (world p).
Proof.
  induction 1 as [iw ih|p i Hp IH]; [rewrite main_world; constructor|].
  rewrite deliver_world by by apply page_reachable_ok.
  eapply reachable_step; [exact IH|constructor].
Qed.

(** C20. The pages refine the worlds: the world of a reachable page is a
    reachable world, every input acting on it as the event it is. *)
Theorem page_refines_world p :
  page_reachable p →
  reachable random (world p) ∧
  ∀ i, world (deliver i p) = handle random (event_of i) (world p).
Proof.
  intros Hp. split; [by apply page_reachable_world|].
  intros i. apply deliver_world, page_reachable_ok, Hp.
Qed.

(** The animation goes on, one frame at a time: on every reachable
    page an animation frame runs [loop] once on the world, paints the
    picture of the new world over the canvas, writes its overlay, and
    leaves one callback pending for the next frame. *)
Theorem animation_frame_runs_once p t :
  page_reachable p →
  let p' := deliver (AnimationFrame t) p in
  world p' = loop random t (world p) ∧
  painted (ctx p') = painted (ctx p) ++ picture (world p') ∧
  overlay p' = overlayText toFixed0 (world p') ∧
  rafQueue p' = 1.
Proof.
  intros Hp%page_reachable_ok. cbv zeta. rewrite deliver_ok_eq by done.
  cbn [world ctx overlay rafQueue]. split_and!; try done. apply drawFrame_painted.
Qed.

(** The reachable pages are the sessions: [main] followed by a finite
    sequence of inputs. *)
Lemma session_app inputs1 inputs2 p :
  session (inputs1 ++ inputs2) p = session inputs2 (session inputs1 p).
Proof. apply foldl_app. Qed.

Lemma page_reachable_session p :
  page_reachable p ↔ ∃ iw ih inputs, p = session inputs (main iw ih).
Proof.
  split.
  - induction 1 as [iw ih|p i _ (iw & ih & inputs & ->)].
    + by exists iw, ih, [].
    + exists iw, ih, (inputs ++ [i]). by rewrite session_app.
  - intros (iw & ih & inputs & ->).
    induction inputs as [|i inputs IH] using rev_ind; [constructor|].
    rewrite session_app. by constructor.
Qed.

End Page.
