(* ===== verification/Script.v ===== *)
(** * Script: the page as a program that never ends

    The host runs one callback at a time, for as long as the page is
    open.  Seen from outside, the page is an interaction tree: it waits
    for the next input ([Await]), lets the script handle it
    ([Page.deliver]), shows the canvas and the overlay after an
    animation frame ([Show]), and waits again.  The tree is infinite;
    it is built with [ITree.iter] and its properties are proved by
    parametrised coinduction.

    [serves P t] says of such a tree that it goes on for ever, that it
    is never silent for ever (between two interactions there are
    finitely many internal steps), and that whatever it shows satisfies
    [P].  [feeds t inputs outputs t'] says what a tree shows when it is
    given a finite list of inputs; a tree that waits at the end shows
    one thing only ([feeds_deterministic]).  [all_finite] of the
    library says that one turn of the loop ends, whatever the input.

    The page ([browse]) is proved to be the same tree as the event loop
    of the simulation ([simulate]), to show the screens of the worlds
    after each frame, and to serve for ever. *)

From stdpp Require Import strings.
From S2P Require Import Prelude Num Config Body Force Collision Random World Render Page.
From ITree Require Import ITree ITreeFacts Props.Finite Basics.HeterogeneousRelations.
From Paco Require Import paco.

(** ** A host loop over any state *)

Section Reactive.
Context {St In Out : Type}.
Variable handler : In → St → St.
Variable shows : In → bool.
Variable view : St → Out.

(** What passes between the page and the outside. *)
Variant hostE : Type → Type :=
  | Await : hostE In
  | Show (o : Out) : hostE unit.

(** One turn: wait for an input, handle it, show the result if the
    input is one that paints. *)
Definition turn (s : St) : itree hostE (St + void) :=
  Vis Await (λ i,
    let s' := handler i s in
    if shows i then Vis (Show (view s')) (λ _, Ret (inl s')) else Ret (inl s')).

(** The loop of the host. *)
Definition hostLoop (s : St) : itree hostE void := ITree.iter turn s.

(** ** Trees that serve for ever *)

Section Serves.
Variable P : Out → Prop.

(** One layer of [serves]: internal steps are counted inductively, so
    there are finitely many of them before the next interaction; the
    interactions go on coinductively, through [r]. *)
Inductive servesF (r : itree hostE void → Prop) : itree' hostE void → Prop :=
  | serves_tau t : servesF r (observe t) → servesF r (TauF t)
  | serves_await k : (∀ i, r (k i)) → servesF r (VisF Await k)
  | serves_show o k : P o → r (k tt) → servesF r (VisF (Show o) k).

Definition serves_ (r : itree hostE void → Prop) (t : itree hostE void) : Prop :=
  servesF r (observe t).

Lemma serves_mon : monotone1 serves_.
Proof.
  intros t r r' H LE. unfold serves_ in *. induction H; constructor; auto.
Qed.

Definition serves (t : itree hostE void) : Prop := paco1 serves_ bot1 t.

(** The trees the loop passes through: the loop itself, the silent step
    before it, and the show before that. *)
Definition stage (s : St) (t : itree hostE void) : Prop :=
  t = hostLoop s ∨
  observe t = TauF (hostLoop s) ∨
  ∃ k, P (view s) ∧ observe t = VisF (Show (view s)) k ∧
       observe (k tt) = TauF (hostLoop s).

Variable Inv : St → Prop.
Hypothesis Inv_handler : ∀ i s, Inv s → Inv (handler i s).
Hypothesis Inv_view : ∀ i s, Inv s → shows i = true → P (view (handler i s)).

(** After an input the loop is at a stage of the next state. *)
Lemma stage_after_input s i :
  Inv s →
  ∀ k, observe (hostLoop s) = VisF Await k → stage (handler i s) (k i).
Proof.
  intros Hs k Hk. cbn in Hk.
  apply (f_equal (λ o, match o with
                       | VisF e k' =>
                           match e in hostE X return (X → itree hostE void) → Prop with
                           | Await => λ k', stage (handler i s) (k' i)
                           | Show _ => λ _, True
                           end k'
                       | _ => True
                       end)) in Hk.
  rewrite <- Hk. unfold stage. destruct (shows i) eqn:E.
  - right. right. eexists. split; [by apply Inv_view|]. by cbn.
  - right. left. by cbn.
Qed.

Lemma hostLoop_observe s : ∃ k, observe (hostLoop s) = VisF Await k.
Proof. eexists. cbn. reflexivity. Qed.

(** Every stage of a state that satisfies the invariant serves [P]. *)
Lemma stage_serves s t : stage s t → Inv s → serves t.
Proof.
  revert s t. pcofix CIH. intros s t Hst Hs.
  assert (servesF (upaco1 serves_ r) (observe (hostLoop s))) as Hloop.
  { destruct (hostLoop_observe s) as [k Hk]. rewrite Hk. constructor. intros i.
    right. eapply CIH; [by apply stage_after_input|by apply Inv_handler]. }
  pfold. unfold serves_. destruct Hst as [->|[Ht|(k & HP & Ht & Hk)]].
  - exact Hloop.
  - rewrite Ht. by constructor.
  - rewrite Ht. constructor; [done|]. right. apply (CIH s); [|done].
    right. by left.
Qed.

(** A loop whose states satisfy an invariant that makes every view
    satisfy [P] serves [P] for ever. *)
Lemma hostLoop_serves s : Inv s → serves (hostLoop s).
Proof. apply stage_serves. by left. Qed.

End Serves.

(** ** What a tree shows when it is fed inputs *)

(** [feeds t inputs outputs t']: given the inputs of the list, one at
    each [Await], the tree [t] shows the outputs of the other list and
    becomes [t']. *)
Inductive feeds :
  itree hostE void → list In → list Out → itree hostE void → Prop :=
  | feeds_done t : feeds t [] [] t
  | feeds_tau t t1 inputs outputs t' :
      observe t = TauF t1 → feeds t1 inputs outputs t' → feeds t inputs outputs t'
  | feeds_await t k i inputs outputs t' :
      observe t = VisF Await k → feeds (k i) inputs outputs t' →
      feeds t (i :: inputs) outputs t'
  | feeds_show t o k inputs outputs t' :
      observe t = VisF (Show o) k → feeds (k tt) inputs outputs t' →
      feeds t inputs (o :: outputs) t'.

(** The state after a list of inputs, and the views shown on the way. *)
Definition runs (inputs : list In) (s : St) : St :=
  foldl (λ s i, handler i s) s inputs.

Fixpoint shown (inputs : list In) (s : St) : list Out :=
  match inputs with
  | [] => []
  | i :: inputs =>
      let s' := handler i s in
      (if shows i then [view s'] else []) ++ shown inputs s'
  end.

(** Fed a list of inputs, the loop shows the view of the state after
    every input that paints, in order, and is then the loop of the
    state after the last input, waiting. *)
Lemma hostLoop_feeds inputs s :
  feeds (hostLoop s) inputs (shown inputs s) (hostLoop (runs inputs s)).
Proof.
  revert s. induction inputs as [|i inputs IH]; intros s; [constructor|].
  eapply feeds_await; [by cbn|]. cbn [shown runs foldl]. cbv zeta beta.
  destruct (shows i).
  - eapply feeds_show; [by cbn|]. eapply feeds_tau; [by cbn|]. apply IH.
  - eapply feeds_tau; [by cbn|]. apply IH.
Qed.

(** *** A tree shows one thing

    What a node is, and what follows it: the projections by which two
    descriptions of the same node are compared. *)
Definition nodeKind (o : itree' hostE void) : nat :=
  match o with
  | RetF _ => 0
  | TauF _ => 1
  | VisF e _ => match e with Await => 2 | Show _ => 3 end
  end.

Definition afterTau (o : itree' hostE void) : option (itree hostE void) :=
  match o with TauF t => Some t | _ => None end.

Definition afterAwait (i : In) (o : itree' hostE void) : option (itree hostE void) :=
  match o with
  | VisF e k =>
      match e in hostE X return (X → itree hostE void) → option (itree hostE void) with
      | Await => λ k, Some (k i)
      | Show _ => λ _, None
      end k
  | _ => None
  end.

Definition afterShow (o : itree' hostE void) : option (Out * itree hostE void) :=
  match o with
  | VisF e k =>
      match e in hostE X
            return (X → itree hostE void) → option (Out * itree hostE void) with
      | Await => λ _, None
      | Show o' => λ k, Some (o', k tt)
      end k
  | _ => None
  end.

(** A tree that waits for an input. *)
Definition awaiting (t : itree hostE void) : Prop := nodeKind (observe t) = 2.

Lemma hostLoop_awaiting s : awaiting (hostLoop s).
Proof. done. Qed.

(** [same_node]: two equations for the node of a tree give one between
    their right-hand sides. *)
Ltac same_node :=
  match goal with
  | H1 : observe ?t = _, H2 : observe ?t = _ |- _ => rewrite H1 in H2
  | H1 : observe ?t = _, H2 : awaiting ?t |- _ => unfold awaiting in H2; rewrite H1 in H2
  end.

Lemma feeds_awaiting t outputs t' :
  awaiting t → feeds t [] outputs t' → outputs = [] ∧ t' = t.
Proof. intros Ht Hfeeds. by inv Hfeeds; [|same_node..]. Qed.

(** Fed the same inputs up to a point where it waits, a tree shows the
    same outputs and becomes the same tree. *)
Lemma feeds_deterministic t inputs outputs1 t1 outputs2 t2 :
  feeds t inputs outputs1 t1 → awaiting t1 →
  feeds t inputs outputs2 t2 → awaiting t2 →
  outputs1 = outputs2 ∧ t1 = t2.
Proof.
  intros Hfeeds1. revert outputs2 t2.
  induction Hfeeds1 as [t|t ta inputs outputs1 t1 Ht _ IH
                        |t k i inputs outputs1 t1 Ht _ IH
                        |t o k inputs outputs1 t1 Ht _ IH];
    intros outputs2 t2 Ht1 Hfeeds2 Ht2.
  - by destruct (feeds_awaiting _ _ _ Ht1 Hfeeds2) as [-> ->].
  - inv Hfeeds2; same_node; try done.
    apply (f_equal afterTau) in H. simplify_eq/=. by apply IH.
  - inv Hfeeds2; same_node; try done.
    apply (f_equal (afterAwait i)) in H2. simplify_eq/=. rewrite H2 in IH. by apply IH.
  - inv Hfeeds2; same_node; try done.
    apply (f_equal afterShow) in H. simplify_eq/=.
    destruct (IH _ _ Ht1 ltac:(by rewrite H1) Ht2) as [-> ->]. done.
Qed.

(** One turn of the loop ends, whatever the input is. *)
Lemma turn_finite s : all_finite (turn s).
Proof.
  apply all_finite_Vis. intros i. cbv zeta. destruct (shows i).
  - apply all_finite_Vis. intros _. apply all_finite_Ret.
  - apply all_finite_Ret.
Qed.

End Reactive.

(** Two loops whose states are related, whose handlers keep them
    related and whose views agree on related states are the same tree:
    same interactions, same silent steps. *)
Section Refines.
Context {St1 St2 In Out : Type}.
Variable handler1 : In → St1 → St1.
Variable handler2 : In → St2 → St2.
Variable shows : In → bool.
Variable view1 : St1 → Out.
Variable view2 : St2 → Out.
Variable R : St1 → St2 → Prop.
Hypothesis R_handler : ∀ i s1 s2, R s1 s2 → R (handler1 i s1) (handler2 i s2).
Hypothesis R_view : ∀ i s1 s2,
  R s1 s2 → shows i = true → view1 (handler1 i s1) = view2 (handler2 i s2).

Lemma turn_related s1 s2 :
  R s1 s2 →
  eq_itree (sum_rel R eq) (turn handler1 shows view1 s1) (turn handler2 shows view2 s2).
Proof.
  intros HR. apply eqit_Vis. intros i. cbv zeta. destruct (shows i) eqn:Hi.
  - rewrite (R_view i s1 s2) by done. apply eqit_Vis. intros _.
    apply eqit_Ret. constructor. by apply R_handler.
  - apply eqit_Ret. constructor. by apply R_handler.
Qed.

(** Related states show the same views along the same inputs. *)
Lemma shown_related inputs s1 s2 :
  R s1 s2 → shown handler1 shows view1 inputs s1 = shown handler2 shows view2 inputs s2.
Proof.
  revert s1 s2. induction inputs as [|i inputs IH]; intros s1 s2 HR; [done|].
  cbn [shown]. cbv zeta. rewrite (IH _ _ (R_handler i _ _ HR)).
  destruct (shows i) eqn:Hi; [|done]. by rewrite (R_view i _ _ HR Hi).
Qed.

Lemma hostLoop_related s1 s2 :
  R s1 s2 → hostLoop handler1 shows view1 s1 ≅ hostLoop handler2 shows view2 s2.
Proof. apply (eq_itree_iter' R eq), turn_related. Qed.

End Refines.

(** ** The page of the simulator *)

Section Script.
Context {N : Type} `{!NumOps N}.
Variable random : nat → N.
Variable toFixed0 : N → string.

(** The inputs after which the page is shown anew. *)
Definition paints (i : @Input N) : bool :=
  match i with AnimationFrame _ => true | _ => false end.

(** What the user sees of a page: what is visible on the canvas, and
    the text of the overlay. *)
Definition screen (p : @Page N) : list (@Paint N) * string :=
  (lastFrame (painted (ctx p)), overlay p).

(** The page from the moment the script has run. *)
Definition browse (innerWidth innerHeight : N) : itree hostE void :=
  hostLoop (deliver random toFixed0) paints screen
    (main random innerWidth innerHeight).

(** What the page is meant to be: the simulation of [World], taking one
    event after the other and showing the picture of the world and its
    overlay after every frame. *)
Definition simulate (innerWidth innerHeight : N) : itree hostE void :=
  hostLoop (λ i w, World.handle random (event_of i) w) paints
    (λ w, (picture w, overlayText toFixed0 w))
    (boot random innerWidth innerHeight).

(** What every screen of the page shows: the picture of a reachable
    world whose bodies are all on screen, with its overlay. *)
Definition good_screen (o : list (@Paint N) * string) : Prop :=
  ∃ w, reachable random w ∧
       Forall (λ b, isOffScreen b (WIDTH w) (HEIGHT w) = false) (bodies w) ∧
       o = (picture w, overlayText toFixed0 w).

(** After an animation frame the page shows the picture and the overlay
    of the world the frame has left. *)
Lemma screen_after_frame t p :
  page_ok p →
  screen (deliver random toFixed0 (AnimationFrame t) p) =
    (picture (World.loop random t (world p)),
     overlayText toFixed0 (World.loop random t (world p))).
Proof.
  intros Hok. rewrite (deliver_ok_eq random toFixed0) by done.
  unfold screen. cbn [ctx painted overlay].
  by rewrite drawFrame_painted, lastFrame_picture.
Qed.

(** A page that satisfies the invariant, and its world. *)
Definition holds (p : @Page N) (w : @World N) : Prop := page_ok p ∧ world p = w.

Lemma holds_main iw ih : holds (main random iw ih) (boot random iw ih).
Proof. split; [apply main_ok|apply main_world]. Qed.

Lemma holds_deliver i p w :
  holds p w → holds (deliver random toFixed0 i p) (World.handle random (event_of i) w).
Proof. intros [Hok <-]. split; [by apply deliver_ok|by apply deliver_world]. Qed.

Lemma holds_screen i p w :
  holds p w → paints i = true →
  screen (deliver random toFixed0 i p) =
    (picture (World.handle random (event_of i) w),
     overlayText toFixed0 (World.handle random (event_of i) w)).
Proof.
  intros [Hok <-] Hi. destruct i as [| | |t]; try done. by apply screen_after_frame.
Qed.

Lemma page_good_screen i p :
  page_reachable random toFixed0 p → paints i = true →
  good_screen (screen (deliver random toFixed0 i p)).
Proof.
  intros Hp Hi. destruct i as [| | |t]; try done.
  pose proof (page_reachable_world _ _ _ (page_deliver _ _ _ (AnimationFrame t) Hp)) as Hw.
  pose proof (page_reachable_ok _ _ _ Hp) as Hok.
  rewrite (deliver_world random toFixed0) in Hw by done.
  rewrite screen_after_frame by done.
  exists (World.loop random t (world p)). split_and!; [done| |done].
  destruct (loop_settings random t (world p)) as (_&_&_&_&_&->&->&_).
  rewrite loop_bodies. apply cull_on_screen.
Qed.

(** C15. The page is the simulation: the script in its host, with its
    listeners, its animation requests, its canvas and its overlay, is
    the same interaction tree as the event loop of [World] that shows
    the picture and the overlay of the world after each frame.  Every
    input is taken, every frame is answered by a screen, and the screens
    are those of the simulation, in the same order. *)
Theorem browse_simulates innerWidth innerHeight :
  browse innerWidth innerHeight ≅ simulate innerWidth innerHeight.
Proof.
  apply (hostLoop_related _ _ _ _ _ holds);
    [apply holds_deliver|apply holds_screen|apply holds_main].
Qed.

(** The screens of the simulation along a list of inputs: the picture
    and the overlay of the world after every animation frame. *)
Definition screens (inputs : list (@Input N)) (w : @World N) :
    list (list (@Paint N) * string) :=
  shown (λ i w, World.handle random (event_of i) w) paints
    (λ w, (picture w, overlayText toFixed0 w)) inputs w.

Lemma browse_feeds innerWidth innerHeight inputs :
  feeds (browse innerWidth innerHeight) inputs
    (screens inputs (boot random innerWidth innerHeight))
    (hostLoop (deliver random toFixed0) paints screen
       (session random toFixed0 inputs (main random innerWidth innerHeight))).
Proof.
  unfold screens.
  rewrite <- (shown_related (deliver random toFixed0) _ paints screen _ holds
                holds_deliver holds_screen inputs _ _ (holds_main _ _)).
  apply hostLoop_feeds.
Qed.

(** C18. What the page shows: fed any finite sequence of inputs, the page
    shows the picture and the overlay of the world after each animation
    frame of the sequence, in order, and then waits for the next input
    in the state the session has reached; and there is nothing else it
    can show on these inputs before it waits again. *)
Theorem browse_shows innerWidth innerHeight inputs :
  feeds (browse innerWidth innerHeight) inputs
    (screens inputs (boot random innerWidth innerHeight))
    (hostLoop (deliver random toFixed0) paints screen
       (session random toFixed0 inputs (main random innerWidth innerHeight))) ∧
  ∀ outputs t,
    feeds (browse innerWidth innerHeight) inputs outputs t → awaiting t →
    outputs = screens inputs (boot random innerWidth innerHeight).
Proof.
  split; [apply browse_feeds|]. intros outputs t Hfeeds Ht.
  edestruct (@feeds_deterministic) as [Heq _];
    [exact Hfeeds|exact Ht|apply browse_feeds|apply hostLoop_awaiting|exact Heq].
Qed.

(** C19. The page serves for ever: started on a window of any size, the
    script waits for an input, handles it and waits again, without end
    and without ever computing for ever in between; and whatever it
    shows after an animation frame is the picture of a world the
    simulation can reach, all of whose bodies are on screen, under the
    overlay of that world. *)
Theorem browse_serves innerWidth innerHeight :
  serves good_screen (browse innerWidth innerHeight).
Proof.
  apply (hostLoop_serves _ _ _ _ (page_reachable random toFixed0)).
  - intros i p Hp. by constructor.
  - intros i p Hp Hi. by apply page_good_screen.
  - constructor.
Qed.

End Script.
