(* ===== verification/Markup.v ===== *)
(** * Markup: the document around the script

    The file is an HTML page.  Its markup is the list of the tags and
    texts of the file in their order ([markup]); the text of the style
    element is the style sheet, kept as its rules ([styleSheet]); the
    text of the script element is the program that the other files
    model ([Js]).  [build] is the tree builder of the host for markup
    that is well nested, as this one is: a stack of open elements, an
    end tag closes the element on its top.  [document] is the tree it
    builds, [tokens] writes a tree back as markup.

    The script reaches the tree through [getElementById]; an element is
    held with its ancestors ([Handle]), as the style and the layout of
    an element depend on them.

    The theorems show that building inverts writing, in both
    directions, and that looking up an id finds the element that
    carries it. *)

From stdpp Require Import strings list.
From S2P Require Import Prelude.

#[local] Set Warnings "-clear-no-such-hyp".

Local Open Scope string_scope.
Local Open Scope list_scope.

(** ** The style sheet *)

(** The selectors the sheet uses: an element name, an id. *)
Inductive Selector : Type :=
  | TypeSelector (tag : string)
  | IdSelector (id : string).

#[export] Instance Selector_eq_dec : EqDecision Selector.
Proof. solve_decision. Defined.

(** A rule: its selector and its declarations in their order. *)
Record Rule : Type := mkRule {
  selector : Selector;
  declarations : list (string * string);
}.

#[export] Instance Rule_eq_dec : EqDecision Rule.
Proof. solve_decision. Defined.

Definition body_rule : Rule :=
  mkRule (TypeSelector "body")
    [("margin", "0"); ("overflow", "hidden"); ("background", "rgb(10, 10, 30)");
     ("color", "white"); ("font-family", "Arial, sans-serif")].

Definition canvas_rule : Rule :=
  mkRule (TypeSelector "canvas") [("display", "block")].

Definition overlay_rule : Rule :=
  mkRule (IdSelector "overlay")
    [("position", "absolute");
     ("left", "10px"); ("top", "10px");
     ("font-size", "14px");
     ("pointer-events", "none");
     ("white-space", "pre-line")].

Definition styleSheet : list Rule := [body_rule; canvas_rule; overlay_rule].

(** ** Tokens and nodes *)

(** What a text holds: characters, the rules of a style element, or the
    program of the script element. *)
Inductive Content : Type :=
  | Chars (s : string)
  | Css (rules : list Rule)
  | Js.

#[export] Instance Content_eq_dec : EqDecision Content.
Proof. solve_decision. Defined.

Definition Attributes : Type := list (string * string).

Inductive Token : Type :=
  | Doctype (name : string)
  | StartTag (tag : string) (attributes : Attributes)
  | EndTag (tag : string)
  | Characters (data : Content).

#[export] Instance Token_eq_dec : EqDecision Token.
Proof. solve_decision. Defined.

Unset Elimination Schemes.
Inductive Node : Type :=
  | DocumentType (name : string)
  | Element (tag : string) (attributes : Attributes) (children : list Node)
  | Text (data : Content).
Set Elimination Schemes.

(** Induction on a tree, with the hypothesis on every child. *)
Section NodeInd.
Context (P : Node → Prop).
Context (Hdoctype : ∀ name, P (DocumentType name)).
Context (Helement : ∀ tag a kids, Forall P kids → P (Element tag a kids)).
Context (Htext : ∀ d, P (Text d)).

Fixpoint Node_ind (n : Node) : P n :=
  match n with
  | DocumentType name => Hdoctype name
  | Element tag a kids => Helement tag a kids (Forall_true P kids Node_ind)
  | Text d => Htext d
  end.
End NodeInd.

#[export] Instance Node_eq_dec : EqDecision Node.
Proof.
  refine (fix go (n1 n2 : Node) : Decision (n1 = n2) :=
    let _ : EqDecision Node := @go in
    match n1, n2 with
    | DocumentType a, DocumentType b => cast_if (decide (a = b))
    | Element t1 a1 k1, Element t2 a2 k2 =>
        cast_if_and3 (decide (t1 = t2)) (decide (a1 = a2)) (decide (k1 = k2))
    | Text d1, Text d2 => cast_if (decide (d1 = d2))
    | _, _ => right _
    end); abstract congruence.
Defined.

(** ** The markup of the page *)

(** White space between tags is left out: the tree builder drops it
    before the head and keeps it elsewhere as texts that neither the
    script nor the style sheet reads. *)
Definition markup_head : list Token :=
  [Doctype "html";
   StartTag "html" [("lang", "de")];
   StartTag "head" [];
   StartTag "meta" [("charset", "UTF-8")];
   StartTag "title" []; Characters (Chars "2D Gravity Simulation"); EndTag "title";
   StartTag "style" []; Characters (Css styleSheet); EndTag "style";
   EndTag "head"].

Definition markup_body : list Token :=
  [StartTag "body" [];
   StartTag "canvas" [("id", "canvas")]; EndTag "canvas";
   StartTag "div" [("id", "overlay")]; EndTag "div";
   StartTag "script" []].

Definition markup_end : list Token :=
  [EndTag "script"; EndTag "body"; EndTag "html"].

Definition markup : list Token :=
  markup_head ++ markup_body ++ [Characters Js] ++ markup_end.

(** ** The tree builder *)

(** Elements that have no content and no end tag. *)
Definition void (tag : string) : bool :=
  bool_decide (tag ∈ ["area"; "base"; "br"; "col"; "embed"; "hr"; "img"; "input";
                      "link"; "meta"; "source"; "track"; "wbr"]).

(** An element whose end tag has not come yet, with the children it
    has so far, last first. *)
Record Open : Type := mkOpen {
  openTag : string;
  openAttributes : Attributes;
  openChildren : list Node;
}.

(** The stack of open elements, innermost first, and the nodes of the
    top level so far, last first. *)
Definition Builder : Type := (list Open * list Node)%type.

(** Insert a node at the current place: into the innermost open
    element, or at the top level. *)
Definition appendChild (n : Node) (b : Builder) : Builder :=
  match b.1 with
  | [] => ([], n :: b.2)
  | o :: os => (mkOpen (openTag o) (openAttributes o) (n :: openChildren o) :: os, b.2)
  end.

(** One token.  An end tag that does not close the innermost open
    element is an error here; the host would recover from it. *)
Definition feed (b : Builder) (t : Token) : option Builder :=
  match t with
  | Doctype name => Some (appendChild (DocumentType name) b)
  | Characters d => Some (appendChild (Text d) b)
  | StartTag tag a =>
      if void tag then Some (appendChild (Element tag a []) b)
      else Some (mkOpen tag a [] :: b.1, b.2)
  | EndTag tag =>
      match b.1 with
      | o :: os =>
          if decide (openTag o = tag)
          then Some (appendChild (Element tag (openAttributes o) (reverse (openChildren o)))
                       (os, b.2))
          else None
      | [] => None
      end
  end.

Fixpoint feedAll (ts : list Token) (b : Builder) : option Builder :=
  match ts with
  | [] => Some b
  | t :: ts => b' ← feed b t; feedAll ts b'
  end.

(** The tree of a markup: every element closed at the end. *)
Definition build (ts : list Token) : option (list Node) :=
  b ← feedAll ts ([], []);
  match b.1 with
  | [] => Some (reverse b.2)
  | _ :: _ => None
  end.

(** Writing a tree as markup. *)
Fixpoint tokens (n : Node) : list Token :=
  match n with
  | DocumentType name => [Doctype name]
  | Text d => [Characters d]
  | Element tag a kids =>
      if void tag then [StartTag tag a]
      else StartTag tag a :: (kids ≫= tokens) ++ [EndTag tag]
  end.

(** A void element has no children. *)
Fixpoint well_formed (n : Node) : bool :=
  match n with
  | Element tag _ kids =>
      (negb (void tag) || bool_decide (length kids = 0)) && forallb well_formed kids
  | _ => true
  end.

(** ** The document *)

Definition canvasElement : Node := Element "canvas" [("id", "canvas")] [].
Definition overlayElement : Node := Element "div" [("id", "overlay")] [].
Definition scriptElement : Node := Element "script" [] [Text Js].

Definition headElement : Node :=
  Element "head" []
    [Element "meta" [("charset", "UTF-8")] [];
     Element "title" [] [Text (Chars "2D Gravity Simulation")];
     Element "style" [] [Text (Css styleSheet)]].

Definition bodyElement : Node :=
  Element "body" [] [canvasElement; overlayElement; scriptElement].

Definition htmlElement : Node :=
  Element "html" [("lang", "de")] [headElement; bodyElement].

Definition document : list Node := [DocumentType "html"; htmlElement].

(** ** Reaching into the tree *)

(** An element as the script holds it: the node, its ancestors, nearest
    first ([parentNode], followed up to the root), and its place in the
    tree: its index among its siblings, then that of its parent, up to
    the root.  Two handles with the same place are the same element. *)
Record Handle : Type := mkHandle {
  node : Node;
  ancestors : list Node;
  place : list nat;
}.

#[export] Instance Handle_eq_dec : EqDecision Handle.
Proof. solve_decision. Defined.

Definition childNodes (n : Node) : list Node :=
  match n with
  | Element _ _ kids => kids
  | _ => []
  end.

Definition tagName (n : Node) : option string :=
  match n with
  | Element tag _ _ => Some tag
  | _ => None
  end.

(** The value of an attribute: that of its first occurrence. *)
Fixpoint assoc (key : string) (l : Attributes) : option string :=
  match l with
  | [] => None
  | (k, v) :: l => if decide (k = key) then Some v else assoc key l
  end.

Definition getAttribute (name : string) (n : Node) : option string :=
  match n with
  | Element _ a _ => assoc name a
  | _ => None
  end.

(** The results of [f] on the elements of a list and their indices,
    from [i] on, in a row. *)
Section Numbered.
Context {A B : Type} (f : nat → A → list B).

Fixpoint numbered (i : nat) (l : list A) : list B :=
  match l with
  | [] => []
  | a :: l => f i a ++ numbered (S i) l
  end.
End Numbered.

(** The nodes under [n], [n] first, in tree order; [up] are the
    ancestors of [n], [at_] is its place. *)
Fixpoint handles (up : list Node) (at_ : list nat) (n : Node) : list Handle :=
  mkHandle n up at_ ::
  match n with
  | Element _ _ kids => numbered (λ i k, handles (n :: up) (i :: at_) k) 0 kids
  | _ => []
  end.

Definition treeOrder (doc : list Node) : list Handle :=
  numbered (λ i n, handles [] [i] n) 0 doc.

Definition hasId (id : string) (h : Handle) : Prop :=
  getAttribute "id" (node h) = Some id.

#[export] Instance hasId_dec id h : Decision (hasId id h).
Proof. unfold hasId. apply _. Defined.

(** [document.getElementById(id)]: the first element in tree order
    with that id, [None] for [null]. *)
Definition getElementById (id : string) (doc : list Node) : option Handle :=
  head (filter (hasId id) (treeOrder doc)).

(** No id is given twice. *)
Definition ids_unique (doc : list Node) : Prop :=
  NoDup (omap (getAttribute "id" ∘ node) (treeOrder doc)).

#[export] Instance ids_unique_dec doc : Decision (ids_unique doc).
Proof. unfold ids_unique. apply _. Defined.

(** ** Building inverts writing *)

Lemma appendChild_open n o os r :
  appendChild n (o :: os, r) =
    (mkOpen (openTag o) (openAttributes o) (n :: openChildren o) :: os, r).
Proof. done. Qed.

Lemma feedAll_app ts1 ts2 b : feedAll (ts1 ++ ts2) b = feedAll ts1 b ≫= feedAll ts2.
Proof.
  revert b. induction ts1 as [|t ts1 IH]; intros b; simpl; [done|].
  destruct (feed b t); simpl; [apply IH|done].
Qed.

(** A list of nodes, each of which is built by its tokens, is built by
    the tokens of the list. *)
Lemma feedAll_nodes (ns : list Node) b :
  Forall (λ n, ∀ b, feedAll (tokens n) b = Some (appendChild n b)) ns →
  feedAll (ns ≫= tokens) b = Some (foldl (flip appendChild) b ns).
Proof.
  intros Hns. revert b. induction Hns as [|n ns Hn _ IH]; intros b; [done|].
  rewrite bind_cons, feedAll_app, Hn. simpl. apply IH.
Qed.

Lemma foldl_appendChild_open ns tag a acc os r :
  foldl (flip appendChild) (mkOpen tag a acc :: os, r) ns =
    (mkOpen tag a (reverse ns ++ acc) :: os, r).
Proof.
  revert acc. induction ns as [|n ns IH]; intros acc; [done|].
  simpl. rewrite appendChild_open. simpl. rewrite IH, reverse_cons.
  by rewrite <- app_assoc.
Qed.

Lemma foldl_appendChild_top ns r :
  foldl (flip appendChild) ([], r) ns = ([], reverse ns ++ r).
Proof.
  revert r. induction ns as [|n ns IH]; intros r; [done|].
  simpl. unfold appendChild at 2. simpl. rewrite IH, reverse_cons.
  by rewrite <- app_assoc.
Qed.

Lemma well_formed_element tag a kids :
  well_formed (Element tag a kids) →
  (void tag → kids = []) ∧ Forall (λ n, well_formed n) kids.
Proof.
  simpl. rewrite andb_True, orb_True, negb_True, bool_decide_spec, forallb_True.
  intros [Hv Hk]. split; [|done].
  intros Hvoid. destruct Hv as [Hv|Hv]; [done|]. by apply nil_length_inv.
Qed.

(** The tokens of a well-formed node put the node at the current
    place, whatever is open. *)
Lemma feedAll_tokens n :
  well_formed n → ∀ b, feedAll (tokens n) b = Some (appendChild n b).
Proof.
  induction n as [name|tag a kids IH|d] using Node_ind; intros Hwf b; [done| |done].
  apply well_formed_element in Hwf as [Hvoid Hkids]. simpl.
  destruct (void tag) eqn:Ev; simpl; rewrite Ev; simpl.
  { by rewrite Hvoid by done. }
  rewrite feedAll_app, feedAll_nodes, foldl_appendChild_open; simpl.
  - by rewrite decide_True, app_nil_r, reverse_involutive by done.
  - rewrite Forall_forall in IH, Hkids. apply Forall_forall. auto.
Qed.

(** The state of the builder is the markup it has read: what it has
    built at the top level, then the open elements from the outermost
    in, each with the children it has so far. *)
Definition openTokens (o : Open) : list Token :=
  StartTag (openTag o) (openAttributes o) :: (reverse (openChildren o) ≫= tokens).

Definition consumed (b : Builder) : list Token :=
  (reverse b.2 ≫= tokens) ++ (reverse b.1 ≫= openTokens).

(** What the builder holds is well formed, and no open element is
    void. *)
Definition builder_ok (b : Builder) : Prop :=
  Forall (λ o, void (openTag o) = false ∧ Forall (λ n, well_formed n) (openChildren o)) b.1
  ∧ Forall (λ n, well_formed n) b.2.

Lemma appendChild_consumed n b : consumed (appendChild n b) = consumed b ++ tokens n.
Proof.
  destruct b as [[|o os] r]; unfold consumed, appendChild; simpl.
  - by rewrite reverse_cons, bind_app, !app_nil_r, bind_singleton.
  - rewrite !reverse_cons, !bind_app, !bind_singleton.
    unfold openTokens at 2 4. simpl.
    by rewrite reverse_cons, bind_app, bind_singleton, <- !app_assoc.
Qed.

Lemma appendChild_ok n b : well_formed n → builder_ok b → builder_ok (appendChild n b).
Proof.
  intros Hn [Hs Hr]. destruct b as [[|o os] r]; unfold appendChild; simpl in *.
  - split; [done|]. by constructor.
  - inv Hs. destruct_and!. split; [|done].
    constructor; [|done]. split; [done|]. by constructor.
Qed.

Lemma feed_consumed b t b' :
  builder_ok b → feed b t = Some b' →
  builder_ok b' ∧ consumed b' = consumed b ++ [t].
Proof.
  intros Hok Hfeed. destruct t as [name|tag a|tag|d]; simpl in Hfeed.
  - simplify_eq. split; [by apply appendChild_ok|apply appendChild_consumed].
  - destruct (void tag) eqn:Ev; simplify_eq.
    + split; [apply appendChild_ok; [simpl; by rewrite Ev|done]|].
      rewrite appendChild_consumed. simpl. by rewrite Ev.
    + destruct Hok as [Hs Hr]. split; [split; [by constructor|done]|].
      unfold consumed. simpl.
      by rewrite reverse_cons, bind_app, bind_singleton, <- !app_assoc.
  - destruct b as [[|o os] r]; simpl in Hfeed; [done|].
    case_decide; simplify_eq. destruct Hok as [Hs Hr]. simpl in *.
    inv Hs. destruct_and!. split.
    + apply appendChild_ok; [|done]. simpl.
      rewrite andb_True, orb_True, negb_True, forallb_True.
      split; [left; rewrite H; by intros []|by apply Forall_reverse].
    + rewrite appendChild_consumed. simpl. rewrite H. unfold consumed. simpl.
      rewrite reverse_cons, bind_app, bind_singleton.
      unfold openTokens at 2. simpl. by rewrite <- !app_assoc.
  - simplify_eq. split; [by apply appendChild_ok|apply appendChild_consumed].
Qed.

Lemma feedAll_consumed ts b b' :
  builder_ok b → feedAll ts b = Some b' →
  builder_ok b' ∧ consumed b' = consumed b ++ ts.
Proof.
  revert b. induction ts as [|t ts IH]; intros b Hok Hrun; simpl in Hrun.
  - simplify_eq. by rewrite app_nil_r.
  - destruct (feed b t) as [b1|] eqn:Hfeed; [|done]. simpl in Hrun.
    apply feed_consumed in Hfeed as [Hok1 E1]; [|done].
    apply IH in Hrun as [Hok' E']; [|done].
    split; [done|]. by rewrite E', E1, <- app_assoc.
Qed.

(** Writing a well-formed document as markup and building the tree of
    that markup gives the document back: the builder loses nothing and
    invents nothing. *)
Lemma build_tokens (doc : list Node) :
  Forall (λ n, well_formed n) doc → build (doc ≫= tokens) = Some doc.
Proof.
  intros Hwf. unfold build.
  rewrite feedAll_nodes, foldl_appendChild_top by (eapply Forall_impl; [done|apply feedAll_tokens]).
  simpl. by rewrite app_nil_r, reverse_involutive.
Qed.

(** What the builder accepts is the markup of the tree it returns, and
    that tree is well formed: markup that is not well nested is
    refused, and two markups with the same tree are the same. *)
Lemma tokens_build (ts : list Token) (doc : list Node) :
  build ts = Some doc →
  Forall (λ n, well_formed n) doc ∧ doc ≫= tokens = ts.
Proof.
  unfold build. intros Hb.
  destruct (feedAll ts ([], [])) as [[stack r]|] eqn:Hrun; [|done]. simpl in Hb.
  destruct stack; simplify_eq.
  apply feedAll_consumed in Hrun as [[_ Hok] E]; [|by split].
  unfold consumed in E. simpl in *. rewrite app_nil_r in E.
  split; [by apply Forall_reverse|done].
Qed.

(** The markup of the page is well nested, and [document] is its tree. *)
Lemma markup_document : build markup = Some document.
Proof. reflexivity. Qed.

(** ** Looking up an id *)

Lemma head_filter_unique {A B} `{EqDecision B} (f : A → option B) (l : list A) x i :
  NoDup (omap f l) → x ∈ l → f x = Some i →
  head (filter (λ y, f y = Some i) l) = Some x.
Proof.
  intros Hnd Hx Hf. induction l as [|y l IH]; [by apply elem_of_nil in Hx|].
  rewrite filter_cons. apply elem_of_cons in Hx as [<-|Hx].
  - by rewrite decide_True.
  - simpl in Hnd. case_decide as Hy; simpl.
    + rewrite Hy in Hnd. inv Hnd. exfalso. apply H1.
      apply list_elem_of_omap. by exists x.
    + apply IH; [|done]. destruct (f y); [by inv Hnd|done].
Qed.

(** In a document that gives no id twice, [getElementById] returns the
    element that carries the id, wherever it is in the tree; it returns
    [null] exactly when no element carries it. *)
Theorem getElementById_finds (doc : list Node) (id : string) (h : Handle) :
  ids_unique doc →
  getElementById id doc = Some h ↔ h ∈ treeOrder doc ∧ hasId id h.
Proof.
  intros Hu. unfold getElementById. split.
  - intros Hh. apply head_Some_elem_of in Hh. by apply list_elem_of_filter in Hh as [? ?].
  - intros [Hin Hid]. by apply (head_filter_unique (getAttribute "id" ∘ node)).
Qed.

Lemma getElementById_None (doc : list Node) (id : string) :
  getElementById id doc = None ↔ ∀ h, h ∈ treeOrder doc → ¬ hasId id h.
Proof.
  unfold getElementById. rewrite head_None. split.
  - intros E h Hin Hid.
    assert (h ∈ filter (hasId id) (treeOrder doc)) as Hf by by apply list_elem_of_filter.
    rewrite E in Hf. by apply elem_of_nil in Hf.
  - intros Hno. apply elem_of_nil_inv. intros h Hh.
    apply list_elem_of_filter in Hh as [? ?]. by eapply Hno.
Qed.

(** ** Places *)

Lemma numbered_elem_of {A B} (f : nat → A → list B) i l y :
  y ∈ numbered f i l ↔ ∃ j a, l !! j = Some a ∧ y ∈ f (i + j)%nat a.
Proof.
  revert i. induction l as [|a l IH]; intros i; simpl.
  { rewrite elem_of_nil. naive_solver. }
  rewrite elem_of_app, IH. split.
  - intros [Hy|(j & a' & Hj & Hy)].
    + exists 0%nat, a. by rewrite Nat.add_0_r.
    + exists (S j), a'. by rewrite Nat.add_succ_r.
  - intros ([|j] & a' & Hj & Hy); simplify_eq/=.
    + left. by rewrite Nat.add_0_r in Hy.
    + right. exists j, a'. by rewrite Nat.add_succ_r in Hy.
Qed.

(** The pieces of a row have no duplicates under [g] if each piece has
    none and pieces at different indices share no image. *)
Lemma numbered_NoDup {A B C} (g : B → C) (f : nat → A → list B) i l :
  (∀ j a, l !! j = Some a → NoDup (g <$> f (i + j)%nat a)) →
  (∀ j1 j2 a1 a2 y1 y2, j1 ≠ j2 → l !! j1 = Some a1 → l !! j2 = Some a2 →
     y1 ∈ f (i + j1)%nat a1 → y2 ∈ f (i + j2)%nat a2 → g y1 ≠ g y2) →
  NoDup (g <$> numbered f i l).
Proof.
  revert i. induction l as [|a l IH]; intros i Hpiece Hapart; simpl; [constructor|].
  rewrite fmap_app. apply NoDup_app. split_and!.
  - specialize (Hpiece 0%nat a eq_refl). by rewrite Nat.add_0_r in Hpiece.
  - intros c (y1 & -> & Hy1)%list_elem_of_fmap (y2 & E & Hy2)%list_elem_of_fmap.
    apply numbered_elem_of in Hy2 as (j & a' & Hj & Hy2).
    rewrite Nat.add_succ_l, <- Nat.add_succ_r in Hy2.
    eapply (Hapart 0%nat (S j)); [done|done|exact Hj| |exact Hy2|exact E].
    by rewrite Nat.add_0_r.
  - apply IH.
    + intros j a' Hj. rewrite Nat.add_succ_l, <- Nat.add_succ_r. by apply Hpiece.
    + intros j1 j2 a1 a2 y1 y2 Hne Hj1 Hj2.
      rewrite !Nat.add_succ_l, <- !Nat.add_succ_r.
      apply Hapart; [congruence|done..].
Qed.

(** The place of a node under [n] ends with the place of [n]. *)
Lemma handles_place n :
  ∀ up at_ h, h ∈ handles up at_ n → at_ `suffix_of` place h.
Proof.
  induction n as [name|tag a kids IH|d] using Node_ind; intros up at_ h Hh; simpl in Hh;
    apply elem_of_cons in Hh as [->|Hh]; try done; try by apply elem_of_nil in Hh.
  apply numbered_elem_of in Hh as (j & k & Hj & Hh).
  rewrite Forall_forall in IH. apply IH in Hh; [|by eapply list_elem_of_lookup_2].
  by eapply suffix_cons_l.
Qed.

Lemma suffix_same_length {A} (l1 l2 l : list A) :
  l1 `suffix_of` l → l2 `suffix_of` l → length l1 = length l2 → l1 = l2.
Proof.
  intros [k1 ->] [k2 E] Hlen. apply app_inj_2 in E; [by destruct E|done].
Qed.

(** No two nodes of a tree have the same place. *)
Lemma handles_NoDup n : ∀ up at_, NoDup (place <$> handles up at_ n).
Proof.
  induction n as [name|tag a kids IH|d] using Node_ind; intros up at_; simpl;
    [by apply NoDup_singleton| |by apply NoDup_singleton].
  rewrite Forall_forall in IH. apply NoDup_cons. split.
  - intros (h & E & Hh)%list_elem_of_fmap.
    apply numbered_elem_of in Hh as (j & k & _ & Hh).
    apply handles_place, suffix_length in Hh. rewrite <- E in Hh. simpl in Hh. lia.
  - apply numbered_NoDup.
    + intros j k Hj. apply IH. by eapply list_elem_of_lookup_2.
    + intros j1 j2 k1 k2 h1 h2 Hne _ _ H1%handles_place H2%handles_place E.
      rewrite E in H1. by pose proof (suffix_same_length _ _ _ H1 H2 eq_refl) as [= ?].
Qed.

(** Every node of a document has a place of its own: a handle is one
    element. *)
Lemma treeOrder_NoDup doc : NoDup (place <$> treeOrder doc).
Proof.
  apply numbered_NoDup.
  - intros j n _. apply handles_NoDup.
  - intros j1 j2 n1 n2 h1 h2 Hne _ _ H1%handles_place H2%handles_place E.
    rewrite E in H1. by pose proof (suffix_same_length _ _ _ H1 H2 eq_refl) as [= ?].
Qed.

(** ** The page *)

Lemma document_ids_unique : ids_unique document.
Proof. by vm_compute; repeat constructor; set_solver. Qed.

Lemma document_well_formed : Forall (λ n, well_formed n) document.
Proof. by repeat constructor. Qed.

Definition bodyHandle : Handle := mkHandle bodyElement [htmlElement] [1; 1]%nat.

Definition canvasHandle : Handle :=
  mkHandle canvasElement [bodyElement; htmlElement] [0; 1; 1]%nat.

Definition overlayHandle : Handle :=
  mkHandle overlayElement [bodyElement; htmlElement] [1; 1; 1]%nat.

Lemma getElementById_canvas : getElementById "canvas" document = Some canvasHandle.
Proof. reflexivity. Qed.

Lemma getElementById_overlay : getElementById "overlay" document = Some overlayHandle.
Proof. reflexivity. Qed.

(** The markup of the page is the markup of its document, and the
    document is built back from it. *)
Lemma document_tokens :
  Forall (λ n, well_formed n) document ∧ document ≫= tokens = markup.
Proof. apply (tokens_build markup document), markup_document. Qed.

Lemma document_build : build (document ≫= tokens) = Some document.
Proof. apply (build_tokens document), document_well_formed. Qed.

(** ** Witnesses *)

Lemma getElementById_finds_witness :
  getElementById "overlay" document = Some overlayHandle ↔
    overlayHandle ∈ treeOrder document ∧ hasId "overlay" overlayHandle.
Proof. apply (getElementById_finds document), document_ids_unique. Defined.
