(* ===== verification/Style.v ===== *)
(** * Style: the value a property has on an element

    The style sheet of the page has three rules with simple selectors.
    [cascade] orders the declarations that apply to an element the way
    the host does for such rules: the host's own sheet first, the rules
    of the page after it, those with an element name before those with
    an id, each group in the order of the source; the last declaration
    of a property wins.  [computed] adds inheritance: a property that
    inherits takes the value of the parent where no rule gives one, any
    other property its initial value.  [cascade] and [computed] respect
    the equivalence [same_rules] of sheets that interleave their two
    kinds of rule differently.

    Only what this page uses is here: two kinds of selector, shorthand
    properties kept as one property ([margin] stands for its four
    sides), lengths in pixels. *)

From stdpp Require Import strings list.
From S2P Require Import Prelude Markup.

Local Open Scope string_scope.
Local Open Scope list_scope.

(** The rules of the host for the elements of this page. *)
Definition userAgent : list Rule :=
  [mkRule (TypeSelector "html") [("display", "block")];
   mkRule (TypeSelector "head") [("display", "none")];
   mkRule (TypeSelector "meta") [("display", "none")];
   mkRule (TypeSelector "title") [("display", "none")];
   mkRule (TypeSelector "style") [("display", "none")];
   mkRule (TypeSelector "script") [("display", "none")];
   mkRule (TypeSelector "body") [("display", "block"); ("margin", "8px")];
   mkRule (TypeSelector "div") [("display", "block")]].

Definition matches (s : Selector) (n : Node) : bool :=
  match s with
  | TypeSelector tag => bool_decide (tagName n = Some tag)
  | IdSelector id => bool_decide (getAttribute "id" n = Some id)
  end.

Definition byId (r : Rule) : bool :=
  match selector r with
  | IdSelector _ => true
  | TypeSelector _ => false
  end.

Definition applicable (sheet : list Rule) (n : Node) : list Rule :=
  filter (λ r, matches (selector r) n) sheet.

(** The declarations for a node, the weakest first. *)
Definition cascade (sheet : list Rule) (n : Node) : Attributes :=
  (applicable userAgent n
   ++ filter (λ r, ¬ byId r) (applicable sheet n)
   ++ filter (λ r, byId r) (applicable sheet n)) ≫= declarations.

(** The value the rules give a property on a node, if any. *)
Definition specified (sheet : list Rule) (n : Node) (property : string) : option string :=
  assoc property (reverse (cascade sheet n)).

Definition inherited (property : string) : bool :=
  bool_decide (property ∈ ["color"; "font-family"; "font-size"; "pointer-events";
                           "white-space"]).

Definition initialValues : Attributes :=
  [("display", "inline"); ("position", "static"); ("margin", "0");
   ("left", "auto"); ("top", "auto"); ("overflow", "visible");
   ("pointer-events", "auto"); ("white-space", "normal");
   ("background", "transparent"); ("color", "canvastext");
   ("font-size", "medium")].

Definition initial (property : string) : string :=
  default "" (assoc property initialValues).

(** The value of a property on the first node of a chain of a node and
    its ancestors. *)
Fixpoint inherit (sheet : list Rule) (chain : list Node) (property : string) : string :=
  match chain with
  | [] => initial property
  | n :: up =>
      match specified sheet n property with
      | Some v => v
      | None => if inherited property then inherit sheet up property else initial property
      end
  end.

Definition computed (sheet : list Rule) (h : Handle) (property : string) : string :=
  inherit sheet (node h :: ancestors h) property.

(** ** The cascade *)

Lemma assoc_app key (l k : Attributes) :
  assoc key (l ++ k) = match assoc key l with Some v => Some v | None => assoc key k end.
Proof.
  induction l as [|[k' v] l IH]; [done|]. simpl. by case_decide.
Qed.

(** A rule with an id that applies alone among such rules decides
    every property it declares, wherever it stands in the sheet and
    whatever the other rules say. *)
Lemma specified_by_id sheet n r property v :
  filter (λ r, byId r) (applicable sheet n) = [r] →
  assoc property (reverse (declarations r)) = Some v →
  specified sheet n property = Some v.
Proof.
  intros Hr Hv. unfold specified, cascade.
  rewrite Hr, !bind_app, bind_singleton, !reverse_app, <- !app_assoc.
  by rewrite assoc_app, Hv.
Qed.

(** ** The order of the rules *)

(** Sheets that have the same rules with an id, in the same order, and
    the same rules without, in the same order: they differ in how the
    two kinds are interleaved. *)
Definition same_rules (sheet1 sheet2 : list Rule) : Prop :=
  filter (λ r, byId r) sheet1 = filter (λ r, byId r) sheet2 ∧
  filter (λ r, ¬ byId r) sheet1 = filter (λ r, ¬ byId r) sheet2.

#[export] Instance same_rules_equivalence : Equivalence same_rules.
Proof.
  split; [by split| |].
  - by intros s1 s2 [? ?].
  - intros s1 s2 s3 [E1 E2] [E3 E4]. split; congruence.
Qed.

Lemma filter_swap {A} (P Q : A → Prop) `{∀ x, Decision (P x)} `{∀ x, Decision (Q x)}
    (l : list A) :
  filter P (filter Q l) = filter Q (filter P l).
Proof. rewrite !list_filter_filter. apply list_filter_iff. tauto. Qed.

(** The cascade sees a sheet only through its two kinds of rule: a rule
    with an id can be moved before or behind rules without, and the
    other way round, and every element keeps every value. *)
#[export] Instance cascade_proper : Proper (same_rules ==> eq ==> eq) cascade.
Proof.
  intros s1 s2 [Eid Etype] n ? <-. unfold cascade, applicable.
  rewrite (filter_swap (λ r, ¬ byId r)), (filter_swap (λ r, Is_true (byId r))).
  rewrite Eid, Etype.
  by rewrite <- (filter_swap (λ r, ¬ byId r)), <- (filter_swap (λ r, Is_true (byId r))).
Qed.

#[export] Instance computed_proper :
  Proper (same_rules ==> eq ==> eq ==> eq) computed.
Proof.
  intros s1 s2 Hs h ? <- property ? <-. unfold computed.
  induction (node h :: ancestors h) as [|n up IH]; [done|].
  simpl. unfold specified. by rewrite (cascade_proper _ _ Hs n n eq_refl), IH.
Qed.

(** The sheet of the page with the rule of the overlay first. *)
Lemma styleSheet_reordered :
  same_rules styleSheet [overlay_rule; body_rule; canvas_rule].
Proof. done. Qed.

(** A property that no rule gives a node is taken from the parent if
    it inherits. *)
Lemma inherit_from_parent sheet n up property :
  specified sheet n property = None → inherited property →
  inherit sheet (n :: up) property = inherit sheet up property.
Proof. intros Hs Hi. simpl. rewrite Hs. by destruct (inherited property). Qed.

(** ** The page *)

(** The overlay takes its place, its size of type and its white space
    from its own rule, its colour from the body, and it is invisible to
    the pointer. *)
Lemma overlay_style :
  computed styleSheet overlayHandle <$>
    ["position"; "left"; "top"; "pointer-events"; "white-space"; "color"; "display"] =
  ["absolute"; "10px"; "10px"; "none"; "pre-line"; "white"; "block"].
Proof. reflexivity. Qed.

Lemma canvas_style :
  computed styleSheet canvasHandle <$> ["display"; "position"; "pointer-events"] =
  ["block"; "static"; "auto"].
Proof. reflexivity. Qed.

Lemma body_style :
  computed styleSheet bodyHandle <$>
    ["margin"; "overflow"; "background"; "color"] =
  ["0"; "hidden"; "rgb(10, 10, 30)"; "white"].
Proof. reflexivity. Qed.
