(* ===== verification/Layout.v ===== *)
(** * Layout: where the elements are and which one the pointer hits

    The script never places anything: the style sheet does.  The
    [mousedown] listener is on the canvas, so a press reaches the
    script only where the canvas is the element under the pointer, and
    the position of the new body is the position of the pointer
    relative to the rectangle of the canvas.  This file has the part of
    the host's layout that decides both: the children of the body
    stacked from the margin of the body on, an element with
    [position: absolute] taken out of the stack and placed by its
    [left] and [top], positioned elements painted over the others, the
    pointer passing through elements with [pointer-events: none].

    The size of the box of an element is the host's to compute (the
    width and height the script gives the canvas, the extent of a text
    in its font, the width of the window): [measure] is a parameter,
    and the theorems hold for every such measure.  Coordinates are CSS
    pixels, integers.  A child that is displayed inline is stacked like
    a block; the line around an inline canvas is a few pixels higher
    than the canvas, which moves what follows it and nothing else.

    [bindings] are the three constants the script takes from the
    document; [click] is a press of the mouse as the host turns it into
    the input of [Page.deliver]. *)

From Stdlib Require Import Reals Lra.
From stdpp Require Import strings list pretty.
From S2P Require Import Prelude Num Config Body Force Collision Random World.
From S2P Require Import RealNum RealPhysics Render Page Markup Style.

#[local] Set Warnings "-clear-no-such-hyp".

Local Open Scope string_scope.
Local Open Scope list_scope.
Local Open Scope Z_scope.

(** ** Lengths and boxes *)

(** A length in pixels: [0], or digits followed by [px]. *)
Definition px (value : string) : option Z :=
  let n := readN value 0 in
  if decide (value = "0") then Some 0
  else if decide (value = pretty n +:+ "px") then Some (Z.of_N n)
  else None.

Record Box : Type := mkBox {
  boxLeft : Z;
  boxTop : Z;
  boxWidth : Z;
  boxHeight : Z;
}.

#[export] Instance Box_eq_dec : EqDecision Box.
Proof. solve_decision. Defined.

(** The pixel at [(x, y)] is in the box. *)
Definition inside (b : Box) (x y : Z) : bool :=
  bool_decide (boxLeft b ≤ x < boxLeft b + boxWidth b ∧
               boxTop b ≤ y < boxTop b + boxHeight b).

Section Layout.
Variable sheet : list Rule.
Variable measure : Node → Z * Z.

(** ** The boxes of the children of the body *)

(** The children of a block from [(x, y)] down, in tree order; [i] is
    the index of the first of them.  A child that is not displayed has
    no box; a child with [position: absolute] is placed by its [left]
    and [top] where it has them and takes no room; any other child
    takes the next place and its own height. *)
Fixpoint flow (up : list Node) (at_ : list nat) (i : nat) (x y : Z) (kids : list Node)
    : list (Handle * Box) :=
  match kids with
  | [] => []
  | k :: kids =>
      let h := mkHandle k up (i :: at_) in
      let size := measure k in
      if bool_decide (tagName k = None ∨ computed sheet h "display" = "none")
      then flow up at_ (S i) x y kids
      else if decide (computed sheet h "position" = "absolute")
      then (h, mkBox (default x (px (computed sheet h "left")))
                 (default y (px (computed sheet h "top"))) size.1 size.2)
           :: flow up at_ (S i) x y kids
      else (h, mkBox x y size.1 size.2) :: flow up at_ (S i) x (y + size.2) kids
  end.

(** [document.body]. *)
Definition document_body (doc : list Node) : option Handle :=
  head (filter (λ h, tagName (node h) = Some "body") (treeOrder doc)).

(** The boxes of the page: the children of the body, from its margin
    on. *)
Definition layout (doc : list Node) : list (Handle * Box) :=
  match document_body doc with
  | Some b =>
      let m := default 0 (px (computed sheet b "margin")) in
      flow (node b :: ancestors b) (place b) 0 m m (childNodes (node b))
  | None => []
  end.

(** [element.getBoundingClientRect()]. *)
Definition getBoundingClientRect (doc : list Node) (h : Handle) : option Box :=
  snd <$> head (filter (λ e, e.1 = h) (layout doc)).

(** ** The element under the pointer *)

Definition positioned (e : Handle * Box) : bool :=
  bool_decide (computed sheet e.1 "position" ≠ "static").

(** The boxes from the back to the front: the positioned ones are
    painted over the others, each group in tree order. *)
Definition paintOrder (boxes : list (Handle * Box)) : list (Handle * Box) :=
  filter (λ e, ¬ positioned e) boxes ++ filter (λ e, positioned e) boxes.

Definition hit (x y : Z) (e : Handle * Box) : bool :=
  inside e.2 x y && bool_decide (computed sheet e.1 "pointer-events" ≠ "none").

(** [document.elementFromPoint(x, y)] among the children of the body:
    the frontmost box at the point that takes pointer events; [None]
    where the point is on none of them (the host answers with the body
    or the root there). *)
Definition elementFromPoint (doc : list Node) (x y : Z) : option Handle :=
  fst <$> last (filter (λ e, hit x y e) (paintOrder (layout doc))).

End Layout.

(** ** The script and the document *)

(** [canvas.getContext("2d")] is there on a canvas only; on any other
    element the call is a [TypeError]. *)
Definition getContext (h : Handle) : option unit :=
  if decide (tagName (node h) = Some "canvas") then Some () else None.

(** The constants [canvas], [ctx] and [overlay] of the script.  [None]
    stands for the script failing: without the canvas at the call of
    [getContext], without the overlay at the first assignment to
    [overlay.textContent], in the first frame. *)
Definition bindings (doc : list Node) : option (Handle * Handle) :=
  canvas ← getElementById "canvas" doc;
  _ ← getContext canvas;
  overlay ← getElementById "overlay" doc;
  Some (canvas, overlay).

Section Launch.
Context {N : Type} `{!NumOps N}.
Variable random : nat → N.

(** The script from its first statement to its last, in a window of
    the given size: with its three constants it runs [Page.main]. *)
Definition launch (doc : list Node) (innerWidth innerHeight : N) : option Page :=
  _ ← bindings doc;
  Some (main random innerWidth innerHeight).

End Launch.

Section Pointer.
Context {N : Type} `{!NumOps N}.
Variable sheet : list Rule.
Variable measure : Node → Z * Z.

(** A press of the mouse at [(x, y)] of the window, as the listener on
    [canvas] sees it: delivered if the canvas is the element under the
    pointer or one of its ancestors (the place of an ancestor is the
    end of the place of the element), with the rectangle of the canvas
    the listener asks for. *)
Definition click (doc : list Node) (canvas : Handle) (x y : Z) : option (@Input N) :=
  target ← elementFromPoint sheet measure doc x y;
  _ ← guard (place canvas `suffix_of` place target);
  rect ← getBoundingClientRect sheet measure doc canvas;
  Some (MousePress (int x) (int y) (int (boxLeft rect)) (int (boxTop rect))).

End Pointer.

(** ** Every document, every style sheet *)

Section LayoutFacts.
Variable sheet : list Rule.
Variable measure : Node → Z * Z.

(** A box of the flow belongs to one of the children, at the index of
    that child, and has the size the host measures for it. *)
Lemma flow_entry up at_ i x y kids h b :
  (h, b) ∈ flow sheet measure up at_ i x y kids →
  ∃ j, (i ≤ j)%nat ∧ place h = j :: at_ ∧
       boxWidth b = (measure (node h)).1 ∧ boxHeight b = (measure (node h)).2.
Proof.
  revert i x y. induction kids as [|k kids IH]; intros i x y Hin; simpl in Hin.
  { by apply elem_of_nil in Hin. }
  assert (∀ x y, (h, b) ∈ flow sheet measure up at_ (S i) x y kids →
    ∃ j, (i ≤ j)%nat ∧ place h = j :: at_ ∧
         boxWidth b = (measure (node h)).1 ∧ boxHeight b = (measure (node h)).2) as Hrest.
  { intros x' y' Hin'. destruct (IH _ _ _ Hin') as (j & ? & ?). exists j. split; [lia|done]. }
  case_bool_decide; [by eapply Hrest|].
  case_decide; apply elem_of_cons in Hin as [?|Hin]; simplify_eq;
    try (by eapply Hrest); by exists i.
Qed.

(** No two boxes of the flow belong to the same child. *)
Lemma flow_NoDup up at_ i x y kids :
  NoDup ((place ∘ fst) <$> flow sheet measure up at_ i x y kids).
Proof.
  revert i x y. induction kids as [|k kids IH]; intros i x y; simpl; [constructor|].
  assert (∀ x y, i :: at_ ∉ (place ∘ fst) <$> flow sheet measure up at_ (S i) x y kids)
    as Hfresh.
  { intros x' y' Hin. apply list_elem_of_fmap in Hin as ([h b] & Hp & Hin).
    apply flow_entry in Hin as (j & ? & Hj & _). simpl in Hp. rewrite Hj in Hp.
    simplify_eq. lia. }
  case_bool_decide; [apply IH|].
  case_decide; csimpl; constructor; auto.
Qed.

(** Two boxes of the page of which one belongs to an ancestor of the
    other, or to the same element, are the same box. *)
Lemma layout_same doc e1 e2 :
  e1 ∈ layout sheet measure doc → e2 ∈ layout sheet measure doc →
  place e1.1 `suffix_of` place e2.1 → e1 = e2.
Proof.
  unfold layout. destruct (document_body doc) as [body|]; [|by intros ?%elem_of_nil].
  intros H1 H2 Hsuffix.
  eapply (NoDup_fmap_eq (place ∘ fst)); [apply flow_NoDup|done..|].
  destruct e1 as [h1 b1], e2 as [h2 b2].
  apply flow_entry in H1 as (j1 & _ & E1 & _). apply flow_entry in H2 as (j2 & _ & E2 & _).
  simpl in *. apply suffix_length_eq; [done|]. by rewrite E1, E2.
Qed.

Lemma layout_size doc h b :
  (h, b) ∈ layout sheet measure doc →
  boxWidth b = (measure (node h)).1 ∧ boxHeight b = (measure (node h)).2.
Proof.
  unfold layout. destruct (document_body doc) as [body|]; [|by intros ?%elem_of_nil].
  intros Hin. by apply flow_entry in Hin as (j & _ & _ & ?).
Qed.

Lemma getBoundingClientRect_layout doc h rect :
  getBoundingClientRect sheet measure doc h = Some rect →
  (h, rect) ∈ layout sheet measure doc.
Proof.
  unfold getBoundingClientRect. intros Hrect.
  apply fmap_Some in Hrect as ([h' b] & Hhead & ->).
  apply head_Some_elem_of, list_elem_of_filter in Hhead as [Hh Hin]. simpl in Hh.
  by subst.
Qed.

Lemma elementFromPoint_layout doc x y target :
  elementFromPoint sheet measure doc x y = Some target →
  ∃ b, (target, b) ∈ layout sheet measure doc ∧ inside b x y.
Proof.
  unfold elementFromPoint. intros Ht.
  apply fmap_Some in Ht as ([h b] & Hlast & ->).
  apply last_Some_elem_of, list_elem_of_filter in Hlast as [Hhit Hin].
  exists b. split.
  - unfold paintOrder in Hin. apply elem_of_app in Hin as [Hin|Hin];
      by apply list_elem_of_filter in Hin as [_ ?].
  - unfold hit in Hhit. by apply andb_True in Hhit as [? _].
Qed.

Section Generic.
Context {N : Type} `{!NumOps N}.

(** Whatever the document and its style: where a press reaches the
    listener, the pointer is inside the rectangle of the canvas that
    the listener asks for, and that rectangle has the size of the
    canvas. *)
Lemma click_inside doc canvas x y (i : @Input N) :
  click sheet measure doc canvas x y = Some i →
  ∃ rect,
    i = MousePress (int x) (int y) (int (boxLeft rect)) (int (boxTop rect)) ∧
    inside rect x y ∧
    boxWidth rect = (measure (node canvas)).1 ∧
    boxHeight rect = (measure (node canvas)).2.
Proof.
  unfold click. intros Hclick.
  destruct (elementFromPoint _ _ _ _ _) as [target|] eqn:Ht; [|done]. simpl in Hclick.
  case_guard as Hpath; [|done]. simpl in Hclick.
  destruct (getBoundingClientRect _ _ _ _) as [rect|] eqn:Hrect; [|done].
  simplify_eq/=. exists rect.
  apply getBoundingClientRect_layout in Hrect.
  apply elementFromPoint_layout in Ht as (b & Hin & Hb).
  assert ((canvas, rect) = (target, b)) by by apply (layout_same doc).
  simplify_eq. split_and!; [done..|apply (layout_size doc), Hrect|apply (layout_size doc), Hrect].
Qed.

End Generic.
End LayoutFacts.

(** ** The order of the rules *)

(** Layout and hit testing see the style sheet through [computed]
    only: sheets that are the same for the cascade give the same boxes
    and the same targets. *)
Section SameRules.
Variable measure : Node → Z * Z.
Context (sheet1 sheet2 : list Rule) (Hsame : same_rules sheet1 sheet2).

Lemma computed_same h property : computed sheet1 h property = computed sheet2 h property.
Proof. by rewrite Hsame. Qed.

Lemma flow_same up at_ i x y kids :
  flow sheet1 measure up at_ i x y kids = flow sheet2 measure up at_ i x y kids.
Proof.
  revert i x y. induction kids as [|k kids IH]; intros i x y; [done|].
  simpl. rewrite !computed_same. by rewrite !IH.
Qed.

Lemma layout_same_rules doc : layout sheet1 measure doc = layout sheet2 measure doc.
Proof.
  unfold layout. destruct (document_body doc); [|done].
  by rewrite computed_same, flow_same.
Qed.

Lemma elementFromPoint_same doc x y :
  elementFromPoint sheet1 measure doc x y = elementFromPoint sheet2 measure doc x y.
Proof.
  unfold elementFromPoint, paintOrder. rewrite layout_same_rules. do 2 f_equal.
  assert (∀ e, positioned sheet1 e = positioned sheet2 e) as Hpos
    by (intros e; unfold positioned; by rewrite computed_same).
  assert (∀ e, hit sheet1 x y e = hit sheet2 x y e) as Hhit
    by (intros e; unfold hit; by rewrite computed_same).
  rewrite !filter_app.
  f_equal; (rewrite (list_filter_iff _ (λ e, hit sheet2 x y e)) by (intros e; by rewrite Hhit));
    f_equal; apply list_filter_iff; intros e; by rewrite Hpos.
Qed.

End SameRules.

#[export] Instance click_proper {N : Type} `{!NumOps N} :
  Proper (same_rules ==> eq ==> eq ==> eq ==> eq ==> eq ==> eq) (click (N:=N)).
Proof.
  intros s1 s2 Hs measure ? <- doc ? <- canvas ? <- x ? <- y ? <-. unfold click.
  rewrite (elementFromPoint_same measure s1 s2 Hs). unfold getBoundingClientRect.
  by rewrite (layout_same_rules measure s1 s2 Hs).
Qed.

(** ** The script fails to start *)

(** The script gets its three constants unless the document has no
    element with the id [canvas], or the first such element is not a
    canvas, or it has no element with the id [overlay]. *)
Lemma bindings_fail doc :
  bindings doc = None ↔
    (∀ h, h ∈ treeOrder doc → ¬ hasId "canvas" h) ∨
    (∃ h, getElementById "canvas" doc = Some h ∧ tagName (node h) ≠ Some "canvas") ∨
    (∀ h, h ∈ treeOrder doc → ¬ hasId "overlay" h).
Proof.
  unfold bindings, getContext. rewrite <- !getElementById_None.
  destruct (getElementById "canvas" doc) as [c|]; simpl; [|naive_solver].
  case_decide; simpl; [|naive_solver].
  destruct (getElementById "overlay" doc); simpl; naive_solver.
Qed.

(** ** The page *)

Section PageLayout.
Variable measure : Node → Z * Z.

(** The boxes of the page: the canvas at the corner of the window,
    the overlay ten pixels in from it; the script element has none. *)
Lemma layout_document :
  layout styleSheet measure document =
    [(canvasHandle, mkBox 0 0 (measure canvasElement).1 (measure canvasElement).2);
     (overlayHandle, mkBox 10 10 (measure overlayElement).1 (measure overlayElement).2)].
Proof. reflexivity. Qed.

Lemma getBoundingClientRect_canvas :
  getBoundingClientRect styleSheet measure document canvasHandle =
    Some (mkBox 0 0 (measure canvasElement).1 (measure canvasElement).2).
Proof. reflexivity. Qed.

(** The overlay is painted over the canvas. *)
Lemma paintOrder_document :
  paintOrder styleSheet (layout styleSheet measure document) =
    layout styleSheet measure document.
Proof. reflexivity. Qed.

(** The pointer passes through the overlay, wherever its box is, and
    stops on the canvas. *)
Lemma hit_overlay x y b : hit styleSheet x y (overlayHandle, b) = false.
Proof. unfold hit. cbn [fst snd]. apply andb_false_r. Qed.

Lemma hit_canvas x y b : hit styleSheet x y (canvasHandle, b) = inside b x y.
Proof. unfold hit. cbn [fst snd]. apply andb_true_r. Qed.

(** The element under the pointer is the canvas wherever the pointer is
    on the canvas, and nothing else anywhere: the overlay lies over the
    canvas and lets the pointer through. *)
Lemma elementFromPoint_document x y :
  elementFromPoint styleSheet measure document x y =
    if inside (mkBox 0 0 (measure canvasElement).1 (measure canvasElement).2) x y
    then Some canvasHandle else None.
Proof.
  unfold elementFromPoint. rewrite paintOrder_document, layout_document.
  rewrite !filter_cons, filter_nil, hit_overlay, hit_canvas.
  by destruct (inside _ x y).
Qed.

Lemma bindings_document : bindings document = Some (canvasHandle, overlayHandle).
Proof. reflexivity. Qed.

(** On the document of the page the script starts. *)
Lemma launch_document {N : Type} `{!NumOps N} (random : nat → N) iw ih :
  launch random document iw ih = Some (main random iw ih).
Proof. reflexivity. Qed.

(** The page and the canvas have one background, the overlay and the
    labels of the bodies one colour: the style sheet and the constants
    of the script agree. *)
Lemma colours_agree :
  computed styleSheet bodyHandle "background" = BG_COLOR ∧
  computed styleSheet overlayHandle "color" = TEXT_COLOR.
Proof. done. Qed.

End PageLayout.

(** ** A press of the mouse on the page *)

Section Click.
Context {N : Type} `{!NumOps N}.
Variable measure : Node → Z * Z.

(** On this page a press of the mouse reaches the script exactly where
    the pointer is on the canvas, the overlay that lies over it
    notwithstanding, and the rectangle the listener subtracts is at the
    corner of the window: for every size of the canvas and every extent
    of the overlay text. *)
Theorem click_document x y :
  click (N:=N) styleSheet measure document canvasHandle x y =
    if inside (mkBox 0 0 (measure canvasElement).1 (measure canvasElement).2) x y
    then Some (MousePress (int x) (int y) (int 0) (int 0)) else None.
Proof.
  unfold click. rewrite elementFromPoint_document.
  by destruct (inside _ x y).
Qed.

End Click.

(** ** Where the new body is *)

Section Spawn.
Variable random : nat → R.
Variable toFixed0 : R → string.
Variable sheet : list Rule.
Variable measure : Node → Z * Z.
Local Open Scope R_scope.

(** A point of a box, relative to its corner, is between zero and the
    size of the box. *)
Lemma inside_real (rect : Box) (x y : Z) :
  inside rect x y →
  0 <= IZR x - IZR (boxLeft rect) < IZR (boxWidth rect) ∧
  0 <= IZR y - IZR (boxTop rect) < IZR (boxHeight rect).
Proof.
  unfold inside. rewrite bool_decide_spec. intros [[Hl Hr] [Ht Hb]].
  apply IZR_le in Hl, Ht. apply IZR_lt in Hr, Hb. rewrite plus_IZR in Hr, Hb. lra.
Qed.

(** A body whose centre is on the screen is not off screen. *)
Lemma centre_on_screen (b : Body R) (width height : R) :
  body_wf b → 0 <= Body.x b <= width → 0 <= Body.y b <= height →
  isOffScreen b width height = false.
Proof.
  intros Hwf Hx Hy. pose proof (calcRadius_ge_5 (masse b)) as Hr.
  rewrite <- Hwf in Hr. apply isOffScreen_false. rnum. split_and!; rbool; lra.
Qed.

(** C21. Whatever the document and its style sheet, on a page that
    satisfies [page_ok] and whose canvas has the size its box is
    measured with: a press of the mouse that reaches the listener adds
    one body, and that body lies on the
    canvas, so it is on screen when it is born.  The listener subtracts
    the corner of the rectangle of the canvas, wherever the style puts
    it. *)
Theorem click_spawns_on_canvas doc canvas (p : Page) (x y : Z) (i : Input) :
  page_ok p →
  canvasWidth p = IZR (measure (node canvas)).1 →
  canvasHeight p = IZR (measure (node canvas)).2 →
  click sheet measure doc canvas x y = Some i →
  ∃ b, bodies (world (deliver random toFixed0 i p)) = bodies (world p) ++ [b] ∧
       0 <= Body.x b < WIDTH (world p) ∧ 0 <= Body.y b < HEIGHT (world p) ∧
       isOffScreen b (WIDTH (world p)) (HEIGHT (world p)) = false.
Proof.
  intros Hok Hw Hh Hclick.
  apply click_inside in Hclick as (rect & -> & Hin & Ew & Eh).
  apply inside_real in Hin. rewrite Ew, Eh, <- Hw, <- Hh in Hin.
  destruct Hok as (Hl & Hq & HW & HH). rewrite HW, HH in Hin.
  rewrite deliver_ok_eq by done. cbn [mousedownPage set_world world].
  destruct (mousedown_bodies random (int x) (int y) (int (boxLeft rect))
              (int (boxTop rect)) (world p)) as (b & Hwf & Ex & Ey & ->).
  revert Ex Ey. rnum. intros Ex Ey. exists b. rewrite Ex, Ey.
  split_and!; [done|lra..|].
  apply centre_on_screen; [done|lra..].
Qed.

(** C22. On this page every press of the mouse inside the window adds a body
    at the pointer: the canvas has the size of the window and lies at
    its corner, and the overlay over it lets the pointer through. *)
Theorem press_spawns_at_pointer (p : Page) (x y : Z) :
  page_ok p →
  canvasWidth p = IZR (measure canvasElement).1 →
  canvasHeight p = IZR (measure canvasElement).2 →
  0 <= IZR x < WIDTH (world p) → 0 <= IZR y < HEIGHT (world p) →
  ∃ i b, click styleSheet measure document canvasHandle x y = Some i ∧
         bodies (world (deliver random toFixed0 i p)) = bodies (world p) ++ [b] ∧
         Body.x b = IZR x ∧ Body.y b = IZR y.
Proof.
  intros Hok Hw Hh Hx Hy. destruct Hok as (Hl & Hq & HW & HH).
  rewrite <- HW, Hw in Hx. rewrite <- HH, Hh in Hy.
  rewrite click_document. unfold inside. cbn [boxLeft boxTop boxWidth boxHeight].
  rewrite bool_decide_true.
  2:{ destruct Hx as [?%le_IZR ?%lt_IZR], Hy as [?%le_IZR ?%lt_IZR]. lia. }
  exists (MousePress (int x) (int y) (int 0) (int 0)).
  rewrite deliver_ok_eq by done. cbn [mousedownPage set_world world].
  destruct (mousedown_bodies random (int x) (int y) (int 0) (int 0) (world p))
    as (b & _ & Ex & Ey & ->).
  revert Ex Ey. rnum. intros Ex Ey. exists b. split_and!; [done..|lra|lra].
Qed.

End Spawn.

(** ** Witnesses *)

Lemma click_spawns_on_canvas_witness :
  ∃ b : Body R,
    bodies (world (deliver (λ _, 0%R) (λ _, "") (MousePress 100%R 200%R 0%R 0%R)
                     (main (λ _, 0%R) 800%R 600%R))) =
      bodies (world (main (λ _, 0%R) 800%R 600%R)) ++ [b] ∧
    (0 <= Body.x b < WIDTH (world (main (λ _, 0%R) 800%R 600%R)))%R ∧
    (0 <= Body.y b < HEIGHT (world (main (λ _, 0%R) 800%R 600%R)))%R ∧
    isOffScreen b (WIDTH (world (main (λ _, 0%R) 800%R 600%R)))
      (HEIGHT (world (main (λ _, 0%R) 800%R 600%R))) = false.
Proof.
  apply (click_spawns_on_canvas (λ _, 0%R) (λ _, "") styleSheet (λ _, (800, 600))
           document canvasHandle (main (λ _, 0%R) 800%R 600%R) 100 200);
    [apply main_ok|reflexivity..].
Defined.

Lemma press_spawns_at_pointer_witness :
  ∃ (i : Input) (b : Body R),
    click styleSheet (λ _, (800, 600)) document canvasHandle 100 200 = Some i ∧
    bodies (world (deliver (λ _, 0%R) (λ _, "") i (main (λ _, 0%R) 800%R 600%R))) =
      bodies (world (main (λ _, 0%R) 800%R 600%R)) ++ [b] ∧
    Body.x b = 100%R ∧ Body.y b = 200%R.
Proof.
  apply (press_spawns_at_pointer (λ _, 0%R) (λ _, "") (λ _, (800, 600))
           (main (λ _, 0%R) 800%R 600%R) 100 200);
    [apply main_ok|reflexivity|reflexivity|change (0 <= 100 < 800)%R; lra|change (0 <= 200 < 600)%R; lra].
Defined.
