(* ===== verification/FloatNum.v ===== *)
(** * FloatNum: the numbers of the script as IEEE-754 doubles

    [F_host] interprets the operations of [Num.NumOps] on Rocq's
    primitive floats, which are binary64 with round-to-nearest, the
    arithmetic ECMAScript prescribes for [+], [-], [*], [/] and
    [Math.sqrt].  [Math.floor], [Math.max], [Math.min] and the test [!a]
    are exact and follow the language specification ([NaN], signed
    zeros).  ECMAScript leaves [Math.pow], [Math.hypot], [Math.cos] and
    [Math.sin] "implementation-approximated": they are the parameter
    [Approximated] of [F_host], and what is proved of every double in
    [FloatFacts] and [FloatNaN] is proved for every host.  The host
    [series] computes them by argument reduction and a power series, to
    a few units in the last place, which is one of the behaviours a
    host may have.

    With the instance [F_num] of that host every definition of the
    model runs: the scenarios of [Scenarios] are closed terms evaluated
    by [vm_compute]. *)

From Stdlib Require Import ZArith.
From Stdlib Require Import Floats.
From stdpp Require Import strings pretty.
From S2P Require Import Prelude Num Render.

Local Open Scope float_scope.
#[local] Set Warnings "-inexact-float".

(** ** Conversions *)

(** An integer literal as a double (exact below [2^53]). *)
Definition f_of_Z (z : Z) : float :=
  match z with
  | Z0 => 0
  | Zpos _ => of_uint63 (Uint63.of_Z z)
  | Zneg p => - of_uint63 (Uint63.of_Z (Zpos p))
  end.

(** The integer part towards minus infinity of a finite double. *)
Definition f_floor_Z (a : float) : Z :=
  match Prim2SF a with
  | S754_finite s m e =>
      let n := if (0 <=? e)%Z then Z.shiftl (Zpos m) e else Z.shiftr (Zpos m) (- e) in
      let exact := (0 <=? e)%Z || Z.eqb (Z.shiftl n (- e)) (Zpos m) in
      if s then (if exact then - n else - n - 1)%Z else n
  | _ => 0%Z
  end.

(** [Math.floor]: [NaN], the infinities, the zeros and the doubles of
    magnitude [2^52] and more (all whole) are returned as they are. *)
Definition f_floor (a : float) : float :=
  match Prim2SF a with
  | S754_finite s m e =>
      if (0 <=? e)%Z then a
      else
        let z := f_floor_Z a in
        if Z.eqb z 0 then (if s then -0 else 0) else f_of_Z z
  | _ => a
  end.

(** [Math.max] and [Math.min]: [NaN] if an argument is [NaN]; [+0] is
    larger than [-0]. *)
Definition f_max (a b : float) : float :=
  if is_nan a || is_nan b then nan
  else if a <? b then b
  else if b <? a then a
  else if get_sign a then b else a.

Definition f_min (a b : float) : float :=
  if is_nan a || is_nan b then nan
  else if a <? b then a
  else if b <? a then b
  else if get_sign a then a else b.

(** [!a]: zero of either sign, or [NaN]. *)
Definition f_falsy (a : float) : bool := is_zero a || is_nan a.

(** ** The approximated functions *)

Definition f_ln2 : float := 0x1.62e42fefa39efp-1.
Definition f_pi : float := 0x1.921fb54442d18p+1.

(** [1 + r/k (1 + r/(k+1) (1 + ...))]: the exponential series from its
    [k]-th term on, [n] terms. *)
Fixpoint f_exp_series (n : nat) (k r : float) : float :=
  match n with
  | O => 1
  | S n => 1 + r / k * f_exp_series n (k + 1) r
  end.

Definition f_exp (a : float) : float :=
  if is_nan a then nan
  else if a <? -750 then 0
  else if 750 <? a then infinity
  else
    let k := f_floor_Z (a / f_ln2 + 0.5) in
    let r := a - f_of_Z k * f_ln2 in
    Z.ldexp (f_exp_series 20 1 r) k.

(** [1/k + t2 (1/(k+2) + t2 (...))]: the series of [atanh t / t]. *)
Fixpoint f_atanh_series (n : nat) (k t2 : float) : float :=
  match n with
  | O => 1 / k
  | S n => 1 / k + t2 * f_atanh_series n (k + 2) t2
  end.

(** Natural logarithm of a positive finite double. *)
Definition f_ln (a : float) : float :=
  let '(m, e) := Z.frexp a in
  let '(m, e) := if m <? 0x1.6a09e667f3bcdp-1 then (m * 2, (e - 1)%Z) else (m, e) in
  let t := (m - 1) / (m + 1) in
  f_of_Z e * f_ln2 + 2 * t * f_atanh_series 14 1 (t * t).

Definition f_is_integer (a : float) : bool := a =? f_floor a.

Definition f_is_odd (a : float) : bool :=
  f_is_integer a && negb (f_is_integer (a / 2)).

(** [Math.pow]. *)
Definition f_pow (a b : float) : float :=
  if is_zero b then 1
  else if is_nan a || is_nan b then nan
  else if is_zero a then
    (if 0 <? b then (if f_is_odd b then a else 0)
     else if f_is_odd b then 1 / a else infinity)
  else if is_infinity a || is_infinity b then
    (if (abs a =? 1) then nan
     else if Bool.eqb (1 <? abs a) (0 <? b)
          then (if (a <? 0) && f_is_odd b then neg_infinity else infinity)
          else (if (a <? 0) && f_is_odd b then -0 else 0))
  else if 0 <? a then f_exp (b * f_ln a)
  else if f_is_integer b then
    (let p := f_exp (b * f_ln (- a)) in if f_is_odd b then - p else p)
  else nan.

(** [Math.hypot] of two arguments. *)
Definition f_hypot (a b : float) : float :=
  if is_infinity a || is_infinity b then infinity
  else sqrt (a * a + b * b).

(** [1 - r2/(k(k+1)) (1 - r2/((k+2)(k+3)) (...))]: with [k = 1] the
    cosine series, with [k = 2] the series of [sin r / r]. *)
Fixpoint f_trig_series (n : nat) (k r2 : float) : float :=
  match n with
  | O => 1
  | S n => 1 - r2 / (k * (k + 1)) * f_trig_series n (k + 2) r2
  end.

(** The argument reduced to [[-pi, pi]]. *)
Definition f_reduce (a : float) : float :=
  a - 2 * f_pi * f_of_Z (f_floor_Z (a / (2 * f_pi) + 0.5)).

Definition f_cos (a : float) : float :=
  if is_nan a || is_infinity a then nan
  else let r := f_reduce a in f_trig_series 16 1 (r * r).

Definition f_sin (a : float) : float :=
  if is_nan a || is_infinity a then nan
  else if is_zero a then a
  else let r := f_reduce a in r * f_trig_series 16 2 (r * r).

(** ** Printing *)

(** The nearest integer to [m * 2^e], the larger of two that are equally
    near. *)
Definition f_round_half_up (m : positive) (e : Z) : Z :=
  if (0 <=? e)%Z then Z.shiftl (Zpos m) e
  else
    let q := Z.shiftr (Zpos m) (- e) in
    let r := (Zpos m - Z.shiftl q (- e))%Z in
    if (Z.shiftl 1 (- e) <=? 2 * r)%Z then (q + 1)%Z else q.

(** Whether the integer [v] is read back as the double [m * 2^e],
    [0 <= e]: it lies between the midpoints to the neighbouring doubles,
    the midpoints included when [m] is even.  Below a power of two the
    doubles are twice as dense. *)
Definition f_reads_as (m : positive) (e : Z) (v : Z) : bool :=
  let ulp := Z.shiftl 1 e in
  let below := if (Zpos m =? 2 ^ 52)%Z then Z.shiftr ulp 1 else ulp in
  let d := (2 * (v - Z.shiftl (Zpos m) e))%Z in
  if Z.even (Zpos m) then (- below <=? d)%Z && (d <=? ulp)%Z
  else (- below <? d)%Z && (d <? ulp)%Z.

(** The integer with the fewest significant digits that is read back as
    [X = m * 2^e], the nearest of them to [X]: [k] digits are tried
    before [k + 1], and seventeen are always enough. *)
Fixpoint f_shortest (fuel k : nat) (m : positive) (e : Z) (digits : nat) : Z :=
  let X := Z.shiftl (Zpos m) e in
  match fuel with
  | O => X
  | S fuel =>
      let p := (10 ^ Z.of_nat (digits - k))%Z in
      let lo := (X / p * p)%Z in
      let hi := (lo + p)%Z in
      match f_reads_as m e lo, f_reads_as m e hi with
      | true, true =>
          if (X - lo <? hi - X)%Z then lo
          else if (hi - X <? X - lo)%Z then hi
          else if Z.even (X / p) then lo else hi
      | true, false => lo
      | false, true => hi
      | false, false => f_shortest fuel (S k) m e digits
      end
  end.

Fixpoint f_strip_zeros (fuel : nat) (v : Z) : Z :=
  match fuel with
  | O => v
  | S fuel => if (0 <? v)%Z && (v mod 10 =? 0)%Z then f_strip_zeros fuel (v / 10) else v
  end.

(** [Number::toString] of a finite double of magnitude [10^21] or more:
    the shortest digits, in exponent notation. *)
Definition f_toString_large (m : positive) (e : Z) : string :=
  let digits := String.length (pretty (Z.shiftl (Zpos m) e)) in
  let v := f_shortest 17 1 m e digits in
  let exponent := pretty (String.length (pretty v) - 1)%nat in
  match pretty (f_strip_zeros 400 v) with
  | String d EmptyString => String d ("e+" +:+ exponent)
  | String d ds => String d ("." +:+ ds +:+ "e+" +:+ exponent)
  | EmptyString => EmptyString
  end.

(** [Number.prototype.toFixed(0)]: the sign, then the nearest integer in
    decimal digits; [NaN], the infinities and the doubles of magnitude
    [10^21] and more as [Number::toString] prints them. *)
Definition f_toFixed0 (a : float) : string :=
  match Prim2SF a with
  | S754_nan => "NaN"
  | S754_infinity s => if s then "-Infinity" else "Infinity"
  | S754_zero _ => "0"
  | S754_finite s m e =>
      (if s then "-" else "") +:+
      (if (0 <=? e)%Z && (10 ^ 21 <=? Z.shiftl (Zpos m) e)%Z then f_toString_large m e
       else pretty (f_round_half_up m e))
  end.

(** What [toFixed(0)] prints has no line feed. *)
Lemma f_format_oneLine (digits exponent : string) :
  oneLine digits = true → oneLine exponent = true →
  oneLine match digits with
          | String d EmptyString => String d ("e+" +:+ exponent)
          | String d ds => String d ("." +:+ ds +:+ "e+" +:+ exponent)
          | EmptyString => EmptyString
          end = true.
Proof.
  intros Hd He. destruct digits as [|d [|d' ds]]; [done|..];
    cbn [oneLine] in *; case_decide; try done.
  rewrite !oneLine_app. cbn [oneLine].
  destruct (decide (d' = newline)); [done|]. by rewrite Hd, He.
Qed.

Lemma f_toString_large_oneLine (m : positive) (e : Z) :
  oneLine (f_toString_large m e) = true.
Proof.
  unfold f_toString_large. cbv zeta.
  apply f_format_oneLine; [apply pretty_Z_oneLine|apply pretty_nat_oneLine].
Qed.

Lemma f_toFixed0_oneLine (a : float) : oneLine (f_toFixed0 a) = true.
Proof.
  unfold f_toFixed0. destruct (Prim2SF a) as [s|s| |s m e]; [done|by destruct s|done|].
  rewrite oneLine_app. apply andb_true_intro. split; [by destruct s|].
  case_match; [apply f_toString_large_oneLine|apply pretty_Z_oneLine].
Qed.

(** ** The instance *)

(** The functions of [Math] that ECMAScript leaves to the host to
    approximate. *)
Record Approximated : Type := {
  host_pow : float → float → float;
  host_hypot : float → float → float;
  host_cos : float → float;
  host_sin : float → float;
}.

(** Doubles in a host: the approximated functions are the host's, all
    else is fixed by IEEE 754 and by the language. *)
Definition F_host (h : Approximated) : NumOps float := {|
  of_Z := f_of_Z;
  nadd := PrimFloat.add;
  nsub := PrimFloat.sub;
  nmul := PrimFloat.mul;
  ndiv := PrimFloat.div;
  nltb := PrimFloat.ltb;
  nleb := PrimFloat.leb;
  falsy := f_falsy;
  Math_sqrt := PrimFloat.sqrt;
  Math_floor := f_floor;
  Math_cos := host_cos h;
  Math_sin := host_sin h;
  Math_pow := host_pow h;
  Math_hypot := host_hypot h;
  Math_max := f_max;
  Math_min := f_min;
  Math_PI := f_pi;
|}.

(** The host of the scenarios, with the series above. *)
Definition series : Approximated := {|
  host_pow := f_pow;
  host_hypot := f_hypot;
  host_cos := f_cos;
  host_sin := f_sin;
|}.

#[export] Instance F_num : NumOps float := F_host series.

(** ** The primitives behave as the language says *)

Example f_floor_examples :
  (f_floor 2.5, f_floor (-2.5), f_floor 0.75, f_floor (-0.25), f_floor 7,
   f_floor (-0), f_floor 0x1p+60)
  = (2, -3, 0, -1, 7, -0, 0x1p+60).
Proof. vm_compute. reflexivity. Qed.

Example f_max_examples :
  (f_max 5 3, f_max 3 5, f_max (-0) 0, f_min (-0) 0, f_min 2 10000)
  = (5, 5, 0, -0, 2) ∧ is_nan (f_max nan 1) = true.
Proof. vm_compute. split; reflexivity. Qed.

(** A decimal literal is the correctly rounded quotient. *)
Example decimal_literals :
  (decimal 8 10 : float) = 0.8 ∧ (decimal 11 10 : float) = 1.1 ∧
  (decimal 2 1000 : float) = 0.002 ∧ (decimal 5 10 : float) = 0.5.
Proof. vm_compute. repeat split. Qed.

(** The approximated functions at a few points, against the correctly
    rounded values. *)
Example f_pow_examples :
  f_pow 1 0.8 = 1 ∧ f_floor (f_pow 100 0.8) = 39 ∧
  f_floor (f_pow 7.47 0.8) = 4 ∧ f_floor (f_pow 7.48 0.8) = 5 ∧
  (abs (f_pow 2 0.8 - 0x1.bdb8cdadbe12p+0) <? 0x1p-48) = true.
Proof. vm_compute. repeat split. Qed.

Example f_trig_examples :
  (abs (f_cos f_pi + 1) <? 0x1p-48) = true ∧ (abs (f_sin f_pi) <? 0x1p-48) = true ∧
  f_cos 0 = 1 ∧ f_sin 0 = 0 ∧ (abs (f_sin (f_pi / 2) - 1) <? 0x1p-48) = true.
Proof. vm_compute. repeat split. Qed.

(** [toFixed(0)] at the points where its rules differ: halves go up in
    magnitude, a negative number that rounds to zero keeps its sign,
    the integers below [10^21] are printed digit by digit and the
    doubles from there on in exponent notation. *)
Example f_toFixed0_examples :
  (f_toFixed0 2000, f_toFixed0 0x1.f3fffffffffffp+10, f_toFixed0 2.5, f_toFixed0 0.5,
   f_toFixed0 (-2.5), f_toFixed0 (-0.4), f_toFixed0 (-0), f_toFixed0 0.49)
  = ("2000", "2000", "3", "1", "-3", "-0", "0", "0")%string ∧
  (f_toFixed0 999999999999999868928, f_toFixed0 1e21, f_toFixed0 0x1p+70,
   f_toFixed0 1.5e300, f_toFixed0 (-1e22), f_toFixed0 (0 / 0), f_toFixed0 (-1 / 0))
  = ("999999999999999868928", "1e+21", "1.1805916207174113e+21",
     "1.5e+300", "-1e+22", "NaN", "-Infinity")%string.
Proof. vm_compute. split; reflexivity. Qed.
