(* ===== verification/FloatRound.v ===== *)
(** * FloatRound: rounding, on the specification of binary64

    The primitive floats come with a specification ([SpecFloat]): a
    double is a zero, an infinity, [NaN] or a sign, a mantissa and an
    exponent, and every operation is a function on these that ends in
    a rounding ([binary_round_aux]) of an exact mantissa.  The lemmas
    here are about that specification, for all its inputs: what
    rounding does to the sign of a result and when it leaves a result
    above zero.  [FloatFacts] states them of the doubles themselves.

    Nothing here bounds a rounding error; the lemmas go by the shape of
    the operations (a shift to the right is a division by a power of
    two, rounding to nearest adds at most one), by the number of digits
    of a mantissa and by the least exponent [emin]. *)

From Stdlib Require Import ZArith Floats.
From stdpp Require Import base tactics.
From S2P Require Import Prelude.

(** ** The order *)

Lemma SFcompare_asym (x y : spec_float) :
  SFcompare x y = Some Lt → SFcompare y x = Some Gt.
Proof.
  destruct x as [s1|s1| |s1 m1 e1], y as [s2|s2| |s2 m2 e2]; simpl; try done;
    try (by destruct s1); try (by destruct s2); try (by destruct s1, s2).
  change (PosDef.Pos.compare_cont Eq m2 m1) with (m2 ?= m1)%positive.
  change (PosDef.Pos.compare_cont Eq m1 m2) with (m1 ?= m2)%positive.
  rewrite (Z.compare_antisym e1 e2), (Pos.compare_antisym m1 m2).
  by destruct s1, s2, (e1 ?= e2)%Z, (m1 ?= m2)%positive.
Qed.

(** ** Classes of doubles *)

(** Zero of either sign, a positive double or plus infinity. *)
Definition sf_not_negative (x : spec_float) : bool :=
  match x with
  | S754_zero _ | S754_infinity false | S754_finite false _ _ => true
  | _ => false
  end.

(** A double above zero. *)
Definition sf_positive (x : spec_float) : bool :=
  match x with
  | S754_infinity false | S754_finite false _ _ => true
  | _ => false
  end.

(** A double that is neither [NaN] nor infinite, and one that is above
    zero besides. *)
Definition sf_finite (x : spec_float) : bool :=
  match x with
  | S754_zero _ | S754_finite _ _ _ => true
  | _ => false
  end.

Definition sf_positive_finite (x : spec_float) : bool :=
  match x with
  | S754_finite false _ _ => true
  | _ => false
  end.

(** A double from one up to two: its mantissa of [d] digits stands at
    the exponent [1 - d]. *)
Definition sf_step (y : spec_float) : bool :=
  match y with
  | S754_finite false m e => (e <=? 0)%Z && (Z.pos (digits2_pos m) + e =? 1)%Z
  | _ => false
  end.

(** A zero, of either sign. *)
Definition sf_zero (x : spec_float) : bool :=
  match x with
  | S754_zero _ => true
  | _ => false
  end.

(** What rounding returns: a double of the sign it is given, never
    [NaN]. *)
Definition sf_signed (s : bool) (x : spec_float) : Prop :=
  match x with
  | S754_zero s' | S754_infinity s' | S754_finite s' _ _ => s' = s
  | S754_nan => False
  end.

Lemma sf_signed_not_negative x : sf_signed false x → sf_not_negative x = true.
Proof. destruct x as [?|?| |? ? ?]; simpl; by try intros ->. Qed.

(** ** Zeros and infinities

    No rounding is involved where an operand is a zero or an
    infinity: the result is read off the operation. *)

(** A finite double less itself is the positive zero. *)
Lemma SFsub_diag x : sf_finite x = true → SFsub prec emax x x = S754_zero false.
Proof. destruct x as [[]| | |s m e]; try done. intros _. simpl. by rewrite Z.sub_diag. Qed.

(** A finite double times a zero is a zero, and a zero over a finite
    double that is not zero is a zero. *)
Lemma SFmul_zero x y :
  sf_finite x = true → sf_zero y = true → sf_zero (SFmul prec emax x y) = true.
Proof. by destruct x as [?|?| |? ? ?], y as [?|?| |? ? ?]. Qed.

Lemma SFdiv_zero x y :
  sf_zero x = true → sf_positive_finite y = true → sf_zero (SFdiv prec emax x y) = true.
Proof. by destruct x as [?|?| |? ? ?], y as [?|?| |[] ? ?]. Qed.

(** A double that is not negative and not above a finite double is
    finite. *)
Lemma SFltb_finite x y :
  sf_not_negative x = true → sf_finite y = true → SFltb y x = false → sf_finite x = true.
Proof. by destruct x as [[]|[]| |[] ? ?], y as [[]|[]| |[] ? ?]. Qed.

(** Plus infinity times a double above zero is plus infinity, and so
    is plus infinity over a finite double above zero. *)
Lemma SFmul_infinity y :
  sf_positive y = true → SFmul prec emax (S754_infinity false) y = S754_infinity false.
Proof. by destruct y as [?|[]| |[] ? ?]. Qed.

Lemma SFdiv_infinity y :
  sf_positive_finite y = true → SFdiv prec emax (S754_infinity false) y = S754_infinity false.
Proof. by destruct y as [?|?| |[] ? ?]. Qed.

(** ** Mantissas *)

(** A shift to the right by one halves a mantissa that is not
    negative, and a shift by [n] divides it by [2^n]. *)
Lemma shr_1_nonneg mrs : (0 ≤ shr_m mrs)%Z → (0 ≤ shr_m (shr_1 mrs))%Z.
Proof. destruct mrs as [[|[p|p|]|p] r s]; simpl; lia. Qed.

Lemma iter_shr_1_nonneg n mrs :
  (0 ≤ shr_m mrs)%Z → (0 ≤ shr_m (SpecFloat.iter_pos shr_1 n mrs))%Z.
Proof.
  revert mrs. induction n as [n IH|n IH|]; intros mrs Hm; simpl;
    auto using shr_1_nonneg.
Qed.

Lemma shr_1_half mrs : (0 ≤ shr_m mrs)%Z → shr_m (shr_1 mrs) = (shr_m mrs / 2)%Z.
Proof.
  destruct mrs as [[|[p|p|]|p] r s]; simpl; intros Hm; [done| | |done|lia].
  - apply (Z.div_unique _ _ _ 1); lia.
  - apply (Z.div_unique _ _ _ 0); lia.
Qed.

Lemma iter_shr_1_div n mrs :
  (0 ≤ shr_m mrs)%Z →
  shr_m (SpecFloat.iter_pos shr_1 n mrs) = (shr_m mrs / 2 ^ Z.pos n)%Z.
Proof.
  revert mrs. induction n as [n IH|n IH|]; intros mrs Hm; simpl.
  - rewrite !IH, shr_1_half by auto using iter_shr_1_nonneg, shr_1_nonneg.
    rewrite !Z.div_div by lia. f_equal.
    replace (Z.pos n~1) with (Z.pos n + Z.pos n + 1)%Z by lia.
    rewrite !Z.pow_add_r by lia. ring.
  - rewrite !IH by auto using iter_shr_1_nonneg.
    rewrite !Z.div_div by lia. f_equal.
    replace (Z.pos n~0) with (Z.pos n + Z.pos n)%Z by lia.
    by rewrite !Z.pow_add_r by lia.
  - by rewrite shr_1_half.
Qed.

(** A mantissa of [d] digits is at least [2^(d-1)] and below [2^d]. *)
Lemma digits2_pos_lower p : (2 ^ (Z.pos (digits2_pos p) - 1) ≤ Z.pos p)%Z.
Proof.
  induction p as [p IH|p IH|]; simpl digits2_pos; [| |done];
    rewrite Pos2Z.inj_succ, Z.sub_1_r, Z.pred_succ;
    replace (Z.pos (digits2_pos p)) with (Z.succ (Z.pos (digits2_pos p) - 1)) by lia;
    rewrite Z.pow_succ_r by lia; lia.
Qed.

Lemma digits2_pos_upper p : (Z.pos p < 2 ^ Z.pos (digits2_pos p))%Z.
Proof.
  induction p as [p IH|p IH|]; simpl digits2_pos; [| |done];
    rewrite Pos2Z.inj_succ, Z.pow_succ_r by lia; lia.
Qed.

Lemma digits2_pos_above p k : (2 ^ k ≤ Z.pos p)%Z → (k < Z.pos (digits2_pos p))%Z.
Proof.
  intros Hk. pose proof (digits2_pos_upper p) as Hp.
  destruct (Z.lt_ge_cases k (Z.pos (digits2_pos p))) as [|Hle]; [done|].
  apply (Z.pow_le_mono_r 2) in Hle; lia.
Qed.

Lemma Zdigits2_pos m : (0 < m)%Z → (0 < Zdigits2 m)%Z.
Proof. by destruct m. Qed.

(** The exponent of a double is at least [emin], and its mantissa has
    at most [prec] digits. *)
Lemma valid_binary_emin s m e :
  SpecFloat.valid_binary prec emax (S754_finite s m e) = true →
  (emin ≤ e)%Z ∧ (Z.pos (digits2_pos m) ≤ prec)%Z.
Proof.
  unfold SpecFloat.valid_binary, bounded, canonical_mantissa, fexp.
  change IntDef.Z.max with Z.max. intros [H%Z.eqb_eq _]%andb_prop. lia.
Qed.

(** ** Rounding keeps the sign *)

Lemma shr_fexp_nonneg m e l :
  (0 ≤ m)%Z → (0 ≤ shr_m (shr_fexp prec emax m e l).1)%Z.
Proof.
  intros Hm. unfold shr_fexp, shr.
  assert (0 ≤ shr_m (shr_record_of_loc m l))%Z by (by destruct l as [|[]]).
  destruct (fexp _ _ _ - e)%Z; simpl; auto using iter_shr_1_nonneg.
Qed.

Lemma round_nearest_even_nonneg m l : (0 ≤ m)%Z → (0 ≤ round_nearest_even m l)%Z.
Proof.
  intros Hm. destruct l as [|[]]; simpl; try lia. destruct (IntDef.Z.even m); lia.
Qed.

Lemma binary_round_aux_signed s m e l :
  (0 ≤ m)%Z → sf_signed s (binary_round_aux prec emax s m e l).
Proof.
  intros Hm. unfold binary_round_aux.
  pose proof (shr_fexp_nonneg m e l Hm) as H1.
  destruct (shr_fexp prec emax m e l) as [mrs' e']. simpl in H1.
  pose proof (shr_fexp_nonneg _ e' loc_Exact
                (round_nearest_even_nonneg _ (loc_of_shr_record mrs') H1)) as H2.
  destruct (shr_fexp prec emax _ e' loc_Exact) as [mrs'' e'']. simpl in H2.
  destruct (shr_m mrs''); [done|by case_if|lia].
Qed.

Lemma binary_normalize_signed m e :
  sf_signed (m <? 0)%Z (binary_normalize prec emax m e false).
Proof.
  destruct m as [|m|m]; simpl; [done|..]; unfold binary_round;
    destruct (shl_align _ _ _); by apply binary_round_aux_signed.
Qed.

(** The sum of two doubles that are not negative is not negative, nor
    is the product of one with a positive double or its quotient by
    one, however they are rounded, overflow and underflow included.
    The other factor has to be finite and not zero, and so the
    divisor: zero times infinity is [NaN], and a quotient by the
    negative zero is negative. *)
Lemma SFadd_sign x y :
  sf_not_negative x = true → sf_not_negative y = true →
  sf_not_negative (SFadd prec emax x y) = true.
Proof.
  destruct x as [[]|[]| |[] mx ex], y as [[]|[]| |[] my ey]; try done.
  intros _ _. apply sf_signed_not_negative. apply (binary_normalize_signed (Z.pos _ + Z.pos _)).
Qed.

Lemma SFmul_sign x y :
  sf_not_negative x = true → sf_positive_finite y = true →
  sf_not_negative (SFmul prec emax x y) = true.
Proof.
  destruct x as [[]|[]| |[] mx ex], y as [[]|[]| |[] my ey]; try done.
  intros _ _. by apply sf_signed_not_negative, binary_round_aux_signed.
Qed.

Lemma SFdiv_core_nonneg m1 e1 m2 e2 :
  (0 ≤ (SFdiv_core_binary prec emax (Z.pos m1) e1 (Z.pos m2) e2).1.1)%Z.
Proof.
  unfold SFdiv_core_binary. cbv zeta.
  match goal with |- context [IntDef.Z.div_eucl ?m' _] =>
    assert (0 ≤ m')%Z as Hm'; [|pose proof (Z_div_mod m' (Z.pos m2) eq_refl) as Hq;
      change IntDef.Z.div_eucl with Z.div_eucl; destruct (Z.div_eucl m' (Z.pos m2)) as [q r]]
  end.
  - case_match; [lia| |lia]. change IntDef.Z.shiftl with Z.shiftl. apply Z.shiftl_nonneg. lia.
  - simpl. nia.
Qed.

Lemma SFdiv_sign x y :
  sf_not_negative x = true → sf_positive_finite y = true →
  sf_not_negative (SFdiv prec emax x y) = true.
Proof.
  destruct x as [[]|[]| |[] mx ex], y as [[]|[]| |[] my ey]; try done.
  intros _ _. unfold SFdiv. pose proof (SFdiv_core_nonneg mx ex my ey) as Hq.
  destruct (SFdiv_core_binary prec emax (Z.pos mx) ex (Z.pos my) ey) as [[mz ez] lz].
  by apply sf_signed_not_negative, binary_round_aux_signed.
Qed.

(** A difference of a double that is not negative and a finite double
    is a number, of either sign. *)
Lemma SFsub_number x y :
  sf_not_negative x = true → sf_finite y = true → SFsub prec emax x y ≠ S754_nan.
Proof.
  destruct x as [[]|[]| |[] mx ex], y as [[]|[]| |[] my ey]; try done.
  - intros _ _. simpl. intros E.
    pose proof (binary_normalize_signed
                  (Z.pos (shl_align mx ex (IntDef.Z.min ex ey)).1 -
                   Z.neg (shl_align my ey (IntDef.Z.min ex ey)).1)
                  (IntDef.Z.min ex ey)) as Hs.
    simpl in Hs. by rewrite E in Hs.
  - intros _ _. simpl. intros E.
    pose proof (binary_normalize_signed
                  (Z.pos (shl_align mx ex (IntDef.Z.min ex ey)).1 -
                   Z.pos (shl_align my ey (IntDef.Z.min ex ey)).1)
                  (IntDef.Z.min ex ey)) as Hs.
    simpl in Hs. by rewrite E in Hs.
Qed.

(** ** Rounding above zero *)

(** Rounding a mantissa above zero, of a value of at least [2^emin],
    leaves it above zero, at an exponent of at least [emin]: it shifts
    out fewer digits than there are. *)
Lemma shr_fexp_pos m e l :
  (0 < m)%Z → (emin < Zdigits2 m + e)%Z →
  (0 < shr_m (shr_fexp prec emax m e l).1)%Z ∧ (emin ≤ (shr_fexp prec emax m e l).2)%Z.
Proof.
  intros Hm He. unfold shr_fexp, shr.
  assert (shr_m (shr_record_of_loc m l) = m) as Hl by (by destruct l as [|[]]).
  destruct m as [|p|p]; [lia| |lia]. simpl Zdigits2 in *.
  pose proof (digits2_pos_lower p) as Hd. unfold fexp.
  destruct (IntDef.Z.max _ _ - e)%Z as [|n|n] eqn:En; change IntDef.Z.max with Z.max in En;
    unfold SpecFloat.emin in *; change prec with 53%Z in *; change emax with 1024%Z in *;
    simpl; [lia| |lia].
  rewrite iter_shr_1_div, Hl by lia.
  split; [|lia]. apply Z.div_str_pos. split; [by apply Z.pow_pos_nonneg|].
  etrans; [|exact Hd]. apply Z.pow_le_mono_r; lia.
Qed.

Lemma round_nearest_even_pos m l : (0 < m)%Z → (0 < round_nearest_even m l)%Z.
Proof.
  intros Hm. destruct l as [|[]]; simpl; try lia. destruct (IntDef.Z.even m); lia.
Qed.

(** The second half of [binary_round_aux], after the first shift and
    the rounding. *)
Lemma binary_round_end_pos m e :
  (0 < m)%Z → (emin ≤ e)%Z →
  sf_positive
    (let '(mrs, e') := shr_fexp prec emax m e loc_Exact in
     match shr_m mrs with
     | 0%Z => S754_zero false
     | Z.pos m => if (e' <=? emax - prec)%Z then S754_finite false m e' else S754_infinity false
     | Z.neg _ => S754_nan
     end) = true.
Proof.
  intros Hm He. pose proof (Zdigits2_pos m Hm).
  destruct (shr_fexp_pos m e loc_Exact) as [H2 _]; [done|lia|].
  destruct (shr_fexp prec emax m e loc_Exact) as [mrs e']. simpl in H2.
  destruct (shr_m mrs); [lia|by case_if|lia].
Qed.

Lemma binary_round_aux_pos m e l :
  (0 < m)%Z → (emin < Zdigits2 m + e)%Z →
  sf_positive (binary_round_aux prec emax false m e l) = true.
Proof.
  intros Hm He. unfold binary_round_aux.
  destruct (shr_fexp_pos m e l Hm He) as [H1 He'].
  destruct (shr_fexp prec emax m e l) as [mrs' e']. simpl in H1, He'.
  by apply binary_round_end_pos; [apply round_nearest_even_pos|].
Qed.

(** A quotient of zero with a remainder of more than half the divisor
    is rounded up, away from zero. *)
Lemma binary_round_aux_up e :
  (emin ≤ e)%Z →
  sf_positive (binary_round_aux prec emax false 0 e (loc_Inexact Gt)) = true.
Proof.
  intros He. unfold binary_round_aux, shr_fexp at 1, shr, fexp. simpl Zdigits2.
  change IntDef.Z.max with Z.max.
  destruct (Z.max _ _ - e)%Z eqn:En;
    [| unfold SpecFloat.emin in *; change prec with 53%Z in *;
       change emax with 1024%Z in *; lia|];
    by apply (binary_round_end_pos 1).
Qed.

Lemma binary_round_pos m e :
  (emin ≤ e)%Z → sf_positive (binary_round prec emax false m e) = true.
Proof.
  intros He. unfold binary_round, shl_align, fexp. change IntDef.Z.max with Z.max.
  destruct (Z.max _ _ - e)%Z eqn:En; apply binary_round_aux_pos; simpl Zdigits2; lia.
Qed.

(** A sum is above zero if one of its terms is and the other is not
    negative: a sum of doubles does not underflow. *)
Lemma SFadd_pos x y :
  SpecFloat.valid_binary prec emax x = true → SpecFloat.valid_binary prec emax y = true →
  sf_not_negative x = true → sf_positive y = true →
  sf_positive (SFadd prec emax x y) = true.
Proof.
  destruct x as [[]|[]| |[] mx ex], y as [[]|[]| |[] my ey]; try done.
  intros [Hx _]%valid_binary_emin [Hy _]%valid_binary_emin _ _. simpl.
  change IntDef.Z.min with Z.min. apply binary_round_pos. lia.
Qed.

(** A double from one up to two, as a factor or as a divisor, makes no
    zero of a double above zero: the product does not underflow, and
    the quotient of the smallest double is more than half of it and is
    rounded up to it. *)
Lemma SFmul_pos x y :
  SpecFloat.valid_binary prec emax x = true →
  sf_positive x = true → sf_step y = true → sf_positive (SFmul prec emax x y) = true.
Proof.
  destruct x as [[]|[]| |[] mx ex], y as [[]|[]| |[] my ey]; try done.
  intros [Hx _]%valid_binary_emin _ [_ Hy%Z.eqb_eq]%andb_prop.
  apply binary_round_aux_pos; [lia|]. simpl Zdigits2.
  pose proof (digits2_pos_lower my) as Hmy.
  assert (Z.pos (digits2_pos my) - 1 < Z.pos (digits2_pos (mx * my)))%Z
    by (apply digits2_pos_above; nia).
  lia.
Qed.

(** The quotient that the division computes before it rounds: not
    negative, at an exponent of at least [emin], and where it is zero
    the remainder is more than half the divisor. *)
Lemma SFdiv_core_step mx ex my ey :
  (emin ≤ ex)%Z → (Z.pos (digits2_pos mx) ≤ prec)%Z →
  (ey ≤ 0)%Z → (Z.pos (digits2_pos my) + ey = 1)%Z →
  ∃ q e l, SFdiv_core_binary prec emax (Z.pos mx) ex (Z.pos my) ey = (q, e, l) ∧
           (emin ≤ e)%Z ∧ ((0 < q)%Z ∨ q = 0%Z ∧ l = loc_Inexact Gt).
Proof.
  intros Hex Hdx Hey Hdy. unfold SFdiv_core_binary, fexp. cbv zeta. simpl Zdigits2.
  change IntDef.Z.max with Z.max. change IntDef.Z.min with Z.min.
  change IntDef.Z.shiftl with Z.shiftl. change IntDef.Z.div_eucl with Z.div_eucl.
  unfold SpecFloat.emin in *. change prec with 53%Z in *. change emax with 1024%Z in *.
  set (e' := Z.min _ _). set (s := (ex - ey - e')%Z).
  assert (-1074 ≤ e' ≤ ex)%Z as He' by (subst e'; lia).
  assert (- ey ≤ s)%Z as Hs by (subst s; lia).
  assert (match s with 0%Z => Z.pos mx | Z.pos _ => Z.shiftl (Z.pos mx) s | Z.neg _ => 0%Z end
          = Z.pos mx * 2 ^ s)%Z as ->.
  { destruct s eqn:Es; [simpl; lia| |lia]. by rewrite Z.shiftl_mul_pow2. }
  pose proof (digits2_pos_upper my) as Hmy.
  assert (2 ^ (- ey) ≤ 2 ^ s)%Z as Hpow by (apply Z.pow_le_mono_r; lia).
  assert (Z.pos my < 2 * 2 ^ (- ey))%Z as Hlt.
  { replace (Z.pos (digits2_pos my)) with (Z.succ (- ey)) in Hmy by lia.
    by rewrite Z.pow_succ_r in Hmy by lia. }
  pose proof (Z_div_mod (Z.pos mx * 2 ^ s) (Z.pos my) eq_refl) as Hq.
  destruct (Z.div_eucl (Z.pos mx * 2 ^ s) (Z.pos my)) as [q r]. destruct Hq as [Hq Hr].
  exists q, e', (new_location (Z.pos my) r). split_and!; [done|lia|].
  destruct (Z.lt_trichotomy q 0) as [?|[->|?]]; [nia| |by left]. right. split; [done|].
  assert (Z.pos my < 2 * r)%Z as Hhalf by nia.
  unfold new_location, new_location_even, new_location_odd.
  destruct (IntDef.Z.even (Z.pos my)); rewrite (proj2 (Z.eqb_neq r 0)) by lia; f_equal;
    [by apply Z.compare_gt_iff|]. by rewrite (proj2 (Z.compare_gt_iff _ _)) by lia.
Qed.

Lemma SFdiv_pos x y :
  SpecFloat.valid_binary prec emax x = true →
  sf_positive x = true → sf_step y = true → sf_positive (SFdiv prec emax x y) = true.
Proof.
  destruct x as [[]|[]| |[] mx ex], y as [[]|[]| |[] my ey]; try done.
  intros [Hx Hdx]%valid_binary_emin _ [Hey%Z.leb_le Hy%Z.eqb_eq]%andb_prop. unfold SFdiv.
  destruct (SFdiv_core_step mx ex my ey) as (q & e & l & -> & He & [Hq|[-> ->]]);
    [done..| |by apply binary_round_aux_up].
  apply binary_round_aux_pos; [done|]. pose proof (Zdigits2_pos q Hq). lia.
Qed.
