(* ===== verification/FloatFacts.v ===== *)
(** * FloatFacts: what holds of every double

    The scenarios run the script on given doubles.  The facts here hold
    for all of them, [NaN], the infinities and the two zeros included:
    they are proved from the specification of binary64 arithmetic that
    comes with the primitive floats ([Prim2SF] and the [*_spec] lemmas
    of the Standard Library), through the lemmas of [FloatRound]: the
    order is asymmetric, [Math.max] and [Math.min] return nothing
    beyond their arguments, and rounding never changes the sign of a
    sum, a product or a quotient, nor makes a [NaN] of it; a sum of
    doubles does not underflow, nor does a product with or a quotient
    by a double from one up to two.

    [Math.floor] is shown to compute the integer part towards minus
    infinity.

    On these rests the invariant of the script on doubles: whatever
    keys are pressed, [G] and the masses of the bodies are above zero,
    the strength of the random velocity is a number at or above zero,
    and no radius is below five. *)

From Stdlib Require Import ZArith Floats.
From stdpp Require Import strings.
From S2P Require Import Prelude Num Config Body Force Collision Random World Invariant.
From S2P Require Import FloatNum FloatRound.

Local Open Scope float_scope.
#[local] Set Warnings "-inexact-float".

(** ** The order *)

Lemma f_ltb_asym (a b : float) : (a <? b) = true → (b <? a) = false.
Proof.
  rewrite !ltb_spec. unfold SFltb. intros H.
  destruct (SFcompare (Prim2SF a) (Prim2SF b)) as [[]|] eqn:E; try done.
  by rewrite (SFcompare_asym _ _ E).
Qed.

Lemma f_ltb_irrefl (a : float) : (a <? a) = false.
Proof. destruct (a <? a) eqn:E; [|done]. by rewrite (f_ltb_asym _ _ E) in E. Qed.

Lemma f_ltb_leb (a b : float) : (a <? b) = true → (a <=? b) = true.
Proof.
  rewrite ltb_spec, FloatAxioms.leb_spec. unfold SFltb, SFleb.
  by destruct (SFcompare (Prim2SF a) (Prim2SF b)) as [[]|].
Qed.

(** [Number.isNaN]. *)
Lemma is_nan_spec (a : float) : is_nan a = true ↔ Prim2SF a = S754_nan.
Proof.
  unfold is_nan. rewrite FloatAxioms.eqb_spec. unfold SFeqb.
  destruct (Prim2SF a) as [s|s| |s m e]; simpl; [done|by destruct s|done|].
  change (PosDef.Pos.compare_cont Eq m m) with (m ?= m)%positive.
  rewrite Z.compare_refl, Pos.compare_refl. by destruct s.
Qed.

(** A comparison with [NaN] is false. *)
Lemma f_ltb_nan_l (a : float) : (nan <? a) = false.
Proof. by rewrite ltb_spec. Qed.

Lemma f_ltb_nan_r (a : float) : (a <? nan) = false.
Proof. rewrite ltb_spec. unfold SFltb. by destruct (Prim2SF a). Qed.

(** [Math.max(a, b)] is never below [a], [Math.min(a, b)] never above
    [b]. *)
Lemma f_max_lower (a b : float) : (f_max a b <? a) = false.
Proof.
  unfold f_max. destruct (is_nan a || is_nan b); [apply f_ltb_nan_l|].
  destruct (a <? b) eqn:Hab; [by apply f_ltb_asym|].
  destruct (b <? a) eqn:Hba; [apply f_ltb_irrefl|].
  destruct (get_sign a); [done|apply f_ltb_irrefl].
Qed.

Lemma f_min_upper (a b : float) : (b <? f_min a b) = false.
Proof.
  unfold f_min. destruct (is_nan a || is_nan b); [apply f_ltb_nan_r|].
  destruct (a <? b) eqn:Hab; [by apply f_ltb_asym|].
  destruct (b <? a) eqn:Hba; [apply f_ltb_irrefl|].
  destruct (get_sign a); [done|apply f_ltb_irrefl].
Qed.

(** ** Numbers that are not negative *)

(** Zero of either sign, a positive double or plus infinity: at or
    above zero, and so not [NaN]. *)
Definition not_negative (a : float) : Prop := (0 <=? a) = true.

Lemma not_negative_spec (a : float) :
  not_negative a ↔ sf_not_negative (Prim2SF a) = true.
Proof.
  unfold not_negative. rewrite FloatAxioms.leb_spec. unfold SFleb.
  change (Prim2SF 0) with (S754_zero false).
  by destruct (Prim2SF a) as [[]|[]| |[] ? ?].
Qed.

Lemma positive_spec (a : float) : (0 <? a) = true ↔ sf_positive (Prim2SF a) = true.
Proof.
  rewrite ltb_spec. unfold SFltb. change (Prim2SF 0) with (S754_zero false).
  by destruct (Prim2SF a) as [[]|[]| |[] ? ?].
Qed.

(** The sum of two doubles that are not negative is not negative, nor
    is the product of one with a positive finite double or its
    quotient by one, however they are rounded, overflow and underflow
    included. *)
Lemma f_add_not_negative (a b : float) :
  not_negative a → not_negative b → not_negative (a + b).
Proof. rewrite !not_negative_spec, add_spec. apply SFadd_sign. Qed.

Lemma f_mul_not_negative (a b : float) :
  not_negative a → sf_positive_finite (Prim2SF b) = true → not_negative (a * b).
Proof. rewrite !not_negative_spec, mul_spec. apply SFmul_sign. Qed.

Lemma f_div_not_negative (a b : float) :
  not_negative a → sf_positive_finite (Prim2SF b) = true → not_negative (a / b).
Proof. rewrite !not_negative_spec, div_spec. apply SFdiv_sign. Qed.

(** [Math.max(0, a - b)] is not negative where [a] is not and [b] is
    finite: the difference is a number, and [Math.max] returns the
    larger of two numbers. *)
Lemma f_max_zero_not_negative (a b : float) :
  not_negative a → sf_finite (Prim2SF b) = true → not_negative (f_max 0 (a - b)).
Proof.
  rewrite not_negative_spec. intros Ha Hb.
  pose proof (SFsub_number _ _ Ha Hb) as Hn. rewrite <- sub_spec in Hn.
  unfold f_max. replace (is_nan (a - b)) with false
    by (symmetry; apply not_true_is_false; by rewrite is_nan_spec).
  simpl. destruct (0 <? a - b) eqn:E; [by apply f_ltb_leb|]. by case_match.
Qed.

(** ** Numbers above zero *)

(** The sum of a double that is not negative and a double above zero
    is above zero. *)
Lemma f_add_positive (a b : float) :
  not_negative a → (0 <? b) = true → (0 <? a + b) = true.
Proof.
  rewrite not_negative_spec, !positive_spec, add_spec.
  apply SFadd_pos; apply Prim2SF_valid.
Qed.

(** The product of a double above zero and a double from one up to
    two is above zero, and so is the quotient. *)
Lemma f_mul_positive (a b : float) :
  (0 <? a) = true → sf_step (Prim2SF b) = true → (0 <? a * b) = true.
Proof. rewrite !positive_spec, mul_spec. apply SFmul_pos, Prim2SF_valid. Qed.

Lemma f_div_positive (a b : float) :
  (0 <? a) = true → sf_step (Prim2SF b) = true → (0 <? a / b) = true.
Proof. rewrite !positive_spec, div_spec. apply SFdiv_pos, Prim2SF_valid. Qed.

(** ** Finite doubles and zeros *)

(** [Number.isFinite], and the test [a == 0]. *)
Lemma is_finite_spec (a : float) : is_finite a = true ↔ sf_finite (Prim2SF a) = true.
Proof.
  unfold is_finite, is_infinity. rewrite negb_true_iff, orb_false_iff.
  rewrite <- not_true_iff_false, is_nan_spec, FloatAxioms.eqb_spec, abs_spec.
  change (Prim2SF infinity) with (S754_infinity false).
  destruct (Prim2SF a) as [?|?| |? ? ?]; cbv [SFeqb SFcompare SFabs sf_finite];
    intuition congruence.
Qed.

Lemma is_zero_spec (a : float) : is_zero a = true ↔ sf_zero (Prim2SF a) = true.
Proof.
  unfold is_zero. rewrite FloatAxioms.eqb_spec. change (Prim2SF zero) with (S754_zero false).
  by destruct (Prim2SF a) as [[]|[]| |[] ? ?].
Qed.

Lemma not_negative_number (a : float) : not_negative a → is_nan a = false.
Proof.
  rewrite not_negative_spec. intros Ha. apply not_true_is_false. rewrite is_nan_spec.
  intros E. by rewrite E in Ha.
Qed.

(** [x - x] is [0] for a finite [x] (and [NaN] for an infinite one). *)
Lemma f_sub_diag (a : float) : is_finite a = true → a - a = 0.
Proof.
  rewrite is_finite_spec. intros Ha. apply Prim2SF_inj. rewrite sub_spec.
  by apply SFsub_diag.
Qed.

(** A finite double times zero is zero, of one sign or the other, and
    so is zero over a finite double above zero. *)
Lemma f_mul_zero (a b : float) :
  is_finite a = true → is_zero b = true → is_zero (a * b) = true.
Proof. rewrite is_finite_spec, !is_zero_spec, mul_spec. apply SFmul_zero. Qed.

Lemma f_div_zero (a b : float) :
  is_zero a = true → sf_positive_finite (Prim2SF b) = true → is_zero (a / b) = true.
Proof. rewrite !is_zero_spec, div_spec. apply SFdiv_zero. Qed.

(** [Math.min(a, b)] is finite where [a] is not negative and [b] is
    finite: an infinite [a] is above [b]. *)
Lemma f_min_finite (a b : float) :
  not_negative a → is_finite b = true → is_finite (f_min a b) = true.
Proof.
  intros Ha Hb. pose proof (not_negative_number a Ha) as Hn.
  assert ((b <? a) = false → is_finite a = true) as Hfin.
  { revert Ha Hb. rewrite not_negative_spec, !is_finite_spec, ltb_spec. apply SFltb_finite. }
  assert (is_nan b = false) as Hnb.
  { unfold is_finite in Hb. by destruct (is_nan b). }
  unfold f_min. rewrite Hn, Hnb. simpl.
  destruct (a <? b) eqn:Hab; [by apply Hfin, f_ltb_asym|].
  destruct (b <? a) eqn:Hba; [done|]. destruct (get_sign a); [by apply Hfin|done].
Qed.

(** ** [Math.floor] *)

(** The integer [Math.floor] computes for a finite double [±m 2^e] is
    its integer part towards minus infinity: the double itself where it
    is whole, and below that the one integer [n] with
    [n <= ±m 2^e < n + 1], here with both sides scaled by [2^-e].  The
    routine shifts the magnitude and corrects a negative result that
    was not exact; the statement does not mention shifts. *)
Lemma f_floor_Z_whole (a : float) s m e :
  Prim2SF a = S754_finite s m e → (0 ≤ e)%Z →
  f_floor_Z a = cond_Zopp s (Zpos m * 2 ^ e).
Proof.
  intros Ha He. unfold f_floor_Z. rewrite Ha.
  rewrite (proj2 (Z.leb_le 0 e)) by done. simpl orb. cbv iota.
  rewrite Z.shiftl_mul_pow2 by done. by destruct s.
Qed.

Lemma f_floor_Z_floor (a : float) s m e :
  Prim2SF a = S754_finite s m e → (e < 0)%Z →
  (f_floor_Z a * 2 ^ (- e) ≤ cond_Zopp s (Zpos m) < (f_floor_Z a + 1) * 2 ^ (- e))%Z.
Proof.
  intros Ha He. unfold f_floor_Z. rewrite Ha.
  rewrite (proj2 (Z.leb_gt 0 e)) by done. simpl orb. cbv iota zeta.
  rewrite Z.shiftr_div_pow2, Z.shiftl_mul_pow2 by lia.
  assert (0 < 2 ^ (- e))%Z as Hp by (apply Z.pow_pos_nonneg; lia).
  pose proof (Z.mul_div_le (Zpos m) _ Hp) as Hlo.
  pose proof (Z.mul_succ_div_gt (Zpos m) _ Hp) as Hhi.
  destruct s; simpl cond_Zopp; [|lia].
  destruct (Z.eqb_spec (Z.pos m / 2 ^ (- e) * 2 ^ (- e)) (Z.pos m)); lia.
Qed.

(** ** The settings on doubles *)

(** What follows holds in every host: the functions the host
    approximates do not come into it. *)
Section Settings.
Variable h : Approximated.
Variable random : nat → float.
#[local] Remove Hints F_num : typeclass_instances.
#[local] Hint Extern 0 (NumOps float) => exact (F_host h) : typeclass_instances.

Definition settings_sound (w : World) : Prop :=
  (0 <? G w) = true ∧ not_negative (RANDOM_VELOCITY_STRENGTH w).

Lemma reset_sound (w : World) : settings_sound (reset random w).
Proof.
  destruct (reset_settings random w) as (EG & _ & _ & _ & Es & _).
  unfold settings_sound. by rewrite EG, Es.
Qed.

Lemma keydown_sound key (w : World) :
  settings_sound w → settings_sound (keydown random key w).
Proof.
  intros [HG Hs]. unfold keydown.
  repeat case_if; try apply reset_sound; split; simpl; try done.
  - by apply f_mul_positive.
  - by apply f_div_positive.
  - by apply f_add_not_negative.
  - by apply f_max_zero_not_negative.
Qed.

Lemma handle_sound e (w : World) :
  settings_sound w → settings_sound (handle random e w).
Proof.
  intros [HG Hs]. destruct e as [iw ih|key|cx cy rl rt|t]; simpl.
  - done.
  - by apply keydown_sound.
  - destruct (mousedown_settings random cx cy rl rt w) as (EG & _ & _ & _ & Es & _).
    unfold settings_sound. by rewrite EG, Es.
  - destruct (loop_settings random t w) as (EG & _ & _ & _ & Es & _).
    unfold settings_sound. by rewrite EG, Es.
Qed.

(** Masses above zero are [Kept], if the random numbers are not
    negative: a newborn has a mass of [r * (MASS_MAX - MASS_MIN) +
    MASS_MIN], a merged body the sum of two masses, and a sum does not
    underflow. *)
Hypothesis random_not_negative : ∀ k, not_negative (random k).

#[export] Instance mass_positive_kept :
  Kept random (λ b : Body float, (0 <? masse b) = true).
Proof.
  split; try done.
  - intros x0 y0 vx0 vy0 k. cbn [masse newBody]. unfold bornMass.
    by apply f_add_positive; [apply f_mul_not_negative|].
  - intros b1 b2 H1 H2. by apply f_add_positive; [apply f_ltb_leb|].
Qed.

(** The radius of a body is never below five, whatever its mass: it
    is what [Math.max(5, ...)] returned when the body was made. *)
#[export] Instance radius_at_least_kept :
  Kept random (λ b : Body float, (radius b <? 5) = false).
Proof. split; try done; intros; apply (f_max_lower 5). Qed.

(** C11. On doubles, in every host and in every world the script can reach,
    whatever the keys, the clicks and the frames, [G] is above zero,
    the strength of the random velocity is a number at or above zero,
    the mass of every body is above zero, provided the random numbers
    are not negative, and no radius is below five.  None of them is
    [NaN].  Rounding, overflow and underflow of [G *= 1.1] and
    [G /= 1.1] make no zero of [G]: where [G] is the smallest double,
    the quotient is rounded back up to it.  A sum of masses does not
    underflow, and [Math.max] holds the strength at zero and the
    radius at five. *)
Theorem reachable_positive (w : World) :
  reachable random w →
  (0 <? G w) = true ∧ (0 <=? RANDOM_VELOCITY_STRENGTH w) = true ∧
  Forall (λ b, (0 <? masse b) = true ∧ (radius b <? 5) = false) (bodies w).
Proof.
  intros Hw. apply and_assoc. split; [|by apply (reachable_kept random _ w Hw)].
  induction Hw as [iw ih|w e w' _ IH Hstep]; [apply reset_sound|].
  destruct Hstep. by apply handle_sound.
Qed.

End Settings.

(** ** Witnesses *)

Lemma reachable_positive_witness :
  (0 <? G (keydown (λ _, 0.5) "ArrowDown" (boot (λ _, 0.5) 800 600))) = true ∧
  (0 <=? RANDOM_VELOCITY_STRENGTH (keydown (λ _, 0.5) "ArrowDown" (boot (λ _, 0.5) 800 600)))
    = true ∧
  Forall (λ b, (0 <? masse b) = true ∧ (radius b <? 5) = false)
    (bodies (keydown (λ _, 0.5) "ArrowDown" (boot (λ _, 0.5) 800 600))).
Proof.
  apply (reachable_positive series (λ _, 0.5)); [done|].
  apply (reachable_step _ (boot (λ _, 0.5) 800 600) (KeyDown "ArrowDown"));
    [apply reachable_boot|].
  exact (step_handle (λ _, 0.5) (boot (λ _, 0.5) 800 600) (KeyDown "ArrowDown")).
Defined.
