(* ===== verification/FloatNaN.v ===== *)
(** * FloatNaN: what [NaN] does to a body

    On doubles every operation of the script hands a [NaN] on: a sum, a
    difference, a product or a square root of [NaN] is [NaN], and every
    comparison with [NaN] is false.  A body whose two coordinates are
    [NaN] is therefore beyond the reach of the two passes that remove
    bodies: the off-screen test does not fire for it and no collision
    test finds it.  It stays in the collection, and in the count the
    overlay shows, until the next reset.

    A time stamp that is [NaN] turns every body into such a body in
    one frame and stops the spawn timer for good.  The host hands the
    script finite time stamps; the lemmas say what the code relies on
    there.

    All of it holds in every host: of the functions a host
    approximates only [Math.hypot] comes into it, and of that only what
    the language fixes (the class [Mandated]). *)

From Stdlib Require Import ZArith Floats.
From stdpp Require Import strings.
From S2P Require Import Prelude Num Config Body Force Collision Random World.
From S2P Require Import FloatNum FloatFacts.

Local Open Scope float_scope.
#[local] Set Warnings "-inexact-float".

(** ** [NaN] in the arithmetic *)

Lemma f_add_nan_l (a b : float) : is_nan a = true → is_nan (a + b) = true.
Proof. rewrite !is_nan_spec, add_spec. by intros ->. Qed.

Lemma f_add_nan_r (a b : float) : is_nan b = true → is_nan (a + b) = true.
Proof. rewrite !is_nan_spec, add_spec. intros ->. by destruct (Prim2SF a) as [?|?| |? ? ?]. Qed.

Lemma f_sub_nan_l (a b : float) : is_nan a = true → is_nan (a - b) = true.
Proof. rewrite !is_nan_spec, sub_spec. by intros ->. Qed.

Lemma f_sub_nan_r (a b : float) : is_nan b = true → is_nan (a - b) = true.
Proof. rewrite !is_nan_spec, sub_spec. intros ->. by destruct (Prim2SF a) as [?|?| |? ? ?]. Qed.

Lemma f_mul_nan_l (a b : float) : is_nan a = true → is_nan (a * b) = true.
Proof. rewrite !is_nan_spec, mul_spec. by intros ->. Qed.

Lemma f_mul_nan_r (a b : float) : is_nan b = true → is_nan (a * b) = true.
Proof. rewrite !is_nan_spec, mul_spec. intros ->. by destruct (Prim2SF a) as [?|?| |? ? ?]. Qed.

Lemma f_div_nan_l (a b : float) : is_nan a = true → is_nan (a / b) = true.
Proof. rewrite !is_nan_spec, div_spec. by intros ->. Qed.

Lemma f_sqrt_nan (a : float) : is_nan a = true → is_nan (sqrt a) = true.
Proof. rewrite !is_nan_spec, sqrt_spec. by intros ->. Qed.

Lemma f_ltb_is_nan_l (a b : float) : is_nan a = true → (a <? b) = false.
Proof. rewrite is_nan_spec, ltb_spec. by intros ->. Qed.

Lemma f_ltb_is_nan_r (a b : float) : is_nan b = true → (a <? b) = false.
Proof.
  rewrite is_nan_spec, ltb_spec. intros ->. unfold SFltb.
  by destruct (Prim2SF a) as [?|?| |? ? ?].
Qed.

Lemma f_leb_is_nan_r (a b : float) : is_nan b = true → (a <=? b) = false.
Proof.
  rewrite is_nan_spec, FloatAxioms.leb_spec. intros ->. unfold SFleb.
  by destruct (Prim2SF a) as [?|?| |? ? ?].
Qed.

Lemma is_infinity_nan (a : float) : is_nan a = true → is_infinity a = false.
Proof.
  rewrite is_nan_spec. unfold is_infinity. rewrite FloatAxioms.eqb_spec, abs_spec. by intros ->.
Qed.

Lemma f_hypot_nan (a b : float) :
  is_nan a = true → is_nan b = true → is_nan (f_hypot a b) = true.
Proof.
  intros Ha Hb. unfold f_hypot. rewrite !is_infinity_nan by done. simpl.
  by apply f_sqrt_nan, f_add_nan_l, f_mul_nan_l.
Qed.

Create HintDb nan.
#[export] Hint Resolve f_add_nan_l f_add_nan_r f_sub_nan_l f_sub_nan_r f_mul_nan_l
  f_mul_nan_r f_div_nan_l f_sqrt_nan f_hypot_nan f_ltb_is_nan_l f_ltb_is_nan_r
  f_leb_is_nan_r : nan.

(** ** What the language fixes of the approximated functions

    [Math.hypot] is the host's, but not all of it: the language says
    what it returns for infinities and for [NaN].  Of that the script
    relies on one case. *)
Class Mandated (h : Approximated) : Prop := {
  host_hypot_nan a b :
    is_nan a = true → is_nan b = true → is_nan (host_hypot h a b) = true;
}.

#[export] Instance series_mandated : Mandated series.
Proof. split. apply f_hypot_nan. Qed.

(** ** Bodies without a place *)

(** A body both of whose coordinates are [NaN]. *)
Definition lost (b : Body float) : Prop := is_nan (x b) = true ∧ is_nan (y b) = true.

#[export] Instance lost_dec (b : Body float) : Decision (lost b).
Proof. unfold lost. apply _. Defined.

Section Host.
Context (h : Approximated) `{!Mandated h}.
Variable random : nat → float.
#[local] Remove Hints F_num : typeclass_instances.
#[local] Hint Extern 0 (NumOps float) => exact (F_host h) : typeclass_instances.

(** The off-screen test does not fire for it. *)
Lemma isOffScreen_lost (b : Body float) (width height : float) :
  lost b → isOffScreen b width height = false.
Proof. intros [Hx Hy]. apply isOffScreen_false. simpl. split_and!; auto with nan. Qed.

(** No collision test finds it, from either side. *)
Lemma overlap_lost (b1 b2 : Body float) : lost b1 ∨ lost b2 → overlap b1 b2 = false.
Proof.
  intros Hl. unfold overlap. simpl.
  apply f_ltb_is_nan_l, host_hypot_nan; destruct Hl as [[? ?]|[? ?]]; auto with nan.
Qed.

(** Forces and motion leave it where it is. *)
Lemma motion_lost (b : Body float) (fx fy dt : float) :
  lost b → lost (updatePosition (applyForce b fx fy dt) dt).
Proof. intros [Hx Hy]. split; simpl; auto with nan. Qed.

(** A time step that is [NaN] takes the place from every body. *)
Lemma motion_nan (b : Body float) (fx fy dt : float) :
  is_nan dt = true → lost (updatePosition (applyForce b fx fy dt) dt).
Proof. intros Hdt. split; simpl; auto with nan. Qed.

Lemma cull_lost (bs : list (Body float)) (width height : float) :
  filter lost (cull bs width height) = filter lost bs.
Proof.
  unfold cull. induction bs as [|b bs IH]; [done|].
  rewrite !filter_cons. destruct (decide (lost b)) as [Hb|Hb].
  - rewrite decide_True by (by rewrite isOffScreen_lost). by rewrite filter_cons_True, IH.
  - case_decide; [by rewrite filter_cons_False|done].
Qed.

Lemma checkCollisions_lost (bs : list (Body float)) (enabled : bool) :
  length (filter lost bs) ≤ length (filter lost (checkCollisions bs enabled)).
Proof.
  destruct enabled; [|done]. rewrite checkCollisions_resolve. unfold resolved.
  pose proof (resolve_keeps lost bs overlap_lost) as Hk.
  destruct (resolve bs) as [s p]; simpl in *.
  rewrite filter_app, length_app, Hk. lia.
Qed.

Lemma loop_lost (t : float) (w : World) :
  length (filter lost (bodies w)) ≤ length (filter lost (bodies (loop random t w))).
Proof.
  rewrite loop_bodies. cbv zeta. rewrite cull_lost.
  etrans; [|apply checkCollisions_lost].
  etrans; [|apply (Forall2_filter_length lost lost (λ b b', lost b → lost b'));
            [auto|apply motionPhase_Forall2; intros; by apply motion_lost]].
  destruct (spawnPhase_at_most_one random (frameDt t w) w) as (new & -> & _).
  rewrite filter_app, length_app. lia.
Qed.

Lemma handle_lost (e : Event) (w : World) :
  e ≠ KeyDown "r" → e ≠ KeyDown "R" →
  length (filter lost (bodies w)) ≤ length (filter lost (bodies (handle random e w))).
Proof.
  intros Hr HR. destruct e as [iw ih|key|cx cy rl rt|t]; simpl.
  - done.
  - rewrite keydown_bodies; [done|by intros ->..].
  - destruct (mousedown_bodies random cx cy rl rt w) as (b & _ & _ & _ & ->).
    rewrite filter_app, length_app. lia.
  - apply loop_lost.
Qed.

(** C39. On doubles a body whose coordinates are [NaN] is beyond the
    off-screen filter and beyond the collision pass: along every run
    of events without the key that resets, the collection holds at
    least as many such bodies at the end as at the start. *)
Theorem lost_bodies_stay (events : list Event) (w : World) :
  Forall (λ e, e ≠ KeyDown "r" ∧ e ≠ KeyDown "R") events →
  length (filter lost (bodies w)) ≤ length (filter lost (bodies (run random events w))).
Proof.
  intros Hev. revert w. induction Hev as [|e events [Hr HR] _ IH]; intros w; [done|].
  simpl. etrans; [by apply (handle_lost e)|apply IH].
Qed.

(** The time step of a frame whose time stamp is [NaN] is [NaN]. *)
Lemma frameDt_nan (t : float) (w : World) :
  is_nan t = true → is_nan (frameDt t w) = true.
Proof. intros Ht. unfold frameDt. simpl. auto with nan. Qed.

(** With a time step that is [NaN] the spawn timer is not compared as
    due, and the motion takes the place from every body. *)
Lemma spawnPhase_nan (dt : float) (w : World) :
  is_nan dt = true →
  spawnPhase random dt w =
    (bodies w, if SPAWN_ENABLED w then spawnTimer w + dt else spawnTimer w,
     randomCalls w).
Proof.
  intros Hdt. unfold spawnPhase. destruct (SPAWN_ENABLED w); [|done]. simpl.
  by rewrite f_leb_is_nan_r by auto with nan.
Qed.

Lemma motionPhase_nan (bs : list (Body float)) (g dt : float) :
  is_nan dt = true → Forall lost (motionPhase bs g dt).
Proof.
  intros Hdt. eapply Forall2_Forall_r; [apply (motionPhase_Forall2 (λ _ b', lost b'))|].
  - intros. by apply motion_nan.
  - by apply Forall_true.
Qed.

(** A frame with a time stamp that is [NaN] spawns nothing, merges
    nothing and drops nothing, and leaves no body with a place; if
    spawning is on, the spawn timer is [NaN] from then on, so that no
    later frame spawns either. *)
Theorem frame_nan (t : float) (w : World) :
  is_nan t = true →
  let w' := loop random t w in
  length (bodies w') = length (bodies w) ∧ Forall lost (bodies w') ∧
  (SPAWN_ENABLED w = true → is_nan (spawnTimer w') = true).
Proof.
  intros Ht. cbv zeta. pose proof (frameDt_nan t w Ht) as Hdt.
  rewrite loop_bodies, loop_spawnTimer. cbv zeta.
  set (dt := frameDt t w) in *. clearbody dt.
  rewrite !(spawnPhase_nan dt w Hdt). cbn [fst snd].
  pose proof (motionPhase_nan (bodies w) (G w) dt Hdt) as Hm.
  rewrite checkCollisions_no_overlap
    by (intros i j b1 b2 _ Hi _; apply overlap_lost; left;
        by eapply Forall_lookup_1 in Hi).
  rewrite cull_keeps by (eapply Forall_impl; [done|intros b; apply isOffScreen_lost]).
  split_and!; [apply motionPhase_length|done|intros ->; auto with nan].
Qed.

End Host.

(** ** Witnesses *)

(** The world after the start of the script and one frame whose time
    stamp is [NaN]. *)
Definition adrift : World :=
  loop (λ _, 0.5) nan (boot (λ _, 0.5) 800 600).

Lemma frame_nan_witness :
  is_nan nan = true ∧
  length (bodies adrift) = length (bodies (boot (λ _, 0.5) 800 600)) ∧
  Forall lost (bodies adrift) ∧
  (SPAWN_ENABLED (boot (λ _, 0.5) 800 600) = true → is_nan (spawnTimer adrift) = true).
Proof.
  split; [done|]. by apply (frame_nan series (λ _, 0.5) nan (boot (λ _, 0.5) 800 600)).
Defined.

Lemma lost_bodies_stay_witness :
  Forall (λ e : Event, e ≠ KeyDown "r" ∧ e ≠ KeyDown "R")
    [Frame 1000; KeyDown "c"; MouseDown 10 10 0 0; Frame 2000] ∧
  length (filter lost (bodies adrift)) ≤
  length (filter lost (bodies (run (λ _, 0.5)
            [Frame 1000; KeyDown "c"; MouseDown 10 10 0 0; Frame 2000] adrift))).
Proof.
  assert (Forall (λ e : Event, e ≠ KeyDown "r" ∧ e ≠ KeyDown "R")
            [Frame 1000; KeyDown "c"; MouseDown 10 10 0 0; Frame 2000]) as Hev
    by (repeat constructor; done).
  split; [done|]. by apply (lost_bodies_stay series (λ _, 0.5)).
Defined.

(** After such a frame the one body of the start is still counted a
    hundred frames later, a second apart each, and none has joined it:
    the spawn timer is [NaN] and never due. *)
Example adrift_for_good :
  let later := foldl (λ w k, loop (λ _, 0.5) (f_of_Z (1000 * Z.of_nat k)) w) adrift (seq 1 100) in
  length (bodies adrift) = 1%nat ∧ length (filter lost (bodies later)) = 1%nat ∧
  length (bodies later) = 1%nat ∧ is_nan (spawnTimer later) = true.
Proof. vm_compute. done. Qed.
