(* ===== verification/FloatEdge.v ===== *)
(** * FloatEdge: the script where doubles stop behaving as reals

    Two places of the script meet the ends of the doubles.

    [gravForce] divides by the distance of two bodies.  Over the reals
    the quotient by zero is a number and the distance floor of lines
    115-118 cannot be seen; on doubles [0 / 0] is [NaN], and the floor
    is what keeps the force of two bodies at the same place a number.
    [gravForce_coincident] is that statement, for all doubles and every
    host: [Math.sqrt] is correctly rounded, so the approximated
    functions do not come into it.

    [G *= 1.1] has no upper bound.  A double that is multiplied often
    enough overflows to infinity, and infinity times or over 1.1 is
    infinity: [G_overflow_sticks] says that 7400 presses of ArrowUp
    after the start make [G] infinite and that no event but a reset
    brings it back. *)

From Stdlib Require Import ZArith Floats.
From stdpp Require Import strings.
From S2P Require Import Prelude Num Config Body Force Collision Random World.
From S2P Require Import FloatNum FloatRound FloatFacts.

Local Open Scope float_scope.
#[local] Set Warnings "-inexact-float".

Section Edge.
Variable h : Approximated.
Variable random : nat → float.
#[local] Remove Hints F_num : typeclass_instances.
#[local] Hint Extern 0 (NumOps float) => exact (F_host h) : typeclass_instances.

(** ** Two bodies at the same place *)

(** The capped force is finite, so its product with a zero is a zero,
    and so is the quotient of that by the distance floor. *)
Lemma capped_times_zero (p : float) :
  not_negative p → is_zero (f_min (p / 0.25) 10000 * 0 / 0.5) = true.
Proof.
  intros Hp. apply f_div_zero; [|done]. apply f_mul_zero; [|done].
  apply f_min_finite; [|done]. by apply f_div_not_negative.
Qed.

(** C13. On doubles, in every host: two bodies at the same place, where
    the place is finite and the product [G * m1 * m2] is a number at
    or above zero, exert no force on each other.  Both components of
    [gravForce] are zero, not [NaN]: the difference of the coordinates
    is [0], the distance is below the floor, and the force, computed
    from the floor and capped, is finite when it is multiplied by
    [0]. *)
Theorem gravForce_coincident (b1 b2 : Body float) (g : float) :
  x b1 = x b2 → y b1 = y b2 →
  is_finite (x b1) = true → is_finite (y b1) = true →
  (0 <=? g * masse b1 * masse b2) = true →
  is_zero (gravForce b1 b2 g).1 = true ∧ is_zero (gravForce b1 b2 g).2 = true.
Proof.
  intros Hx Hy Fx Fy Hp.
  rewrite gravForce_near; simpl; rewrite <- Hx, <- Hy, !f_sub_diag by done.
  - split; by apply capped_times_zero.
  - done.
Qed.

(** ** [G] at infinity *)

(** A key other than [r] and [R] leaves an infinite [G] infinite:
    ArrowUp and ArrowDown multiply and divide infinity by 1.1, the
    other keys do not assign to [G]. *)
Lemma keydown_G_infinite key (w : World) :
  key ≠ "r"%string → key ≠ "R"%string → G w = infinity →
  G (keydown random key w) = infinity.
Proof.
  intros Hr HR HG. unfold keydown.
  rewrite (bool_decide_eq_false_2 (key = "r"%string)) by done.
  rewrite (bool_decide_eq_false_2 (key = "R"%string)) by done.
  simpl. repeat case_if; simpl; by rewrite ?HG.
Qed.

Lemma handle_G_infinite e (w : World) :
  e ≠ KeyDown "r" → e ≠ KeyDown "R" → G w = infinity →
  G (handle random e w) = infinity.
Proof.
  intros Hr HR HG. destruct e as [iw ih|key|cx cy rl rt|t]; simpl.
  - done.
  - apply keydown_G_infinite; [by intros ->..|done].
  - by destruct (mousedown_settings random cx cy rl rt w) as (-> & _).
  - by destruct (loop_settings random t w) as (-> & _).
Qed.

Lemma run_G_infinite events (w : World) :
  Forall (λ e, e ≠ KeyDown "r" ∧ e ≠ KeyDown "R") events → G w = infinity →
  G (run random events w) = infinity.
Proof.
  intros Hev. revert w. induction Hev as [|e events [Hr HR] _ IH]; intros w HG; [done|].
  simpl. by apply IH, handle_G_infinite.
Qed.

(** [n] presses of ArrowUp multiply [G] by 1.1 [n] times, each
    product rounded. *)
Lemma presses_G n (w : World) :
  G (run random (replicate n (KeyDown "ArrowUp")) w) = Nat.iter n (λ g, g * 1.1) (G w).
Proof.
  revert w. induction n as [|n IH]; intros w; [done|].
  rewrite Nat.iter_succ_r. simpl. by rewrite IH.
Qed.

(** C40. On doubles, in every host and every window: 7400 presses of
    ArrowUp after the start of the script make [G] infinite, and
    whatever events follow, ArrowDown among them, leave it infinite,
    as long as none of them is the key that resets. *)
Theorem G_overflow_sticks (innerWidth innerHeight : float) (events : list Event) :
  Forall (λ e, e ≠ KeyDown "r" ∧ e ≠ KeyDown "R") events →
  G (run random (replicate (74 * 100) (KeyDown "ArrowUp") ++ events)
       (boot random innerWidth innerHeight)) = infinity.
Proof.
  intros Hev. unfold run at 1. rewrite foldl_app. apply run_G_infinite; [done|].
  fold (run random (replicate (74 * 100) (KeyDown "ArrowUp"))
          (boot random innerWidth innerHeight)).
  rewrite presses_G.
  destruct (reset_settings random (declared innerWidth innerHeight)) as (EG & _).
  unfold boot. rewrite EG. by vm_compute.
Qed.

End Edge.

(** ** Witnesses *)

Lemma gravForce_coincident_witness :
  is_zero (gravForce (newBody 300 200 1.5 10 0) (newBody 300 200 2.5 0 (-4)) 2000).1 = true ∧
  is_zero (gravForce (newBody 300 200 1.5 10 0) (newBody 300 200 2.5 0 (-4)) 2000).2 = true.
Proof.
  by apply (gravForce_coincident series
              (newBody 300 200 1.5 10 0) (newBody 300 200 2.5 0 (-4)) 2000).
Defined.

Lemma G_overflow_sticks_witness :
  Forall (λ e : Event, e ≠ KeyDown "r" ∧ e ≠ KeyDown "R")
    [KeyDown "ArrowDown"; Frame 1000; KeyDown "ArrowDown"; MouseDown 10 10 0 0] ∧
  G (run (λ _, 0.5)
       (replicate (74 * 100) (KeyDown "ArrowUp") ++
        [KeyDown "ArrowDown"; Frame 1000; KeyDown "ArrowDown"; MouseDown 10 10 0 0])
       (boot (λ _, 0.5) 800 600)) = infinity.
Proof.
  assert (Forall (λ e : Event, e ≠ KeyDown "r" ∧ e ≠ KeyDown "R")
            [KeyDown "ArrowDown"; Frame 1000; KeyDown "ArrowDown"; MouseDown 10 10 0 0]) as Hev
    by (repeat constructor; done).
  split; [done|]. by apply (G_overflow_sticks series (λ _, 0.5) 800 600).
Defined.
