(* ===== verification/Scenarios.v ===== *)
(** * Scenarios: the script run on doubles

    Closed worlds and collections evaluated at [FloatNum.F_num]: the
    concrete cases the specification names (the merge of two given
    bodies, three mutually overlapping bodies, a culled body, the
    two-body frame) and the cases in which the script behaves otherwise
    than the specification says.  The law-free theorems of the model are
    applied here at concrete inputs. *)

From Stdlib Require Import ZArith Floats.
From stdpp Require Import strings.
From S2P Require Import Prelude Num Config Body Force Collision Random World Cost.
From S2P Require Import Render Page Script.
From S2P Require Import Markup Style Layout FloatNum.

Local Open Scope float_scope.
#[local] Set Warnings "-inexact-float".

(** The oracle of the scenarios: [Math.random()] returns [0.5], always. *)
Definition half : nat → float := λ _, 0.5.

(** A body of the given mass at rest. *)
Definition still (px py m : float) : Body float := newBody px py m 0 0.

(** ** Merging *)

Definition slow_heavy : Body float := newBody 4 0 3 0 0.
Definition fast_light : Body float := newBody 0 0 1 10 0.

(** The specification's example: mass 1 at (0,0) with velocity (10,0)
    and mass 3 at (4,0) at rest merge into mass 4 at (3,0) with velocity
    (2.5,0). *)
Example merge_example : mergeBodies fast_light slow_heavy = newBody 3 0 4 2.5 0.
Proof. vm_compute. reflexivity. Qed.

(** Three bodies that overlap one another: the first merges with the
    second, the third survives and comes first in the output. *)
Example three_overlapping :
  let a := still 100 100 1 in
  let b := still 103 100 2 in
  let c := still 100 104 4 in
  overlap a b = true ∧ overlap a c = true ∧ overlap b c = true ∧
  checkCollisions [a; b; c] true = [c; mergeBodies a b].
Proof. vm_compute. repeat split. Qed.

(** Four bodies in two overlapping pairs that interleave: the merged
    bodies come in the order of the first member of each pair. *)
Example two_pairs :
  let a := still 100 100 1 in
  let b := still 300 100 2 in
  let c := still 104 100 3 in
  let d := still 300 106 4 in
  checkCollisions [a; b; c; d] true = [mergeBodies a c; mergeBodies b d].
Proof. vm_compute. reflexivity. Qed.

(** The collision tests of a pass: one for three bodies of which the
    first two overlap, three for the two interleaved pairs, six for
    four bodies apart, which is all the pairs there are. *)
Example collision_tests :
  collisionTests [still 100 100 1; still 103 100 2; still 100 104 4] true = 1%nat ∧
  collisionTests [still 100 100 1; still 300 100 2; still 104 100 3; still 300 106 4] true
    = 3%nat ∧
  collisionTests [still 0 0 1; still 100 0 1; still 200 0 1; still 300 0 1] true = 6%nat ∧
  gravCalls [still 0 0 1; still 100 0 1; still 200 0 1; still 300 0 1] = 6%nat.
Proof. vm_compute. repeat split. Qed.

(** ** Gravity *)

(** Two bodies at the same point: the force is zero, not [NaN]. *)
Example coincident_force_is_zero :
  gravForce (still 50 50 1) (still 50 50 2) 2000 = (0, 0).
Proof. vm_compute. reflexivity. Qed.

(** The two-body frame of the specification: masses 1 and 2, 100 apart,
    [dt = 0.01], [G = 2000].  The left body gains [0.004] to the right,
    the right body [0.002] to the left. *)
Example two_body_frame :
  let left := still 400 300 1 in
  let right := still 500 300 2 in
  (λ b, (vx b, vy b)) <$> motionPhase [left; right] 2000 0.01
  = [(0.004, 0); (-0.002, 0)].
Proof. vm_compute. reflexivity. Qed.

(** ** The law-free theorems at concrete inputs *)

Definition trio : list (Body float) :=
  [still 100 100 1; still 103 100 2; still 300 300 4; still 500 100 1].

Lemma reachable_wf_witness : world_wf (boot half 800 600).
Proof. apply (reachable_wf half), reachable_boot. Defined.

Lemma applyForces_zip_witness :
  applyForces [fast_light; slow_heavy] [(1, 2); (3, 4)] 0.5 =
    zip_with (λ b f, applyForce b f.1 f.2 0.5) [fast_light; slow_heavy] [(1, 2); (3, 4)].
Proof. by apply (applyForces_zip [fast_light; slow_heavy] [(1, 2); (3, 4)] 0.5). Defined.

Lemma checkCollisions_survivors_apart_witness :
  overlap (still 300 300 4) (still 500 100 1) = false.
Proof.
  apply (checkCollisions_survivors_apart trio 0 1); [lia|vm_compute; lia|done..].
Defined.

Lemma checkCollisions_no_overlap_witness :
  checkCollisions [still 100 100 1; still 300 300 4] true =
    [still 100 100 1; still 300 300 4].
Proof.
  apply (checkCollisions_no_overlap [still 100 100 1; still 300 300 4] true).
  intros [|[|i]] [|[|j]] b1 b2 Hij Hi Hj; simplify_eq/=; try lia. by vm_compute.
Defined.

Lemma keydown_toggle_twice_witness :
  keydown half "c" (keydown half "c" (boot half 800 600)) = boot half 800 600.
Proof.
  apply (keydown_toggle_twice half "c"). by left.
Defined.

(** ** Where the script and its specification part *)

(** A world of one body left of the viewport, moving right fast enough
    to be back on screen after one frame of 10 ms. *)
Definition returning : World :=
  {| G := 2000; COLLISION_ENABLED := true; SPAWN_ENABLED := false;
     RANDOM_VELOCITY_ENABLED := true; RANDOM_VELOCITY_STRENGTH := 3000;
     WIDTH := 800; HEIGHT := 600;
     bodies := [newBody (-10) 300 1 2000 0];
     spawnTimer := 0; lastTimestamp := 1000; randomCalls := 0 |}.

(** Culling looks at the positions after the motion of the frame: a
    body that is off screen when the frame starts is kept if the frame
    moves it back. *)
Example offscreen_body_returns :
  Forall (λ b, isOffScreen b (WIDTH returning) (HEIGHT returning) = true)
    (bodies returning) ∧
  bodies (loop half 1010 returning) = [newBody 10 300 1 2000 0].
Proof. vm_compute. split; [repeat constructor|reflexivity]. Qed.

(** A body that the frame leaves off screen is removed. *)
Example offscreen_body_culled :
  let w := set_bodies [newBody 900 300 1 0 0] 0 returning in
  bodies (loop half 1010 w) = [].
Proof. vm_compute. reflexivity. Qed.

(** On doubles, scaling [G] up by [1.1] and down by [1.1] does not
    restore it. *)
Example G_roundtrip_double :
  G (keydown half "ArrowDown" (keydown half "ArrowUp" returning))
  = 1999.9999999999998.
Proof. vm_compute. reflexivity. Qed.

(** After switching random velocity off, a reset seeds a body at rest
    and switches random velocity on again. *)
Lemma reset_seeds_before_restoring_witness :
  RANDOM_VELOCITY_ENABLED (reset half (keydown half "v" returning)) = true ∧
  Forall (λ b, vx b = int 0 ∧ vy b = int 0)
    (bodies (reset half (keydown half "v" returning))).
Proof. by apply (reset_seeds_before_restoring half (keydown half "v" returning)). Defined.

(** ** The spawn timer *)

(** With spawning on and random velocity off, a frame of 16 ms spawns
    one body and restarts the timer; the oracle places the body in the
    middle of the viewport and three random numbers are drawn. *)
Example spawn_frame :
  let w := set_SPAWN_ENABLED true
             (set_RANDOM_VELOCITY_ENABLED false (set_bodies [] 0 returning)) in
  let w' := loop half 1016 w in
  bodies w' = [still 400 300 1.5] ∧ spawnTimer w' = 0 ∧ randomCalls w' = 3%nat.
Proof. vm_compute. repeat split. Qed.

(** With random velocity on, five numbers are drawn, and the spawned
    body has already moved when the frame ends. *)
Example spawn_frame_moving :
  let w := set_SPAWN_ENABLED true (set_bodies [] 0 returning) in
  let w' := loop half 1016 w in
  randomCalls w' = 5%nat ∧
  Forall (λ b, (x b <? 400) = true ∧ (abs (vx b + 1500) <? 0x1p-30) = true) (bodies w').
Proof. vm_compute. repeat constructor. Qed.

(** A frame, however long, spawns one body: the timer is reset, not
    decremented. *)
Example long_frame_spawns_once :
  let w := set_SPAWN_ENABLED true
             (set_RANDOM_VELOCITY_ENABLED false (set_bodies [] 0 returning)) in
  bodies (loop half 61000 w) = [still 400 300 1.5].
Proof. vm_compute. reflexivity. Qed.

(** ** The order of the collection, on doubles *)

(** Over the reals the force on a body is the same wherever the other
    bodies stand in the collection.  On doubles the sum is rounded after
    every term, and the order shows in the last bit: the force on the
    first of four bodies, with the other three in two orders. *)
Example force_order_double :
  let a := still 100 100 1 in
  let b := still 130 110 2 in
  let c := still 90 170 3 in
  let d := still 190 210 1.5 in
  computeForces [a; b; c; d] 2000 !! 0%nat =
    Some (0x1.dc0a93af1e024p+1, 0x1.48ad7e67fc186p+1) ∧
  computeForces [a; d; c; b] 2000 !! 0%nat =
    Some (0x1.dc0a93af1e023p+1, 0x1.48ad7e67fc186p+1).
Proof. vm_compute. split; reflexivity. Qed.

(** ** The gravitational constant at the ends of the doubles *)

(** ArrowUp held down: after 7400 presses [G] is infinite
    ([FloatEdge.G_overflow_sticks] has it for every host and window).
    The overlay then reads Infinity, two bodies 1000 apart attract
    with [MAX_FORCE], and the key [r] brings [G] back to 2000. *)
Example G_overflow_reached :
  let w := Nat.iter (74 * 100) (keydown half "ArrowUp") (boot half 800 600) in
  G w = infinity ∧
  G (keydown half "ArrowDown" w) = infinity ∧
  f_toFixed0 (G w) = "Infinity"%string ∧
  gravForce (still 0 0 1) (still 1000 0 1) (G w) = (10000, 0) ∧
  G (keydown half "r" w) = 2000.
Proof. vm_compute. repeat split; reflexivity. Qed.

(** ArrowDown held down: [G] stops at five times the smallest positive
    double, where dividing by 1.1 rounds back to the same number; it
    does not reach zero. *)
Example G_underflow_sticks :
  let w := Nat.iter (79 * 100) (keydown half "ArrowDown") (boot half 800 600) in
  G w = 0x0.0000000000005p-1022 ∧ G (keydown half "ArrowDown" w) = G w ∧
  (0 <? G w) = true.
Proof. vm_compute. repeat split; reflexivity. Qed.

(** ** The canvas and the overlay *)

(** What [draw] paints for a body of mass 1.5 at (100, 100): a disc of
    radius 5 and the label 1, the mass rounded down. *)
Example draw_example :
  painted (draw (still 100 100 1.5) newCtx) =
    [PaintPath "rgb(150, 180, 255)" [mkArc 100 100 5 0 0x1.921fb54442d18p+2];
     PaintText "white" "16px Arial" "center" "middle" 1 100 100].
Proof. vm_compute. reflexivity. Qed.

(** A body drawn after another is not joined to it: the second disc is
    a path of one arc. *)
Example draw_twice :
  painted (draw (still 200 100 1) (draw (still 100 100 1) newCtx)) !! 2%nat =
    Some (PaintPath "rgb(150, 180, 255)" [mkArc 200 100 5 0 0x1.921fb54442d18p+2]).
Proof. vm_compute. reflexivity. Qed.

(** The page after its first frame in a window of 800 by 600: one body,
    the default settings. *)
Example overlay_first_frame :
  overlay (session half f_toFixed0 [AnimationFrame 16] (main half 800 600)) =
"Anzahl Körper: 1
Gravitationskonstante (G): 2000
Kollisionen: AN
Spawn: AN
Random Velocity: AN
Random Velocity Stärke: 3000

Tasten:
- Pfeil Hoch/Runter: G erhöhen/verringern
- C: Kollision ein/aus
- S: Spawn ein/aus
- V: Random Velocity ein/aus
- Pfeil Rechts/Links: Random Velocity Stärke ändern
- R: Reset
- Klick: Neuer Körper an Mausposition"%string.
Proof. vm_compute. reflexivity. Qed.

(** A session: three frames, collisions switched off after the first and
    G raised after the second.  The overlay shows three bodies; G is 2200
    and collisions are off; the
    canvas has been painted three times and shows the last frame: the
    background and a disc and a label for each of the three bodies; one
    animation callback is pending. *)
Example session_example :
  let p := session half f_toFixed0
             [AnimationFrame 16; KeyPress "c"; AnimationFrame 32;
              KeyPress "ArrowUp"; AnimationFrame 48] (main half 800 600) in
  readCount (overlay p) = Some 3%nat ∧
  G (world p) = 2200 ∧
  COLLISION_ENABLED (world p) = false ∧
  length (painted (ctx p)) = 15%nat ∧
  lastFrame (painted (ctx p)) = picture (world p) ∧
  length (lastFrame (painted (ctx p))) = 7%nat ∧
  rafQueue p = 1%nat.
Proof. vm_compute. repeat split; reflexivity. Qed.

(** A window resized between two frames: the canvas is cleared and
    takes the new size, and the next frame paints its background over
    all of it. *)
Example resize_example :
  let p := session half f_toFixed0
             [AnimationFrame 16; WindowResize 1024 768] (main half 800 600) in
  painted (ctx p) = [] ∧ (canvasWidth p, canvasHeight p) = (1024, 768) ∧
  head (painted (ctx (deliver half f_toFixed0 (AnimationFrame 32) p))) =
    Some (PaintRect "rgb(10, 10, 30)" 0 0 1024 768).
Proof. vm_compute. repeat split; reflexivity. Qed.

(** What the page shows along a session: a frame, a click, spawning
    switched off, two more frames.  Three screens, one per frame: the
    first with the one body of the start, the others with the body the
    click has added; every screen has the background, and a disc and a
    label for each body. *)
Example screens_example :
  (λ o, (length o.1, readCount o.2)) <$>
    screens half f_toFixed0
      [AnimationFrame 16; MousePress 100 100 0 0; KeyPress "s";
       AnimationFrame 32; AnimationFrame 48] (boot half 800 600)
  = [(3, Some 1); (5, Some 2); (5, Some 2)]%nat.
Proof. vm_compute. reflexivity. Qed.

(** ** The pointer *)

(** The boxes as a host with a window of 800 by 600 measures them: the
    canvas as large as the window, the overlay 300 by 280. *)
Definition measured (n : Node) : Z * Z :=
  if decide (n = canvasElement) then (800, 600)%Z else (300, 280)%Z.

(** What the declarations of the style sheet are for.  On the page a
    press at (100, 200), where the overlay text is, reaches the canvas,
    and one outside the canvas reaches nothing.  Without
    [pointer-events: none] the overlay takes the press.  Without the
    rule for the body the canvas lies eight pixels in: the rectangle
    the listener asks for says so, and a press in the margin reaches
    nothing. *)
Example click_examples :
  click styleSheet measured document canvasHandle 100 200 =
    Some (MousePress 100 200 0 0) ∧
  click (N:=float) styleSheet measured document canvasHandle 800 200 = None ∧
  click (N:=float)
    [body_rule; canvas_rule;
     mkRule (IdSelector "overlay")
       [("position", "absolute"); ("left", "10px"); ("top", "10px")]%string]
    measured document canvasHandle 100 200 = None ∧
  click [canvas_rule; overlay_rule] measured document canvasHandle 100 200 =
    Some (MousePress 100 200 8 8) ∧
  click (N:=float) [canvas_rule; overlay_rule] measured document canvasHandle 4 4 = None.
Proof. vm_compute. repeat split; reflexivity. Qed.

(** A press delivered to the page: the new body is where the pointer
    is, also when the canvas is not at the corner of the window. *)
Example press_example :
  let spawn sheet :=
    i ← click sheet measured document canvasHandle 108 208;
    b ← last (bodies (world (deliver half f_toFixed0 i (main half 800 600))));
    Some (x b, y b) in
  spawn styleSheet = Some (108, 208) ∧
  spawn [canvas_rule; overlay_rule] = Some (100, 200).
Proof. vm_compute. repeat split; reflexivity. Qed.

(** C23. At binary64 the overlay tells the truth of every world: read back,
    its text gives the number of bodies and the three switches,
    whatever the value of [G], the infinities and [NaN] included. *)
Theorem overlay_reads_back (w : World) :
  readSettings (overlayText f_toFixed0 w) =
    Some (length (bodies w), COLLISION_ENABLED w, SPAWN_ENABLED w,
          RANDOM_VELOCITY_ENABLED w).
Proof. apply readSettings_overlayText, f_toFixed0_oneLine. Qed.

(** ** Witnesses for the page *)

Lemma page_reachable_invariant_witness :
  listeners (deliver half f_toFixed0 (AnimationFrame 16) (main half 800 600)) =
    [OnResize; OnKeydown; OnMousedown] ∧
  rafQueue (deliver half f_toFixed0 (AnimationFrame 16) (main half 800 600)) = 1%nat ∧
  canvasWidth (deliver half f_toFixed0 (AnimationFrame 16) (main half 800 600)) =
    WIDTH (world (deliver half f_toFixed0 (AnimationFrame 16) (main half 800 600))) ∧
  canvasHeight (deliver half f_toFixed0 (AnimationFrame 16) (main half 800 600)) =
    HEIGHT (world (deliver half f_toFixed0 (AnimationFrame 16) (main half 800 600))).
Proof.
  apply (page_reachable_invariant half f_toFixed0), page_deliver, page_main.
Defined.

Lemma page_refines_world_witness :
  reachable half (world (main half 800 600)) ∧
  ∀ i, world (deliver half f_toFixed0 i (main half 800 600)) =
       handle half (event_of i) (world (main half 800 600)).
Proof. apply (page_refines_world half f_toFixed0), page_main. Defined.

Lemma animation_frame_runs_once_witness :
  world (deliver half f_toFixed0 (AnimationFrame 16) (main half 800 600)) =
    loop half 16 (world (main half 800 600)) ∧
  painted (ctx (deliver half f_toFixed0 (AnimationFrame 16) (main half 800 600))) =
    painted (ctx (main half 800 600)) ++
    picture (world (deliver half f_toFixed0 (AnimationFrame 16) (main half 800 600))) ∧
  overlay (deliver half f_toFixed0 (AnimationFrame 16) (main half 800 600)) =
    overlayText f_toFixed0
      (world (deliver half f_toFixed0 (AnimationFrame 16) (main half 800 600))) ∧
  rafQueue (deliver half f_toFixed0 (AnimationFrame 16) (main half 800 600)) = 1%nat.
Proof. apply (animation_frame_runs_once half f_toFixed0), page_main. Defined.
